(* ===== verification/_CoqProject ===== *)
-Q . S2P
Prelude.v
Proc.v
GoLib.v
Spf.v
SpfSpec.v
Dmarc.v
Cache.v
Sql.v
Schema.v
World.v
Metrics.v
Ratelimit.v
StoreUsers.v
StoreMail.v
Migrations.v
Ownership.v
StoreQueue.v
Search.v
Auth.v
Sessions.v
Blob.v
S3.v
Worker.v
QueueLiveness.v
WorkerPool.v
Report.v
Mime.v
Smtp.v
SmtpDelivery.v
MailFate.v
Greylist.v
Notifier.v
Imap.v
ImapSpec.v
ImapIsolation.v
Api.v
ApiMessage.v
ApiSpec.v
Pop3.v
EndToEnd.v
Config.v
Startup.v
Keys.v
StartupSpec.v
Backup.v
BackupSpec.v
HealthCheck.v
Cli.v
System.v
