(* ===== verification/Prelude.v ===== *)
(** * marco: a mail server, verified against its Go sources

    This library models the packages of src/pkg that hold and change the state
    of the server, and proves what makes them correct.  Every definition is a
    translation of the Go function of the same name (a Go name that collides
    with Rocq's gets a suffix: [Set_], [Fail_]); Go's control flow, its early
    returns, the order of its calls and its error values are kept.

    ** The parts and how they interact

    - Prelude (this file): Go errors with [errors.Is], the state monad with its
      notations [let!] and [do!], the predicate [pres] ("this operation preserves
      that invariant") with its rules, the tactic [pres_walk] and the hint
      database [pres], which lets the preservation proofs of whole handlers run
      on the lemmas of the operations they call.
    - Proc: programs that others may interrupt, as trees of atomic steps and of
      waits that may never end ([returning]: [Returns] or [Hangs]).  [exec] runs
      one alone; WorkerPool and Sessions interleave the steps of many.
    - GoLib: what the sources use of Go's standard library (strings, strconv,
      net.ParseIP, net/mail headers), as executable functions on Rocq strings.
    - Spf and SpfSpec (spf/checker.go), Dmarc (dmarc/policy.go, the encoder of
      dmarc/report.go), Cache (cache/cache.go), Ratelimit (ratelimit/ratelimit.go),
      Mime (storage/mime.go), Metrics (metrics/metrics.go): components without
      access to the database.  DNS answers are parameters ([Resolver], [Lookup]);
      the cache takes the iteration order of Go maps as the class [MapRange].
      SpfSpec is the specification of SPF verdicts on syntax trees.
    - Sql: tables as lists of rows with an AUTOINCREMENT sequence, select,
      insert, update, delete, ORDER BY, uniqueness and references.
      Schema (storage/schema.go, storage/types.go, storage/errors.go): the rows,
      the database [DB], the cascading deletes and the invariant [db_wf] that the
      constraints of the schema state.
    - World: the state all packages share - database, the three caches of the
      process, clock, files, metrics - and a schedule of failures: each
      statement, query, BEGIN, COMMIT and file operation consumes one element of
      [w_faults] and fails when it is [true].  [withTx] (storage/messages.go)
      restores the database when its body or the commit fails.  The invariant
      [wf] of the process is [db_wf], and that a cached mailbox belongs to no user
      but the one it was cached for.
    - Migrations (storage/db.go, storage/schema.go): Open and Migrate on the world
      together with the catalogue of the SQLite file, statement by statement.
    - StoreUsers (users, domains, aliases, contacts, greylist), StoreMail
      (mailboxes, messages), StoreQueue (queue, dmarc), Search (search): the
      functions of src/pkg/storage, one definition for each function and one for
      each SQL statement that changes rows ([sql_...]).  Ownership: which rows
      belong to which user, shared by the isolation theorems.
    - Auth (auth/{password,auth,session,sasl}.go): Argon2id is the parameter
      [IDKey], random bytes are an argument.  Sessions (auth/session.go): validation
      and revocation of tokens as programs of single steps around the cache they
      share, any number at a time, while the rest of the process changes the
      database; run alone they are the operations of Auth.
    - Blob (blobstore/{interface,fs,sqlite}.go), S3 (blobstore/s3.go): the interface
      [Store] is a class, [StoreSpec] is its contract (frame, preservation of
      [db_wf], and the laws of Put and Get on an abstract view), and the three
      stores are instances.  All later files are proved against the contract, so
      they hold for each store.  What the two local stores are as a whole, with
      and without reference counts, is [Blob.blob_stores_refine].
    - Worker (queue/{manager,worker,ndr}.go, dkim/signer.go) is one delivery round
      from claiming an item to settling it, as a program: each answer of a mail
      server ([answer], [SendMail] of the class [Net]) is a wait, because the code sets
      no deadline.  QueueLiveness is the loop of rounds, which may stop at such a
      wait; MailFate follows one item through it, its class [KeepingStore] says which
      store keeps the content of queued mail; WorkerPool is the goroutines of a
      manager from Start to Stop, their steps interleaved.
      Report (dmarc/report.go) builds, stores and queues the aggregate reports.
    - Smtp, SmtpDelivery, Greylist (smtp/{backend,session}.go): the callbacks of
      an SMTP session, and what they deliver and refuse. Notifier, Imap, ImapSpec,
      ImapIsolation (imap/{notifier,mailbox,user,backend}.go): IDLE as a
      transition system, the mailbox operations, and sequences of them by one
      client. Api, ApiMessage, ApiSpec (src/pkg/api): routing, middleware, every
      handler, and the composed message. Pop3 (pop3/session.go): a connection from
      greeting to QUIT. EndToEnd: the three mail protocols composed.
    - Config (config/config.go), Startup and StartupSpec (marco/marco.go, src/pkg/tls,
      util/log.go, the constructors in src/pkg/{smtp,imap,pop3,api}/server.go): from
      the configuration file to the running server, and the signal loop.  Backup,
      BackupSpec (marco/backup.go), HealthCheck (marco/audit.go) and Cli
      (src/cmd/marco/main.go): the other commands; for a backup the database is two
      regular files, the main file and the write-ahead log, and [DBFile] what
      SQLite finds in them.  Keys: key material, DKIM
      verification, correlation identifiers.
    - System: every entry point above that changes the state of the running
      server as one step relation, with restarts; its reachable states, and the
      theorem that all of them are well-formed.

    ** What the theorems show

    Invariants: [System.reachable_wf], built from the preservation lemma of each
    operation; a started server is ready; IDLE subscriptions; the active rows of
    the queue are those in the hands of the workers. Functional behaviour of the
    storage operations on all branches: UID assignment, flag masks, paging,
    moving, expunging, claiming, retrying, DMARC aggregation; delivery of accepted
    mail, and that its reader gets it byte for byte, on the path without failures; IMAP STORE, APPEND and
    STATUS; aggregate reports. Safety: no open relay, exclusive claims, POP3, IMAP
    and API isolation and gates, session acceptance, FTS5 queries without
    operators, message headers without injection. Types: the migrations end in the
    schema the code reads. Liveness: unless a server that stops answering blocks
    the worker for ever, the queue drains, and every letter in it is accepted by
    somebody or returned to its sender. Equivalences and
    refinements: [cidrMatch] against leading bits, the SPF checker against its
    specification ([SpfSpec.check_host]), the cache against a map with expiry, the
    three blob stores against maps, policy evaluation against its specification, paging
    against the full listing, IMAP expunge against the single statement. Round
    trips: base64, password hashes, dot stuffing, flags, backup and restore of a
    checkpointed database. Bounds: rate limiter, retries. Termination: when SPF
    evaluation returns and when it panics, the MIME walk, when [Stop] returns. Some theorems state behaviour that is
    surely not intended (shadowed SPF mechanisms, reused UIDs, stale cached
    credentials, lost shared blobs, STARTTLS delivery, an unstuffed first dot,
    migrations that cannot be resumed, a rotated key the server refuses, promotion
    by any session, reports lost but marked as sent, blobs the audit cannot see,
    limits a reload cannot raise, deliveries cut off at the end of the process,
    conversations without a deadline, tokens of deleted users, backups without the
    write-ahead log);
    their comments say so.

    ** Conventions, bounds and fuel

    Go's integers are [Z]; widths are written out where the code depends on them
    ([uint32] for UIDs, [strconv.ParseUint] with its bit size, masks of 8 bits in
    [cidrMatch]).  Strings are Rocq strings, one character per byte.  Times are
    nanoseconds since the epoch.  [Spf.evaluate] takes fuel: twelve levels are
    enough because the code cuts the recursion at depth ten, which
    [Spf.evaluate_terminates] proves.  A call of Sessions takes at most [L]
    nanoseconds, any bound, from its beginning to its last step; the ticks a
    worker of a closed manager still takes have any bound in [stop_returns].  [Mime.extractParts] takes the length of the
    message as fuel, since a part is shorter than the message it comes from.
    [strconv.utoa] takes the twenty digits of
    a 64-bit integer as fuel.

    ** What is not modelled

    TLS handshakes; the scheduling of goroutines, beyond the interleavings of
    [WorkerPool.pool_step], [Sessions.sess_step], [Notifier.idle_step] and the histories
    of Cache and StoreQueue: elsewhere a call is one step of [System]; the time that
    passes during a call, outside Sessions; the
    go-smtp, go-imap and net/http protocol engines, whose callbacks and handlers
    are modelled; log output; capability records. The FTS5 MATCH operator,
    Prometheus, Argon2id, MD5, SHA-256, RSA, X.509 and PEM, DKIM, the TOML, MIME,
    tar and gzip codecs, the database file format and when SQLite checkpoints its
    write-ahead log, the S3 client, DNS and remote
    SMTP servers are parameters of the definitions that use them. Messages of the
    Go and SQLite libraries appear as uninterpreted texts; only texts the
    repository writes itself are exact. *)
From Stdlib Require Export Ascii String.
From stdpp Require Export base list gmap strings sorting.
From Stdlib Require Export ZArith Lia.


#[export] Set Warnings "-clear-no-such-hyp,-register-all".

#[global] Open Scope string_scope.
#[global] Open Scope Z_scope.
#[global] Open Scope list_scope.

(** * Go errors

    [errors.New] values compared by identity are [Sentinel]s; an error raised
    by the SQLite engine carries the extended result code that the driver's
    [Code()] returns together with its text; [fmt.Errorf] with one [%w] verb
    keeps the wrapped error reachable for [errors.Is] and [errors.As]. *)
Inductive sentinel :=
  | ErrNotFound | ErrAlreadyExists | ErrMailboxFull | ErrMaxRetries
  | ErrNoRows
  | ErrInvalidCredentials | ErrUserInactive
  | ErrNotExist.

#[export] Instance sentinel_eq_dec : EqDecision sentinel.
Proof. solve_decision. Defined.

Inductive error :=
  | Sentinel (s : sentinel)
  | EngineError (code : Z) (msg : string)
  | ErrorNew (msg : string)
  | Errorf (pre : string) (cause : error) (post : string).

Definition sentinel_text (s : sentinel) : string :=
  match s with
  | ErrNotFound => "storage: not found"
  | ErrAlreadyExists => "storage: already exists"
  | ErrMailboxFull => "storage: mailbox full"
  | ErrMaxRetries => "storage: max retries exceeded"
  | ErrNoRows => "sql: no rows in result set"
  | ErrInvalidCredentials => "auth: invalid credentials"
  | ErrUserInactive => "auth: user is inactive"
  | ErrNotExist => "file does not exist"
  end.

(** The text [err.Error()] returns. *)
Fixpoint error_text (e : error) : string :=
  match e with
  | Sentinel s => sentinel_text s
  | EngineError _ m => m
  | ErrorNew m => m
  | Errorf pre c post => pre +:+ error_text c +:+ post
  end.

(** [errors.Is err s] for a sentinel [s]. *)
Fixpoint errors_is (e : error) (s : sentinel) : bool :=
  match e with
  | Sentinel s' => bool_decide (s' = s)
  | Errorf _ c _ => errors_is c s
  | _ => false
  end.

(** The result of a fallible Go call: [(x, nil)] or [(zero, err)]. *)
Inductive res (A : Type) := Ok (a : A) | Err (e : error).
Arguments Ok {A} a.
Arguments Err {A} e.

Definition res_fmap {A B} (f : A → B) (r : res A) : res B :=
  match r with Ok a => Ok (f a) | Err e => Err e end.

Definition is_ok {A} (r : res A) : bool :=
  match r with Ok _ => true | Err _ => false end.

(** * Explicit state passing *)
Definition state (S A : Type) : Type := S → A * S.

Section state_monad.
Context {S : Type}.

Definition sret {A} (a : A) : state S A := λ s, (a, s).
Definition sbind {A B} (m : state S A) (k : A → state S B) : state S B :=
  λ s, let '(a, s') := m s in k a s'.
Definition sget : state S S := λ s, (s, s).
Definition smodify (f : S → S) : state S unit := λ s, (tt, f s).

(** A Go loop [for _, x := range xs { body }] whose body may [return]. *)
Fixpoint sfor {A R} (xs : list A) (body : A → state S (option R)) : state S (option R) :=
  match xs with
  | [] => sret None
  | x :: xs => sbind (body x) (λ r,
      match r with Some v => sret (Some v) | None => sfor xs body end)
  end.

(** [pres I m]: running [m] from a state that satisfies [I] ends in one. *)
Definition pres (I : S → Prop) {A} (m : state S A) : Prop :=
  ∀ s, I s → I (m s).2.

Lemma pres_ret I {A} (a : A) : pres I (sret a).
Proof. by intros s Hs. Qed.

Lemma pres_bind I {A B} (m : state S A) (k : A → state S B) :
  pres I m → (∀ a, pres I (k a)) → pres I (sbind m k).
Proof.
  intros Hm Hk s Hs. unfold sbind. specialize (Hm s Hs).
  destruct (m s) as [a s'] eqn:E. by apply Hk.
Qed.

Lemma pres_get I : pres I sget.
Proof. by intros s Hs. Qed.

Lemma pres_modify I f : (∀ s, I s → I (f s)) → pres I (smodify f).
Proof. intros Hf s Hs. by apply Hf. Qed.

Lemma pres_for I {A R} (xs : list A) (body : A → state S (option R)) :
  (∀ x, x ∈ xs → pres I (body x)) → pres I (sfor xs body).
Proof.
  induction xs as [|x xs IH]; intros Hb; simpl.
  - apply pres_ret.
  - apply pres_bind; [apply Hb; left|].
    intros [v|]; [apply pres_ret|]. apply IH. intros y Hy. apply Hb. by right.
Qed.

Lemma pres_match_res I {A B} (r : res A) (f : A → state S B) (g : error → state S B) :
  (∀ a, pres I (f a)) → (∀ e, pres I (g e)) →
  pres I (match r with Ok a => f a | Err e => g e end).
Proof. destruct r; auto. Qed.

Lemma pres_match_option I {A B} (r : option A) (f : A → state S B) (g : state S B) :
  (∀ a, pres I (f a)) → pres I g →
  pres I (match r with Some a => f a | None => g end).
Proof. destruct r; auto. Qed.

Lemma pres_if I {A} (b : bool) (m1 m2 : state S A) :
  pres I m1 → pres I m2 → pres I (if b then m1 else m2).
Proof. destruct b; auto. Qed.
End state_monad.

Declare Scope go_scope.
Delimit Scope go_scope with go.
Notation "'let!' x ':=' m 'in' k" := (sbind m (λ x, k))
  (at level 10, x name, m at level 100, k at level 200) : go_scope.
Notation "'do!' m 'in' k" := (sbind m (λ _, k))
  (at level 10, m at level 100, k at level 200) : go_scope.
#[global] Open Scope go_scope.

(** * Triples

    [tri P m Q]: from a state that satisfies [P], [m] ends in a result and a state
    that satisfy [Q]. *)
Definition tri {St A} (P : St → Prop) (m : state St A) (Q : A → St → Prop) : Prop :=
  ∀ s, P s → Q (m s).1 (m s).2.

Lemma tri_ret {St A} (P : St → Prop) (a : A) (Q : A → St → Prop) : (∀ s, P s → Q a s) → tri P (sret a) Q.
Proof. intros H s Hs. by apply H. Qed.

Lemma tri_bind {St A B} (P : St → Prop) (R : A → St → Prop) (Q : B → St → Prop) (m : state St A) (k : A → state St B) :
  tri P m R → (∀ a, tri (R a) (k a) Q) → tri P (sbind m k) Q.
Proof.
  intros Hm Hk s Hs. unfold sbind. specialize (Hm s Hs). destruct (m s) as [a s']. by apply Hk.
Qed.

Lemma tri_pre {St A} (P P' : St → Prop) (Q : A → St → Prop) (m : state St A) :
  (∀ s, P s → P' s) → tri P' m Q → tri P m Q.
Proof. intros H Hm s Hs. by apply Hm, H. Qed.

Lemma tri_pres {St A} (I : St → Prop) (m : state St A) : pres I m → tri I m (λ _, I).
Proof. intros H s Hs. by apply H. Qed.

Lemma pres_tri {St A} (I : St → Prop) (m : state St A) : tri I m (λ _, I) → pres I m.
Proof. intros H s Hs. by apply H. Qed.

Create HintDb pres.
#[export] Hint Resolve pres_ret pres_get : pres.

(** Walk through the monadic structure of an operation; the leaves are left to
    the [pres] hint database. *)
Ltac pres_step :=
  lazymatch goal with
  | |- pres _ (sbind _ _) => apply pres_bind; [|intros]
  | |- pres _ (sret _) => apply pres_ret
  | |- pres _ (sfor _ _) => apply pres_for; intros
  | |- pres _ (match ?r with Ok _ => _ | Err _ => _ end) => apply pres_match_res; intros
  | |- pres _ (match ?r with Some _ => _ | None => _ end) => apply pres_match_option; intros
  | |- pres _ (match ?r with _ => _ end) => first [ apply pres_if | destruct r ]
  | |- pres _ _ => progress cbv beta zeta
  end.
Ltac pres_walk := repeat first [ solve [eauto with pres nocore] | pres_step ].

(** Case analysis on the innermost [match] of the goal or of a hypothesis. *)
Ltac split_match :=
  match goal with
  | |- context [match ?x with _ => _ end] =>
      lazymatch x with context [match _ with _ => _ end] => fail | _ => destruct x eqn:? end
  end.
Ltac split_match_in H :=
  match type of H with
  | context [match ?x with _ => _ end] =>
      lazymatch x with context [match _ with _ => _ end] => fail | _ => destruct x eqn:? end
  end.

(** Linear arithmetic with division and remainder by constants. *)
Ltac dlia := Z.to_euclidean_division_equations; lia.

(** * Lists *)

(** Induction that consumes three elements at a time. *)
Lemma list_ind3 {A} (P : list A → Prop) :
  P [] → (∀ a, P [a]) → (∀ a b, P [a; b]) →
  (∀ a b c l, P l → P (a :: b :: c :: l)) → ∀ l, P l.
Proof.
  intros H0 H1 H2 H3. fix IH 1. intros [|a [|b [|c l]]]; [exact H0|exact (H1 a)|exact (H2 a b)|].
  apply H3, IH.
Qed.

Lemma filter_ext_in {A} (P Q : A → Prop) `{∀ x, Decision (P x)} `{∀ x, Decision (Q x)} (l : list A) :
  (∀ x, x ∈ l → P x ↔ Q x) → filter P l = filter Q l.
Proof.
  induction l as [|x l IH]; intros HPQ; [done|]. rewrite !filter_cons, IH by (intros y Hy; apply HPQ; by right).
  specialize (HPQ x ltac:(left)). repeat case_decide; tauto.
Qed.

Lemma filter_all_in {A} (P : A → Prop) `{∀ x, Decision (P x)} (l : list A) : (∀ x, x ∈ l → P x) → filter P l = l.
Proof.
  induction l as [|x l IH]; intros HP; [done|].
  rewrite filter_cons_True by (apply HP; left). by rewrite IH by (intros y Hy; apply HP; by right).
Qed.

Lemma filter_none_in {A} (P : A → Prop) `{∀ x, Decision (P x)} (l : list A) : (∀ x, x ∈ l → ¬ P x) → filter P l = [].
Proof.
  induction l as [|x l IH]; intros HP; [done|].
  rewrite filter_cons_False by (apply HP; left). by rewrite IH by (intros y Hy; apply HP; by right).
Qed.

Lemma find_none_elem {A} (f : A → bool) l x : List.find f l = None → x ∈ l → f x = false.
Proof. intros Hf Hx. apply (List.find_none f l Hf x). by apply list_elem_of_In. Qed.
