(* ===== verification/Proc.v ===== *)
(** Code that other goroutines may interrupt: a program is the tree of its steps,
    each of them one atomic operation on the shared state, or a wait for somebody
    who may never answer.  [exec] runs it alone; the transition systems of
    WorkerPool and Sessions interleave the steps of many. *)
From S2P Require Import Prelude.

(** What waiting comes to. *)
Inductive returning (A : Type) := Returns (a : A) | Hangs.
Arguments Returns {A} a.
Arguments Hangs {A}.

Definition rmap {A B} (f : A → B) (o : returning A) : returning B :=
  match o with Returns a => Returns (f a) | Hangs => Hangs end.

(** An atomic step may carry a mark, for the step of a program that matters most. *)
Inductive proc (S A : Type) : Type :=
  | Done (a : A)
  | Act (mark : bool) {X : Type} (m : state S X) (k : X → proc S A)
  | Wait {X : Type} (o : returning X) (k : X → proc S A).
Arguments Done {S A} a.
Arguments Act {S A} mark {X} m k.
Arguments Wait {S A X} o k.

Section proc.
Context {S : Type}.

Fixpoint pbind {A B} (p : proc S A) (k : A → proc S B) : proc S B :=
  match p with
  | Done a => k a
  | Act b m f => Act b m (λ x, pbind (f x) k)
  | Wait o f => Wait o (λ x, pbind (f x) k)
  end.

Definition act {A} (m : state S A) : proc S A := Act false m Done.
Definition marked {A} (m : state S A) : proc S A := Act true m Done.
Definition await {A} (o : returning A) : proc S A := Wait o Done.

(** All steps in a row, up to the end or to a wait that never ends. *)
Fixpoint exec {A} (p : proc S A) : state S (returning A) :=
  match p with
  | Done a => sret (Returns a)
  | Act _ m k => let! x := m in exec (k x)
  | Wait Hangs _ => sret Hangs
  | Wait (Returns x) k => exec (k x)
  end.

(** Running [k] after a program that returned. *)
Definition after {A B} (k : A → state S (returning B)) (o : returning A) : state S (returning B) :=
  match o with Returns a => k a | Hangs => sret Hangs end.

Lemma exec_bind {A B} (p : proc S A) (k : A → proc S B) w :
  exec (pbind p k) w = sbind (exec p) (after (λ a, exec (k a))) w.
Proof.
  revert w. induction p as [a|b X m f IH|X [x|] f IH]; intros w; [done| |apply IH|done].
  cbn [pbind exec]. unfold sbind. destruct (m w) as [x w1]. apply IH.
Qed.

Lemma exec_act {A B} (m : state S A) (k : A → proc S B) w :
  exec (pbind (act m) k) w = sbind m (λ a, exec (k a)) w.
Proof. done. Qed.

(** A program that waits for nobody who is silent. *)
Inductive prompt {A} : proc S A → Prop :=
  | prompt_done a : prompt (Done a)
  | prompt_act b {X} (m : state S X) k : (∀ x, prompt (k x)) → prompt (Act b m k)
  | prompt_wait {X} (x : X) k : prompt (k x) → prompt (Wait (Returns x) k).

Lemma prompt_bind {A B} (p : proc S A) (k : A → proc S B) : prompt p → (∀ a, prompt (k a)) → prompt (pbind p k).
Proof. induction 1; intros Hk; cbn [pbind]; [done|constructor; auto..]. Qed.

Lemma prompt_returns {A} (p : proc S A) w : prompt p → ∃ a, (exec p w).1 = Returns a.
Proof.
  intros Hp. revert w. induction Hp as [a|b X m k _ IH|X x k _ IH]; intros w; [by exists a| |apply IH].
  cbn [exec]. unfold sbind. destruct (m w) as [x w1]. apply IH.
Qed.

(** Invariants of single steps are invariants of programs. *)
Lemma pres_exec_done I {A} (a : A) : pres I (exec (Done a)).
Proof. apply pres_ret. Qed.
Lemma pres_exec_act I b {A} (m : state S A) : pres I m → pres I (exec (Act b m Done)).
Proof. intros Hm. cbn [exec]. apply pres_bind; [done|]. intros a. apply pres_ret. Qed.
Lemma pres_exec_wait I {A} (o : returning A) : pres I (exec (Wait o Done)).
Proof. destruct o; apply pres_ret. Qed.
Lemma pres_exec_bind I {A B} (p : proc S A) (k : A → proc S B) :
  pres I (exec p) → (∀ a, pres I (exec (k a))) → pres I (exec (pbind p k)).
Proof.
  intros Hp Hk w Hw. rewrite exec_bind. unfold sbind. specialize (Hp w Hw). destruct (exec p w) as [[a|] w1]; [|exact Hp].
  by apply Hk.
Qed.
End proc.

Notation "'let*' x ':=' p 'in' k" := (pbind p (λ x, k))
  (at level 10, x name, p at level 100, k at level 200) : go_scope.
Notation "'do*' p 'in' k" := (pbind p (λ _, k))
  (at level 10, p at level 100, k at level 200) : go_scope.

(** Walking through a program like [pres_walk] through an operation. *)
Ltac proc_step :=
  lazymatch goal with
  | |- pres _ (exec (pbind _ _)) => apply pres_exec_bind; [|intros]
  | |- pres _ (exec (act _)) => apply pres_exec_act
  | |- pres _ (exec (marked _)) => apply pres_exec_act
  | |- pres _ (exec (await _)) => apply pres_exec_wait
  | |- pres _ (exec (Done _)) => apply pres_exec_done
  | |- pres _ (exec (match ?x with _ => _ end)) => destruct x
  | |- pres _ (exec _) => progress cbv beta zeta
  end.
Ltac proc_walk := repeat first [ solve [eauto with pres nocore] | proc_step | pres_step ].

Create HintDb prompt.
Ltac prompt_walk :=
  repeat first [ assumption | solve [eauto with prompt nocore] |
    lazymatch goal with
    | |- prompt (pbind _ _) => apply prompt_bind; [|intros]
    | |- prompt (act _) => apply prompt_act; intros
    | |- prompt (marked _) => apply prompt_act; intros
    | |- prompt (Done _) => apply prompt_done
    | |- prompt (match ?x with _ => _ end) => destruct x eqn:?
    end ].
