(* ===== verification/GoLib.v ===== *)
(** The part of Go's standard library the program computes with: [strings],
    [strconv], decimal formatting and [net.IP].  A Go [string] (and a [[]byte]
    that is only read) is a [string] of 8-bit characters; slices that the
    program indexes numerically ([net.IP]) are lists of byte values in [Z].
    Case mapping and white space are those of ASCII; bytes above 0x7f are
    neither letters nor spaces. *)
From S2P Require Import Prelude.

(** Byte value of a character and back. *)
Definition ord (c : ascii) : Z := Z.of_N (N_of_ascii c).
Definition chr (z : Z) : ascii := ascii_of_N (Z.to_N z).

(** A value a Go [byte] can hold. *)
Definition is_byte (b : Z) : Prop := 0 ≤ b < 256.

(** Go's [len], in machine integers. *)
Definition slen (s : string) : Z := Z.of_nat (String.length s).

(** [s[n:]] for [n <= len s]. *)
Fixpoint sdrop (n : nat) (s : string) : string :=
  match n, s with
  | O, _ => s
  | S n, String _ s => sdrop n s
  | S _, EmptyString => EmptyString
  end.
(** [s[:n]] for [n <= len s]. *)
Fixpoint stake (n : nat) (s : string) : string :=
  match n, s with
  | S n, String c s => String c (stake n s)
  | _, _ => EmptyString
  end.

Module strings.
Fixpoint HasPrefix (s prefix : string) {struct prefix} : bool :=
  match prefix, s with
  | EmptyString, _ => true
  | String p prefix, String c s => if Ascii.eqb p c then HasPrefix s prefix else false
  | String _ _, EmptyString => false
  end.

(** Offset of the first occurrence, as [strings.Index]; [None] for [-1]. *)
Fixpoint Index (s sep : string) : option nat :=
  if HasPrefix s sep then Some O
  else match s with
       | EmptyString => None
       | String _ s => S <$> Index s sep
       end.

Definition Contains (s sub : string) : bool :=
  match Index s sub with Some _ => true | None => false end.

Definition HasSuffix (s suffix : string) : bool :=
  let n := String.length s in
  let k := String.length suffix in
  if Nat.leb k n then String.eqb (sdrop (n - k) s) suffix else false.

Definition IndexByte (s : string) (c : ascii) : option nat := Index s (String c EmptyString).

(** [strings.SplitN(s, sep, 2)] for a one-character separator. *)
Definition SplitN2 (s : string) (sep : ascii) : list string :=
  match IndexByte s sep with
  | Some i => [stake i s; sdrop (S i) s]
  | None => [s]
  end.

(** [strings.Split(s, sep)] for a one-character separator. *)
Fixpoint Split (s : string) (sep : ascii) : list string :=
  match s with
  | EmptyString => [EmptyString]
  | String c s' =>
      if Ascii.eqb c sep then EmptyString :: Split s' sep
      else match Split s' sep with
           | [] => [String c EmptyString]
           | t :: ts => String c t :: ts
           end
  end.

Definition is_space (c : ascii) : bool :=
  bool_decide (ord c = 32 ∨ (9 ≤ ord c ∧ ord c ≤ 13)).

(** [strings.Fields]: maximal runs of non-space characters. *)
Fixpoint Fields_aux (s : string) (cur : string) : list string :=
  match s with
  | EmptyString => if String.eqb cur EmptyString then [] else [cur]
  | String c s' =>
      if is_space c
      then (if String.eqb cur EmptyString then [] else [cur]) ++ Fields_aux s' EmptyString
      else Fields_aux s' (cur +:+ String c EmptyString)
  end.
Definition Fields (s : string) : list string := Fields_aux s EmptyString.

Fixpoint TrimLeftFunc (f : ascii → bool) (s : string) : string :=
  match s with
  | String c s' => if f c then TrimLeftFunc f s' else s
  | EmptyString => EmptyString
  end.
Fixpoint TrimRightFunc (f : ascii → bool) (s : string) : string :=
  match s with
  | EmptyString => EmptyString
  | String c s' =>
      let t := TrimRightFunc f s' in
      if String.eqb t EmptyString && f c then EmptyString else String c t
  end.
Definition TrimSpace (s : string) : string := TrimRightFunc is_space (TrimLeftFunc is_space s).

Definition upper_char (c : ascii) : ascii :=
  if bool_decide (97 ≤ ord c ∧ ord c ≤ 122) then chr (ord c - 32) else c.
Definition lower_char (c : ascii) : ascii :=
  if bool_decide (65 ≤ ord c ∧ ord c ≤ 90) then chr (ord c + 32) else c.
Fixpoint map (f : ascii → ascii) (s : string) : string :=
  match s with EmptyString => EmptyString | String c s => String (f c) (map f s) end.
Definition ToUpper : string → string := map upper_char.
Definition ToLower : string → string := map lower_char.
Definition EqualFold (s t : string) : bool := String.eqb (ToLower s) (ToLower t).

(** [strings.ReplaceAll(s, c, by)] for a one-character pattern. *)
Fixpoint ReplaceChar (s : string) (c : ascii) (by_ : string) : string :=
  match s with
  | EmptyString => EmptyString
  | String d s => if Ascii.eqb d c then by_ +:+ ReplaceChar s c by_
                  else String d (ReplaceChar s c by_)
  end.

Definition Join (l : list string) (sep : string) : string := String.concat sep l.
End strings.

(** * [strconv] *)
Module strconv.
Definition digit (c : ascii) : option Z :=
  if bool_decide (48 ≤ ord c ∧ ord c ≤ 57) then Some (ord c - 48) else None.

(** Value of a string of decimal digits; [None] on any other character. *)
Fixpoint digits (s : string) (acc : Z) : option Z :=
  match s with
  | EmptyString => Some acc
  | String c s => match digit c with Some d => digits s (10 * acc + d) | None => None end
  end.

(** [strconv.ParseUint(s, 10, bits)]; [None] stands for any error. *)
Definition ParseUint (s : string) (bits : Z) : option Z :=
  if String.eqb s EmptyString then None else
  match digits s 0 with
  | Some v => if v <? 2 ^ bits then Some v else None
  | None => None
  end.

(** [strconv.ParseInt(s, 10, 64)], which is also [strconv.Atoi] on 64-bit targets. *)
Definition ParseInt (s : string) : option Z :=
  let '(neg, body) :=
    match s with
    | String c r => if Ascii.eqb c "-" then (true, r)
                    else if Ascii.eqb c "+" then (false, r) else (false, s)
    | EmptyString => (false, s)
    end in
  if String.eqb body EmptyString then None else
  match digits body 0 with
  | Some v => if neg then (if v <=? 2 ^ 63 then Some (- v) else None)
              else (if v <? 2 ^ 63 then Some v else None)
  | None => None
  end.
Definition Atoi : string → option Z := ParseInt.

(** Decimal digits of a non-negative number below [10 ^ fuel]. *)
Fixpoint utoa (fuel : nat) (n : Z) (acc : string) : string :=
  match fuel with
  | O => acc
  | S fuel =>
      let acc := String (chr (48 + n mod 10)) acc in
      if n <? 10 then acc else utoa fuel (n / 10) acc
  end.
(** The [%d] verb and [strconv.Itoa], for integers of at most 64 bits. *)
Definition Itoa (n : Z) : string :=
  if n <? 0 then String "-" (utoa 20 (- n) EmptyString) else utoa 20 n EmptyString.
End strconv.

(** * [net.IP] *)
Module net.
(** A [net.IP] is a byte slice: 4 or 16 bytes for an address, empty for nil. *)
Definition IP : Type := list Z.

Definition v4InV6Prefix : IP := [0;0;0;0;0;0;0;0;0;0;255;255].

(** [ip.To4()], [None] for nil. *)
Definition To4 (ip : IP) : option IP :=
  if bool_decide (length ip = 4%nat) then Some ip
  else if bool_decide (length ip = 16%nat ∧ take 12 ip = v4InV6Prefix) then Some (drop 12 ip)
  else None.

(** [ip.To16()], [None] for nil. *)
Definition To16 (ip : IP) : option IP :=
  if bool_decide (length ip = 4%nat) then Some (v4InV6Prefix ++ ip)
  else if bool_decide (length ip = 16%nat) then Some ip
  else None.

(** [ip.Equal(x)]: an IPv4 address equals its IPv4-in-IPv6 form. *)
Definition Equal (ip x : IP) : bool :=
  if bool_decide (length ip = length x) then bool_decide (ip = x)
  else if bool_decide (length ip = 4%nat ∧ length x = 16%nat)
    then bool_decide (take 12 x = v4InV6Prefix ∧ ip = drop 12 x)
  else if bool_decide (length ip = 16%nat ∧ length x = 4%nat)
    then bool_decide (take 12 ip = v4InV6Prefix ∧ drop 12 ip = x)
  else false.

(** One dotted-decimal field: digits only, no leading zero, at most 255. *)
Fixpoint octet (s : string) (val : Z) (digLen : nat) : option Z :=
  match s with
  | EmptyString => if Nat.eqb digLen 0 then None else Some val
  | String c s =>
      match strconv.digit c with
      | Some d =>
          if Nat.eqb digLen 1 && (val =? 0) then None
          else let v := val * 10 + d in
               if 255 <? v then None else octet s v (S digLen)
      | None => None
      end
  end.

Definition parseIPv4 (s : string) : option IP :=
  let fields := strings.Split s "." in
  if Nat.eqb (length fields) 4 then mapM (λ f, octet f 0 0) fields else None.

Definition hexval (c : ascii) : option Z :=
  let v := ord c in
  if bool_decide (48 ≤ v ∧ v ≤ 57) then Some (v - 48)
  else if bool_decide (97 ≤ v ∧ v ≤ 102) then Some (v - 97 + 10)
  else if bool_decide (65 ≤ v ∧ v ≤ 70) then Some (v - 65 + 10)
  else None.

(** Longest run of hex digits: its value, how many, and the rest;
    [None] when it has more than four digits. *)
Fixpoint hexgroup (s : string) (off : nat) (acc : Z) : option (nat * Z * string) :=
  match s with
  | EmptyString => Some (off, acc, s)
  | String c s' =>
      match hexval c with
      | Some d => if Nat.ltb 3 off then None else hexgroup s' (S off) (acc * 16 + d)
      | None => Some (off, acc, s)
      end
  end.

(** The loop of [netip.parseIPv6]: [ip] holds the bytes parsed so far, [ell]
    the position of a [::].  Each round consumes two bytes of [ip], so nine
    rounds of fuel always suffice. *)
Fixpoint ipv6_loop (fuel : nat) (s : string) (ip : IP) (ell : option nat)
  : option (string * IP * option nat) :=
  match fuel with
  | O => Some (s, ip, ell)
  | S fuel =>
      if Nat.leb 16 (length ip) then Some (s, ip, ell) else
      match hexgroup s 0 0 with
      | None => None
      | Some (O, _, _) => None
      | Some (_, acc, rest) =>
          match rest with
          | String "." _ =>
              if match ell with None => negb (Nat.eqb (length ip) 12) | Some _ => false end then None
              else if Nat.ltb 16 (length ip + 4) then None
              else v4 ← parseIPv4 s; Some (EmptyString, ip ++ v4, ell)
          | _ =>
              let ip := ip ++ [acc / 256; acc mod 256] in
              match rest with
              | EmptyString => Some (EmptyString, ip, ell)
              | String ":" EmptyString => None
              | String ":" (String ":" s2) =>
                  match ell with
                  | Some _ => None
                  | None => if String.eqb s2 EmptyString
                            then Some (EmptyString, ip, Some (length ip))
                            else ipv6_loop fuel s2 ip (Some (length ip))
                  end
              | String ":" s1 => ipv6_loop fuel s1 ip ell
              | _ => None
              end
          end
      end
  end.

Definition parseIPv6 (s : string) : option IP :=
  let '(s, ell) :=
    match s with
    | String ":" (String ":" s) => (s, Some O)
    | _ => (s, None)
    end in
  if String.eqb s EmptyString && bool_decide (ell ≠ None) then Some (replicate 16 0)
  else
    match ipv6_loop 9 s [] ell with
    | Some (rest, ip, ell) =>
        if negb (String.eqb rest EmptyString) then None else
        match ell with
        | None => if Nat.eqb (length ip) 16 then Some ip else None
        | Some e => if Nat.leb 16 (length ip) then None
                    else Some (take e ip ++ replicate (16 - length ip) 0 ++ drop e ip)
        end
    | None => None
    end.

(** [net.ParseIP]: an IPv4 address is returned in 16-byte form; an address
    with a zone is refused. *)
Fixpoint ParseIP_kind (s : string) : option ascii :=
  match s with
  | EmptyString => None
  | String c s => if bool_decide (c ∈ ["."; ":"; "%"]%char) then Some c else ParseIP_kind s
  end.
Definition ParseIP (s : string) : option IP :=
  match ParseIP_kind s with
  | Some "."%char => v4 ← parseIPv4 s; Some (v4InV6Prefix ++ v4)
  | Some ":"%char => if strings.Contains s "%" then None else parseIPv6 s
  | _ => None
  end.

(** [ip.String()]: dotted decimal for IPv4 in either form; otherwise the eight
    groups in hexadecimal with the first longest run of at least two zero groups
    as [::]; ["<nil>"] for an empty address and ["?"] and the hexadecimal bytes
    for one of another length. *)
Definition hex_digit (v : Z) : ascii := if v <? 10 then chr (48 + v) else chr (87 + v).
Fixpoint hex_aux (fuel : nat) (n : Z) (acc : string) : string :=
  match fuel with
  | O => acc
  | S fuel => let acc := String (hex_digit (n mod 16)) acc in
              if n <? 16 then acc else hex_aux fuel (n / 16) acc
  end.
Definition hex (n : Z) : string := hex_aux 4 n EmptyString.

Fixpoint groups (ip : IP) : list Z :=
  match ip with a :: b :: ip => (a * 256 + b) :: groups ip | _ => [] end.

Fixpoint zero_run (l : list Z) : nat :=
  match l with g :: l => if g =? 0 then S (zero_run l) else O | [] => O end.

(** Start and length of the run that [::] replaces. *)
Fixpoint longest_run (i : nat) (l : list Z) (best : option (nat * nat)) : option (nat * nat) :=
  match l with
  | [] => best
  | _ :: l' =>
      let n := zero_run l in
      let best := if Nat.ltb (match best with Some (_, b) => b | None => 1 end) n then Some (i, n) else best in
      longest_run (S i) l' best
  end.

Definition String_ (ip : IP) : string :=
  match To4 ip with
  | Some v4 => strings.Join (strconv.Itoa <$> v4) "."
  | None =>
      if Nat.eqb (length ip) 0 then "<nil>"
      else if negb (Nat.eqb (length ip) 16) then
        String "?" (String.concat "" ((λ b, String (hex_digit (b / 16)) (String (hex_digit (b mod 16)) "")) <$> ip))
      else
        let gs := groups ip in
        match longest_run 0 gs None with
        | None => strings.Join (hex <$> gs) ":"
        | Some (i, n) => strings.Join (hex <$> take i gs) ":" +:+ "::" +:+ strings.Join (hex <$> drop (i + n) gs) ":"
        end
  end.

(** [net.SplitHostPort], the host; [None] for an error. *)
Fixpoint LastIndexByte (s : string) (c : ascii) : option nat :=
  match s with
  | EmptyString => None
  | String d s => match LastIndexByte s c with
                  | Some i => Some (S i)
                  | None => if Ascii.eqb d c then Some O else None
                  end
  end.
Definition SplitHostPort (hostport : string) : option string :=
  match LastIndexByte hostport ":" with
  | None => None
  | Some i =>
      let brackets host j k :=
        if strings.Contains (sdrop j hostport) "[" || strings.Contains (sdrop k hostport) "]" then None else Some host in
      match hostport with
      | String "[" _ =>
          match strings.IndexByte hostport "]" with
          | Some e => if Nat.eqb (S e) i then brackets (sdrop 1 (stake e hostport)) 1%nat (S e) else None
          | None => None
          end
      | _ => let host := stake i hostport in
             if strings.Contains host ":" then None else brackets host O O
      end
  end.

Example SplitHostPort_examples :
  (SplitHostPort "192.0.2.1:25", SplitHostPort "[2001:db8::1]:25", SplitHostPort "2001:db8::1", SplitHostPort "host")
  = (Some "192.0.2.1", Some "2001:db8::1", None, None).
Proof. vm_compute; reflexivity. Qed.

Example String_v4 : String_ (v4InV6Prefix ++ [192; 0; 2; 1]) = "192.0.2.1".
Proof. vm_compute; reflexivity. Qed.
Example String_v6 : String_ [32; 1; 13; 184; 0; 0; 0; 0; 0; 0; 0; 0; 0; 0; 0; 1] = "2001:db8::1".
Proof. vm_compute; reflexivity. Qed.
End net.

(** * [net/mail] and [net/textproto]: reading a message header *)
Module mail.
Definition is_blank (c : ascii) : bool := Ascii.eqb c " " || Ascii.eqb c (chr 9).
Definition trim (s : string) : string := strings.TrimRightFunc is_blank (strings.TrimLeftFunc is_blank s).

(** A line with its line feed, and what follows; [None] without a line feed. *)
Fixpoint ReadBytes (s : string) : option (string * string) :=
  match s with
  | EmptyString => None
  | String c s =>
      if Ascii.eqb c (chr 10) then Some (String c EmptyString, s)
      else match ReadBytes s with Some (l, r) => Some (String c l, r) | None => None end
  end.

(** A line without its line terminator; [None] at the end of the input. *)
Definition ReadLine (s : string) : option (string * string) :=
  if String.eqb s EmptyString then None else
  match ReadBytes s with
  | None => Some (s, EmptyString)
  | Some (l, rest) =>
      let n := String.length l in
      Some (if strings.HasSuffix l (String (chr 13) (String (chr 10) "")) then stake (n - 2) l else stake (n - 1) l, rest)
  end.

(** Lines that start with a blank continue the one before. *)
Fixpoint continuation (fuel : nat) (acc s : string) : string * string :=
  match fuel with
  | O => (acc, s)
  | S fuel =>
      let s' := strings.TrimLeftFunc is_blank s in
      if Nat.eqb (String.length s') (String.length s) then (acc, s)
      else match ReadLine s' with
           | None => (acc +:+ " ", s')
           | Some (l, rest) => continuation fuel (acc +:+ " " +:+ trim l) rest
           end
  end.

Definition ReadContinuedLine (s : string) : option (string * string) :=
  match ReadLine s with
  | None => None
  | Some (EmptyString, rest) => Some (EmptyString, rest)
  | Some (l, rest) => Some (continuation (S (String.length rest)) (trim l) rest)
  end.

(** [textproto.CanonicalMIMEHeaderKey] *)
Definition token_char (c : ascii) : bool :=
  let v := ord c in
  bool_decide (48 ≤ v ∧ v ≤ 57 ∨ 65 ≤ v ∧ v ≤ 90 ∨ 97 ≤ v ∧ v ≤ 122) ||
  match String.index 0 (String c EmptyString) "!#$%&'*+-.^_`|~" with Some _ => true | None => false end.
Fixpoint canonical (upper : bool) (s : string) : string :=
  match s with
  | EmptyString => EmptyString
  | String c s => String (if upper then strings.upper_char c else strings.lower_char c)
                    (canonical (Ascii.eqb c "-") s)
  end.
Definition CanonicalMIMEHeaderKey (s : string) : string :=
  if forallb token_char (list_ascii_of_string s) then canonical true s else s.

(** The loop of [mail.readHeader]; [None] for an error other than an end of
    input after at least one field. *)
Fixpoint readHeader (fuel : nat) (s : string) (hdr : list (string * string))
    : option (list (string * string) * string) :=
  match fuel with
  | O => None
  | S fuel =>
      match ReadContinuedLine s with
      | None => match hdr with [] => None | _ => Some (hdr, EmptyString) end
      | Some (EmptyString, rest) => Some (hdr, rest)
      | Some (kv, rest) =>
          match strings.SplitN2 kv ":" with
          | [k; v] =>
              let key := CanonicalMIMEHeaderKey k in
              if String.eqb key "" then readHeader fuel rest hdr
              else readHeader fuel rest (hdr ++ [(key, strings.TrimLeftFunc is_blank v)])
          | _ => None
          end
      end
  end.

(** [mail.ReadMessage]: the header fields in order, and the body. *)
Definition ReadMessage (s : string) : option (list (string * string) * string) :=
  match s with
  | String c _ => if is_blank c then None else readHeader (S (String.length s)) s []
  | EmptyString => None
  end.

(** [Header.Get] *)
Definition Get (hdr : list (string * string)) (key : string) : string :=
  match List.find (λ f, String.eqb f.1 (CanonicalMIMEHeaderKey key)) hdr with Some f => f.2 | None => "" end.

Example ReadMessage_example :
  let nl := String (chr 13) (String (chr 10) "") in
  match ReadMessage ("from: a@x" +:+ nl +:+ "SUBJECT:  one" +:+ nl +:+ " two " +:+ nl +:+ "X y: z" +:+ nl +:+ nl +:+ "body") with
  | Some (h, b) => (Get h "From", Get h "Subject", Get h "To", b) = ("a@x", "one two", "", "body")
  | None => False
  end.
Proof. vm_compute; reflexivity. Qed.
End mail.

Example ParseIP_v4 : net.ParseIP "192.0.2.1" = Some (net.v4InV6Prefix ++ [192; 0; 2; 1]).
Proof. reflexivity. Qed.
Example ParseIP_v6 : net.ParseIP "2001:db8::1" = Some [32;1;13;184;0;0;0;0;0;0;0;0;0;0;0;1].
Proof. reflexivity. Qed.
Example ParseIP_bad : net.ParseIP "192.0.02.1" = None ∧ net.ParseIP "1:2" = None ∧ net.ParseIP "::1%eth0" = None.
Proof. repeat split. Qed.

(** * Facts about the string functions *)
Lemma string_app_cons c s t : String c s +:+ t = String c (s +:+ t).
Proof. reflexivity. Qed.

Lemma string_app_nil_r s : s +:+ "" = s.
Proof. induction s as [|c s IH]; [done|]. by rewrite string_app_cons, IH. Qed.

Lemma string_app_assoc s t u : s +:+ (t +:+ u) = (s +:+ t) +:+ u.
Proof. induction s as [|c s IH]; [done|]. by rewrite !string_app_cons, IH. Qed.

Lemma string_length_app s t : String.length (s +:+ t) = (String.length s + String.length t)%nat.
Proof. induction s as [|c s IH]; [done|]. rewrite string_app_cons. simpl. by rewrite IH. Qed.

Lemma HasPrefix_app p s : strings.HasPrefix (p +:+ s) p = true.
Proof.
  induction p as [|c p IH]; [by destruct s|].
  rewrite string_app_cons. simpl. by rewrite Ascii.eqb_refl.
Qed.

Lemma HasPrefix_spec s p :
  strings.HasPrefix s p = true → s = p +:+ sdrop (String.length p) s.
Proof.
  revert s. induction p as [|c p IH]; intros s; simpl; [by destruct s|].
  destruct s as [|d s]; [done|]. simpl. destruct (Ascii.eqb_spec c d) as [->|]; [|done].
  intros H. rewrite string_app_cons. f_equal. by apply IH.
Qed.

Lemma sdrop_app p s : sdrop (String.length p) (p +:+ s) = s.
Proof. induction p as [|c p IH]; [reflexivity|]. rewrite string_app_cons. exact IH. Qed.

Lemma Contains_cons c s sub : strings.Contains s sub = true → strings.Contains (String c s) sub = true.
Proof.
  unfold strings.Contains. cbn [strings.Index]. destruct (strings.HasPrefix (String c s) sub); [done|].
  by destruct (strings.Index s sub).
Qed.

Lemma Contains_app p s sub : strings.Contains s sub = true → strings.Contains (p +:+ s) sub = true.
Proof. intros H. induction p as [|c p IH]; [done|]. rewrite string_app_cons. by apply Contains_cons. Qed.

Lemma Contains_prefix s sub : strings.HasPrefix s sub = true → strings.Contains s sub = true.
Proof. unfold strings.Contains. destruct s; cbn [strings.Index]; by intros ->. Qed.

Lemma stake_sdrop n s : s = stake n s +:+ sdrop n s.
Proof.
  revert s. induction n as [|n IH]; intros s; [done|]. destruct s as [|c s]; [done|].
  simpl. rewrite string_app_cons. f_equal. apply IH.
Qed.

Lemma stake_app p s : stake (String.length p) (p +:+ s) = p.
Proof. induction p as [|c p IH]; [by destruct s|]. rewrite string_app_cons. cbn. by rewrite IH. Qed.
