(* ===== verification/Spf.v ===== *)
(** SPF evaluation (src/pkg/spf/checker.go).  The DNS resolver is the
    environment: a [Resolver] gives, for each domain, the answer of each lookup.
    A Go run-time panic is an outcome of its own, and so is running out of the
    recursion bound: [evaluate_terminates] shows that the latter never happens, and
    exactly when the former does. *)
From S2P Require Import Prelude GoLib.

(** * Results *)
Inductive ResultCode :=
  | ResultNone | ResultPass | ResultFail | ResultSoftFail
  | ResultNeutral | ResultTempError | ResultPermError.

#[export] Instance ResultCode_eq_dec : EqDecision ResultCode.
Proof. solve_decision. Defined.

Definition ResultCode_String (r : ResultCode) : string :=
  match r with
  | ResultPass => "pass"
  | ResultFail => "fail"
  | ResultSoftFail => "softfail"
  | ResultNeutral => "neutral"
  | ResultTempError => "temperror"
  | ResultPermError => "permerror"
  | ResultNone => "none"
  end.

Record Result := mkResult { Code : ResultCode; Text : string }.

Inductive outcome (A : Type) := Returned (a : A) | Panicked | OutOfFuel.
Arguments Returned {A} a.
Arguments Panicked {A}.
Arguments OutOfFuel {A}.

(** Answers of [net.Resolver]; [LookupMX] is reduced to the host names. *)
Record Resolver := mkResolver {
  LookupTXT : string → res (list string);
  LookupIPAddr : string → res (list net.IP);
  LookupMX : string → res (list string);
}.

(** * CIDR matching *)
Definition canonicalIP (ip : net.IP) : net.IP := default ip (net.To4 ip).

Definition cidrMatch (ip network : net.IP) (bits : Z) : bool :=
  let ip := canonicalIP ip in
  let network := canonicalIP network in
  if negb (bool_decide (length ip = length network)) then false
  else if bits <=? 0 then true
  else if Z.of_nat (length ip) * 8 <=? bits then net.Equal ip network
  else
    let fullBytes := bits / 8 in
    if negb (forallb (λ i, ip !!! i =? network !!! i) (seq 0 (Z.to_nat fullBytes))) then false
    else
      let remaining := bits mod 8 in
      if (0 <? remaining) && (fullBytes <? Z.of_nat (length ip)) then
        let mask := Z.land (Z.shiftl 255 (8 - remaining)) 255 in
        Z.land (ip !!! Z.to_nat fullBytes) mask =? Z.land (network !!! Z.to_nat fullBytes) mask
      else true.

(** [arg] split at its first ['/'] as [matchIP4] and [matchIP6] do it: [None]
    for a prefix length that does not parse or is out of range. *)
Definition cidrArg (arg : string) (width : Z) : option (string * Z) :=
  match strings.IndexByte arg "/" with
  | Some i =>
      match strconv.Atoi (sdrop (S i) arg) with
      | Some n => if (n <? 0) || (width <? n) then None else Some (stake i arg, n)
      | None => None
      end
  | None => Some (arg, width)
  end.

Definition matchIP4 (ip : net.IP) (arg : string) : bool :=
  match net.To4 ip with
  | None => false
  | Some ip4 =>
      match cidrArg arg 32 with
      | None => false
      | Some (cidr, prefixLen) =>
          match net.ParseIP cidr with
          | None => false
          | Some netIP =>
              match net.To4 netIP with
              | None => false
              | Some net4 => cidrMatch ip4 net4 prefixLen
              end
          end
      end
  end.

Definition matchIP6 (ip : net.IP) (arg : string) : bool :=
  match net.To16 ip, net.To4 ip with
  | Some ip16, None =>
      match cidrArg arg 128 with
      | None => false
      | Some (cidr, prefixLen) =>
          match net.ParseIP cidr with
          | None => false
          | Some netIP =>
              match net.To16 netIP with
              | None => false
              | Some net16 => cidrMatch ip16 net16 prefixLen
              end
          end
      end
  | _, _ => false
  end.

(** The lenient split of [matchAWithCIDR] and [matchMXWithCIDR]: a prefix
    length that does not parse leaves the default in place. *)
Definition cidrArgLenient (ip : net.IP) (arg : string) : string * Z :=
  let dflt := match net.To4 ip, net.To16 ip with None, Some _ => 128 | _, _ => 32 end in
  match strings.IndexByte arg "/" with
  | Some i => (stake i arg, default dflt (strconv.Atoi (sdrop (S i) arg)))
  | None => (arg, dflt)
  end.

Section Checker.
Variable R : Resolver.

Definition matchA (domain : string) (ip : net.IP) : res bool :=
  res_fmap (existsb (λ addr, net.Equal addr ip)) (LookupIPAddr R domain).

Definition matchAWithCIDR (arg : string) (ip : net.IP) : res bool :=
  let '(domain, prefixLen) := cidrArgLenient ip arg in
  res_fmap (existsb (λ addr, cidrMatch ip addr prefixLen)) (LookupIPAddr R domain).

(** The hosts of an MX answer; a host whose address lookup fails is skipped. *)
Definition anyMX (f : net.IP → bool) (hosts : list string) : bool :=
  existsb (λ h, match LookupIPAddr R h with Ok ips => existsb f ips | Err _ => false end) hosts.

Definition matchMX (domain : string) (ip : net.IP) : res bool :=
  res_fmap (anyMX (λ addr, net.Equal addr ip)) (LookupMX R domain).

Definition matchMXWithCIDR (arg : string) (ip : net.IP) : res bool :=
  let '(domain, prefixLen) := cidrArgLenient ip arg in
  res_fmap (anyMX (λ addr, cidrMatch ip addr prefixLen)) (LookupMX R domain).

Definition lookupSPF (domain : string) : res string :=
  match LookupTXT R domain with
  | Err e => Err (Errorf "spf: lookup TXT: " e "")
  | Ok txts => Ok (default "" (head (List.filter (λ t, strings.HasPrefix t "v=spf1") txts)))
  end.

(** [evaluateInclude], given the evaluator it calls back. *)
Definition evaluateInclude (ev : net.IP → string → string → Z → outcome Result)
    (ip : net.IP) (domain : string) (depth : Z) : outcome (res bool) :=
  match lookupSPF domain with
  | Err e => Returned (Err e)
  | Ok "" => Returned (Ok false)
  | Ok rec =>
      match ev ip domain rec depth with
      | Returned r => Returned (Ok (bool_decide (Code r = ResultPass)))
      | Panicked => Panicked
      | OutOfFuel => OutOfFuel
      end
  end.

(** The [switch] on one mechanism.  [None]: unknown, ignored. *)
Inductive mech_answer :=
  | MechMatch (r : outcome (res bool))
  | MechIgnored
  | MechTooDeep.

Definition mechanism (inc : string → Z → outcome (res bool)) (ip : net.IP) (domain : string)
    (depth : Z) (mech : string) : mech_answer :=
  if String.eqb mech "all" then MechMatch (Returned (Ok true))
  else if strings.HasPrefix mech "ip4:" then MechMatch (Returned (Ok (matchIP4 ip (sdrop 4 mech))))
  else if strings.HasPrefix mech "ip6:" then MechMatch (Returned (Ok (matchIP6 ip (sdrop 4 mech))))
  else if String.eqb mech "a" then MechMatch (Returned (matchA domain ip))
  else if strings.HasPrefix mech "a:" then MechMatch (Returned (matchA (sdrop 2 mech) ip))
  else if strings.HasPrefix mech "a/" || strings.Contains mech ":" then
    (* [mech[2:]] panics on a one-byte string *)
    if slen mech <? 2 then MechMatch Panicked
    else MechMatch (Returned (matchAWithCIDR (sdrop 2 mech) ip))
  else if String.eqb mech "mx" then MechMatch (Returned (matchMX domain ip))
  else if strings.HasPrefix mech "mx:" then MechMatch (Returned (matchMX (sdrop 3 mech) ip))
  else if strings.HasPrefix mech "mx/" || strings.Contains mech "mx:" then
    MechMatch (Returned (matchMXWithCIDR (sdrop 3 mech) ip))
  else if strings.HasPrefix mech "include:" then
    if 10 <=? depth then MechTooDeep else MechMatch (inc (sdrop 8 mech) (depth + 1))
  else MechIgnored.

Definition qualifier_result (q : ascii) : option Result :=
  match q with
  | "+"%char => Some (mkResult ResultPass "SPF pass")
  | "-"%char => Some (mkResult ResultFail "SPF fail")
  | "~"%char => Some (mkResult ResultSoftFail "SPF softfail")
  | "?"%char => Some (mkResult ResultNeutral "SPF neutral")
  | _ => None
  end.

(** The qualifier of a term ([+] when it has none) and its mechanism. *)
Definition split_qualifier (term : string) : ascii * string :=
  match term with
  | String c rest => if bool_decide (c ∈ ["+"; "-"; "~"; "?"]%char) then (c, rest) else ("+"%char, term)
  | EmptyString => ("+"%char, term)
  end.

Definition skipped_term (term : string) : bool :=
  String.eqb term "" || String.eqb term "v=spf1"
  || strings.HasPrefix term "redirect=" || strings.HasPrefix term "exp=".

(** The mechanism loop of [evaluate]; [None] when no mechanism matched. *)
Fixpoint eval_terms (inc : string → Z → outcome (res bool)) (ip : net.IP) (domain : string)
    (depth : Z) (terms : list string) : option (outcome Result) :=
  match terms with
  | [] => None
  | term :: terms' =>
      let next := eval_terms inc ip domain depth terms' in
      let term := strings.TrimSpace term in
      if skipped_term term then next else
      let '(qualifier, mech) := split_qualifier term in
      match mechanism inc ip domain depth mech with
      | MechIgnored => next
      | MechTooDeep => Some (Returned (mkResult ResultPermError "max include depth exceeded"))
      | MechMatch (Returned (Err e)) =>
          Some (Returned (mkResult ResultTempError ("dns error: " +:+ error_text e)))
      | MechMatch (Returned (Ok false)) => next
      | MechMatch (Returned (Ok true)) =>
          match qualifier_result qualifier with Some r => Some (Returned r) | None => next end
      | MechMatch Panicked => Some Panicked
      | MechMatch OutOfFuel => Some OutOfFuel
      end
  end.

Definition is_redirect (term : string) : bool := strings.HasPrefix term "redirect=".

(** [evaluate]: [fuel] bounds the nesting of [include] and [redirect]. *)
Fixpoint evaluate (fuel : nat) (ip : net.IP) (domain spfRecord : string) (depth : Z)
    : outcome Result :=
  match fuel with
  | O => OutOfFuel
  | S fuel =>
      if 10 <? depth then Returned (mkResult ResultPermError "max include depth exceeded") else
      let terms := strings.Fields spfRecord in
      match eval_terms (λ d n, evaluateInclude (evaluate fuel) ip d n) ip domain depth terms with
      | Some o => o
      | None =>
          match head (List.filter is_redirect terms) with
          | None => Returned (mkResult ResultNeutral "no matching mechanism")
          | Some term =>
              let redirectDomain := sdrop 9 term in
              if String.eqb redirectDomain "" then Returned (mkResult ResultPermError "empty redirect domain")
              else match lookupSPF redirectDomain with
                   | Err _ => Returned (mkResult ResultTempError "redirect lookup failed")
                   | Ok rec =>
                       if String.eqb rec "" then
                         Returned (mkResult ResultPermError "redirect target has no SPF")
                       else evaluate fuel ip redirectDomain rec (depth + 1)
                   end
          end
      end
  end.

(** Depths run from 0 to 11, one unit of fuel each. *)
Definition evaluate_fuel : nat := 12.

Definition Check (ip : net.IP) (domain helo : string) : outcome Result :=
  match lookupSPF domain with
  | Err _ => Returned (mkResult ResultTempError "dns lookup failed")
  | Ok rec =>
      if String.eqb rec "" then Returned (mkResult ResultNone "no SPF record")
      else evaluate evaluate_fuel ip domain rec 0
  end.
End Checker.

(** * CIDR matching is equality of the leading bits *)
(** The big-endian number a byte string denotes. *)
Definition be (l : list Z) : Z := foldl (λ acc b, acc * 256 + b) 0 l.

Lemma be_foldl a l : foldl (λ acc b, acc * 256 + b) a l = a * 256 ^ Z.of_nat (length l) + be l.
Proof.
  enough (∀ a z, foldl (λ acc b, acc * 256 + b) a l
                 = (a - z) * 256 ^ Z.of_nat (length l) + foldl (λ acc b, acc * 256 + b) z l) as H.
  { unfold be. rewrite (H a 0). lia. }
  clear a. induction l as [|b l IH]; intros a z; simpl foldl; [simpl; lia|].
  rewrite (IH _ (z * 256 + b)). simpl length. rewrite Nat2Z.inj_succ, Z.pow_succ_r by lia. lia.
Qed.

Lemma be_app l1 l2 : be (l1 ++ l2) = be l1 * 256 ^ Z.of_nat (length l2) + be l2.
Proof. unfold be at 1. rewrite foldl_app. apply be_foldl. Qed.

Lemma be_cons b l : be (b :: l) = b * 256 ^ Z.of_nat (length l) + be l.
Proof. unfold be at 1. simpl. apply be_foldl. Qed.

Lemma be_bound l : Forall is_byte l → 0 ≤ be l < 256 ^ Z.of_nat (length l).
Proof.
  induction 1 as [|b l Hb _ IH]; [done|].
  rewrite be_cons. simpl length. rewrite Nat2Z.inj_succ, Z.pow_succ_r by lia.
  unfold is_byte in Hb. nia.
Qed.

Lemma div_mod_eq_iff (a1 b1 a2 b2 m : Z) :
  0 ≤ b1 < m → 0 ≤ b2 < m → (a1 * m + b1 = a2 * m + b2 ↔ a1 = a2 ∧ b1 = b2).
Proof.
  intros H1 H2. split; [intros H|intros [-> ->]; done].
  assert (a1 = a2) by nia. lia. Qed.

Lemma be_inj l1 l2 :
  Forall is_byte l1 → Forall is_byte l2 → length l1 = length l2 → be l1 = be l2 ↔ l1 = l2.
Proof.
  intros H1 H2 Hlen. split; [|by intros ->]. revert l2 H2 Hlen.
  induction H1 as [|b1 l1 Hb1 Hl1 IH]; intros [|b2 l2] H2 Hlen; try done.
  injection Hlen as Hlen.
  apply Forall_cons in H2 as [Hb2 Hl2]. rewrite !be_cons, Hlen.
  pose proof (be_bound l1 Hl1) as B1. pose proof (be_bound l2 Hl2) as B2. rewrite Hlen in B1.
  rewrite div_mod_eq_iff by done. intros [-> Hbe]. f_equal. auto.
Qed.

(** A finite check over all byte values and mask widths. *)
Lemma mask_spec_check :
  forallb (λ r, forallb (λ x, Z.land x (Z.land (Z.shiftl 255 (8 - r)) 255) =? x / 2 ^ (8 - r) * 2 ^ (8 - r))
    (List.map Z.of_nat (seq 0 256))) [1;2;3;4;5;6;7] = true.
Proof. vm_compute. reflexivity. Qed.

Lemma mask_spec x r :
  is_byte x → 1 ≤ r ≤ 7 →
  Z.land x (Z.land (Z.shiftl 255 (8 - r)) 255) = x / 2 ^ (8 - r) * 2 ^ (8 - r).
Proof.
  intros Hx Hr. pose proof mask_spec_check as H. rewrite forallb_forall in H.
  assert (In r [1;2;3;4;5;6;7]) as Hin.
  { assert (r = 1 ∨ r = 2 ∨ r = 3 ∨ r = 4 ∨ r = 5 ∨ r = 6 ∨ r = 7) as Hc by lia.
    simpl. intuition. }
  apply H in Hin. rewrite forallb_forall in Hin. apply Z.eqb_eq, Hin, in_map_iff.
  exists (Z.to_nat x). unfold is_byte in Hx. rewrite in_seq. lia.
Qed.

Lemma mask_eq_iff x y r :
  is_byte x → is_byte y → 1 ≤ r ≤ 7 →
  Z.land x (Z.land (Z.shiftl 255 (8 - r)) 255) = Z.land y (Z.land (Z.shiftl 255 (8 - r)) 255)
  ↔ x / 2 ^ (8 - r) = y / 2 ^ (8 - r).
Proof.
  intros Hx Hy Hr. rewrite !mask_spec by done.
  assert (0 < 2 ^ (8 - r)) by (apply Z.pow_pos_nonneg; lia). nia.
Qed.

(** The leading [bits] bits of an address, as a number. *)
Definition leading_bits (l : list Z) (bits : Z) : Z :=
  Z.shiftr (be l) (8 * Z.of_nat (length l) - bits).

Lemma leading_bits_whole l f :
  (f ≤ length l)%nat → Forall is_byte l → leading_bits l (8 * Z.of_nat f) = be (take f l).
Proof.
  intros Hf Hl. unfold leading_bits. rewrite <- (take_drop f l) at 1.
  rewrite be_app, Z.shiftr_div_pow2 by lia. rewrite length_drop.
  replace (256 ^ Z.of_nat (length l - f)) with (2 ^ (8 * Z.of_nat (length l) - 8 * Z.of_nat f)).
  - rewrite Z.div_add_l by (apply Z.pow_nonzero; lia). rewrite Z.div_small; [lia|].
    pose proof (be_bound (drop f l) (Forall_drop _ _ _ Hl)) as B. rewrite length_drop in B.
    replace (8 * Z.of_nat (length l) - 8 * Z.of_nat f) with (8 * Z.of_nat (length l - f)) by lia.
    rewrite Z.pow_mul_r by lia. done.
  - change 256 with (2 ^ 8). rewrite <- Z.pow_mul_r by lia. f_equal. lia.
Qed.

Lemma leading_bits_part l f x r :
  l !! f = Some x → Forall is_byte l → 1 ≤ r ≤ 7 →
  leading_bits l (8 * Z.of_nat f + r) = be (take f l) * 2 ^ r + x / 2 ^ (8 - r).
Proof.
  intros Hx Hl Hr. pose proof (lookup_lt_Some _ _ _ Hx) as Hf.
  pose proof (leading_bits_whole l (S f) ltac:(lia) Hl) as Hw.
  rewrite (take_S_r _ _ _ Hx), be_app in Hw. simpl length in Hw.
  change (be [x]) with x in Hw. change (256 ^ Z.of_nat 1) with 256 in Hw.
  assert (leading_bits l (8 * Z.of_nat f + r) = leading_bits l (8 * Z.of_nat (S f)) / 2 ^ (8 - r)) as ->.
  { unfold leading_bits. rewrite <- Z.shiftr_div_pow2 by lia. rewrite Z.shiftr_shiftr by lia. f_equal. lia. }
  rewrite Hw. replace 256 with (2 ^ r * 2 ^ (8 - r)) by (rewrite <- Z.pow_add_r by lia; replace (r + (8 - r)) with 8 by lia; done).
  rewrite Z.mul_assoc. apply Z.div_add_l, Z.pow_nonzero; lia.
Qed.

Lemma canonicalIP_bytes ip : Forall is_byte ip → Forall is_byte (canonicalIP ip).
Proof.
  intros H. unfold canonicalIP, net.To4. repeat case_bool_decide; simpl; auto.
  by apply Forall_drop.
Qed.

Lemma net_Equal_same_length ip x : length ip = length x → net.Equal ip x = bool_decide (ip = x).
Proof. intros H. unfold net.Equal. by rewrite bool_decide_true. Qed.

Lemma forallb_prefix l1 l2 f :
  (f ≤ length l1)%nat → length l1 = length l2 →
  forallb (λ i, l1 !!! i =? l2 !!! i) (seq 0 f) = bool_decide (take f l1 = take f l2).
Proof.
  intros Hf Hlen. apply eq_true_iff_eq. rewrite forallb_forall, bool_decide_eq_true. split.
  - intros H. apply list_eq. intros i. destruct (decide (i < f)%nat) as [Hi|Hi].
    + rewrite !lookup_take_lt by lia.
      rewrite (list_lookup_lookup_total_lt l1 i), (list_lookup_lookup_total_lt l2 i) by lia.
      f_equal. apply Z.eqb_eq, H, in_seq. lia.
    + rewrite !lookup_ge_None_2 by (rewrite length_take; lia). done.
  - intros H i Hi. apply in_seq in Hi. apply Z.eqb_eq.
    rewrite !list_lookup_total_alt. f_equal.
    rewrite <- (lookup_take_lt l1 f i), <- (lookup_take_lt l2 f i) by lia. by rewrite H.
Qed.

Lemma cidr_loop_spec l1 l2 bits :
  Forall is_byte l1 → Forall is_byte l2 → length l1 = length l2 →
  0 < bits < 8 * Z.of_nat (length l1) →
  (let f := Z.to_nat (bits / 8) in
   take f l1 = take f l2 ∧
   (bits mod 8 = 0 ∨ (l1 !!! f) / 2 ^ (8 - bits mod 8) = (l2 !!! f) / 2 ^ (8 - bits mod 8)))
  ↔ leading_bits l1 bits = leading_bits l2 bits.
Proof.
  intros H1 H2 Hlen Hb. cbv zeta. set (f := Z.to_nat (bits / 8)).
  assert (Z.of_nat f = bits / 8) as Hf by (unfold f; dlia).
  assert (f < length l1)%nat by dlia.
  assert (bits = 8 * Z.of_nat f + bits mod 8) as Hbits by dlia.
  pose proof (Forall_take _ f _ H1) as T1. pose proof (Forall_take _ f _ H2) as T2.
  pose proof (be_inj _ _ T1 T2 ltac:(rewrite !length_take; lia)) as Hinj.
  assert (∀ l, leading_bits l bits = leading_bits l (8 * Z.of_nat f + bits mod 8)) as E
    by (intros l; f_equal; exact Hbits).
  rewrite (E l1), (E l2). pose proof (Z.mod_pos_bound bits 8).
  destruct (decide (bits mod 8 = 0)) as [Hr|Hr].
  - rewrite Hr, Z.add_0_r. rewrite !leading_bits_whole by (done || lia).
    rewrite Hinj. tauto.
  - destruct (lookup_lt_is_Some_2 l1 f ltac:(lia)) as [x Hx].
    destruct (lookup_lt_is_Some_2 l2 f ltac:(lia)) as [y Hy].
    rewrite (leading_bits_part l1 f x), (leading_bits_part l2 f y) by (done || lia).
    rewrite (list_lookup_total_correct _ _ _ Hx), (list_lookup_total_correct _ _ _ Hy).
    assert (∀ z, is_byte z → 0 ≤ z / 2 ^ (8 - bits mod 8) < 2 ^ (bits mod 8)) as Hpart.
    { intros z Hz. unfold is_byte in Hz. split; [apply Z.div_pos; lia|].
      apply Z.div_lt_upper_bound; [lia|]. rewrite <- Z.pow_add_r by lia.
      replace (8 - bits mod 8 + bits mod 8) with 8 by lia. lia. }
    assert (is_byte x ∧ is_byte y) as [Bx By] 
      by (split; [exact (Forall_lookup_1 is_byte _ _ _ H1 Hx)|exact (Forall_lookup_1 is_byte _ _ _ H2 Hy)]).
    rewrite div_mod_eq_iff, Hinj by auto. tauto.
Qed.

(** [cidrMatch] on the canonical forms of the two addresses. *)
Lemma cidrMatch_spec (ip network : net.IP) (bits : Z) :
  Forall is_byte ip → Forall is_byte network →
  0 ≤ bits ≤ 8 * Z.of_nat (length (canonicalIP ip)) →
  cidrMatch ip network bits = true ↔
  length (canonicalIP ip) = length (canonicalIP network) ∧
  leading_bits (canonicalIP ip) bits = leading_bits (canonicalIP network) bits.
Proof.
  intros Hi%canonicalIP_bytes Hn%canonicalIP_bytes Hb. unfold cidrMatch.
  set (l1 := canonicalIP ip) in *. set (l2 := canonicalIP network) in *.
  case_bool_decide as Hlen; simpl; [|naive_solver].
  destruct (Z.leb_spec bits 0).
  { replace bits with (8 * Z.of_nat 0) by lia. rewrite !leading_bits_whole by (done || lia). naive_solver. }
  destruct (Z.leb_spec (Z.of_nat (length l1) * 8) bits).
  { replace bits with (8 * Z.of_nat (length l1)) by lia.
    rewrite !leading_bits_whole by (done || lia). rewrite net_Equal_same_length by done.
    rewrite !take_ge by lia. rewrite bool_decide_eq_true, be_inj by done. tauto. }
  rewrite <- cidr_loop_spec by (done || lia). cbv zeta.
  assert (Z.to_nat (bits / 8) < length l1)%nat by dlia.
  assert (is_byte (l1 !!! Z.to_nat (bits / 8)) ∧ is_byte (l2 !!! Z.to_nat (bits / 8))) as [Bx By].
  { split; [apply (proj1 (Forall_lookup_total is_byte l1) Hi)|apply (proj1 (Forall_lookup_total is_byte l2) Hn)]; lia. }
  rewrite forallb_prefix by (done || lia). case_bool_decide; simpl; [|naive_solver].
  pose proof (Z.mod_pos_bound bits 8).
  destruct (Z.ltb_spec 0 (bits mod 8)); simpl; [|naive_solver lia].
  rewrite (proj2 (Z.ltb_lt _ _)) by dlia. rewrite Z.eqb_eq, mask_eq_iff by (done || lia).
  naive_solver lia.
Qed.

(** C24.  [cidrMatch] decides exactly whether two addresses of the same family
    agree on their leading [bits] bits: an IPv4 address and its IPv4-in-IPv6
    form count as the same family, addresses of different families never
    match, and every prefix length from 0 to the address width is covered,
    including those that end inside a byte. *)
Theorem cidrMatch_leading_bits (ip network : net.IP) (bits : Z) :
  Forall is_byte ip → Forall is_byte network →
  0 ≤ bits ≤ 8 * Z.of_nat (length (canonicalIP ip)) →
  cidrMatch ip network bits = true ↔
  length (canonicalIP ip) = length (canonicalIP network) ∧
  leading_bits (canonicalIP ip) bits = leading_bits (canonicalIP network) bits.
Proof.
  apply cidrMatch_spec.
Qed.

Lemma cidrMatch_leading_bits_witness :
  cidrMatch [192;0;2;77] (net.v4InV6Prefix ++ [192;0;2;64]) 26 = true ↔
  length (canonicalIP [192;0;2;77]) = length (canonicalIP (net.v4InV6Prefix ++ [192;0;2;64])) ∧
  leading_bits (canonicalIP [192;0;2;77]) 26
    = leading_bits (canonicalIP (net.v4InV6Prefix ++ [192;0;2;64])) 26.
Proof.
  apply (cidrMatch_leading_bits [192;0;2;77] (net.v4InV6Prefix ++ [192;0;2;64]) 26).
  - unfold is_byte. repeat constructor; lia.
  - unfold is_byte. repeat constructor; lia.
  - vm_compute. split; discriminate.
Defined.

(** * [include:] is shadowed by the [a:] case *)
Lemma include_has_colon mech :
  strings.HasPrefix mech "include:" = true → strings.Contains mech ":" = true.
Proof.
  intros ->%HasPrefix_spec. generalize (sdrop (String.length "include:") mech); intros s.
  change "include:" with ("include" +:+ ":"). rewrite <- string_app_assoc.
  apply Contains_app, Contains_prefix, HasPrefix_app.
Qed.

Lemma mechanism_inc_irrelevant R inc1 inc2 ip domain depth1 depth2 mech :
  mechanism R inc1 ip domain depth1 mech = mechanism R inc2 ip domain depth2 mech.
Proof.
  unfold mechanism. repeat (case_match; [done|]). 
  destruct (strings.HasPrefix mech "include:") eqn:E; [|done].
  apply include_has_colon in E. rewrite E, orb_true_r in *. done.
Qed.

Lemma eval_terms_shallow R inc1 inc2 ip domain depth1 depth2 terms :
  eval_terms R inc1 ip domain depth1 terms = eval_terms R inc2 ip domain depth2 terms.
Proof.
  induction terms as [|t ts IH]; [done|]. simpl. rewrite IH.
  destruct (split_qualifier _). by rewrite (mechanism_inc_irrelevant R inc1 inc2 ip domain depth1 depth2).
Qed.
Lemma eval_terms_inc_irrelevant R inc1 inc2 ip domain depth terms :
  eval_terms R inc1 ip domain depth terms = eval_terms R inc2 ip domain depth terms.
Proof. apply eval_terms_shallow. Qed.

(** The loop with the include callback removed. *)
Definition no_include : string → Z → outcome (res bool) := λ _ _, Returned (Ok false).

Lemma eval_terms_not_out_of_fuel R inc ip domain depth terms :
  eval_terms R inc ip domain depth terms ≠ Some OutOfFuel.
Proof.
  rewrite (eval_terms_inc_irrelevant R inc no_include).
  induction terms as [|t ts IH]; [done|]. simpl.
  destruct (skipped_term _); [done|]. destruct (split_qualifier _) as [q mech].
  unfold mechanism, no_include. repeat case_match; simplify_eq; done.
Qed.

Lemma evaluate_fuel_enough R fuel ip domain rec depth :
  0 ≤ depth ≤ 11 → 12 ≤ Z.of_nat fuel + depth →
  evaluate R fuel ip domain rec depth ≠ OutOfFuel ∧
  evaluate R (S fuel) ip domain rec depth = evaluate R fuel ip domain rec depth.
Proof.
  revert domain rec depth. induction fuel as [|fuel IH]; intros domain rec depth Hd Hf.
  { lia. }
  revert IH. cbn [evaluate]. destruct (Z.ltb_spec 10 depth); [done|]. intros IH.
  rewrite !(eval_terms_inc_irrelevant R (λ d n, evaluateInclude R _ ip d n) no_include).
  destruct (eval_terms _ _ _ _ _ _) as [o|] eqn:E.
  { split; [|done]. intros ->. by apply eval_terms_not_out_of_fuel in E. }
  destruct (head _) as [term|]; [|done]. destruct (String.eqb _ _); [done|].
  destruct (lookupSPF _ _) as [rec'|]; [|done]. destruct (String.eqb _ _); [done|].
  apply IH; lia.
Qed.

(** * What the shadowing means *)
Definition with_TXT (R : Resolver) (txt : string → res (list string)) : Resolver :=
  mkResolver txt (LookupIPAddr R) (LookupMX R).

Lemma eval_terms_with_TXT R txt inc ip domain depth terms :
  eval_terms (with_TXT R txt) inc ip domain depth terms = eval_terms R inc ip domain depth terms.
Proof. reflexivity. Qed.

(** The [include:] mechanism is never evaluated: the case for [a:] with a
    prefix length accepts every mechanism that contains a colon and stands
    before it.  So the verdict on a record without a [redirect=] modifier does
    not depend on any TXT record at all, whatever its [include:] terms name. *)
Theorem include_never_consulted (R : Resolver) (txt : string → res (list string)) (fuel : nat)
    (ip : net.IP) (domain rec : string) (depth : Z) :
  existsb is_redirect (strings.Fields rec) = false →
  evaluate (with_TXT R txt) fuel ip domain rec depth = evaluate R fuel ip domain rec depth.
Proof.
  intros Hr. destruct fuel as [|fuel]; [done|]. cbn [evaluate].
  destruct (10 <? depth); [done|]. rewrite eval_terms_with_TXT.
  rewrite (eval_terms_inc_irrelevant R _ (λ d n, evaluateInclude R (evaluate R fuel) ip d n)).
  destruct (eval_terms _ _ _ _ _ _); [done|].
  replace (List.filter is_redirect (strings.Fields rec)) with (@nil string); [done|].
  induction (strings.Fields rec) as [|t ts IH]; [done|]. simpl in *.
  apply orb_false_iff in Hr as [-> Hr]. auto.
Qed.

(** Example resolver: the included record would accept the sender. *)
Definition include_resolver : Resolver :=
  mkResolver (λ d, if String.eqb d "spf.example.net" then Ok ["v=spf1 ip4:192.0.2.0/24 -all"] else Ok [])
    (λ _, Ok []) (λ _, Ok []).

Lemma include_never_consulted_witness :
  let rec := "v=spf1 include:spf.example.net -all" in
  existsb is_redirect (strings.Fields rec) = false
  ∧ evaluate include_resolver evaluate_fuel [192;0;2;7] "example.org" "v=spf1 ip4:192.0.2.0/24 -all" 0
    = Returned (mkResult ResultPass "SPF pass")
  ∧ evaluate (with_TXT include_resolver (λ _, Ok [])) evaluate_fuel [192;0;2;7] "example.org" rec 0
    = evaluate include_resolver evaluate_fuel [192;0;2;7] "example.org" rec 0
  ∧ evaluate include_resolver evaluate_fuel [192;0;2;7] "example.org" rec 0
    = Returned (mkResult ResultFail "SPF fail").
Proof.
  split; [vm_compute; reflexivity|]. split; [vm_compute; reflexivity|]. split.
  - apply (include_never_consulted include_resolver (λ _, Ok [])). vm_compute. reflexivity.
  - vm_compute. reflexivity.
Defined.

(** * Order of evaluation *)
Lemma eval_terms_app R inc ip domain depth ts1 ts2 :
  eval_terms R inc ip domain depth (ts1 ++ ts2)
  = match eval_terms R inc ip domain depth ts1 with
    | Some o => Some o
    | None => eval_terms R inc ip domain depth ts2
    end.
Proof.
  induction ts1 as [|t ts IH]; [done|]. cbn [app eval_terms]. rewrite IH.
  destruct (skipped_term _); [done|]. destruct (split_qualifier _) as [q mech].
  destruct (mechanism _ _ _ _ _ _) as [[[[|]|]| |]| |]; try done.
  by destruct (qualifier_result q).
Qed.

Definition all_terms : list string := ["all"; "+all"; "-all"; "~all"; "?all"].

Lemma eval_terms_all R inc ip domain depth t :
  t ∈ all_terms → is_Some (eval_terms R inc ip domain depth [t]).
Proof.
  unfold all_terms. rewrite !elem_of_cons, elem_of_nil.
  intros [->|[->|[->|[->|[->|[]]]]]]; vm_compute; eauto.
Qed.

(** Mechanisms are tried from left to right and an [all] term ends the
    evaluation: of two records that agree up to and including an [all] with
    any qualifier, what follows it - further mechanisms or a [redirect=] - has
    no influence on the verdict. *)
Theorem all_ends_evaluation (R : Resolver) (fuel : nat) (ip : net.IP) (domain : string) (depth : Z)
    (pre post1 post2 : list string) (t rec1 rec2 : string) :
  t ∈ all_terms →
  strings.Fields rec1 = pre ++ t :: post1 →
  strings.Fields rec2 = pre ++ t :: post2 →
  evaluate R fuel ip domain rec1 depth = evaluate R fuel ip domain rec2 depth.
Proof.
  intros Ht E1 E2. destruct fuel as [|fuel]; [done|]. cbn [evaluate].
  destruct (10 <? depth); [done|]. rewrite E1, E2. cbv zeta.
  set (inc := λ d n, evaluateInclude R (evaluate R fuel) ip d n).
  destruct (eval_terms_all R inc ip domain depth t Ht) as [o Ho].
  rewrite !(eval_terms_app _ _ _ _ _ pre).
  change (t :: post1) with ([t] ++ post1). change (t :: post2) with ([t] ++ post2).
  rewrite !(eval_terms_app _ _ _ _ _ [t]), Ho.
  by destruct (eval_terms R inc ip domain depth pre).
Qed.

Lemma all_ends_evaluation_witness :
  let rec1 := "v=spf1 ip4:192.0.2.0/24 ~all redirect=example.net" in
  let rec2 := "v=spf1 ip4:192.0.2.0/24 ~all mx a" in
  evaluate include_resolver 12 [198;51;100;1] "example.org" rec1 0
  = evaluate include_resolver 12 [198;51;100;1] "example.org" rec2 0.
Proof.
  apply (all_ends_evaluation include_resolver 12 [198;51;100;1] "example.org" 0
           ["v=spf1"; "ip4:192.0.2.0/24"] ["redirect=example.net"] ["mx"; "a"] "~all").
  - unfold all_terms. rewrite !elem_of_cons. auto.
  - vm_compute. reflexivity.
  - vm_compute. reflexivity.
Defined.

(** * The slice expression [mech[2:]] *)
Lemma short_with_colon mech :
  slen mech < 2 → strings.HasPrefix mech "a/" || strings.Contains mech ":" = true → mech = ":".
Proof.
  destruct mech as [|c [|d s]]; unfold slen; simpl String.length; intros H1 H2; [done| |lia].
  destruct c as [[] [] [] [] [] [] [] []]; vm_compute in H2; done.
Qed.

Lemma mechanism_panics_iff R inc ip domain depth mech :
  mechanism R inc ip domain depth mech = MechMatch Panicked ↔ mech = ":".
Proof.
  rewrite (mechanism_inc_irrelevant R inc no_include ip domain depth depth). split; [|by intros ->].
  unfold mechanism, no_include. intros H. repeat case_match; simplify_eq.
  apply short_with_colon; [by apply Z.ltb_lt|done].
Qed.

Definition term_mechanism (term : string) : string := (split_qualifier (strings.TrimSpace term)).2.

Lemma colon_not_skipped term : (split_qualifier term).2 = ":" → skipped_term term = false.
Proof.
  unfold split_qualifier. destruct term as [|c rest]; [done|].
  case_bool_decide as Hc; simpl; intros E; [|by rewrite E].
  subst rest. rewrite !elem_of_cons, elem_of_nil in Hc.
  destruct Hc as [->|[->|[->|[->|[]]]]]; reflexivity.
Qed.

Lemma eval_terms_cons_cases R inc ip domain depth t :
  (∃ o, (∀ ts', eval_terms R inc ip domain depth (t :: ts') = Some o) ∧
        (o = Panicked ↔ term_mechanism t = ":")) ∨
  (∀ ts', eval_terms R inc ip domain depth (t :: ts') = eval_terms R inc ip domain depth ts') ∧
  term_mechanism t ≠ ":".
Proof.
  unfold term_mechanism. cbn [eval_terms].
  set (t' := strings.TrimSpace t). pose proof (colon_not_skipped t') as Hs.
  destruct (skipped_term t'); [right; split; [done|]; intros ?%Hs; done|].
  destruct (split_qualifier t') as [q mech]. simpl in *.
  pose proof (mechanism_panics_iff R inc ip domain depth mech) as Hm.
  destruct (mechanism R inc ip domain depth mech) as [[[[|]|]| |]| |];
    try (left; eexists; split; [done|]; split; [done|]; intros ?%Hm; done);
    try (right; split; [done|]; intros ?%Hm; done).
  - destruct (qualifier_result q).
    + left; eexists; split; [done|]. split; [done|]. intros ?%Hm; done.
    + right; split; [done|]. intros ?%Hm; done.
  - left; eexists; split; [done|]. split; [intros _; by apply Hm|done].
Qed.

(** A published record can crash the evaluation: [mech[2:]] is out of
    range exactly on the one-character mechanism [:], so the loop panics if
    and only if such a term (with or without a qualifier) is reached, that is,
    no earlier term of the record gives a verdict. *)
Theorem eval_terms_panics_iff (R : Resolver) inc (ip : net.IP) (domain : string) (depth : Z)
    (terms : list string) :
  eval_terms R inc ip domain depth terms = Some Panicked ↔
  ∃ pre term post, terms = pre ++ term :: post ∧ term_mechanism term = ":" ∧
    eval_terms R inc ip domain depth pre = None.
Proof.
  split.
  - induction terms as [|t ts IH]; [done|].
    destruct (eval_terms_cons_cases R inc ip domain depth t) as [(o & Ho & Hp)|[Hn Ht]].
    + rewrite Ho. intros [= ->]. exists [], t, ts. naive_solver.
    + rewrite Hn. intros (pre & term & post & -> & ? & ?)%IH.
      exists (t :: pre), term, post. rewrite Hn. done.
  - intros (pre & term & post & -> & Ht & Hpre). rewrite eval_terms_app, Hpre.
    destruct (eval_terms_cons_cases R inc ip domain depth term) as [(o & Ho & Hp)|[Hn ?]]; [|done].
    rewrite Ho. f_equal. by apply Hp.
Qed.

(** * The outcome of an evaluation *)
(** [redirects R ip n d r d' r']: from the record [r] of [d], [n] times in a row no term
    gives a verdict and the first [redirect=] names a domain with a record; the
    last of them is [r'] of [d']. *)
Inductive redirects (R : Resolver) (ip : net.IP) : nat → string → string → string → string → Prop :=
  | redirects_O d r : redirects R ip 0 d r d r
  | redirects_S n d r term r1 d' r' :
      eval_terms R no_include ip d 0 (strings.Fields r) = None →
      head (List.filter is_redirect (strings.Fields r)) = Some term → sdrop 9 term ≠ "" →
      lookupSPF R (sdrop 9 term) = Ok r1 → r1 ≠ "" →
      redirects R ip n (sdrop 9 term) r1 d' r' → redirects R ip (S n) d r d' r'.

(** Evaluation panics on a record: a term [:] is reached. *)
Definition colon_reached (R : Resolver) (ip : net.IP) (domain rec : string) : Prop :=
  ∃ pre term post, strings.Fields rec = pre ++ term :: post ∧ term_mechanism term = ":" ∧
    eval_terms R no_include ip domain 0 pre = None.

Lemma redirects_inv R ip n d r d' r' :
  redirects R ip n d r d' r' → eval_terms R no_include ip d 0 (strings.Fields r) ≠ None → n = 0%nat ∧ d' = d ∧ r' = r.
Proof. by destruct 1. Qed.

(** The record reached after exactly the redirects that the depth still allows. *)
Lemma evaluate_outcome R fuel ip domain rec depth :
  0 ≤ depth ≤ 11 → Z.of_nat fuel + depth = 12 →
  let r := evaluate R fuel ip domain rec depth in
  (r = Panicked ∨ ∃ v, r = Returned v) ∧
  (r = Panicked ↔ ∃ n d' r', Z.of_nat n + depth ≤ 10 ∧ redirects R ip n domain rec d' r' ∧ colon_reached R ip d' r').
Proof.
  revert domain rec depth. induction fuel as [|fuel IH]; intros domain rec depth Hd Hf; [lia|].
  cbn [evaluate]. destruct (Z.ltb_spec 10 depth) as [Hdeep|Hdeep].
  { split; [right; by eexists|]. split; [done|]. intros (n & d' & r' & Hn & _). lia. }
  rewrite (eval_terms_shallow R _ no_include ip domain depth 0). pose proof (eval_terms_panics_iff R no_include ip domain 0 (strings.Fields rec)) as Hp.
  fold (colon_reached R ip domain rec) in Hp.
  destruct (eval_terms R no_include ip domain 0 (strings.Fields rec)) as [o|] eqn:E.
  { split.
    - destruct o as [v| |]; [right; by eexists|by left|by apply eval_terms_not_out_of_fuel in E].
    - split.
      + intros ->. exists 0%nat, domain, rec. split; [lia|]. split; [constructor|]. by apply Hp.
      + intros (n & d' & r' & _ & Hr & Hc). apply redirects_inv in Hr as (-> & -> & ->); [|by rewrite E].
        apply Hp in Hc. by injection Hc. }
  assert (¬ colon_reached R ip domain rec) as Hnc by (intros Hc; by apply Hp in Hc).
  assert (∀ v : Result, (∀ n d' r', ¬ redirects R ip (S n) domain rec d' r') →
    (Returned v = Panicked ∨ ∃ v', Returned v = Returned v') ∧
    (Returned v = Panicked ↔ ∃ n d' r', Z.of_nat n + depth ≤ 10 ∧ redirects R ip n domain rec d' r' ∧ colon_reached R ip d' r')) as Hstop.
  { intros v Hno. split; [right; by eexists|]. split; [done|]. intros (n & d' & r' & _ & Hr & Hc).
    destruct n as [|n]; [|by destruct (Hno n d' r')]. by inversion Hr; subst. }
  destruct (head _) as [term|] eqn:Eh; [|apply Hstop; intros n d' r' Hr; inversion Hr; congruence].
  destruct (String.eqb_spec (sdrop 9 term) "") as [E9|E9]; [apply Hstop; intros n d' r' Hr; inversion Hr; congruence|].
  destruct (lookupSPF R _) as [rec1|e] eqn:El; [|apply Hstop; intros n d' r' Hr; inversion Hr; congruence].
  destruct (String.eqb_spec rec1 "") as [E1|E1]; [apply Hstop; intros n d' r' Hr; inversion Hr; congruence|].
  destruct (IH (sdrop 9 term) rec1 (depth + 1) ltac:(lia) ltac:(lia)) as [IH1 IH2]. split; [exact IH1|].
  rewrite IH2. split; intros (n & d' & r' & Hn & Hr & Hc).
  - exists (S n), d', r'. split; [lia|]. split; [by eapply redirects_S|done].
  - destruct n as [|n]; inversion Hr; subst; [done|]. exists n, d', r'. split; [lia|]. split; [congruence|done].
Qed.

(** C25.  What evaluating an SPF record comes to, for every resolver, one whose records
    redirect to or include each other in a cycle among them.  The recursion is
    cut by the depth check: twelve nested evaluations are enough and more change
    nothing.  The evaluation then ends in one of two ways.  It panics exactly if one of
    the records it reaches through at most ten redirects has a term whose
    mechanism is [:] that no earlier term keeps it from; in every other case it
    returns a result. *)
Theorem evaluate_terminates (R : Resolver) (ip : net.IP) (domain rec : string) (k : nat) :
  let r := evaluate R evaluate_fuel ip domain rec 0 in
  evaluate R (evaluate_fuel + k) ip domain rec 0 = r ∧
  (r = Panicked ↔ ∃ n d' r', (n ≤ 10)%nat ∧ redirects R ip n domain rec d' r' ∧ colon_reached R ip d' r') ∧
  (r ≠ Panicked → ∃ v, r = Returned v).
Proof.
  intros r. split_and!.
  - induction k as [|k IH]; [done|]. rewrite <- IH. replace (evaluate_fuel + S k)%nat with (S (evaluate_fuel + k)) by lia.
    apply evaluate_fuel_enough; unfold evaluate_fuel; lia.
  - unfold r. destruct (evaluate_outcome R evaluate_fuel ip domain rec 0) as [_ ->]; [lia|done|].
    split; intros (n & d' & r' & Hn & H); exists n, d', r'; (split; [lia|exact H]).
  - intros Hr. destruct (evaluate_outcome R evaluate_fuel ip domain rec 0) as [[E|H] _]; [lia|done|done|exact H].
Qed.
