(* ===== verification/SpfSpec.v ===== *)
(** What an SPF verdict should be (RFC 7208, section 4.6), for the part of the
    record syntax that src/pkg/spf/checker.go evaluates as the RFC says: the
    mechanisms [all], [ip4], [ip6], [a], [a:domain] and [mx] with any qualifier,
    and the modifiers [redirect] and [exp].  Records are syntax trees here, their
    texts a relation, addresses numbers, and the verdict a relation with a rule
    per case; [check_host] shows that the string processing of the checker
    implements it. *)
From S2P Require Import Prelude GoLib Spf.

(** * Records *)
Inductive qualifier := Implicit | Plus | Minus | Tilde | Question.
Inductive mech :=
  | All | IP4 (network : net.IP) (len : Z) | IP6 (network : net.IP) (len : Z) | A (target : option string) | MX.
Inductive term := Directive (q : qualifier) (m : mech) | Redirect (d : string) | Explanation (d : string).

Definition sign (q : qualifier) : string :=
  match q with Implicit => "" | Plus => "+" | Minus => "-" | Tilde => "~" | Question => "?" end.
Definition verdict_of (q : qualifier) : ResultCode :=
  match q with
  | Implicit | Plus => ResultPass | Minus => ResultFail | Tilde => ResultSoftFail | Question => ResultNeutral
  end.

(** The optional prefix length at the end of a network. *)
Inductive prefix_text (width : Z) : string → Z → Prop :=
  | pt_none : prefix_text width "" width
  | pt_some t n : strconv.Atoi t = Some n → 0 ≤ n ≤ width → prefix_text width (String "/" t) n.

Inductive writes_mech : mech → string → Prop :=
  | wm_all : writes_mech All "all"
  | wm_ip4 a full network t n :
      strings.Contains a "/" = false → net.ParseIP a = Some full → net.To4 full = Some network →
      Forall is_byte network → prefix_text 32 t n → writes_mech (IP4 network n) ("ip4:" +:+ a +:+ t)
  | wm_ip6 a network t n :
      strings.Contains a "/" = false → net.ParseIP a = Some network → length network = 16%nat → net.To4 network = None →
      Forall is_byte network → prefix_text 128 t n → writes_mech (IP6 network n) ("ip6:" +:+ a +:+ t)
  | wm_a : writes_mech (A None) "a"
  | wm_a_of d : strings.Contains d "/" = false → writes_mech (A (Some d)) ("a:" +:+ d)
  | wm_mx : writes_mech MX "mx".

Inductive writes_term : term → string → Prop :=
  | wt_directive q m t : writes_mech m t → writes_term (Directive q m) (sign q +:+ t)
  | wt_redirect d : d ≠ "" → writes_term (Redirect d) ("redirect=" +:+ d)
  | wt_explanation d : writes_term (Explanation d) ("exp=" +:+ d).

(** A record is its terms, separated by white space, after the version. *)
Definition record_text (ts : list term) (text : string) : Prop :=
  strings.HasPrefix text "v=spf1" = true ∧
  ∃ ws, strings.Fields text = "v=spf1" :: ws ∧ Forall2 writes_term ts ws.

Definition redirect_of (ts : list term) : option string :=
  head (omap (λ t, match t with Redirect d => Some d | _ => None end) ts).

(** * Verdicts *)
Section spec.
Context (R : Resolver) (ip : net.IP).

Definition is_spf (t : string) : bool := strings.HasPrefix t "v=spf1".

(** The first TXT record of [d] that is an SPF record is that of [ts]; or it has none. *)
Definition publishes (d : string) (ts : list term) : Prop :=
  ∃ pre text post, LookupTXT R d = Ok (pre ++ text :: post) ∧ Forall (λ t, is_spf t = false) pre ∧ record_text ts text.
Definition publishes_none (d : string) : Prop :=
  ∃ txts, LookupTXT R d = Ok txts ∧ Forall (λ t, is_spf t = false) txts.

Definition matches (domain : string) (m : mech) : Prop :=
  match m with
  | All => True
  | IP4 network n => ∃ a, net.To4 ip = Some a ∧ leading_bits a n = leading_bits network n
  | IP6 network n => net.To4 ip = None ∧ ∃ a, net.To16 ip = Some a ∧ leading_bits a n = leading_bits network n
  | A target => ∃ ips a, LookupIPAddr R (default domain target) = Ok ips ∧ a ∈ ips ∧ net.Equal a ip = true
  | MX => ∃ hosts h ips a, LookupMX R domain = Ok hosts ∧ h ∈ hosts ∧ LookupIPAddr R h = Ok ips ∧ a ∈ ips ∧ net.Equal a ip = true
  end.

Definition dns_error (domain : string) (m : mech) : Prop :=
  match m with
  | A target => ∃ e, LookupIPAddr R (default domain target) = Err e
  | MX => ∃ e, LookupMX R domain = Err e
  | _ => False
  end.

Definition passes_over (domain : string) (t : term) : Prop :=
  match t with Directive _ m => ¬ matches domain m ∧ ¬ dns_error domain m | _ => True end.

(** The first directive that does not pass over the sender decides; without one a
    redirect hands over to another record, at most [budget] times. *)
Inductive verdict : nat → string → list term → ResultCode → Prop :=
  | v_match b domain pre q m post :
      Forall (passes_over domain) pre → matches domain m → verdict b domain (pre ++ Directive q m :: post) (verdict_of q)
  | v_error b domain pre q m post :
      Forall (passes_over domain) pre → dns_error domain m → verdict b domain (pre ++ Directive q m :: post) ResultTempError
  | v_neutral b domain ts :
      Forall (passes_over domain) ts → redirect_of ts = None → verdict b domain ts ResultNeutral
  | v_redirect_error b domain ts d e :
      Forall (passes_over domain) ts → redirect_of ts = Some d → LookupTXT R d = Err e → verdict b domain ts ResultTempError
  | v_redirect_none b domain ts d :
      Forall (passes_over domain) ts → redirect_of ts = Some d → publishes_none d → verdict b domain ts ResultPermError
  | v_redirect b domain ts d ts' c :
      Forall (passes_over domain) ts → redirect_of ts = Some d → publishes d ts' → verdict b d ts' c →
      verdict (S b) domain ts c
  | v_too_many domain ts d ts' :
      Forall (passes_over domain) ts → redirect_of ts = Some d → publishes d ts' → verdict 0 domain ts ResultPermError.
End spec.

(** * Words of a text *)
Fixpoint no_space (s : string) : bool :=
  match s with EmptyString => true | String c s => negb (strings.is_space c) && no_space s end.

Lemma no_space_app s t : no_space (s +:+ t) = no_space s && no_space t.
Proof. induction s as [|c s IH]; [done|]. rewrite string_app_cons. cbn [no_space]. by rewrite IH, andb_assoc. Qed.

Lemma Fields_no_space s : Forall (λ w, no_space w = true) (strings.Fields s).
Proof.
  unfold strings.Fields. assert (no_space "" = true) as H by done. revert H. generalize "". induction s as [|c s IH]; intros cur Hc; cbn [strings.Fields_aux].
  - destruct (String.eqb cur ""); by repeat constructor.
  - destruct (strings.is_space c) eqn:E.
    + apply Forall_app. split; [destruct (String.eqb cur ""); by repeat constructor|by apply IH].
    + apply IH. rewrite no_space_app, Hc. cbn. by rewrite E.
Qed.

Lemma TrimSpace_no_space s : no_space s = true → strings.TrimSpace s = s.
Proof.
  intros H. unfold strings.TrimSpace. assert (strings.TrimLeftFunc strings.is_space s = s) as ->.
  { destruct s as [|c s]; [done|]. cbn in *. apply andb_true_iff in H as [->%negb_true_iff _]. done. }
  induction s as [|c s IH]; [done|]. cbn in *. apply andb_true_iff in H as [->%negb_true_iff Hs].
  by rewrite andb_false_r, (IH Hs).
Qed.

Lemma IndexByte_first a c t :
  strings.Contains a (String c "") = false → strings.IndexByte (a +:+ String c t) c = Some (String.length a).
Proof.
  unfold strings.Contains, strings.IndexByte. induction a as [|d a IH].
  { pose proof (HasPrefix_app (String c "") t) as H. change (String c "" +:+ t) with (String c t) in H.
    change ("" +:+ String c t) with (String c t). cbn [strings.Index String.length]. by rewrite H. }
  rewrite string_app_cons. cbn [strings.Index strings.HasPrefix String.length]. destruct (Ascii.eqb c d); [done|].
  destruct (strings.Index a (String c "")) eqn:E; [done|]. intros _. by rewrite IH.
Qed.

Lemma cidrArg_text width a t n :
  strings.Contains a "/" = false → prefix_text width t n → cidrArg (a +:+ t) width = Some (a, n).
Proof.
  intros Ha [|t' n' Hn Hr]; unfold cidrArg.
  - rewrite string_app_nil_r. unfold strings.Contains in Ha. unfold strings.IndexByte. by destruct (strings.Index a "/").
  - rewrite IndexByte_first, stake_app by done.
    replace (sdrop (S (String.length a)) (a +:+ String "/" t')) with t'.
    + rewrite Hn. destruct (Z.ltb_spec n' 0), (Z.ltb_spec width n'); try lia. done.
    + clear. induction a as [|c a IH]; [done|]. exact IH.
Qed.

(** * One mechanism *)
Lemma To4_length ip a : net.To4 ip = Some a → length a = 4%nat.
Proof.
  unfold net.To4. case_bool_decide as H1; [by intros [= <-]|]. case_bool_decide as H2; [|done].
  intros [= <-]. rewrite length_drop. destruct H2 as [-> _]. done.
Qed.
Lemma To4_bytes ip a : Forall is_byte ip → net.To4 ip = Some a → Forall is_byte a.
Proof. intros Hb H. pose proof (canonicalIP_bytes ip Hb) as Hc. unfold canonicalIP in Hc. by rewrite H in Hc. Qed.
Lemma canonicalIP_4 a : length a = 4%nat → canonicalIP a = a.
Proof. intros H. unfold canonicalIP, net.To4. by rewrite bool_decide_true. Qed.

Section code.
Context (ip : net.IP) (Hip : Forall is_byte ip).

Lemma matchIP4_text a full network t n :
  strings.Contains a "/" = false → net.ParseIP a = Some full → net.To4 full = Some network → Forall is_byte network →
  prefix_text 32 t n → matchIP4 ip (a +:+ t) = true ↔ ∃ b, net.To4 ip = Some b ∧ leading_bits b n = leading_bits network n.
Proof using Hip.
  intros Ha Hp H4 Hb Ht. unfold matchIP4. rewrite (cidrArg_text _ _ _ _ Ha Ht), Hp, H4.
  destruct (net.To4 ip) as [b|] eqn:E; [|naive_solver]. pose proof (To4_length _ _ E) as Lb. pose proof (To4_length _ _ H4) as Ln.
  assert (0 ≤ n ≤ 32) by (destruct Ht; lia). rewrite cidrMatch_spec; [|exact (To4_bytes _ _ Hip E)|done|].
  - rewrite !canonicalIP_4 by done. naive_solver congruence.
  - rewrite canonicalIP_4, Lb by done. lia.
Qed.

Lemma matchIP6_text a network t n :
  strings.Contains a "/" = false → net.ParseIP a = Some network → length network = 16%nat → net.To4 network = None →
  Forall is_byte network → prefix_text 128 t n →
  matchIP6 ip (a +:+ t) = true ↔ net.To4 ip = None ∧ ∃ b, net.To16 ip = Some b ∧ leading_bits b n = leading_bits network n.
Proof using Hip.
  intros Ha Hp Hl H4 Hb Ht. unfold matchIP6. rewrite (cidrArg_text _ _ _ _ Ha Ht), Hp.
  assert (net.To16 network = Some network) as ->.
  { unfold net.To16. rewrite bool_decide_false by (rewrite Hl; lia). by rewrite bool_decide_true. }
  destruct (net.To16 ip) as [b|] eqn:E16; [|naive_solver]. destruct (net.To4 ip) as [b4|] eqn:E4; [naive_solver|].
  assert (b = ip ∧ length ip = 16%nat) as [-> Li].
  { revert E16 E4. unfold net.To16, net.To4. case_bool_decide; [done|]. case_bool_decide; [|done]. intros [= <-]. done. }
  assert (0 ≤ n ≤ 128) by (destruct Ht; lia).
  assert (canonicalIP ip = ip ∧ canonicalIP network = network) as [Ei En] by (unfold canonicalIP; by rewrite E4, H4).
  rewrite cidrMatch_spec; rewrite ?Ei, ?En; [|done|done|lia]. naive_solver congruence.
Qed.

Context (R : Resolver).

Lemma existsb_matches (f : net.IP → bool) ips : existsb f ips = true ↔ ∃ a, a ∈ ips ∧ f a = true.
Proof using. rewrite existsb_exists. setoid_rewrite list_elem_of_In. done. Qed.

(** What the [switch] of [evaluate] answers for a mechanism of the grammar. *)
Definition decided (domain : string) (m : mech) (r : res bool) : Prop :=
  match r with
  | Ok b => (b = true ↔ matches R ip domain m) ∧ ¬ dns_error R domain m
  | Err _ => dns_error R domain m ∧ ¬ matches R ip domain m
  end.

Lemma matchA_decided domain t : decided domain (A t) (matchA R (default domain t) ip).
Proof using.
  unfold matchA, decided, res_fmap. cbn. destruct (LookupIPAddr R _) as [ips|e].
  - split; [|naive_solver]. rewrite existsb_matches. naive_solver.
  - naive_solver.
Qed.

Lemma matchMX_decided domain : decided domain MX (matchMX R domain ip).
Proof using.
  unfold matchMX, decided, res_fmap, anyMX. cbn. destruct (LookupMX R domain) as [hosts|e]; [|naive_solver].
  split; [|naive_solver]. rewrite existsb_exists. setoid_rewrite <- list_elem_of_In. split.
  - intros (h & Hh & H). destruct (LookupIPAddr R h) as [ips|] eqn:E; [|done]. apply existsb_matches in H as (a & Ha & H).
    by exists hosts, h, ips, a.
  - intros (hs & h & ips & a & [= <-] & Hh & E & Ha & H). exists h. rewrite E, existsb_matches. naive_solver.
Qed.

Context (inc : string → Z → outcome (res bool)).

Lemma mechanism_text domain depth m w :
  writes_mech m w → ∃ r, mechanism R inc ip domain depth w = MechMatch (Returned r) ∧ decided domain m r.
Proof using Hip.
  intros [|a full network t n Ha Hp H4 Hb Ht|a network t n Ha Hp Hl H4 Hb Ht| |d Hd|].
  - exists (Ok true). split; [done|]. unfold decided. cbn. naive_solver.
  - exists (Ok (matchIP4 ip (a +:+ t))). split; [done|]. unfold decided. cbn. split; [by eapply matchIP4_text|tauto].
  - exists (Ok (matchIP6 ip (a +:+ t))). split; [done|]. unfold decided. cbn. split; [by eapply matchIP6_text|tauto].
  - exists (matchA R domain ip). split; [done|]. apply (matchA_decided domain None).
  - exists (matchA R d ip). split; [done|]. apply (matchA_decided domain (Some d)).
  - exists (matchMX R domain ip). split; [done|]. apply matchMX_decided.
Qed.

(** * The loop over the terms *)
Lemma directive_word q m w : writes_mech m w →
  skipped_term (sign q +:+ w) = false ∧ is_redirect (sign q +:+ w) = false ∧
  ∃ c, split_qualifier (sign q +:+ w) = (c, w) ∧ ∃ text, qualifier_result c = Some (mkResult (verdict_of q) text).
Proof using. intros [ | | | | | ]; destruct q; (split_and!; [done|done|]); eexists; (split; [reflexivity|]); by eexists. Qed.

Lemma eval_term domain depth t w :
  writes_term t w → no_space w = true →
  match t with
  | Directive q m =>
      passes_over R ip domain t ∧ eval_terms R inc ip domain depth [w] = None ∨
      matches R ip domain m ∧ (∃ text, eval_terms R inc ip domain depth [w] = Some (Returned (mkResult (verdict_of q) text))) ∨
      dns_error R domain m ∧ (∃ text, eval_terms R inc ip domain depth [w] = Some (Returned (mkResult ResultTempError text)))
  | _ => eval_terms R inc ip domain depth [w] = None
  end.
Proof using Hip.
  intros Ht Hs. cbn [eval_terms]. rewrite (TrimSpace_no_space w Hs). destruct Ht as [q m w Hm|d Hd|d]; [|done|done].
  destruct (directive_word q m w Hm) as (-> & _ & c & -> & text & ->).
  destruct (mechanism_text domain depth m w Hm) as ([b|e] & -> & Hr); cbn [decided] in Hr.
  - destruct Hr as [Hb Hn]. destruct b.
    + right; left. split; [by apply Hb|by exists text].
    + left. split; [|done]. split; [by rewrite <- Hb|exact Hn].
  - right; right. split; [apply Hr|]. by eexists.
Qed.

Lemma eval_terms_pass domain depth ts ws :
  Forall2 writes_term ts ws → Forall (λ w, no_space w = true) ws → Forall (passes_over R ip domain) ts →
  eval_terms R inc ip domain depth ws = None.
Proof using Hip.
  intros H2. induction H2 as [|t w ts ws Ht H2 IH]; [done|]. intros [Hw Hws]%Forall_cons [Hp Hps]%Forall_cons.
  change (w :: ws) with ([w] ++ ws). rewrite eval_terms_app. pose proof (eval_term domain depth t w Ht Hw) as H.
  destruct t as [q m|d|d]; [|by rewrite H, IH..]. cbn in Hp. destruct H as [[_ ->]|[[? _]|[? _]]]; [by apply IH|tauto..].
Qed.

(** Every list of terms passes over the sender or has a first that does not. *)
Lemma first_decisive domain ts ws :
  Forall2 writes_term ts ws → Forall (λ w, no_space w = true) ws →
  Forall (passes_over R ip domain) ts ∨
  ∃ pre q m post, ts = pre ++ Directive q m :: post ∧ Forall (passes_over R ip domain) pre ∧ (matches R ip domain m ∨ dns_error R domain m).
Proof using Hip inc.
  intros H2. induction H2 as [|t w ts ws Ht H2 IH]; [by left|]. intros [Hw Hws]%Forall_cons.
  assert (passes_over R ip domain t ∨ ∃ q m, t = Directive q m ∧ (matches R ip domain m ∨ dns_error R domain m)) as [Hp|(q & m & -> & Hm)].
  { pose proof (eval_term domain 0 t w Ht Hw) as H. destruct t as [q m|d|d]; [|by left..].
    destruct H as [[H _]|[[H _]|[H _]]]; [by left|right; exists q, m; auto..]. }
  - destruct (IH Hws) as [H|(pre & q & m & post & -> & Hpre & Hm)]; [left; by constructor|].
    right. exists (t :: pre), q, m, post. split; [done|]. split; [by constructor|done].
  - right. by exists [], q, m, ts.
Qed.

Lemma eval_terms_first domain depth pre q m post ws :
  Forall2 writes_term (pre ++ Directive q m :: post) ws → Forall (λ w, no_space w = true) ws →
  Forall (passes_over R ip domain) pre → matches R ip domain m ∨ dns_error R domain m →
  ∃ c text, eval_terms R inc ip domain depth ws = Some (Returned (mkResult c text)) ∧
    (matches R ip domain m → c = verdict_of q) ∧ (dns_error R domain m → c = ResultTempError).
Proof using Hip inc.
  intros (ws1 & ws2 & H1 & (w & ws3 & Hw & _ & ->)%Forall2_cons_inv_l & ->)%Forall2_app_inv_l [Hs1 [Hsw _]%Forall_cons]%Forall_app Hp Hm.
  change (w :: ws3) with ([w] ++ ws3). rewrite !eval_terms_app, (eval_terms_pass domain depth pre ws1) by done.
  assert (¬ (matches R ip domain m ∧ dns_error R domain m)) as Hno.
  { inversion Hw as [? ? w' Hm'| |]; subst. destruct (mechanism_text domain depth m w' Hm') as ([b|e] & _ & Hr); cbn in Hr; tauto. }
  destruct (eval_term domain depth _ w Hw Hsw) as [[[? ?] _]|[[H (text & ->)]|[H (text & ->)]]]; [tauto|..].
  - exists (verdict_of q), text. split; [done|]. split; [done|]. intros Hd. by destruct Hno.
  - exists ResultTempError, text. split; [done|]. split; [|done]. intros Hmt. by destruct Hno.
Qed.

Lemma redirect_words ts ws :
  Forall2 writes_term ts ws → head (List.filter is_redirect ws) = (λ d, "redirect=" +:+ d) <$> redirect_of ts ∧ redirect_of ts ≠ Some "".
Proof using.
  induction 1 as [|t w ts ws Ht _ IH]; [done|]. destruct Ht as [q m w Hm|d Hd|d]; cbn [List.filter].
  - destruct (directive_word q m w Hm) as (_ & -> & _). exact IH.
  - change (is_redirect ("redirect=" +:+ d)) with (strings.HasPrefix ("redirect=" +:+ d) "redirect="). rewrite HasPrefix_app.
    split; [done|]. cbn. congruence.
  - exact IH.
Qed.
End code.

(** * Records and redirects *)
Lemma publishes_lookup R d ts : publishes R d ts → ∃ text, lookupSPF R d = Ok text ∧ text ≠ "" ∧ record_text ts text.
Proof.
  intros (pre & text & post & Hl & Hpre & Ht). exists text. destruct Ht as [Hp Hw]. split; [|split; [by intros ->|done]].
  unfold lookupSPF. rewrite Hl. f_equal. clear Hl Hw. induction Hpre as [|t pre Hn _ IH]; cbn [app List.filter].
  - by rewrite Hp.
  - unfold is_spf in Hn. by rewrite Hn.
Qed.

Lemma publishes_none_lookup R d : publishes_none R d → lookupSPF R d = Ok "".
Proof.
  intros (txts & Hl & H). unfold lookupSPF. rewrite Hl. f_equal. clear Hl. induction H as [|t ts Hn _ IH]; [done|].
  cbn [List.filter]. unfold is_spf in Hn. by rewrite Hn.
Qed.

Lemma evaluate_step R fuel ip domain ts text depth :
  record_text ts text → depth ≤ 10 → ∃ inc ws,
  Forall2 writes_term ts ws ∧ Forall (λ w, no_space w = true) ws ∧
  evaluate R (S fuel) ip domain text depth =
  match eval_terms R inc ip domain depth ws with
  | Some o => o
  | None =>
      match redirect_of ts with
      | None => Returned (mkResult ResultNeutral "no matching mechanism")
      | Some d =>
          match lookupSPF R d with
          | Err _ => Returned (mkResult ResultTempError "redirect lookup failed")
          | Ok rec => if String.eqb rec "" then Returned (mkResult ResultPermError "redirect target has no SPF")
                      else evaluate R fuel ip d rec (depth + 1)
          end
      end
  end.
Proof.
  intros (_ & ws & Hf & Hw) Hd. exists (λ d n, evaluateInclude R (evaluate R fuel) ip d n), ws.
  pose proof (Fields_no_space text) as Hs. rewrite Hf in Hs. apply Forall_cons in Hs as [_ Hs].
  split; [done|]. split; [done|]. cbn [evaluate]. destruct (Z.ltb_spec 10 depth) as [|_]; [lia|]. rewrite Hf.
  change (List.filter is_redirect ("v=spf1" :: ws)) with (List.filter is_redirect ws).
  change (eval_terms R ?inc ip domain depth ("v=spf1" :: ws)) with (eval_terms R inc ip domain depth ws).
  destruct (redirect_words ts ws Hw) as [-> Hne]. destruct (redirect_of ts) as [d|]; [|done]. cbn [fmap option_fmap option_map].
  change (sdrop 9 ("redirect=" +:+ d)) with d. rewrite (proj2 (String.eqb_neq d "")) by congruence. done.
Qed.

Lemma evaluate_verdict R ip b domain ts c :
  Forall is_byte ip → verdict R ip b domain ts c →
  ∀ text depth fuel, record_text ts text → depth + Z.of_nat b = 10 → (b + 2 ≤ fuel)%nat →
  ∃ txt, evaluate R fuel ip domain text depth = Returned (mkResult c txt).
Proof.
  intros Hip. induction 1 as [b domain pre q m post Hpre Hm|b domain pre q m post Hpre Hm|b domain ts Hall Hr|b domain ts d e Hall Hr Hl
    |b domain ts d Hall Hr Hn|b domain ts d ts' c Hall Hr Hp _ IH|domain ts d ts' Hall Hr Hp];
    intros text depth [|fuel] Ht Hd Hf; try lia;
    destruct (evaluate_step R fuel ip domain _ text depth Ht ltac:(lia)) as (inc & ws & Hw & Hs & ->).
  1,2: destruct (eval_terms_first ip Hip R inc domain depth pre q m post ws Hw Hs Hpre ltac:(auto)) as (c & txt & -> & H1 & H2);
    exists txt; rewrite ?H1, ?H2 by done; reflexivity.
  all: rewrite (eval_terms_pass ip Hip R inc domain depth ts ws Hw Hs Hall), Hr.
  - by eexists.
  - unfold lookupSPF. rewrite Hl. by eexists.
  - rewrite (publishes_none_lookup R d Hn). by eexists.
  - destruct (publishes_lookup R d ts' Hp) as (text' & -> & Hne & Ht'). rewrite (proj2 (String.eqb_neq _ _) Hne).
    apply IH; [done|lia|lia].
  - destruct (publishes_lookup R d ts' Hp) as (text' & -> & Hne & Ht'). rewrite (proj2 (String.eqb_neq _ _) Hne).
    destruct fuel as [|fuel]; [lia|]. cbn [evaluate]. replace (10 <? depth + 1) with true by lia. by eexists.
Qed.

(** Every SPF record that can be looked up is one of the grammar. *)
Definition grammatical (R : Resolver) : Prop :=
  ∀ d txts t, LookupTXT R d = Ok txts → t ∈ txts → is_spf t = true → ∃ ts, record_text ts t.

Lemma publishes_cases R d txts :
  grammatical R → LookupTXT R d = Ok txts → publishes_none R d ∨ ∃ ts, publishes R d ts.
Proof.
  intros Hg Hl. assert (Forall (λ t, is_spf t = false) txts ∨
    ∃ pre t post, txts = pre ++ t :: post ∧ Forall (λ t, is_spf t = false) pre ∧ is_spf t = true) as [H|(pre & t & post & -> & Hp & Ht)].
  { clear Hl. induction txts as [|t txts IH]; [by left|]. destruct (is_spf t) eqn:E.
    - right. by exists [], t, txts.
    - destruct IH as [H|(pre & x & post & -> & Hp & Hx)]; [left; by constructor|].
      right. exists (t :: pre), x, post. split; [done|]. split; [by constructor|done]. }
  - left. by exists txts.
  - right. destruct (Hg d _ t Hl ltac:(set_solver) Ht) as [ts Hts]. by exists ts, pre, t, post.
Qed.

Lemma verdict_total R ip b domain ts text :
  Forall is_byte ip → grammatical R → record_text ts text → ∃ c, verdict R ip b domain ts c.
Proof.
  intros Hip Hg. revert domain ts text. induction b as [|b IH]; intros domain ts text (Hpre & ws & Hf & Hw);
    pose proof (Fields_no_space text) as Hs; rewrite Hf in Hs; apply Forall_cons in Hs as [_ Hs];
    (destruct (first_decisive ip Hip R no_include domain ts ws Hw Hs) as [Hall|(pre & q & m & post & -> & Hp & [Hm|Hm])];
     [|by eexists; apply v_match|by eexists; apply v_error]);
    (destruct (redirect_of ts) as [d|] eqn:Er; [|by eexists; apply v_neutral]);
    (destruct (LookupTXT R d) as [txts|e] eqn:El; [|by eexists; eapply v_redirect_error]);
    (destruct (publishes_cases R d txts Hg El) as [Hn|[ts' Hp]]; [by eexists; eapply v_redirect_none|]).
  - by eexists; eapply v_too_many.
  - destruct (publishes_lookup R d ts' Hp) as (text' & _ & _ & Ht'). destruct (IH d ts' text' Ht') as [c Hc].
    exists c. by eapply v_redirect.
Qed.

(** C23.  The checker implements the specification on every record of the grammar:
    when the domain publishes the record [ts], [Check] answers the verdict of
    [ts] for the sender's address, with the mechanisms tried from left to right,
    networks compared by their leading bits, a DNS failure of the deciding
    mechanism as a temporary error, and up to ten redirects followed; and if the
    records it is redirected to are of the grammar too, there is a verdict. *)
Theorem check_host (R : Resolver) (ip : net.IP) (domain helo : string) (ts : list term) :
  Forall is_byte ip → publishes R domain ts →
  (∀ c, verdict R ip 10 domain ts c → ∃ text, Check R ip domain helo = Returned (mkResult c text)) ∧
  (grammatical R → ∃ c, verdict R ip 10 domain ts c ∧ ∃ text, Check R ip domain helo = Returned (mkResult c text)).
Proof.
  intros Hip Hp. destruct (publishes_lookup R domain ts Hp) as (text & Hl & Hne & Ht).
  assert (∀ c, verdict R ip 10 domain ts c → ∃ text, Check R ip domain helo = Returned (mkResult c text)) as Hv.
  { intros c Hc. unfold Check. rewrite Hl, (proj2 (String.eqb_neq _ _) Hne).
    apply (evaluate_verdict R ip 10 domain ts c Hip Hc); [done|lia|unfold evaluate_fuel; lia]. }
  split; [exact Hv|]. intros Hg. destruct (verdict_total R ip 10 domain ts text Hip Hg Ht) as [c Hc].
  exists c. split; [done|by apply Hv].
Qed.

(** The mechanisms left out of the grammar are looked up under a wrong name: a
    prefix length stays in the name, or becomes the name, and [mx:], like
    [include:], is taken for an [a:] with the name after its second character. *)
Lemma misread_mechanisms (R : Resolver) inc (ip : net.IP) (domain : string) (depth : Z) (d n : string) :
  strings.Contains n ":" = false →
  mechanism R inc ip domain depth ("a:" +:+ d +:+ "/" +:+ n) = MechMatch (Returned (matchA R (d +:+ "/" +:+ n) ip)) ∧
  mechanism R inc ip domain depth ("a/" +:+ n) = MechMatch (Returned (matchAWithCIDR R n ip)) ∧
  mechanism R inc ip domain depth ("mx:" +:+ d) = MechMatch (Returned (matchAWithCIDR R (":" +:+ d) ip)) ∧
  mechanism R inc ip domain depth ("mx/" +:+ n) = MechMatch (Returned (matchMXWithCIDR R n ip)).
Proof.
  intros Hn. assert (∀ t, (slen ("a/" +:+ t) <? 2) = false ∧ (slen ("mx:" +:+ t) <? 2) = false) as Hl.
  { intros t. unfold slen. rewrite !string_length_app. cbn [String.length]. split; apply Z.ltb_ge; lia. }
  split; [done|]. split; [|split].
  - unfold mechanism. destruct (Hl n) as [-> _]. done.
  - unfold mechanism. destruct (Hl d) as [_ ->]. done.
  - unfold mechanism. assert (strings.Contains ("mx/" +:+ n) ":" = false) as ->; [|done].
    revert Hn. unfold strings.Contains.
    change (strings.Index ("mx/" +:+ n) ":") with (S <$> (S <$> (S <$> strings.Index n ":"))). by destruct (strings.Index n ":").
Qed.

(** A domain that redirects to another's record. *)
Definition demo_resolver : Resolver :=
  mkResolver (λ d, if String.eqb d "example.org" then Ok ["google-site"; "v=spf1 -ip4:192.0.2.128/25  redirect=_spf.example.net"]
                   else if String.eqb d "_spf.example.net" then Ok ["v=spf1 a:relay.example ?ip4:192.0.2.0/24 -all"] else Ok [])
    (λ h, if String.eqb h "relay.example" then Ok [[198;51;100;9]] else Ok []) (λ _, Ok []).

Definition demo_record : list term := [Directive Minus (IP4 [192;0;2;128] 25); Redirect "_spf.example.net"].
Definition demo_target : list term :=
  [Directive Implicit (A (Some "relay.example")); Directive Question (IP4 [192;0;2;0] 24); Directive Minus All].

Lemma demo_publishes : publishes demo_resolver "example.org" demo_record.
Proof.
  exists ["google-site"], "v=spf1 -ip4:192.0.2.128/25  redirect=_spf.example.net", []. split; [reflexivity|]. split; [by repeat constructor|].
  split; [reflexivity|]. exists ["-ip4:192.0.2.128/25"; "redirect=_spf.example.net"]. split; [reflexivity|].
  constructor; [|constructor; [by apply (wt_redirect "_spf.example.net")|constructor]].
  apply (wt_directive Minus _ "ip4:192.0.2.128/25").
  eapply (wm_ip4 "192.0.2.128" (net.v4InV6Prefix ++ [192;0;2;128]) _ "/25"); [reflexivity..| |].
  - unfold is_byte. repeat constructor; lia.
  - by apply (pt_some 32 "25" 25).
Qed.

Lemma demo_publishes_target : publishes demo_resolver "_spf.example.net" demo_target.
Proof.
  exists [], "v=spf1 a:relay.example ?ip4:192.0.2.0/24 -all", []. split; [reflexivity|]. split; [constructor|].
  split; [reflexivity|]. exists ["a:relay.example"; "?ip4:192.0.2.0/24"; "-all"]. split; [reflexivity|].
  constructor; [apply (wt_directive Implicit _ "a:relay.example"); by apply (wm_a_of "relay.example")|].
  constructor; [|constructor; [apply (wt_directive Minus _ "all"); constructor|constructor]].
  apply (wt_directive Question _ "ip4:192.0.2.0/24").
  eapply (wm_ip4 "192.0.2.0" (net.v4InV6Prefix ++ [192;0;2;0]) _ "/24"); [reflexivity..| |].
  - unfold is_byte. repeat constructor; lia.
  - by apply (pt_some 32 "24" 24).
Qed.

Lemma demo_verdict : verdict demo_resolver [192;0;2;77] 10 "example.org" demo_record ResultNeutral.
Proof.
  eapply v_redirect; [|reflexivity|exact demo_publishes_target|].
  - constructor; [|by repeat constructor]. split; [|by intros []]. intros (a & [= <-] & H). revert H. vm_compute. discriminate.
  - apply (v_match demo_resolver [192;0;2;77] 9 "_spf.example.net" [Directive Implicit (A (Some "relay.example"))] Question).
    + constructor; [|constructor]. split; [|by intros [e He]]. intros (ips & a & [= <-] & ->%list_elem_of_singleton & H).
      revert H. vm_compute. discriminate.
    + exists [192;0;2;77]. split; [reflexivity|vm_compute; reflexivity].
Qed.

Lemma check_host_witness : ∃ text, Check demo_resolver [192;0;2;77] "example.org" "" = Returned (mkResult ResultNeutral text).
Proof.
  apply (check_host demo_resolver [192;0;2;77] "example.org" "" demo_record);
    [unfold is_byte; repeat constructor; lia|exact demo_publishes|exact demo_verdict].
Defined.
