(* ===== verification/Dmarc.v ===== *)
(** DMARC policy evaluation (src/pkg/dmarc/policy.go) and the encoding of
    aggregate reports (src/pkg/dmarc/report.go).  [dmarc.Lookup] belongs to the
    go-msgauth library and queries DNS; it is an argument of the definitions
    that call it. *)
From S2P Require Import Prelude GoLib.

(** * Policy evaluation *)

(** The part of go-msgauth's [dmarc.Record] that the program reads. *)
Inductive AlignmentMode := AlignmentStrict | AlignmentRelaxed.
#[export] Instance AlignmentMode_eq_dec : EqDecision AlignmentMode.
Proof. solve_decision. Defined.

Inductive Policy := PolicyNone | PolicyQuarantine | PolicyReject.
#[export] Instance Policy_eq_dec : EqDecision Policy.
Proof. solve_decision. Defined.

Record DmarcRecord := mkDmarcRecord {
  dr_Policy : Policy;
  dr_SPFAlignment : AlignmentMode;
  dr_DKIMAlignment : AlignmentMode;
  dr_SubdomainPolicy : option Policy;
  dr_Percent : option Z;
  dr_ReportURIAggregate : list string;
}.

(** Answer of [dmarc.Lookup]: a record, [ErrNoPolicy], or another error. *)
Inductive lookup_answer := Found (r : DmarcRecord) | NoPolicy | LookupFailed (e : error).

Definition Evaluate (claimedDomain spfDomain : string) (spfPass : bool)
    (dkimDomain : string) (dkimPass : bool) : Policy * string :=
  let spfAligned := spfPass && String.eqb spfDomain claimedDomain in
  let dkimAligned := dkimPass && String.eqb dkimDomain claimedDomain in
  if spfAligned || dkimAligned then (PolicyNone, "pass") else (PolicyNone, "no-dmarc-record").

Definition isAligned (domain claimedDomain : string) (alignment : AlignmentMode) : bool :=
  if negb (strings.Contains domain ".") then false
  else match alignment with
       | AlignmentRelaxed =>
           String.eqb domain claimedDomain || strings.HasSuffix domain ("." +:+ claimedDomain)
       | AlignmentStrict => String.eqb domain claimedDomain
       end.

Definition LookupAndEvaluate (Lookup : string → lookup_answer) (claimedDomain spfDomain : string)
    (spfPass : bool) (dkimDomain : string) (dkimPass : bool) : Policy * option error :=
  match Lookup claimedDomain with
  | NoPolicy => (PolicyNone, None)
  | LookupFailed e => (PolicyNone, Some (Errorf "dmarc: lookup: " e ""))
  | Found record =>
      let spfAligned := spfPass && isAligned spfDomain claimedDomain (dr_SPFAlignment record) in
      let dkimAligned := dkimPass && isAligned dkimDomain claimedDomain (dr_DKIMAlignment record) in
      if negb spfAligned && negb dkimAligned then (dr_Policy record, None) else (PolicyNone, None)
  end.

Lemma HasSuffix_spec s suf :
  strings.HasSuffix s suf = true ↔ ∃ pre, s = pre +:+ suf.
Proof.
  unfold strings.HasSuffix. split.
  - destruct (Nat.leb_spec (String.length suf) (String.length s)) as [Hle|]; [|done].
    intros E%String.eqb_eq. exists (stake (String.length s - String.length suf) s).
    rewrite <- E at 2. apply stake_sdrop.
  - intros [pre ->]. rewrite string_length_app.
    rewrite (proj2 (Nat.leb_le _ _)) by lia.
    replace (_ + _ - _)%nat with (String.length pre) by lia.
    rewrite sdrop_app. apply String.eqb_refl.
Qed.

(** The identifier alignment a DMARC record asks for: a domain of at least two
    labels that is the author domain itself or, in relaxed mode, lies under it. *)
Definition aligned_spec (domain claimed : string) (m : AlignmentMode) : Prop :=
  strings.Contains domain "." = true ∧
  (domain = claimed ∨ m = AlignmentRelaxed ∧ ∃ sub, domain = sub +:+ "." +:+ claimed).

Lemma isAligned_spec domain claimed m : isAligned domain claimed m = true ↔ aligned_spec domain claimed m.
Proof.
  unfold isAligned, aligned_spec. destruct (strings.Contains domain "."); simpl; [|naive_solver].
  destruct m; rewrite ?orb_true_iff, ?HasSuffix_spec, String.eqb_eq; naive_solver.
Qed.

(** C26.  A published policy is applied to a message exactly when a record
    exists and neither a passing SPF result nor a passing DKIM result is
    aligned with the author domain; in every other case - an aligned pass, no
    record, a failed lookup - the disposition is [none], and only the failed
    lookup is reported as an error. *)
Theorem LookupAndEvaluate_spec (Lookup : string → lookup_answer) (claimed spfDomain : string)
    (spfPass : bool) (dkimDomain : string) (dkimPass : bool) (p : Policy) (err : option error) :
  LookupAndEvaluate Lookup claimed spfDomain spfPass dkimDomain dkimPass = (p, err) ↔
  match Lookup claimed with
  | NoPolicy => p = PolicyNone ∧ err = None
  | LookupFailed e => p = PolicyNone ∧ err = Some (Errorf "dmarc: lookup: " e "")
  | Found r =>
      err = None ∧
      ((spfPass = true ∧ aligned_spec spfDomain claimed (dr_SPFAlignment r) ∨
        dkimPass = true ∧ aligned_spec dkimDomain claimed (dr_DKIMAlignment r)) ∧ p = PolicyNone
       ∨ ¬ (spfPass = true ∧ aligned_spec spfDomain claimed (dr_SPFAlignment r)) ∧
         ¬ (dkimPass = true ∧ aligned_spec dkimDomain claimed (dr_DKIMAlignment r)) ∧ p = dr_Policy r)
  end.
Proof.
  unfold LookupAndEvaluate. destruct (Lookup claimed) as [r| |e]; [|naive_solver..].
  rewrite <- !isAligned_spec.
  destruct spfPass, dkimPass, (isAligned spfDomain _ _), (isAligned dkimDomain _ _); simpl; naive_solver.
Qed.

(** * Base64 with 76-column lines *)

Definition alphabet : string :=
  "ABCDEFGHIJKLMNOPQRSTUVWXYZabcdefghijklmnopqrstuvwxyz0123456789+/".

Definition enc_char (v : Z) : ascii := default "A"%char (String.get (Z.to_nat v) alphabet).

(** [c4] for the chunk [b0 b1 b2] of which [remaining] bytes are data. *)
Definition quad (b0 b1 b2 : Z) (remaining : Z) : list ascii :=
  let c0 := enc_char (Z.shiftr b0 2) in
  let c1 := enc_char (Z.lor (Z.shiftl (Z.land b0 3) 4) (Z.shiftr b1 4)) in
  let c2 := enc_char (Z.lor (Z.shiftl (Z.land b1 15) 2) (Z.shiftr b2 6)) in
  let c3 := enc_char (Z.land b2 63) in
  [c0; c1; if remaining <? 2 then "="%char else c2; if remaining <? 3 then "="%char else c3].

(** The inner loop: write each character, breaking the line after column 76. *)
Fixpoint emit (cs : list ascii) (lineLen : Z) : list ascii * Z :=
  match cs with
  | [] => ([], lineLen)
  | c :: cs =>
      let lineLen := lineLen + 1 in
      if 76 <=? lineLen
      then let '(out, n) := emit cs 0 in (c :: chr 13 :: chr 10 :: out, n)
      else let '(out, n) := emit cs lineLen in (c :: out, n)
  end.

Fixpoint base64_loop (data : list Z) (lineLen : Z) : list ascii :=
  match data with
  | [] => []
  | [b0] => (emit (quad b0 0 0 1) lineLen).1
  | [b0; b1] => (emit (quad b0 b1 0 2) lineLen).1
  | b0 :: b1 :: b2 :: rest =>
      let '(out, n) := emit (quad b0 b1 b2 3) lineLen in out ++ base64_loop rest n
  end.

Definition base64Encode (data : list Z) : list ascii := base64_loop data 0.

(** The address a [mailto:] report URI names. *)
Definition report_address (ruaURI : string) : string :=
  if (7 <? slen ruaURI) && String.eqb (stake 7 ruaURI) "mailto:" then sdrop 7 ruaURI else ruaURI.

Example base64_example :
  string_of_list_ascii (base64Encode (List.map ord (list_ascii_of_string "Marco!!"))) = "TWFyY28hIQ==".
Proof. reflexivity. Qed.

(** ** The reference decoder: RFC 2045, line breaks ignored *)
Definition dec_char (c : ascii) : option Z :=
  Z.of_nat <$> strings.Index alphabet (String c EmptyString).

Definition is_crlf (c : ascii) : bool := Ascii.eqb c (chr 13) || Ascii.eqb c (chr 10).

Definition dec_bytes (v0 v1 v2 v3 : Z) : list Z :=
  let n := v0 * 2 ^ 18 + v1 * 2 ^ 12 + v2 * 2 ^ 6 + v3 in
  [n / 65536; n / 256 mod 256; n mod 256].

Fixpoint decode4 (cs : list ascii) : option (list Z) :=
  match cs with
  | [] => Some []
  | c0 :: c1 :: c2 :: c3 :: rest =>
      v0 ← dec_char c0; v1 ← dec_char c1;
      if Ascii.eqb c3 "=" then
        if negb (Nat.eqb (length rest) 0) then None
        else if Ascii.eqb c2 "=" then Some (take 1 (dec_bytes v0 v1 0 0))
        else v2 ← dec_char c2; Some (take 2 (dec_bytes v0 v1 v2 0))
      else v2 ← dec_char c2; v3 ← dec_char c3;
           tl ← decode4 rest; Some (dec_bytes v0 v1 v2 v3 ++ tl)
  | _ => None
  end.

Definition base64Decode (cs : list ascii) : option (list Z) :=
  decode4 (List.filter (λ c, negb (is_crlf c)) cs).

(** ** The characters without the line breaks *)
Fixpoint quads (data : list Z) : list ascii :=
  match data with
  | [] => []
  | [b0] => quad b0 0 0 1
  | [b0; b1] => quad b0 b1 0 2
  | b0 :: b1 :: b2 :: rest => quad b0 b1 b2 3 ++ quads rest
  end.

Lemma emit_app cs1 cs2 n :
  emit (cs1 ++ cs2) n =
  ((emit cs1 n).1 ++ (emit cs2 (emit cs1 n).2).1, (emit cs2 (emit cs1 n).2).2).
Proof.
  revert n. induction cs1 as [|c cs1 IH]; intros n; simpl; [by destruct (emit cs2 n)|].
  destruct (76 <=? n + 1); rewrite IH; by destruct (emit cs1 _).
Qed.

Lemma base64_loop_quads data n : base64_loop data n = (emit (quads data) n).1.
Proof.
  revert n. induction data as [| | |a b c l IH] using list_ind3; intros n; try done.
  cbn [base64_loop quads]. rewrite emit_app. destruct (emit (quad a b c 3) n) as [out n'].
  simpl. by rewrite IH.
Qed.

Definition b64_char (c : ascii) : Prop := is_crlf c = false.

Lemma enc_char_spec v : 0 ≤ v < 64 → dec_char (enc_char v) = Some v ∧ enc_char v ≠ "="%char ∧ b64_char (enc_char v).
Proof.
  intros Hv.
  assert (forallb (λ v, bool_decide (dec_char (enc_char v) = Some v ∧ enc_char v ≠ "="%char ∧ is_crlf (enc_char v) = false))
            (List.map Z.of_nat (seq 0 64)) = true) as H by (vm_compute; reflexivity).
  rewrite forallb_forall in H. apply (bool_decide_eq_true_1 _), H, in_map_iff.
  exists (Z.to_nat v). rewrite in_seq. lia.
Qed.

(** The three lossy shifts of [quad], as arithmetic. *)
Lemma quad_shifts a b :
  is_byte a → is_byte b →
  Z.lor (Z.shiftl (Z.land a 3) 4) (Z.shiftr b 4) = a mod 4 * 16 + b / 16 ∧
  Z.lor (Z.shiftl (Z.land a 15) 2) (Z.shiftr b 6) = a mod 16 * 4 + b / 64.
Proof.
  intros Ha Hb.
  assert (forallb (λ a, forallb (λ b,
      (Z.lor (Z.shiftl (Z.land a 3) 4) (Z.shiftr b 4) =? a mod 4 * 16 + b / 16) &&
      (Z.lor (Z.shiftl (Z.land a 15) 2) (Z.shiftr b 6) =? a mod 16 * 4 + b / 64))
      (List.map Z.of_nat (seq 0 256))) (List.map Z.of_nat (seq 0 256)) = true) as H
    by (vm_compute; reflexivity).
  rewrite forallb_forall in H. assert (∀ z, is_byte z → In z (List.map Z.of_nat (seq 0 256))) as Hin.
  { intros z Hz. unfold is_byte in Hz. apply in_map_iff. exists (Z.to_nat z). rewrite in_seq. lia. }
  specialize (H a (Hin a Ha)). rewrite forallb_forall in H. specialize (H b (Hin b Hb)).
  rewrite andb_true_iff, !Z.eqb_eq in H. exact H.
Qed.

(** The sextets of a chunk are sextets, and reassemble to its bytes. *)
Lemma sextets a b c :
  is_byte a → is_byte b → is_byte c →
  (0 ≤ a / 4 < 64 ∧ 0 ≤ a mod 4 * 16 + b / 16 < 64 ∧ 0 ≤ b mod 16 * 4 + c / 64 < 64 ∧ 0 ≤ c mod 64 < 64)
  ∧ dec_bytes (a / 4) (a mod 4 * 16 + b / 16) (b mod 16 * 4 + c / 64) (c mod 64) = [a; b; c].
Proof.
  unfold is_byte, dec_bytes. intros Ha Hb Hc. split; [dlia|].
  replace (a / 4 * 2 ^ 18 + (a mod 4 * 16 + b / 16) * 2 ^ 12 + (b mod 16 * 4 + c / 64) * 2 ^ 6 + c mod 64)
    with (a * 65536 + b * 256 + c) by dlia.
  f_equal; [dlia|]. f_equal; [dlia|]. f_equal. dlia.
Qed.

Lemma quad_alt a b c r :
  is_byte a → is_byte b → is_byte c →
  quad a b c r =
  [enc_char (a / 4); enc_char (a mod 4 * 16 + b / 16);
   if r <? 2 then "="%char else enc_char (b mod 16 * 4 + c / 64);
   if r <? 3 then "="%char else enc_char (c mod 64)].
Proof.
  intros Ha Hb Hc. unfold quad.
  rewrite (proj1 (quad_shifts a b Ha Hb)), (proj2 (quad_shifts b c Hb Hc)).
  rewrite Z.shiftr_div_pow2 by lia. change (2 ^ 2) with 4.
  change 63 with (Z.ones 6). rewrite Z.land_ones by lia. done.
Qed.

Lemma decode4_quads data : Forall is_byte data → decode4 (quads data) = Some data.
Proof.
  assert (is_byte 0) as H0 by (unfold is_byte; lia).
  induction data as [|a|a b|a b c l IH] using list_ind3; intros Hd; [done|..];
    rewrite ?Forall_cons in Hd; cbn [quads].
  - destruct Hd as [Ha _]. rewrite quad_alt by done.
    destruct (sextets a 0 0) as [(H1 & H2 & _) E]; try done.
    destruct (enc_char_spec _ H1) as (D1 & _), (enc_char_spec _ H2) as (D2 & _).
    change (0 mod 16 * 4 + 0 / 64) with 0 in E. change (0 mod 64) with 0 in E.
    cbn [decode4]. rewrite D1, D2. cbn -[dec_bytes Z.div Z.modulo]. by rewrite E.
  - destruct Hd as (Ha & Hb & _). rewrite quad_alt by done.
    destruct (sextets a b 0) as [(H1 & H2 & H3 & _) E]; try done.
    destruct (enc_char_spec _ H1) as (D1 & _), (enc_char_spec _ H2) as (D2 & _), (enc_char_spec _ H3) as (D3 & N3 & _).
    cbn [decode4]. apply Ascii.eqb_neq in N3. change (0 mod 64) with 0 in E.
    change (2 <? 2) with false. change (2 <? 3) with true. cbv iota.
    rewrite D1, D2, N3, D3. cbn -[dec_bytes Z.div Z.modulo]. by rewrite E.
  - destruct Hd as (Ha & Hb & Hc & Hl). rewrite quad_alt by done.
    destruct (sextets a b c) as [(H1 & H2 & H3 & H4) E]; try done.
    destruct (enc_char_spec _ H1) as (D1 & _), (enc_char_spec _ H2) as (D2 & _),
      (enc_char_spec _ H3) as (D3 & _), (enc_char_spec _ H4) as (D4 & N4 & _).
    cbn [decode4 app]. apply Ascii.eqb_neq in N4.
    change (3 <? 2) with false. change (3 <? 3) with false. cbv iota.
    rewrite D1, D2, D3, D4, N4. cbn -[dec_bytes Z.div Z.modulo decode4].
    rewrite IH by done. cbn -[dec_bytes Z.div Z.modulo]. by rewrite E.
Qed.

Lemma quads_b64 data : Forall is_byte data → Forall b64_char (quads data).
Proof.
  assert (is_byte 0) as H0 by (unfold is_byte; lia).
  assert (∀ a b c r, is_byte a → is_byte b → is_byte c → Forall b64_char (quad a b c r)) as Hq.
  { intros a b c r Ha Hb Hc. rewrite quad_alt by done.
    destruct (sextets a b c) as [(H1 & H2 & H3 & H4) _]; try done.
    repeat constructor; repeat case_match; try done; by apply enc_char_spec. }
  induction data as [|a|a b|a b c l IH] using list_ind3; intros Hd; [constructor|..];
    rewrite ?Forall_cons in Hd; cbn [quads]; [apply Hq; naive_solver..|].
  apply Forall_app. split; [apply Hq|apply IH]; naive_solver.
Qed.

Lemma emit_strip cs n :
  Forall b64_char cs → List.filter (λ c, negb (is_crlf c)) (emit cs n).1 = cs.
Proof.
  intros H. revert n. induction H as [|c cs Hc _ IH]; intros n; [done|].
  cbn [emit]. specialize (IH (if 76 <=? n + 1 then 0 else n + 1)).
  destruct (76 <=? n + 1); destruct (emit cs _) as [o m]; simpl in *; rewrite Hc; simpl; by rewrite IH.
Qed.

(** Encoding loses nothing: a decoder that ignores line breaks recovers
    from [base64Encode]'s output exactly the bytes of the report, whatever
    their number (so the padding is right) and wherever the lines break. *)
Theorem base64_roundtrip (data : list Z) :
  Forall is_byte data → base64Decode (base64Encode data) = Some data.
Proof.
  intros H. unfold base64Decode, base64Encode. rewrite base64_loop_quads.
  rewrite emit_strip by by apply quads_b64. by apply decode4_quads.
Qed.

Lemma base64_roundtrip_witness :
  base64Decode (base64Encode (List.map Z.of_nat (seq 0 256))) = Some (List.map Z.of_nat (seq 0 256)).
Proof.
  apply (base64_roundtrip (List.map Z.of_nat (seq 0 256))).
  apply (bool_decide_eq_true_1 (Forall (λ b, 0 ≤ b < 256) (List.map Z.of_nat (seq 0 256)))).
  vm_compute. reflexivity.
Defined.

(** The lines of a text whose lines end in CR LF; the last one may be empty. *)
Fixpoint crlf_lines (cs : list ascii) : list (list ascii) :=
  match cs with
  | [] => [[]]
  | c :: cs' =>
      match cs' with
      | d :: rest => if Ascii.eqb c (chr 13) && Ascii.eqb d (chr 10) then [] :: crlf_lines rest
                     else match crlf_lines cs' with l :: ls => (c :: l) :: ls | [] => [[c]] end
      | [] => [[c]]
      end
  end.

Lemma crlf_lines_cons c cs :
  b64_char c → ∃ l ls, crlf_lines cs = l :: ls ∧ crlf_lines (c :: cs) = (c :: l) :: ls.
Proof.
  intros Hc. assert (Ascii.eqb c (chr 13) = false) as E by (by apply orb_false_iff in Hc as [? _]).
  destruct cs as [|d cs]; [by exists [], []|].
  assert (∃ l ls, crlf_lines (d :: cs) = l :: ls) as (l & ls & El).
  { clear. cbn [crlf_lines]. repeat case_match; eauto. }
  exists l, ls. split; [done|]. cbn [crlf_lines] in El |- *. rewrite E. simpl. by rewrite El.
Qed.

Lemma emit_lines cs n :
  Forall b64_char cs → 0 ≤ n < 76 →
  ∃ l ls, crlf_lines (emit cs n).1 = l :: ls ∧
    (ls = [] → n + Z.of_nat (length l) < 76) ∧
    (ls ≠ [] → n + Z.of_nat (length l) = 76) ∧
    (∀ i l', ls !! i = Some l' → (if decide (S i = length ls)%nat then (length l' < 76)%nat else length l' = 76%nat)).
Proof.
  intros H. revert n. induction H as [|c cs Hc _ IH]; intros n Hn.
  { exists [], []. simpl. repeat split; try done. intros _. lia. }
  cbn [emit]. destruct (Z.leb_spec 76 (n + 1)).
  - destruct (IH 0 ltac:(lia)) as (l & ls & E & H1 & H2 & H3). destruct (emit cs 0) as [o m]. cbn [fst] in *.
    destruct (crlf_lines_cons c (chr 13 :: chr 10 :: o) Hc) as (l' & ls' & E1 & E2).
    change (crlf_lines (chr 13 :: chr 10 :: o)) with ([] :: crlf_lines o) in E1. rewrite E in E1.
    injection E1 as <- <-. rewrite E2. exists [c], (l :: ls). repeat split; [done|simpl; lia|].
    intros [|i] l' Hl'; cbn [lookup list_lookup] in Hl'.
    + injection Hl' as <-. destruct ls as [|l0 ls]; [specialize (H1 eq_refl)|specialize (H2 ltac:(done))];
        case_decide; simpl in *; lia.
    + specialize (H3 i l' Hl'). repeat case_decide; simpl in *; lia.
  - destruct (IH (n + 1) ltac:(lia)) as (l & ls & E & H1 & H2 & H3). destruct (emit cs (n + 1)) as [o m]. cbn [fst] in *.
    destruct (crlf_lines_cons c o Hc) as (l' & ls' & E1 & E2). rewrite E in E1. injection E1 as <- <-.
    exists (c :: l), ls. rewrite E2. repeat split; try done; simpl; intros Hls; [specialize (H1 Hls)|specialize (H2 Hls)]; lia.
Qed.

(** Lines have the length RFC 2045 prescribes: cut at its CR LF pairs, the
    output consists of lines of exactly 76 characters followed by one last line
    that is shorter (and empty when the last full line was just completed). *)
Theorem base64_lines (data : list Z) :
  Forall is_byte data →
  ∃ full last, crlf_lines (base64Encode data) = full ++ [last] ∧
    Forall (λ l, length l = 76%nat) full ∧ (length last < 76)%nat.
Proof.
  intros H%quads_b64. unfold base64Encode. rewrite base64_loop_quads.
  destruct (emit_lines _ 0 H ltac:(lia)) as (l & ls & -> & H1 & H2 & H3).
  destruct (exists_last (l := l :: ls)) as (full & last & E); [done|]. exists full, last.
  rewrite E. split; [done|].
  assert (∀ i l', (l :: ls) !! i = Some l' → if decide (S i = length (l :: ls))%nat then (length l' < 76)%nat else length l' = 76%nat) as Hall.
  { intros [|i] l' Hl'; cbn [lookup list_lookup] in Hl'.
    - injection Hl' as <-. destruct ls as [|l0 ls]; [specialize (H1 eq_refl)|specialize (H2 ltac:(done))];
        case_decide; simpl in *; lia.
    - specialize (H3 i l' Hl'). repeat case_decide; simpl in *; lia. }
  rewrite E in Hall. rewrite length_app in Hall. simpl in Hall. split.
  - apply Forall_lookup. intros i l' Hi. pose proof (lookup_lt_Some _ _ _ Hi).
    specialize (Hall i l'). rewrite lookup_app_l in Hall by lia. specialize (Hall Hi).
    rewrite decide_False in Hall by lia. done.
  - specialize (Hall (length full) last). rewrite lookup_app_r, Nat.sub_diag in Hall by lia.
    specialize (Hall eq_refl). rewrite decide_True in Hall by lia. done.
Qed.

Lemma base64_lines_witness :
  ∃ full last, crlf_lines (base64Encode (repeat 255 200)) = full ++ [last] ∧
    Forall (λ l, length l = 76%nat) full ∧ (length last < 76)%nat.
Proof.
  apply (base64_lines (repeat 255 200)).
  apply (bool_decide_eq_true_1 (Forall (λ b, 0 ≤ b < 256) (repeat 255 200))).
  vm_compute. reflexivity.
Defined.
