(* ===== verification/Cache.v ===== *)
(** The generic TTL cache (src/pkg/cache/cache.go).  Instants and durations are
    nanoseconds.  A method of the cache is the sequence of its critical
    sections: [Set], [Delete] and [Clear] run under one lock, [Get] reads under
    the read lock and, when it saw an expired entry, takes the write lock
    afterwards to evict it; other goroutines may run in between. *)
From S2P Require Import Prelude.

(** The order in which [range] visits a map is unspecified: some permutation
    of its entries. *)
Class MapRange := {
  range_order : ∀ {K A : Type} `{Countable K}, gmap K A → list (K * A);
  range_order_perm : ∀ {K A : Type} `{Countable K} (m : gmap K A), range_order m ≡ₚ map_to_list m;
}.

#[export] Instance map_to_list_range : MapRange :=
  {| range_order := λ K A _ _ m, map_to_list m; range_order_perm := λ K A _ _ m, reflexivity _ |}.

Record entry (V : Type) := mkEntry { val : V; expiresAt : Z }.
Arguments mkEntry {V} val expiresAt.
Arguments val {V} e.
Arguments expiresAt {V} e.

Record Cache (K V : Type) `{Countable K} := mkCache {
  entries : gmap K (entry V);
  ttl : Z;
  maxSize : Z;
}.
Arguments mkCache {K V _ _} entries ttl maxSize.
Arguments entries {K V _ _} c.
Arguments ttl {K V _ _} c.
Arguments maxSize {K V _ _} c.

(** The zero [time.Time], in Unix nanoseconds. *)
Definition zeroTime : Z := -62135596800 * 10 ^ 9.

Section cache.
Context {MR : MapRange} {K V : Type} `{Countable K}.
Implicit Type c : Cache K V.

Definition New (ttl maxSize : Z) : Cache K V := mkCache ∅ ttl maxSize.

Definition with_entries c (m : gmap K (entry V)) : Cache K V := mkCache m (ttl c) (maxSize c).

(** [c.ttl > 0 && time.Now().After(e.expiresAt)] *)
Definition expired c (now : Z) (e : entry V) : bool := (0 <? ttl c) && (expiresAt e <? now).

(** First critical section of [Get]. *)
Inductive get_read := ReadMiss | ReadExpired | ReadHit (v : V).
Definition Get_read c (now : Z) (key : K) : get_read :=
  match entries c !! key with
  | None => ReadMiss
  | Some e => if expired c now e then ReadExpired else ReadHit (val e)
  end.

(** Second critical section of [Get]: the entry is looked up again. *)
Definition Get_evict c (now : Z) (key : K) : Cache K V :=
  match entries c !! key with
  | Some e => if expired c now e then with_entries c (delete key (entries c)) else c
  | None => c
  end.

(** [Get] when no other goroutine interferes. *)
Definition Get c (now : Z) (key : K) : option V * Cache K V :=
  match Get_read c now key with
  | ReadMiss => (None, c)
  | ReadExpired => (None, Get_evict c now key)
  | ReadHit v => (Some v, c)
  end.

Definition evictOne c (now : Z) : Cache K V :=
  let order := range_order (entries c) in
  match List.find (λ '(_, e), expired c now e) order with
  | Some (k, _) => with_entries c (delete k (entries c))
  | None =>
      match order with
      | (k, _) :: _ => with_entries c (delete k (entries c))
      | [] => c
      end
  end.

Definition Set_ c (now : Z) (key : K) (v : V) : Cache K V :=
  let c := if (0 <? maxSize c) && (maxSize c <=? Z.of_nat (size (entries c))) then evictOne c now else c in
  let expiresAt := if 0 <? ttl c then now + ttl c else zeroTime in
  with_entries c (<[key := mkEntry v expiresAt]> (entries c)).

Definition Delete c (key : K) : Cache K V := with_entries c (delete key (entries c)).
Definition Clear c : Cache K V := with_entries c ∅.
Definition Len c : Z := Z.of_nat (size (entries c)).
Definition Keys c : list K := (range_order (entries c)).*1.

(** ** Every operation removes entries or writes one key *)
Lemma evictOne_cases c now :
  (entries c = ∅ ∧ evictOne c now = c) ∨
  ∃ k e, entries c !! k = Some e ∧ evictOne c now = with_entries c (delete k (entries c)).
Proof.
  unfold evictOne. destruct (List.find _ _) as [[k e]|] eqn:Ef.
  - right. exists k, e. split; [|done]. apply find_some in Ef as [Hin _].
    apply list_elem_of_In in Hin. rewrite range_order_perm in Hin. by apply elem_of_map_to_list in Hin.
  - destruct (range_order (entries c)) as [|[k e] l] eqn:Eo.
    + left. split; [|done]. apply map_to_list_empty_iff. apply Permutation_nil_r.
      rewrite <- (range_order_perm (entries c)), Eo. done.
    + right. exists k, e. split; [|done]. apply elem_of_map_to_list.
      rewrite <- (range_order_perm (entries c)), Eo. left.
Qed.

Lemma evictOne_sub c now : entries (evictOne c now) ⊆ entries c.
Proof.
  destruct (evictOne_cases c now) as [[_ ->]|(k & e & _ & ->)]; [done|]. apply delete_subseteq.
Qed.

Lemma evictOne_params c now : ttl (evictOne c now) = ttl c ∧ maxSize (evictOne c now) = maxSize c.
Proof. destruct (evictOne_cases c now) as [[_ ->]|(k & e & _ & ->)]; done. Qed.

Lemma Set_lookup c now k v :
  entries (Set_ c now k v) !! k = Some (mkEntry v (if 0 <? ttl c then now + ttl c else zeroTime)).
Proof.
  unfold Set_. destruct (_ && _); simpl; rewrite lookup_insert_eq; [|done].
  by rewrite (proj1 (evictOne_params c now)).
Qed.

Lemma Set_lookup_ne c now k v k' e :
  entries (Set_ c now k v) !! k' = Some e → k ≠ k' → entries c !! k' = Some e.
Proof.
  unfold Set_. intros Hl Hne. destruct (_ && _); simpl in Hl; rewrite lookup_insert_ne in Hl by done; [|done].
  eapply lookup_weaken; [exact Hl|apply evictOne_sub].
Qed.

Lemma Set_params c now k v : ttl (Set_ c now k v) = ttl c ∧ maxSize (Set_ c now k v) = maxSize c.
Proof. unfold Set_. destruct (_ && _); simpl; [apply evictOne_params|done]. Qed.

Lemma Get_evict_sub c now k : entries (Get_evict c now k) ⊆ entries c.
Proof. unfold Get_evict. repeat case_match; simpl; try done. apply delete_subseteq. Qed.

Lemma Get_evict_params c now k : ttl (Get_evict c now k) = ttl c ∧ maxSize (Get_evict c now k) = maxSize c.
Proof. unfold Get_evict. repeat case_match; done. Qed.

Lemma Get_evict_keeps c now k k' e :
  entries c !! k' = Some e → expired c now e = false → entries (Get_evict c now k) !! k' = Some e.
Proof.
  intros He Hx. unfold Get_evict. destruct (entries c !! k) as [e'|] eqn:Ek; [|done].
  destruct (expired c now e') eqn:Ex'; [|done]. simpl. rewrite lookup_delete_ne; [done|].
  intros ->. congruence.
Qed.

Lemma Get_sub c now k : entries (Get c now k).2 ⊆ entries c.
Proof. unfold Get. case_match; simpl; [done|apply Get_evict_sub|done]. Qed.

Lemma Get_hit c now k v :
  (Get c now k).1 = Some v → ∃ e, entries c !! k = Some e ∧ val e = v ∧ expired c now e = false.
Proof. unfold Get, Get_read. intros. repeat case_match; simplify_eq/=; eauto. Qed.
End cache.

#[global] Arguments Set_ : simpl never.
#[global] Arguments Get_evict : simpl never.
#[global] Arguments evictOne : simpl never.

(** * Interleavings

    A history is a list of critical sections in the order in which they took
    the lock, with the passage of time between them.  [CEvict k] is the second
    section of some [Get k] and may come arbitrarily later than the first. *)
Section histories.
Context {MR : MapRange} {K V : Type} `{Countable K}.

Inductive cop :=
  | CSet (k : K) (v : V) | CDelete (k : K) | CClear
  | CRead (k : K) | CEvict (k : K) | CTick (d : nat).

(** The cache and the clock, with the specification's view: for each key the
    last write that was not deleted since, and when it was made. *)
Record hist := mkHist { h_cache : Cache K V; h_now : Z; h_writes : gmap K (V * Z) }.

Definition cstep (h : hist) (o : cop) : hist :=
  let '(mkHist c now w) := h in
  match o with
  | CSet k v => mkHist (Set_ c now k v) now (<[k := (v, now)]> w)
  | CDelete k => mkHist (Delete c k) now (delete k w)
  | CClear => mkHist (Clear c) now ∅
  | CRead k => mkHist c now w
  | CEvict k => mkHist (Get_evict c now k) now w
  | CTick d => mkHist c (now + Z.of_nat d) w
  end.

Ltac hcbn := cbn [cstep h_cache h_now h_writes Delete Clear with_entries entries ttl maxSize fst snd] in *.

Definition crun (h : hist) (os : list cop) : hist := foldl cstep h os.
Definition hinit (ttl maxSize now : Z) : hist := mkHist (New ttl maxSize) now ∅.

(** A write is live until [ttl] has passed; for ever when [ttl <= 0]. *)
Definition live (ttl now : Z) (w : V * Z) : Prop := 0 < ttl → now ≤ w.2 + ttl.

Definition stored (ttl : Z) (w : V * Z) : entry V :=
  mkEntry w.1 (if 0 <? ttl then w.2 + ttl else zeroTime).

Lemma stored_expired (c : Cache K V) now w :
  expired c now (stored (ttl c) w) = false ↔ live (ttl c) now w.
Proof.
  unfold expired, stored, live. simpl. destruct (Z.ltb_spec 0 (ttl c)); simpl; [|naive_solver lia].
  destruct (Z.ltb_spec (w.2 + ttl c) now); naive_solver lia.
Qed.

(** What the cache holds is what was last written. *)
Definition hsound (h : hist) : Prop :=
  ∀ k e, entries (h_cache h) !! k = Some e →
    ∃ w, h_writes h !! k = Some w ∧ e = stored (ttl (h_cache h)) w.

Lemma hsound_sub c c' now now' w :
  entries c' ⊆ entries c → ttl c' = ttl c → hsound (mkHist c now w) → hsound (mkHist c' now' w).
Proof.
  intros Hsub Ht Hs k e He. hcbn. rewrite Ht. apply (Hs k e). by eapply lookup_weaken.
Qed.

Lemma cstep_ttl h o : ttl (h_cache (cstep h o)) = ttl (h_cache h) ∧ maxSize (h_cache (cstep h o)) = maxSize (h_cache h).
Proof.
  destruct h as [c now w], o; hcbn; try done; [apply Set_params|apply Get_evict_params].
Qed.

Lemma crun_params h os : ttl (h_cache (crun h os)) = ttl (h_cache h) ∧ maxSize (h_cache (crun h os)) = maxSize (h_cache h).
Proof.
  revert h. induction os as [|o os IH]; intros h; [done|]. change (crun h (o :: os)) with (crun (cstep h o) os). destruct (IH (cstep h o)) as [-> ->].
  apply cstep_ttl.
Qed.

Lemma cstep_sound h o : hsound h → hsound (cstep h o).
Proof.
  destruct h as [c now w]. intros Hs. destruct o as [k v|k| |k|k|d]; hcbn; try done.
  - intros k' e He. hcbn. rewrite (proj1 (Set_params c now k v)).
    destruct (decide (k = k')) as [<-|Hne].
    + rewrite Set_lookup in He. injection He as <-. exists (v, now). by rewrite lookup_insert_eq.
    + rewrite lookup_insert_ne by done. apply Hs. by eapply Set_lookup_ne.
  - intros k' e He. hcbn. apply lookup_delete_Some in He as [Hne He].
    rewrite lookup_delete_ne by done. by apply Hs.
  - eapply hsound_sub; [apply Get_evict_sub|apply Get_evict_params|done].
Qed.

Lemma crun_sound ttl maxSize now os : hsound (crun (hinit ttl maxSize now) os).
Proof.
  assert (hsound (hinit ttl maxSize now)) as Hi by (intros k e He; simpl in He; by rewrite lookup_empty in He).
  revert Hi. generalize (hinit ttl maxSize now) as h. induction os as [|o os IH]; intros h Hi; [done|].
  apply IH, cstep_sound, Hi.
Qed.

(** Without a size limit nothing live is ever dropped. *)
Definition hcomplete (h : hist) : Prop :=
  ∀ k w, h_writes h !! k = Some w → live (ttl (h_cache h)) (h_now h) w →
    entries (h_cache h) !! k = Some (stored (ttl (h_cache h)) w).

Lemma cstep_complete h o :
  maxSize (h_cache h) ≤ 0 → hcomplete h → hcomplete (cstep h o).
Proof.
  destruct h as [c now w]. hcbn. intros Hmax Hc. destruct o as [k v|k| |k|k|d]; hcbn; try done.
  - unfold Set_. rewrite (proj2 (Z.ltb_ge 0 (maxSize c))) by done. intros k' w' Hw Hl. hcbn.
    apply lookup_insert_Some in Hw as [[<- <-]|[Hne Hw]].
    + by rewrite lookup_insert_eq.
    + rewrite lookup_insert_ne by done. by apply Hc.
  - intros k' w' Hw Hl. hcbn. apply lookup_delete_Some in Hw as [Hne Hw].
    rewrite lookup_delete_ne by done. by apply Hc.
  - intros k' w' Hw Hl. hcbn. rewrite (proj1 (Get_evict_params c now k)) in *.
    apply Get_evict_keeps; [by apply Hc|]. by apply stored_expired.
  - intros k' w' Hw Hl. hcbn. apply Hc; [done|]. unfold live in *. hcbn. lia.
Qed.

Lemma crun_complete ttl maxSize now os :
  maxSize ≤ 0 → hcomplete (crun (hinit ttl maxSize now) os).
Proof.
  intros Hm. assert (hcomplete (hinit ttl maxSize now)) as Hi by (intros k w Hw; simpl in Hw; by rewrite lookup_empty in Hw).
  assert (Cache.maxSize (h_cache (hinit ttl maxSize now)) ≤ 0) as Hm' by done.
  revert Hi Hm'. generalize (hinit ttl maxSize now) as h. induction os as [|o os IH]; intros h Hi Hm'; [done|].
  apply IH; [by apply cstep_complete|]. by rewrite (proj2 (cstep_ttl h o)).
Qed.
End histories.

Arguments cop K V : clear implicits.
Arguments hist K V {_ _}.

(** C19.  The cache refines a map with expiry, under every interleaving of
    readers and writers and every map iteration order: a hit returns the value
    of the last [Set] of that key that was not followed by a [Delete] or
    [Clear], and only while its TTL has not passed; without a size limit, every
    such value is found.  In particular the eviction of an expired entry never
    removes a value that another goroutine has meanwhile stored. *)
Theorem cache_refines_map `{MR : MapRange} {K V : Type} `{Countable K}
    (ttl maxSize start : Z) (os : list (cop K V)) (k : K) (v : V) :
  let h := crun (hinit ttl maxSize start) os in
  let live_write := ∃ w, h_writes h !! k = Some w ∧ w.1 = v ∧ live ttl (h_now h) w in
  ((Get (h_cache h) (h_now h) k).1 = Some v → live_write) ∧
  (maxSize ≤ 0 → live_write → (Get (h_cache h) (h_now h) k).1 = Some v).
Proof.
  cbv zeta. set (h := crun (hinit ttl maxSize start) os).
  pose proof (crun_sound ttl maxSize start os : hsound h) as Hs.
  assert (Cache.ttl (h_cache h) = ttl) as Ht by apply crun_params. split.
  - intros (e & He & <- & Hx)%Get_hit. destruct (Hs k e He) as (w & Hw & ->).
    exists w. split; [done|]. split; [done|]. rewrite <- Ht. by apply stored_expired.
  - intros Hm (w & Hw & <- & Hl). pose proof (crun_complete ttl maxSize start os Hm k w Hw) as He.
    fold h in He. rewrite Ht in He. specialize (He Hl).
    unfold Get, Get_read. rewrite He. rewrite <- Ht at 1. rewrite (proj2 (stored_expired _ _ w)); [done|].
    by rewrite Ht.
Qed.

(** The size limit holds in every reachable state: a cache created with a
    positive [maxSize] never has more than [maxSize] entries. *)
Theorem cache_size_bounded `{MR : MapRange} {K V : Type} `{Countable K}
    (ttl maxSize start : Z) (os : list (cop K V)) :
  0 < maxSize → Len (h_cache (crun (hinit ttl maxSize start) os)) ≤ maxSize.
Proof.
  intros Hm. set (P := λ h : hist K V, Len (h_cache h) ≤ Cache.maxSize (h_cache h)).
  assert (∀ c : Cache K V, ∀ m, m ⊆ entries c → Z.of_nat (size m) ≤ Len c) as Hsub.
  { intros c m Hle. unfold Len. apply map_subseteq_size in Hle. lia. }
  assert (∀ c now, 0 < Cache.maxSize c → Len c ≤ Cache.maxSize c → ∀ k v,
    Len (Set_ (V:=V) (K:=K) c now k v) ≤ Cache.maxSize c) as Hset.
  { intros c now Hpos Hc k v. unfold Set_. rewrite (proj2 (Z.ltb_lt _ _)) by done. cbn [andb].
    assert (∀ m : gmap K (entry V), Z.of_nat (size m) < Cache.maxSize c → ∀ e, Z.of_nat (size (<[k:=e]> m)) ≤ Cache.maxSize c) as Hins.
    { intros m Hs e. rewrite map_size_insert. destruct (m !! k); simpl; lia. }
    unfold Len in *. destruct (Z.leb_spec (Cache.maxSize c) (Z.of_nat (size (entries c)))); simpl; apply Hins; [|lia].
    destruct (evictOne_cases c now) as [[He _]|(k' & e & He & ->)]; simpl.
    - rewrite He, map_size_empty in *. simpl in *. lia.
    - pose proof (map_size_ne_0_lookup_2 _ k' ltac:(eauto)). rewrite map_size_delete_Some by eauto. lia. }
  assert (∀ h o, 0 < Cache.maxSize (h_cache h) → P h → P (cstep h o)) as Hstep.
  { intros [c now w] o Hpos Hc. unfold P in *. rewrite (proj2 (cstep_ttl _ o)).
    cbn [h_cache] in *. destruct o as [k v|k| |k|k|d]; cbn [cstep h_cache] in *; try done.
    - by apply Hset.
    - etrans; [apply (Hsub c), delete_subseteq|done].
    - unfold Len. simpl. rewrite map_size_empty. lia.
    - etrans; [apply (Hsub c), Get_evict_sub|done]. }
  enough (∀ h, 0 < Cache.maxSize (h_cache h) → P h → P (crun h os)) as He.
  { specialize (He (hinit ttl maxSize start) Hm). unfold P in He.
    rewrite (proj2 (crun_params _ os)) in He. apply He. unfold Len. simpl. rewrite map_size_empty. lia. }
  clear Hm. induction os as [|o os IH]; intros h Hpos Hh; [done|].
  apply IH; [by rewrite (proj2 (cstep_ttl h o))|by apply Hstep].
Qed.

Lemma cache_size_bounded_witness :
  Len (h_cache (crun (K:=string) (V:=Z) (hinit 30 2 0)
    [CSet "a" 1; CSet "b" 2; CTick 40; CSet "c" 3; CSet "d" 4])) ≤ 2.
Proof.
  apply (cache_size_bounded 30 2 0 [CSet "a" 1; CSet "b" 2; CTick 40; CSet "c" 3; CSet "d" 4]). lia.
Defined.
