(* ===== verification/Sql.v ===== *)
(** Relational tables.  The SQL text of the program (its schema, queries and
    updates) is translated statement by statement into these operations:
    a table is the list of its rows in rowid order together with the counter
    AUTOINCREMENT keeps in sqlite_sequence. *)
From S2P Require Import Prelude.

Record table (R : Type) := mkTable { rows : list R; seq_ : Z }.
Arguments mkTable {R} rows seq_.
Arguments rows {R} t.
Arguments seq_ {R} t.

Definition empty_table {R} : table R := mkTable [] 0.

Section table_ops.
Context {R : Type}.
Implicit Type t : table R.

(** SELECT ... WHERE P *)
Definition select (P : R → Prop) `{∀ r, Decision (P r)} t : list R := filter P (rows t).

(** INSERT: the new rowid is one more than any rowid ever used. *)
Definition insert_row (mk : Z → R) t : table R := mkTable (rows t ++ [mk (seq_ t + 1)]) (seq_ t + 1).

(** UPDATE ... SET f WHERE P *)
Definition update_rows (P : R → Prop) `{∀ r, Decision (P r)} (f : R → R) t : table R :=
  mkTable ((λ r, if decide (P r) then f r else r) <$> rows t) (seq_ t).

(** DELETE ... WHERE P *)
Definition delete_rows (P : R → Prop) `{∀ r, Decision (P r)} t : table R :=
  mkTable (filter (λ r, ¬ P r) (rows t)) (seq_ t).

(** RowsAffected of an UPDATE or DELETE. *)
Definition affected (P : R → Prop) `{∀ r, Decision (P r)} t : Z := Z.of_nat (length (select P t)).

(** A UNIQUE constraint on the columns [key]. *)
Definition unique {K} (key : R → K) t : Prop := NoDup (key <$> rows t).
End table_ops.

(** The invariant of an AUTOINCREMENT table whose rowid is [id]. *)
Definition ids_ok {R} (id : R → Z) (t : table R) : Prop :=
  unique id t ∧ Forall (λ r, id r ≤ seq_ t) (rows t).

(** ORDER BY: a stable sort on a total preorder. *)
Definition order_by {R} (le : R → R → Prop) `{!RelDecision le} (l : list R) : list R := merge_sort le l.

Section facts.
Context {R : Type}.
Implicit Types (t : table R) (r : R).

Lemma elem_of_select P `{∀ r, Decision (P r)} t r : r ∈ select P t ↔ P r ∧ r ∈ rows t.
Proof. unfold select, delete_rows; simpl. by rewrite list_elem_of_filter. Qed.

Lemma elem_of_insert mk t r : r ∈ rows (insert_row mk t) ↔ r ∈ rows t ∨ r = mk (seq_ t + 1).
Proof. simpl. rewrite elem_of_app, list_elem_of_singleton. done. Qed.

Lemma elem_of_delete P `{∀ r, Decision (P r)} t r : r ∈ rows (delete_rows P t) ↔ ¬ P r ∧ r ∈ rows t.
Proof. unfold select, delete_rows; simpl. by rewrite list_elem_of_filter. Qed.

Lemma elem_of_update P `{∀ r, Decision (P r)} f t r :
  r ∈ rows (update_rows P f t) ↔ ∃ r0, r0 ∈ rows t ∧ r = (if decide (P r0) then f r0 else r0).
Proof. simpl. rewrite list_elem_of_fmap. naive_solver. Qed.

Lemma select_update P `{∀ r, Decision (P r)} f t :
  (∀ r, P r → P (f r)) → select P (update_rows P f t) = f <$> select P t.
Proof.
  intros Hf. unfold select. cbn. induction (rows t) as [|r l IH]; [done|].
  rewrite fmap_cons, !filter_cons. destruct (decide (P r)) as [HP|HP].
  - rewrite decide_True by auto. by rewrite fmap_cons, IH.
  - by rewrite decide_False.
Qed.

Lemma select_insert P `{∀ r, Decision (P r)} mk t :
  select P (insert_row mk t) = select P t ++ (if decide (P (mk (seq_ t + 1))) then [mk (seq_ t + 1)] else []).
Proof.
  unfold select. cbn. by rewrite filter_app.
Qed.

Lemma unique_delete {K} (key : R → K) P `{∀ r, Decision (P r)} t :
  unique key t → unique key (delete_rows P t).
Proof.
  unfold unique. simpl. intros Hu. eapply sublist_NoDup; [exact Hu|]. apply fmap_sublist, sublist_filter.
Qed.

Lemma unique_insert {K} (key : R → K) mk t :
  unique key t → (∀ r, r ∈ rows t → key r ≠ key (mk (seq_ t + 1))) → unique key (insert_row mk t).
Proof.
  intros Hu Hn. unfold unique in *. simpl. rewrite fmap_app. apply NoDup_app. split; [done|].
  split; [|apply NoDup_singleton]. intros k (r & -> & Hr)%list_elem_of_fmap.
  simpl. rewrite list_elem_of_singleton. by apply Hn.
Qed.

Lemma unique_update {K} (key : R → K) P `{∀ r, Decision (P r)} f t :
  unique key t → (∀ r, key (f r) = key r) → unique key (update_rows P f t).
Proof.
  intros Hu Hf. unfold unique in *. simpl. rewrite <- list_fmap_compose.
  erewrite list_fmap_ext; [exact Hu|]. intros i r _. simpl. case_decide; auto.
Qed.

Lemma unique_inj {K} (key : R → K) t r1 r2 :
  unique key t → r1 ∈ rows t → r2 ∈ rows t → key r1 = key r2 → r1 = r2.
Proof.
  unfold unique. induction (rows t) as [|r l IH]; simpl; [by rewrite elem_of_nil|].
  rewrite NoDup_cons, !elem_of_cons. intros [Hn Hu] [->|H1] [->|H2] E; auto.
  - exfalso. apply Hn. rewrite E. by apply list_elem_of_fmap_2.
  - exfalso. apply Hn. rewrite <- E. by apply list_elem_of_fmap_2.
Qed.

Lemma Forall_insert_row (Q : R → Prop) mk t :
  Forall Q (rows t) → Q (mk (seq_ t + 1)) → Forall Q (rows (insert_row mk t)).
Proof. intros. simpl. rewrite Forall_app, Forall_singleton. done. Qed.

Lemma Forall_delete_rows (Q : R → Prop) P `{∀ r, Decision (P r)} t :
  Forall Q (rows t) → Forall Q (rows (delete_rows P t)).
Proof. rewrite !Forall_forall. intros HQ r [_ Hr]%elem_of_delete. auto. Qed.

Lemma Forall_update_rows (Q : R → Prop) P `{∀ r, Decision (P r)} f t :
  Forall Q (rows t) → (∀ r, P r → Q r → Q (f r)) → Forall Q (rows (update_rows P f t)).
Proof.
  rewrite !Forall_forall. intros HQ Hf r (r0 & Hr0 & ->)%elem_of_update. case_decide; auto.
Qed.

Lemma ids_ok_insert (id : R → Z) mk t :
  (∀ i, id (mk i) = i) → ids_ok id t → ids_ok id (insert_row mk t).
Proof.
  intros Hid [Hu Hs]. split.
  - apply unique_insert; [done|]. intros r Hr. rewrite Forall_forall in Hs.
    specialize (Hs r Hr). rewrite Hid. lia.
  - apply Forall_insert_row; simpl; [|rewrite Hid; lia].
    eapply Forall_impl; [exact Hs|]. simpl. lia.
Qed.

Lemma ids_ok_delete (id : R → Z) P `{∀ r, Decision (P r)} t : ids_ok id t → ids_ok id (delete_rows P t).
Proof. intros [Hu Hs]. split; [by apply unique_delete|by apply Forall_delete_rows]. Qed.

Lemma ids_ok_update (id : R → Z) P `{∀ r, Decision (P r)} f t :
  (∀ r, id (f r) = id r) → ids_ok id t → ids_ok id (update_rows P f t).
Proof.
  intros Hid [Hu Hs]. split; [by apply unique_update|].
  apply Forall_update_rows; [done|]. intros r _. by rewrite Hid.
Qed.

Lemma ids_ok_empty (id : R → Z) : ids_ok id empty_table.
Proof. split; constructor. Qed.

(** A primary-key lookup finds the row itself. *)
Lemma select_unique {K} (key : R → K) (P : R → Prop) `{∀ r, Decision (P r)} t r :
  unique key t → r ∈ rows t → (∀ r', P r' ↔ key r' = key r) → select P t = [r].
Proof.
  intros Hu Hr HP. unfold select.
  assert (NoDup (filter P (rows t))) as Hnd.
  { apply NoDup_filter. unfold unique in Hu. by apply NoDup_fmap_1 in Hu. }
  assert (∀ r', r' ∈ filter P (rows t) ↔ r' = r) as Hin.
  { intros r'. rewrite list_elem_of_filter, HP. split; [|naive_solver].
    intros [E Hr']. by apply (unique_inj key t). }
  destruct (filter P (rows t)) as [|r1 [|r2 l]].
  - exfalso. apply (not_elem_of_nil r), Hin. done.
  - f_equal. apply Hin. left.
  - exfalso. apply NoDup_cons in Hnd as [Hn _]. apply Hn.
    rewrite (proj1 (Hin r1)) by left. rewrite (proj1 (Hin r2)) by (right; left). left.
Qed.
End facts.

Lemma order_by_perm {R} (le : R → R → Prop) `{!RelDecision le} l : order_by le l ≡ₚ l.
Proof. apply merge_sort_Permutation. Qed.

Lemma order_by_sorted {R} (le : R → R → Prop) `{!RelDecision le} `{!Transitive le, !Total le} l :
  StronglySorted le (order_by le l).
Proof. by apply StronglySorted_merge_sort. Qed.

#[export] Instance unique_dec {R K} `{EqDecision K} (key : R → K) (t : table R) : Decision (unique key t) :=
  NoDup_dec _.

(** Foreign keys: every row of [cs] names a row of [t]. *)
Definition references {R C} (fk : C → Z) (id : R → Z) (cs : list C) (t : table R) : Prop :=
  Forall (λ c, fk c ∈ id <$> rows t) cs.

Section foreign_keys.
Context {R C : Type} (fk : C → Z) (id : R → Z).

Lemma references_insert cs mk t : references fk id cs t → references fk id cs (insert_row mk t).
Proof.
  intros Hr. eapply Forall_impl; [exact Hr|]. intros c Hc. simpl.
  rewrite fmap_app, elem_of_app. by left.
Qed.

Lemma references_update cs P `{∀ r, Decision (P r)} f t :
  (∀ r, id (f r) = id r) → references fk id cs t → references fk id cs (update_rows P f t).
Proof.
  intros Hf Hr. eapply Forall_impl; [exact Hr|]. intros c Hc. simpl. rewrite <- list_fmap_compose.
  erewrite list_fmap_ext; [exact Hc|]. intros i r _. simpl. case_decide; auto.
Qed.

(** Deleting the rows [P] together with the rows that reference them. *)
Lemma references_cascade (cs : table C) P `{∀ r, Decision (P r)} t :
  references fk id (rows cs) t →
  references fk id (rows (delete_rows (λ c, fk c ∈ id <$> select P t) cs)) (delete_rows P t).
Proof.
  unfold references. rewrite !Forall_forall. intros Hr c [Hg Hc]%elem_of_delete.
  apply Hr in Hc. apply list_elem_of_fmap in Hc as (r & E & Hin).
  apply list_elem_of_fmap. exists r. split; [done|]. apply elem_of_delete. split; [|done].
  intros HP. apply Hg. rewrite E. apply list_elem_of_fmap_2. by apply elem_of_select.
Qed.

Lemma references_sub (cs cs' : list C) t :
  (∀ c, c ∈ cs' → c ∈ cs) → references fk id cs t → references fk id cs' t.
Proof. unfold references. rewrite !Forall_forall. auto. Qed.
End foreign_keys.

(** * What the rows that a statement leaves alone look like afterwards *)
Lemma filter_agree {A} (P Q : A → Prop) `{∀ x, Decision (P x)} `{∀ x, Decision (Q x)} (l : list A) :
  (∀ x, x ∈ l → P x ↔ Q x) → filter P l = filter Q l.
Proof.
  induction l as [|x l IH]; intros E; [done|]. rewrite !filter_cons.
  rewrite IH by (intros y Hy; apply E; by right). specialize (E x ltac:(left)). repeat case_decide; naive_solver.
Qed.

Lemma filter_delete_rows {R} (P Q : R → Prop) `{∀ r, Decision (P r)} `{∀ r, Decision (Q r)} (t : table R) :
  (∀ r, r ∈ rows t → Q r → ¬ P r) → filter P (rows (delete_rows Q t)) = filter P (rows t).
Proof.
  intros Hx. unfold delete_rows. cbn [rows]. rewrite list_filter_filter. apply filter_agree.
  intros r Hr. specialize (Hx r Hr). tauto.
Qed.

Lemma filter_update_rows {R} (P Q : R → Prop) `{∀ r, Decision (P r)} `{∀ r, Decision (Q r)} f (t : table R) :
  (∀ r, r ∈ rows t → Q r → ¬ P r ∧ ¬ P (f r)) → filter P (rows (update_rows Q f t)) = filter P (rows t).
Proof.
  unfold update_rows. cbn [rows]. induction (rows t) as [|r l IH]; intros Hx; [done|]. cbn [list_fmap fmap].
  rewrite !filter_cons, IH by (intros y Hy; apply Hx; by right). specialize (Hx r ltac:(left)).
  destruct (decide (Q r)); [|done]. destruct Hx as [H1 H2]; [done|]. by rewrite !decide_False.
Qed.
