(* ===== verification/Schema.v ===== *)
(** The database schema (src/pkg/storage/schema.go), the row types
    (src/pkg/storage/types.go) and the well-formedness of a database: the
    constraints the DDL declares.  The tables attachments and audit_logs are
    never written by the program and are left out. *)
From S2P Require Import Prelude GoLib Sql.

(** * Rows *)
Record User := mkUser {
  user_ID : Z; user_Email : string; user_PasswordHash : string;
  user_IsAdmin : bool; user_CreatedAt : Z; user_IsActive : bool }.
Record Domain := mkDomain { domain_name : string; domain_is_active : bool }.
Record Alias := mkAlias {
  alias_ID : Z; alias_Source : string; alias_Destination : string; alias_Domain : string }.
Record Mailbox := mkMailbox { mbox_ID : Z; mbox_UserID : Z; mbox_Name : string }.
(** [msg_UID] is a [uint32]; [msg_Flags] a bit mask of at most 64 bits. *)
Record Message := mkMessage {
  msg_ID : Z; msg_MailboxID : Z; msg_UID : Z; msg_BlobKey : string; msg_Size : Z;
  msg_Flags : Z; msg_InternalDate : Z; msg_FromAddr : string; msg_ToAddr : string;
  msg_Subject : string }.
#[export] Instance message_eq_dec : EqDecision Message.
Proof. solve_decision. Defined.
Record QueueItem := mkQueueItem {
  qi_ID : Z; qi_MessageID : Z; qi_RcptTo : string; qi_NextAttempt : Z;
  qi_AttemptCount : Z; qi_Status : string }.
Record SessionRow := mkSessionRow { sess_token : string; sess_user_id : Z; sess_expires_at : Z }.
Record GreylistRow := mkGreylistRow {
  gl_ip : string; gl_from : string; gl_to : string;
  gl_first_seen : Z; gl_last_seen : Z; gl_passed : Z }.
Record DMARCResult := mkDMARCResult {
  dm_ID : Z; dm_SourceIP : string; dm_FromDomain : string; dm_SPFResult : string;
  dm_DKIMResult : string; dm_Disposition : string; dm_Timestamp : Z; dm_ReportSent : bool }.
Record Contact := mkContact {
  ct_ID : Z; ct_UserID : Z; ct_Name : string; ct_Email : string; ct_CreatedAt : Z }.
Record BlobRow := mkBlobRow {
  blob_key : string; blob_data : string; blob_size : Z; blob_created_at : Z; blob_refcount : Z }.

(** * The database *)
Record DB := mkDB {
  users : table User;
  domains : table Domain;
  aliases : table Alias;
  mailboxes : table Mailbox;
  messages : table Message;
  queue : table QueueItem;
  sessions : table SessionRow;
  greylist : table GreylistRow;
  dmarc_results : table DMARCResult;
  contacts : table Contact;
  blobs : table BlobRow;
}.

Definition empty_db : DB :=
  mkDB empty_table empty_table empty_table empty_table empty_table empty_table empty_table empty_table empty_table empty_table empty_table.

Definition set_users (x : table User) (d : DB) : DB :=
  mkDB x (domains d) (aliases d) (mailboxes d) (messages d) (queue d) (sessions d) (greylist d) (dmarc_results d) (contacts d) (blobs d).
Definition set_domains (x : table Domain) (d : DB) : DB :=
  mkDB (users d) x (aliases d) (mailboxes d) (messages d) (queue d) (sessions d) (greylist d) (dmarc_results d) (contacts d) (blobs d).
Definition set_aliases (x : table Alias) (d : DB) : DB :=
  mkDB (users d) (domains d) x (mailboxes d) (messages d) (queue d) (sessions d) (greylist d) (dmarc_results d) (contacts d) (blobs d).
Definition set_mailboxes (x : table Mailbox) (d : DB) : DB :=
  mkDB (users d) (domains d) (aliases d) x (messages d) (queue d) (sessions d) (greylist d) (dmarc_results d) (contacts d) (blobs d).
Definition set_messages (x : table Message) (d : DB) : DB :=
  mkDB (users d) (domains d) (aliases d) (mailboxes d) x (queue d) (sessions d) (greylist d) (dmarc_results d) (contacts d) (blobs d).
Definition set_queue (x : table QueueItem) (d : DB) : DB :=
  mkDB (users d) (domains d) (aliases d) (mailboxes d) (messages d) x (sessions d) (greylist d) (dmarc_results d) (contacts d) (blobs d).
Definition set_sessions (x : table SessionRow) (d : DB) : DB :=
  mkDB (users d) (domains d) (aliases d) (mailboxes d) (messages d) (queue d) x (greylist d) (dmarc_results d) (contacts d) (blobs d).
Definition set_greylist (x : table GreylistRow) (d : DB) : DB :=
  mkDB (users d) (domains d) (aliases d) (mailboxes d) (messages d) (queue d) (sessions d) x (dmarc_results d) (contacts d) (blobs d).
Definition set_dmarc_results (x : table DMARCResult) (d : DB) : DB :=
  mkDB (users d) (domains d) (aliases d) (mailboxes d) (messages d) (queue d) (sessions d) (greylist d) x (contacts d) (blobs d).
Definition set_contacts (x : table Contact) (d : DB) : DB :=
  mkDB (users d) (domains d) (aliases d) (mailboxes d) (messages d) (queue d) (sessions d) (greylist d) (dmarc_results d) x (blobs d).
Definition set_blobs (x : table BlobRow) (d : DB) : DB :=
  mkDB (users d) (domains d) (aliases d) (mailboxes d) (messages d) (queue d) (sessions d) (greylist d) (dmarc_results d) (contacts d) x.

(** * Constraint violations, as the engine reports them *)
Definition unique_violation (cols : string) : error :=
  EngineError 2067 ("constraint failed: UNIQUE constraint failed: " +:+ cols +:+ " (2067)").
(** A duplicate in a PRIMARY KEY that is not the rowid has its own code. *)
Definition pk_violation (cols : string) : error :=
  EngineError 1555 ("constraint failed: UNIQUE constraint failed: " +:+ cols +:+ " (1555)").
Definition fk_violation : error :=
  EngineError 787 "constraint failed: FOREIGN KEY constraint failed (787)".
Definition engine_fault : error := EngineError 10 "disk I/O error (10)".

(** [isConstraintError] *)
Definition isConstraintError (err : error) : bool :=
  strings.Contains (error_text err) "UNIQUE constraint".

(** [isUniqueConstraint]: [errors.As] finds the first [*sqlite.Error]. *)
Fixpoint isUniqueConstraint (err : error) : bool :=
  match err with
  | EngineError code _ => code =? 2067
  | Errorf _ c _ => isUniqueConstraint c
  | _ => false
  end.

(** * Well-formedness: what the DDL declares *)
Definition user_ids (d : DB) : list Z := user_ID <$> rows (users d).
Definition mailbox_ids (d : DB) : list Z := mbox_ID <$> rows (mailboxes d).
Definition message_ids (d : DB) : list Z := msg_ID <$> rows (messages d).

Definition mbox_key (m : Mailbox) : Z * string := (mbox_UserID m, mbox_Name m).
Definition msg_key (m : Message) : Z * Z := (msg_MailboxID m, msg_UID m).
Definition alias_key (a : Alias) : string * string := (alias_Source a, alias_Domain a).
Definition gl_key (g : GreylistRow) : string * string * string := (gl_ip g, gl_from g, gl_to g).
Definition ct_key (c : Contact) : Z * string := (ct_UserID c, ct_Email c).

Definition queue_row_ok (q : QueueItem) : Prop :=
  (qi_Status q = "pending" ∨ qi_Status q = "active") ∧ 0 ≤ qi_AttemptCount q.

Record db_wf (d : DB) : Prop := mk_db_wf {
  wf_users : ids_ok user_ID (users d);
  wf_emails : unique user_Email (users d);
  wf_domains : unique domain_name (domains d);
  wf_aliases : ids_ok alias_ID (aliases d);
  wf_alias_keys : unique alias_key (aliases d);
  wf_mailboxes : ids_ok mbox_ID (mailboxes d);
  wf_mbox_keys : unique mbox_key (mailboxes d);
  wf_mbox_fk : references mbox_UserID user_ID (rows (mailboxes d)) (users d);
  wf_messages : ids_ok msg_ID (messages d);
  wf_msg_keys : unique msg_key (messages d);
  wf_msg_fk : references msg_MailboxID mbox_ID (rows (messages d)) (mailboxes d);
  wf_msg_uid : Forall (λ m, 0 ≤ msg_UID m < 2 ^ 32) (rows (messages d));
  wf_queue : ids_ok qi_ID (queue d);
  wf_queue_rows : Forall queue_row_ok (rows (queue d));
  wf_queue_fk : references qi_MessageID msg_ID (rows (queue d)) (messages d);
  wf_sessions : unique sess_token (sessions d);
  wf_sess_fk : references sess_user_id user_ID (rows (sessions d)) (users d);
  wf_greylist : unique gl_key (greylist d);
  wf_dmarc : ids_ok dm_ID (dmarc_results d);
  wf_contacts : ids_ok ct_ID (contacts d);
  wf_ct_keys : unique ct_key (contacts d);
  wf_ct_fk : references ct_UserID user_ID (rows (contacts d)) (users d);
  wf_blobs : unique blob_key (blobs d);
}.

Lemma empty_db_wf : db_wf empty_db.
Proof. repeat split; constructor. Qed.

(** Split a well-formed database into its constraints, rebuild the goal, and
    keep what the statement did not touch. *)
Ltac db_cbn := cbn [users domains aliases mailboxes messages queue sessions greylist dmarc_results contacts blobs
  set_users set_domains set_aliases set_mailboxes set_messages set_queue set_sessions set_greylist set_dmarc_results set_contacts set_blobs] in *.
Ltac wf_split H := destruct H; constructor; db_cbn; try done.

(** * ON DELETE CASCADE *)
Definition delete_messages (P : Message → Prop) `{∀ m, Decision (P m)} (d : DB) : DB :=
  let gone := msg_ID <$> select P (messages d) in
  set_messages (delete_rows P (messages d))
    (set_queue (delete_rows (λ q, qi_MessageID q ∈ gone) (queue d)) d).

Definition delete_mailboxes (P : Mailbox → Prop) `{∀ m, Decision (P m)} (d : DB) : DB :=
  let gone := mbox_ID <$> select P (mailboxes d) in
  set_mailboxes (delete_rows P (mailboxes d))
    (delete_messages (λ m, msg_MailboxID m ∈ gone) d).

Definition delete_users (P : User → Prop) `{∀ u, Decision (P u)} (d : DB) : DB :=
  let gone := user_ID <$> select P (users d) in
  set_users (delete_rows P (users d))
    (set_contacts (delete_rows (λ c, ct_UserID c ∈ gone) (contacts d))
      (set_sessions (delete_rows (λ s, sess_user_id s ∈ gone) (sessions d))
        (delete_mailboxes (λ m, mbox_UserID m ∈ gone) d))).

Create HintDb sql.
#[export] Hint Resolve ids_ok_delete unique_delete Forall_delete_rows references_cascade : sql.

Lemma delete_messages_wf P `{∀ m, Decision (P m)} d : db_wf d → db_wf (delete_messages P d).
Proof.
  intros H0. unfold delete_messages. wf_split H0; auto with sql.
  eapply references_sub; [|exact wf_msg_fk0]. intros m [_ Hm]%elem_of_delete. done.
Qed.

Lemma delete_mailboxes_wf P `{∀ m, Decision (P m)} d : db_wf d → db_wf (delete_mailboxes P d).
Proof.
  intros H0. pose proof (delete_messages_wf (λ m, msg_MailboxID m ∈ mbox_ID <$> select P (mailboxes d)) d H0) as H1.
  destruct H0. unfold delete_mailboxes, delete_users. wf_split H1; unfold delete_mailboxes, delete_messages in *; db_cbn; auto with sql.
  eapply references_sub; [|exact wf_mbox_fk0]. intros m [_ Hm]%elem_of_delete. done.
Qed.

Lemma delete_users_wf P `{∀ u, Decision (P u)} d : db_wf d → db_wf (delete_users P d).
Proof.
  intros H0. pose proof (delete_mailboxes_wf (λ m, mbox_UserID m ∈ user_ID <$> select P (users d)) d H0) as H1.
  destruct H0. unfold delete_mailboxes, delete_users. wf_split H1; unfold delete_mailboxes, delete_messages in *; db_cbn; auto with sql.
Qed.
