(* ===== verification/World.v ===== *)
(** The state of the server process, and the effects its code has on it.

    [w_db] is the database behind the single connection ([SetMaxOpenConns(1)],
    src/pkg/storage/db.go), so statements and transactions of different
    goroutines never overlap.  [w_faults] is the environment's schedule of
    failures: every statement, commit and blob operation consumes one entry and
    fails, without an effect, when the entry is [true]; an exhausted schedule
    means no further failures.  [w_now] is the clock in Unix nanoseconds; it
    stands still during one storage call and advances between calls. *)
From S2P Require Import Prelude GoLib Cache Sql Schema.

(** The counters and gauges of one [metrics.Registry]
    (src/pkg/metrics/metrics.go) that the modelled code updates. *)
Record Metrics := mkMetrics {
  SMTPConnections : Z; MessagesReceived : Z; MessagesDelivered : Z; MessagesBounced : Z;
  QueuePending : Z; ActiveConnections : Z }.
Definition NewRegistry : Metrics := mkMetrics 0 0 0 0 0 0.

Record World := mkWorld {
  w_db : DB;
  w_faults : list bool;
  w_now : Z;
  w_userCache : Cache string User;
  w_mboxCache : Cache (Z * string) Mailbox;
  w_sessCache : Cache string Z;
  w_files : gmap string string;
  w_queueMetrics : Metrics;
  w_metrics : Metrics;
}.

Definition set_db (x : DB) (w : World) : World :=
  mkWorld x (w_faults w) (w_now w) (w_userCache w) (w_mboxCache w) (w_sessCache w) (w_files w) (w_queueMetrics w) (w_metrics w).
Definition set_faults (x : list bool) (w : World) : World :=
  mkWorld (w_db w) x (w_now w) (w_userCache w) (w_mboxCache w) (w_sessCache w) (w_files w) (w_queueMetrics w) (w_metrics w).
Definition set_now (x : Z) (w : World) : World :=
  mkWorld (w_db w) (w_faults w) x (w_userCache w) (w_mboxCache w) (w_sessCache w) (w_files w) (w_queueMetrics w) (w_metrics w).
Definition set_userCache (x : Cache string User) (w : World) : World :=
  mkWorld (w_db w) (w_faults w) (w_now w) x (w_mboxCache w) (w_sessCache w) (w_files w) (w_queueMetrics w) (w_metrics w).
Definition set_mboxCache (x : Cache (Z * string) Mailbox) (w : World) : World :=
  mkWorld (w_db w) (w_faults w) (w_now w) (w_userCache w) x (w_sessCache w) (w_files w) (w_queueMetrics w) (w_metrics w).
Definition set_sessCache (x : Cache string Z) (w : World) : World :=
  mkWorld (w_db w) (w_faults w) (w_now w) (w_userCache w) (w_mboxCache w) x (w_files w) (w_queueMetrics w) (w_metrics w).
Definition set_files (x : gmap string string) (w : World) : World :=
  mkWorld (w_db w) (w_faults w) (w_now w) (w_userCache w) (w_mboxCache w) (w_sessCache w) x (w_queueMetrics w) (w_metrics w).
Definition set_queueMetrics (x : Metrics) (w : World) : World :=
  mkWorld (w_db w) (w_faults w) (w_now w) (w_userCache w) (w_mboxCache w) (w_sessCache w) (w_files w) x (w_metrics w).
Definition set_metrics (x : Metrics) (w : World) : World :=
  mkWorld (w_db w) (w_faults w) (w_now w) (w_userCache w) (w_mboxCache w) (w_sessCache w) (w_files w) (w_queueMetrics w) x.

(** TTLs and sizes of the process-wide caches. *)
Definition second : Z := 10 ^ 9.
Definition new_userCache : Cache string User := New (30 * second) 5000.
Definition new_mboxCache : Cache (Z * string) Mailbox := New (30 * second) 5000.
Definition new_sessCache : Cache string Z := New (60 * second) 10000.

(** A freshly started process on an empty database. *)
Definition init_world (now : Z) : World :=
  mkWorld empty_db [] now new_userCache new_mboxCache new_sessCache ∅ NewRegistry NewRegistry.

(** One SQL statement: the engine may fail it. *)
Definition stmt {A} (f : DB → res A * DB) : state World (res A) := λ w,
  match w_faults w with
  | true :: fs => (Err engine_fault, set_faults fs w)
  | _ => let '(r, d) := f (w_db w) in (r, set_db d (set_faults (tail (w_faults w)) w))
  end.

(** A read-only statement. *)
Definition query {A} (f : DB → res A) : state World (res A) := stmt (λ d, (f d, d)).

(** [withTx]: begin, run, commit; any error rolls the database back. *)
Definition withTx {A} (fn : state World (res A)) : state World (res A) := λ w0,
  match stmt (λ d, (Ok tt, d)) w0 with
  | (Err e, w1) => (Err e, w1)
  | (Ok _, w1) =>
      match fn w1 with
      | (Err e, w2) => (Err e, set_db (w_db w0) w2)
      | (Ok a, w2) =>
          match stmt (λ d, (Ok tt, d)) w2 with
          | (Err e, w3) => (Err e, set_db (w_db w0) w3)
          | (Ok _, w3) => (Ok a, w3)
          end
      end
  end.
(** An operation of the process run by a connection with a state of its own. *)
Definition lift {T A} (m : state World A) : state (World * T) A := λ s,
  let '(a, w) := m s.1 in (a, (w, s.2)).
Arguments lift {T A} m s : simpl never.

(** [time.Now()] and [time.Now().Unix()]. *)
Definition time_now : state World Z := λ w, (w_now w, w).
Definition time_now_unix : state World Z := λ w, (w_now w / second, w).

(** * The invariant of the process *)
(** What the cache of mailboxes may hold: an entry may be stale, its mailbox may
    have been renamed or deleted behind its back, but its ID has been handed out
    and names no mailbox of anybody but the user of its key. *)
Definition mbox_cache_true (M : table Mailbox) (c : Cache (Z * string) Mailbox) : Prop :=
  ∀ key e, entries c !! key = Some e →
    mbox_ID (val e) ≤ seq_ M ∧ ∀ b, b ∈ rows M → mbox_ID b = mbox_ID (val e) → mbox_UserID b = key.1.

(** How statements change the table of mailboxes: a row keeps its ID and its
    user, and a new row gets an ID that was never handed out. *)
Definition mbox_evolves (M M' : table Mailbox) : Prop :=
  seq_ M ≤ seq_ M' ∧
  ∀ b', b' ∈ rows M' →
    (∃ b, b ∈ rows M ∧ mbox_ID b = mbox_ID b' ∧ mbox_UserID b = mbox_UserID b') ∨ seq_ M < mbox_ID b'.

Lemma mbox_evolves_refl M : mbox_evolves M M.
Proof. split; [done|]. intros b Hb. left. by exists b. Qed.

Lemma mbox_evolves_delete (P : Mailbox → Prop) `{∀ b, Decision (P b)} M : mbox_evolves M (delete_rows P M).
Proof. split; [done|]. intros b [_ Hb]%elem_of_delete. left. by exists b. Qed.

Lemma mbox_evolves_insert mk M : (∀ i, mbox_ID (mk i) = i) → mbox_evolves M (insert_row mk M).
Proof.
  intros Hmk. split; [cbn; lia|]. intros b [Hb| ->]%elem_of_insert; [left; by exists b|right].
  rewrite Hmk. lia.
Qed.

Lemma mbox_evolves_update (P : Mailbox → Prop) `{∀ b, Decision (P b)} f M :
  (∀ b, mbox_ID (f b) = mbox_ID b) → (∀ b, mbox_UserID (f b) = mbox_UserID b) → mbox_evolves M (update_rows P f M).
Proof.
  intros Hi Hu. split; [done|]. intros b (b0 & Hb & ->)%elem_of_update. left. exists b0.
  case_decide; by rewrite ?Hi, ?Hu.
Qed.

Lemma mbox_cache_true_evolves M M' c : mbox_evolves M M' → mbox_cache_true M c → mbox_cache_true M' c.
Proof.
  intros [Hs He] Hc key e Hk. destruct (Hc key e Hk) as [Hi Hu]. split; [lia|]. intros b Hb E.
  destruct (He b Hb) as [(b0 & Hb0 & E1 & E2)|Hlt]; [|lia]. rewrite <- E2. apply Hu; [done|congruence].
Qed.

Lemma mbox_cache_true_sub M c c' : entries c' ⊆ entries c → mbox_cache_true M c → mbox_cache_true M c'.
Proof. intros Hs Hc key e He. apply (Hc key e). by eapply lookup_weaken. Qed.

Lemma mbox_cache_true_Set `{MapRange} M c now b :
  ids_ok mbox_ID M → b ∈ rows M → mbox_cache_true M c → mbox_cache_true M (Set_ c now (mbox_key b) b).
Proof.
  intros [Hu Hi] Hb Hc key e He. destruct (decide (mbox_key b = key)) as [<-|Hne].
  - rewrite Set_lookup in He. injection He as <-. rewrite Forall_forall in Hi. split; [by apply Hi|].
    intros b' Hb' E. by rewrite (unique_inj mbox_ID M b' b).
  - apply (Hc key e). by eapply Set_lookup_ne.
Qed.

(** The database obeys its schema, and the cache of mailboxes tells no lies. *)
Definition wf (w : World) : Prop :=
  db_wf (w_db w) ∧ mbox_cache_true (mailboxes (w_db w)) (w_mboxCache w).

Lemma wf_db w : wf w → db_wf (w_db w).
Proof. by intros []. Qed.
Coercion wf_db : wf >-> db_wf.
#[export] Hint Extern 0 (db_wf (w_db _)) => (apply wf_db; assumption) : core.

Lemma wf_frame w w' : w_db w' = w_db w → entries (w_mboxCache w') ⊆ entries (w_mboxCache w) → wf w → wf w'.
Proof. intros E Hs [Hd Hc]. split; rewrite E; [done|]. by eapply mbox_cache_true_sub. Qed.

Lemma wf_set_db d w : wf w → db_wf d → mailboxes d = mailboxes (w_db w) → wf (set_db d w).
Proof. intros [_ Hc] Hd E. split; [done|]. cbn. by rewrite E. Qed.

(** Nothing cached, as at the start of the process. *)
Lemma wf_cold w : entries (w_mboxCache w) = ∅ → db_wf (w_db w) → wf w.
Proof. intros E Hd. split; [done|]. intros key e He. by rewrite E in He. Qed.

Lemma init_wf now : wf (init_world now).
Proof. apply wf_cold; [done|apply empty_db_wf]. Qed.

Definition stmt_ok {A} (f : DB → res A * DB) : Prop := ∀ d, db_wf d → db_wf (f d).2.
Definition mbox_ok {A} (f : DB → res A * DB) : Prop := ∀ d, mbox_evolves (mailboxes d) (mailboxes (f d).2).

Lemma mbox_ok_same {A} (f : DB → res A * DB) : (∀ d, mailboxes (f d).2 = mailboxes d) → mbox_ok f.
Proof. intros Hf d. rewrite Hf. apply mbox_evolves_refl. Qed.

(** A statement that does not write the table of mailboxes. *)
Ltac stmt_head f := lazymatch f with ?g _ => stmt_head g | _ => f end.
Ltac same_mailboxes :=
  lazymatch goal with
  | |- mbox_ok ?f => let g := stmt_head f in
      apply mbox_ok_same; intros; try unfold g; cbv zeta; repeat case_match; reflexivity
  end.

Lemma pres_stmt {A} (f : DB → res A * DB) : stmt_ok f → mbox_ok f → pres wf (stmt f).
Proof.
  intros Hf Hm w [Hd Hc]. assert (∀ fs, wf (set_db (f (w_db w)).2 (set_faults fs w))) as Hgoal.
  { intros fs. split; [by apply Hf|]. exact (mbox_cache_true_evolves _ _ _ (Hm _) Hc). }
  unfold stmt. destruct (w_faults w) as [|[] fs]; [specialize (Hgoal [])|done|specialize (Hgoal fs)];
    by destruct (f (w_db w)).
Qed.

Lemma pres_query {A} (f : DB → res A) : pres wf (query f).
Proof. apply pres_stmt; [intros d Hd; exact Hd|by apply mbox_ok_same]. Qed.

(** A transaction only talks to the database: it leaves the cache alone. *)
Definition mcache_is (c : Cache (Z * string) Mailbox) (w : World) : Prop := w_mboxCache w = c.

Lemma mcache_stmt c {A} (f : DB → res A * DB) : pres (mcache_is c) (stmt f).
Proof. intros w Hw. unfold stmt. destruct (w_faults w) as [|[] fs]; [|done|]; by destruct (f (w_db w)). Qed.
Lemma mcache_query c {A} (f : DB → res A) : pres (mcache_is c) (query f).
Proof. apply mcache_stmt. Qed.
#[export] Hint Resolve mcache_stmt mcache_query : pres.

Lemma pres_withTx {A} (m : state World (res A)) :
  pres wf m → (∀ c, pres (mcache_is c) m) → pres wf (withTx m).
Proof.
  intros Hm Hk w Hw. unfold withTx.
  pose proof (pres_query (λ d, Ok tt) w Hw) as H1. pose proof (mcache_query (w_mboxCache w) (λ d, Ok tt) w eq_refl) as K1.
  unfold query in H1, K1. destruct (stmt _ w) as [[u|e] w1]; simpl in *; [|done].
  specialize (Hm w1 H1). specialize (Hk _ w1 K1).
  destruct (m w1) as [[a|e] w2]; simpl in *; [|apply (wf_frame w); [done|by rewrite Hk|done]].
  pose proof (pres_query (λ d, Ok tt) w2 Hm) as H2. pose proof (mcache_query _ (λ d, Ok tt) w2 Hk) as K2.
  unfold query in H2, K2. destruct (stmt _ w2) as [[u'|e] w3]; [done|].
  apply (wf_frame w); [done|by simpl; rewrite K2|done].
Qed.

Lemma pres_time_now I : pres I time_now.
Proof. by intros w Hw. Qed.
Lemma pres_time_now_unix I : pres I time_now_unix.
Proof. by intros w Hw. Qed.

#[export] Hint Resolve pres_query pres_time_now pres_time_now_unix : pres.

(** * Running without failures *)
Lemma stmt_ok_run {A} (f : DB → res A * DB) w :
  w_faults w = [] → stmt f w = ((f (w_db w)).1, set_db (f (w_db w)).2 w).
Proof.
  intros Hf. unfold stmt. rewrite Hf. destruct (f (w_db w)) as [r d]. simpl.
  destruct w; simpl in *; by subst.
Qed.

Lemma set_db_same w : set_db (w_db w) w = w.
Proof. by destruct w. Qed.

Lemma query_run {A} (f : DB → res A) w : w_faults w = [] → query f w = (f (w_db w), w).
Proof. intros Hf. unfold query. rewrite stmt_ok_run by done. simpl. by rewrite set_db_same. Qed.

Lemma withTx_run {A} (m : state World (res A)) w :
  w_faults w = [] → w_faults (m w).2 = [] →
  withTx m w = match m w with
               | (Ok a, w2) => (Ok a, w2)
               | (Err e, w2) => (Err e, set_db (w_db w) w2)
               end.
Proof.
  intros H1 H2. unfold withTx. rewrite stmt_ok_run by done. simpl. rewrite set_db_same.
  destruct (m w) as [[a|e] w2]; [|done]. simpl in H2. rewrite stmt_ok_run by done. simpl.
  by rewrite set_db_same.
Qed.

(** * Running with failures *)
Lemma stmt_cases {A} (f : DB → res A * DB) w :
  (∃ fs, stmt f w = (Err engine_fault, set_faults fs w)) ∨
  (∃ fs, stmt f w = ((f (w_db w)).1, set_db (f (w_db w)).2 (set_faults fs w))).
Proof.
  unfold stmt. destruct (w_faults w) as [|[] fs]; [right; exists []|left; eauto|right; exists fs];
    by destruct (f (w_db w)).
Qed.

Lemma query_cases {A} (f : DB → res A) w :
  (∃ fs, query f w = (Err engine_fault, set_faults fs w)) ∨
  (∃ fs, query f w = (f (w_db w), set_faults fs w)).
Proof.
  destruct (stmt_cases (λ d, (f d, d)) w) as [H|[fs H]]; [left; exact H|right]. exists fs. unfold query.
  rewrite H. by destruct w.
Qed.

(** A transaction either commits what its body did or leaves no trace. *)
Lemma withTx_cases {A} (m : state World (res A)) w :
  ∃ fs, let w1 := set_faults fs w in
  (∃ e, (withTx m w).1 = Err e ∧ w_db (withTx m w).2 = w_db w) ∨
  (∃ a, (withTx m w).1 = Ok a ∧ (m w1).1 = Ok a ∧ w_db (withTx m w).2 = w_db (m w1).2 ∧
        w_now (withTx m w).2 = w_now (m w1).2).
Proof.
  unfold withTx. destruct (stmt_cases (λ d, (Ok tt, d)) w) as [[fs ->]|[fs ->]]; exists fs; simpl.
  - left. eauto.
  - replace (set_db (w_db w) (set_faults fs w)) with (set_faults fs w) by by destruct w.
    destruct (m (set_faults fs w)) as [[a|e] w2]; simpl; [|left; eauto].
    destruct (stmt_cases (λ d, (Ok tt, d)) w2) as [[fs' ->]|[fs' ->]]; simpl; [left; eauto|].
    right. exists a. by destruct w2.
Qed.

(** * Properties of the database alone *)
Definition on_db (P : DB → Prop) (w : World) : Prop := P (w_db w).

Section on_db.
Context (P : DB → Prop).

Lemma on_db_stmt {A} (f : DB → res A * DB) : (∀ d, P d → P (f d).2) → pres (on_db P) (stmt f).
Proof. intros Hf w Hw. destruct (stmt_cases f w) as [[fs ->]|[fs ->]]; [done|]. by apply Hf. Qed.

Lemma on_db_query {A} (f : DB → res A) : pres (on_db P) (query f).
Proof. by apply on_db_stmt. Qed.

Lemma on_db_withTx {A} (m : state World (res A)) : pres (on_db P) m → pres (on_db P) (withTx m).
Proof.
  intros Hm w Hw. destruct (withTx_cases m w) as [fs [(e & _ & E)|(a & _ & _ & E & _)]]; unfold on_db; rewrite E; [done|].
  by apply Hm.
Qed.

Lemma on_db_get {A} (g : state World A) : (∀ w, w_db (g w).2 = w_db w) → pres (on_db P) g.
Proof. intros Hg w Hw. unfold on_db. by rewrite Hg. Qed.
End on_db.
#[export] Hint Resolve on_db_query on_db_withTx : pres.
#[export] Hint Extern 1 (pres (on_db _) (smodify _)) => (apply on_db_get; intros; reflexivity) : pres.
#[export] Hint Extern 1 (pres (on_db _) time_now) => (apply on_db_get; intros; reflexivity) : pres.
#[export] Hint Extern 1 (pres (on_db _) time_now_unix) => (apply on_db_get; intros; reflexivity) : pres.

(** A world in which nothing is going to fail stays one. *)
Definition quiet (w : World) : Prop := w_faults w = [].

Lemma quiet_stmt {A} (f : DB → res A * DB) : pres quiet (stmt f).
Proof. intros w Hw. unfold quiet in *. by rewrite stmt_ok_run. Qed.
Lemma quiet_query {A} (f : DB → res A) : pres quiet (query f).
Proof. apply quiet_stmt. Qed.
Lemma quiet_smodify f : (∀ w, w_faults (f w) = w_faults w) → pres quiet (smodify f).
Proof. intros Hf. apply pres_modify. unfold quiet. intros w. by rewrite Hf. Qed.
#[export] Hint Resolve quiet_stmt quiet_query : pres.

Lemma pres_lift {T A} (I : World → Prop) (m : state World A) :
  pres I m → pres (λ s : World * T, I s.1) (lift m).
Proof. intros Hm [w t] Hw. unfold lift. specialize (Hm w Hw). cbn [fst] in *. by destruct (m w). Qed.

Lemma lift_run {T A} (m : state World A) w (t : T) a w' : m w = (a, w') → lift m (w, t) = (a, (w', t)).
Proof. intros E. unfold lift. cbn [fst snd]. by rewrite E. Qed.

(** * Operations that change nothing but the database *)
Definition db_only {A} (m : state World A) : Prop := ∀ w, ∃ d fs, (m w).2 = set_db d (set_faults fs w).

Lemma db_only_ret {A} (a : A) : db_only (sret a).
Proof. intros w. exists (w_db w), (w_faults w). by destruct w. Qed.
Lemma db_only_bind {A B} (m : state World A) (k : A → state World B) :
  db_only m → (∀ a, db_only (k a)) → db_only (sbind m k).
Proof.
  intros Hm Hk w. unfold sbind. destruct (Hm w) as (d & fs & E). destruct (m w) as [a w1]. cbn in E. subst w1.
  destruct (Hk a (set_db d (set_faults fs w))) as (d' & fs' & ->). by exists d', fs'.
Qed.
Lemma db_only_stmt {A} (f : DB → res A * DB) : db_only (stmt f).
Proof. intros w. destruct (stmt_cases f w) as [[fs ->]|[fs ->]]; [exists (w_db w), fs; by destruct w|by eexists _, fs]. Qed.
Lemma db_only_time : db_only time_now_unix.
Proof. intros w. exists (w_db w), (w_faults w). by destruct w. Qed.
Lemma db_only_withTx {A} (m : state World (res A)) : db_only m → db_only (withTx m).
Proof.
  intros Hm w. unfold withTx. destruct (db_only_stmt (λ d, (Ok tt, d)) w) as (d1 & f1 & E1).
  destruct (stmt _ w) as [[x|e] w1]; cbn in E1; subst w1; [|by exists d1, f1].
  destruct (Hm (set_db d1 (set_faults f1 w))) as (d2 & f2 & E2). destruct (m _) as [[a|e] w2]; cbn in E2; subst w2.
  2: { by exists (w_db w), f2. }
  destruct (db_only_stmt (λ d, (Ok tt, d)) (set_db d2 (set_faults f2 (set_db d1 (set_faults f1 w))))) as (d3 & f3 & E3).
  destruct (stmt _ _) as [[x'|e] w3]; cbn in E3; subst w3; [by exists d3, f3|by exists (w_db w), f3].
Qed.
