(* ===== verification/Metrics.v ===== *)
(** The Prometheus page (src/pkg/metrics/metrics.go): the metrics [NewRegistry]
    registers, with the value each has in the registry, and [HTTPHandler].
    Gathering and the text format are the Prometheus libraries. *)
From S2P Require Import Prelude World.

Inductive metric_kind := Counter | CounterVec (labels : list string) | Gauge.

(** A registered metric and its samples; a vector has one per label value used. *)
Record Collector := mkCollector {
  mc_kind : metric_kind; mc_Name : string; mc_Help : string; mc_samples : list (list string * Z) }.

(** [NewRegistry], in the order of registration.  No code counts SMTP errors by
    type, IMAP sessions or errors, or retries. *)
Definition collectors (m : Metrics) : list Collector :=
  [ mkCollector Counter "marco_smtp_connections_total" "Total SMTP connections accepted" [([], SMTPConnections m)];
    mkCollector (CounterVec ["type"]) "marco_smtp_errors_total" "SMTP errors by type" [];
    mkCollector Counter "marco_imap_sessions_total" "Total IMAP sessions" [([], 0)];
    mkCollector Counter "marco_imap_errors_total" "Total IMAP errors" [([], 0)];
    mkCollector Counter "marco_messages_received_total" "Messages received via SMTP" [([], MessagesReceived m)];
    mkCollector Counter "marco_messages_delivered_total" "Messages delivered to local mailboxes" [([], MessagesDelivered m)];
    mkCollector Counter "marco_messages_bounced_total" "Messages bounced / NDR sent" [([], MessagesBounced m)];
    mkCollector Gauge "marco_queue_pending" "Currently pending outbound messages" [([], QueuePending m)];
    mkCollector Counter "marco_queue_retries_total" "Total outbound delivery retries" [([], 0)];
    mkCollector Gauge "marco_active_connections" "Currently active connections" [([], ActiveConnections m)] ].

(** [Gather] of the registry, and what [MetricFamilyToText] writes of a family,
    with whether it failed. *)
Record PromLib := mkPromLib {
  Gather : list Collector → res (list Collector);
  MetricFamilyToText : Collector → string * bool }.

Section handler.
Context (lib : PromLib).

(** The body: the families up to the first that cannot be written. *)
Fixpoint write_families (mfs : list Collector) : string :=
  match mfs with
  | [] => ""
  | mf :: mfs => let '(text, failed) := MetricFamilyToText lib mf in
                 if failed : bool then text else text +:+ write_families mfs
  end.

(** [HTTPHandler]: status, headers and body. *)
Definition HTTPHandler (m : Metrics) : Z * list (string * string) * string :=
  match Gather lib (collectors m) with
  | Err _ => (500, [], "")
  | Ok mfs => (200, [("Content-Type", "text/plain; version=0.0.4")], write_families mfs)
  end.
End handler.

(** Prometheus refuses to register a name twice, and [MustRegister] panics then. *)
Lemma collectors_distinct (m : Metrics) : NoDup (mc_Name <$> collectors m).
Proof. by apply (bool_decide_unpack (NoDup (mc_Name <$> collectors m))). Qed.

(** A library that writes a line per sample, for the examples. *)
Definition toy_prom : PromLib :=
  mkPromLib (λ l, Ok l) (λ c, (mc_Name c, false)).
