(* ===== verification/Ratelimit.v ===== *)
(** The per-IP token bucket (src/pkg/ratelimit/ratelimit.go).  Each iteration of
    the two background loops is one step under the lock, like [Allow].  The
    [float64] token counts are exact rationals here: the rounding of [rate * 0.1]
    and of its sums is not modelled. *)
From S2P Require Import Prelude World.
From Stdlib Require Import QArith Lqa.
#[local] Open Scope Z_scope.

Record bucket := mkBucket { tokens : Q; lastSeen : Z }.

Record Limiter := mkLimiter { buckets : gmap string bucket; rate : Q; burst : Z }.

Definition New (rate : Q) (burst : Z) : Limiter := mkLimiter ∅ rate burst.

Definition with_buckets (l : Limiter) (m : gmap string bucket) : Limiter := mkLimiter m (rate l) (burst l).

(** One tick of [refillLoop], every 100 ms. *)
Definition refill (l : Limiter) : Q := (rate l * (1 # 10))%Q.
Definition refilled (l : Limiter) (b : bucket) : bucket :=
  let t := (tokens b + refill l)%Q in
  mkBucket (if negb (Qle_bool t (inject_Z (burst l))) then inject_Z (burst l) else t) (lastSeen b).
Definition refill_tick (l : Limiter) : Limiter := with_buckets l (refilled l <$> buckets l).

(** One tick of [cleanupLoop], every minute. *)
Definition stale_after : Z := 10 * 60 * second.
Definition stale (now : Z) (b : bucket) : bool := lastSeen b <? now - stale_after.
Definition cleanup_tick (l : Limiter) (now : Z) : Limiter :=
  with_buckets l (filter (λ p, stale now p.2 = false) (buckets l)).

Definition Allow (l : Limiter) (now : Z) (ip : string) : bool * Limiter :=
  let b := default (mkBucket (inject_Z (burst l)) now) (buckets l !! ip) in
  if Qle_bool 1 (tokens b)
  then (true, with_buckets l (<[ip := mkBucket (tokens b - 1)%Q now]> (buckets l)))
  else (false, with_buckets l (<[ip := mkBucket (tokens b) now]> (buckets l))).

(** * Histories *)
Inductive rl_event :=
  | Request (ip : string) (now : Z)
  | RefillTick
  | CleanupTick (now : Z).

(** What has happened to one client: requests granted, refill ticks, and how
    often its bucket was evicted. *)
Record account := mkAccount { granted : Z; refills : Z; evictions : Z }.

Definition rl_step (ip : string) (s : Limiter * account) (e : rl_event) : Limiter * account :=
  let '(l, a) := s in
  match e with
  | Request ip' now =>
      let '(ok, l') := Allow l now ip' in
      (l', if decide (ip' = ip) then mkAccount (granted a + Z.b2z ok) (refills a) (evictions a) else a)
  | RefillTick => (refill_tick l, mkAccount (granted a) (refills a + 1) (evictions a))
  | CleanupTick now =>
      let l' := cleanup_tick l now in
      (l', match buckets l !! ip, buckets l' !! ip with
           | Some _, None => mkAccount (granted a) (refills a) (evictions a + 1)
           | _, _ => a
           end)
  end.

Definition rl_run (ip : string) (l : Limiter) (es : list rl_event) : Limiter * account :=
  foldl (rl_step ip) (l, mkAccount 0 0 0) es.

(** The events that concern [ip]. *)
Definition concerns (ip : string) (e : rl_event) : bool :=
  match e with Request ip' _ => bool_decide (ip' = ip) | _ => true end.

(** Two limiters that treat [ip] alike. *)
Definition same_bucket (ip : string) (l l' : Limiter) : Prop :=
  rate l = rate l' ∧ burst l = burst l' ∧ buckets l !! ip = buckets l' !! ip.

Lemma lookup_cleanup l now ip :
  buckets (cleanup_tick l now) !! ip =
  match buckets l !! ip with Some b => if stale now b then None else Some b | None => None end.
Proof.
  cbn. rewrite map_lookup_filter. destruct (buckets l !! ip) as [b|] eqn:E; [|done]. cbn.
  destruct (stale now b) eqn:Es; [by rewrite option_guard_False|by rewrite option_guard_True].
Qed.

Lemma Allow_same ip l l' now :
  same_bucket ip l l' → (Allow l now ip).1 = (Allow l' now ip).1 ∧ same_bucket ip (Allow l now ip).2 (Allow l' now ip).2.
Proof.
  intros (Hr & Hb & Hm). unfold Allow. rewrite Hm, Hb. destruct (Qle_bool 1 _); cbn;
    (split; [done|]); repeat split; try done; cbn; by rewrite !lookup_insert_eq.
Qed.

Lemma Allow_other ip ip' l now : ip' ≠ ip → same_bucket ip (Allow l now ip').2 l.
Proof.
  intros Hne. unfold Allow. destruct (Qle_bool 1 _); repeat split; cbn; by rewrite lookup_insert_ne.
Qed.

Lemma rl_step_same ip l l' a e :
  same_bucket ip l l' → concerns ip e = true →
  same_bucket ip (rl_step ip (l, a) e).1 (rl_step ip (l', a) e).1 ∧ (rl_step ip (l, a) e).2 = (rl_step ip (l', a) e).2.
Proof.
  intros Hs He. destruct e as [ip' now| |now]; unfold rl_step.
  - apply bool_decide_eq_true in He as ->. destruct (Allow_same ip l l' now Hs) as [H1 H2].
    destruct (Allow l now ip), (Allow l' now ip); cbn in *. by rewrite H1.
  - destruct Hs as (Hr & Hb & Hm). split; [|done]. repeat split; try done. cbn. rewrite !lookup_fmap, Hm.
    unfold refilled, refill. by rewrite Hr, Hb.
  - destruct Hs as (Hr & Hb & Hm). cbv beta iota zeta. rewrite !lookup_cleanup, Hm. split; [|done].
    repeat split; try done. cbn [fst]. by rewrite !lookup_cleanup, Hm.
Qed.

Lemma rl_step_other ip l a e :
  concerns ip e = false → same_bucket ip (rl_step ip (l, a) e).1 l ∧ (rl_step ip (l, a) e).2 = a.
Proof.
  destruct e as [ip' now| |]; [|done..]. cbn. intros Hne%bool_decide_eq_false.
  pose proof (Allow_other ip ip' l now Hne). destruct (Allow l now ip'). by rewrite decide_False.
Qed.

(** What the bucket of [ip] still holds; a client without one has a full bucket. *)
Definition balance (ip : string) (l : Limiter) : Q :=
  match buckets l !! ip with Some b => tokens b | None => inject_Z (burst l) end.

(** Everything granted was paid for. *)
Definition covered (ip : string) (s : Limiter * account) : Prop :=
  let '(l, a) := s in
  (0 <= balance ip l)%Q ∧ (balance ip l <= inject_Z (burst l))%Q ∧
  (inject_Z (granted a) + balance ip l <=
   inject_Z (burst l) * (1 + inject_Z (evictions a)) + inject_Z (refills a) * refill l)%Q.

Lemma balance_set ip l b : balance ip (with_buckets l (<[ip := b]> (buckets l))) = tokens b.
Proof. unfold balance. cbn. by rewrite lookup_insert_eq. Qed.

Lemma Qle_bool_false x y : Qle_bool x y = false → (y < x)%Q.
Proof. intros H. apply Qnot_le_lt. intros Hle%Qle_bool_iff. congruence. Qed.

Lemma covered_step ip s e :
  (0 <= rate s.1)%Q → 0 ≤ burst s.1 → covered ip s → covered ip (rl_step ip s e).
Proof.
  destruct s as [l a]. cbn [fst]. intros Hr Hb (Hn & Hm & Hc).
  assert (0 <= inject_Z (burst l))%Q as Hb' by (by rewrite <- (Zle_Qle 0)).
  destruct e as [ip' now| |now].
  - destruct (decide (ip' = ip)) as [->|Hne].
    + unfold rl_step, Allow. fold (balance ip l).
      replace (tokens (default _ _)) with (balance ip l) by (unfold balance; by destruct (buckets l !! ip)).
      destruct (Qle_bool 1 (balance ip l)) eqn:E; rewrite decide_True by done;
        cbn -[inject_Z balance covered]; unfold covered; rewrite !balance_set; unfold refill in *;
        cbn -[inject_Z balance Qplus Qminus Qmult].
      * apply Qle_bool_iff in E. rewrite inject_Z_plus. change (inject_Z 1) with 1%Q. repeat split; lra.
      * rewrite Z.add_0_r. repeat split; lra.
    + destruct (rl_step_other ip l a (Request ip' now)) as [(Hr' & Hb'' & Hm') Ha];
        [by apply bool_decide_eq_false|].
      destruct (rl_step ip (l, a) (Request ip' now)) as [l' a']. cbn in *. subst a'.
      unfold covered, balance, refill. rewrite Hr', Hb'', Hm'. by repeat split.
  - unfold rl_step, covered, balance, refill in *. cbn -[inject_Z]. rewrite lookup_fmap, inject_Z_plus. change (inject_Z 1) with 1%Q in *.
    assert (0 <= rate l * (1 # 10))%Q by lra.
    destruct (buckets l !! ip) as [b|]; cbn -[inject_Z]; [|repeat split; lra].
    unfold refill. destruct (Qle_bool _ _) eqn:E; cbn.
    + apply Qle_bool_iff in E. repeat split; lra.
    + apply Qle_bool_false in E. repeat split; lra.
  - unfold rl_step. cbv beta iota zeta. rewrite lookup_cleanup. unfold covered, balance in *. rewrite lookup_cleanup.
    destruct (buckets l !! ip) as [b|] eqn:E; [|by repeat split]. cbn -[inject_Z].
    destruct (stale now b); cbn -[inject_Z]; [rewrite inject_Z_plus; change (inject_Z 1) with 1%Q|]; repeat split; unfold refill in *; cbn -[inject_Z] in *; lra.
Qed.

Lemma rl_step_params ip s e : rate (rl_step ip s e).1 = rate s.1 ∧ burst (rl_step ip s e).1 = burst s.1.
Proof. destruct s as [l a], e; cbn; [|done..]. unfold Allow. by destruct (Qle_bool 1 _). Qed.

(** C37.  The rate limiter bounds every client, and clients do not affect each
    other: whatever requests, refill ticks and cleanups happen in whatever order,
    a client is granted at most [burst] requests plus [rate / 10] for each tick of
    the refill loop, where only the eviction of its idle bucket restores a full
    burst; and its account depends on its own requests and the ticks alone. *)
Theorem limiter_bound (r : Q) (b : Z) (ip : string) (es : list rl_event) :
  (0 <= r)%Q → 0 ≤ b →
  let a := (rl_run ip (New r b) es).2 in
  (inject_Z (granted a) <= inject_Z b * (1 + inject_Z (evictions a)) + inject_Z (refills a) * (r * (1 # 10)))%Q ∧
  (rl_run ip (New r b) (List.filter (concerns ip) es)).2 = a.
Proof.
  intros Hr Hb. split.
  - assert (∀ s, (0 <= rate s.1)%Q → 0 ≤ burst s.1 → covered ip s → let s' := foldl (rl_step ip) s es in
      covered ip s' ∧ rate s'.1 = rate s.1 ∧ burst s'.1 = burst s.1) as H.
    { clear. induction es as [|e es IH]; intros s Hr Hb Hc; [done|]. cbn.
      destruct (rl_step_params ip s e) as [H1 H2].
      destruct (IH (rl_step ip s e)) as (? & -> & ->); [by rewrite H1|by rewrite H2|by apply covered_step|by rewrite H1, H2]. }
    destruct (H (New r b, mkAccount 0 0 0) Hr Hb) as (Hc & Hr' & Hb').
    { unfold covered, balance, New, refill. cbn -[inject_Z Qplus Qmult]. rewrite lookup_empty.
      assert (0 <= inject_Z b)%Q by (by rewrite <- (Zle_Qle 0)). change (inject_Z 0) with 0%Q. repeat split; lra. }
    unfold rl_run. destruct (foldl _ _ _) as [l a]. cbn -[balance refill] in Hr', Hb' |- *. destruct Hc as (Hn & _ & Hc). unfold refill in Hc.
    rewrite Hr', Hb' in Hc. lra.
  - cbv zeta. unfold rl_run. assert (∀ l l' a, same_bucket ip l l' →
      (foldl (rl_step ip) (l, a) (List.filter (concerns ip) es)).2 = (foldl (rl_step ip) (l', a) es).2) as H.
    { clear. induction es as [|e es IH]; intros l l' a Hs; [done|]. cbn [List.filter foldl].
      destruct (concerns ip e) eqn:E; cbn [foldl].
      - destruct (rl_step_same ip l l' a e Hs E) as [H1 H2].
        destruct (rl_step ip (l, a) e), (rl_step ip (l', a) e); cbn [fst snd] in *. subst. by apply IH.
      - destruct (rl_step_other ip l' a e E) as [(H1 & H2 & H3) Ha].
        destruct (rl_step ip (l', a) e) as [l2 a2]; cbn [fst snd] in *. subst a2. apply IH.
        destruct Hs as (? & ? & ?). repeat split; congruence. }
    apply H. done.
Qed.

Lemma limiter_bound_witness :
  let es := [Request "a" 0; Request "b" 1; Request "a" 2; Request "a" 3; RefillTick; Request "a" 4] in
  (rl_run "a" (New 10 2) es).2 = mkAccount 3 1 0 ∧
  (rl_run "a" (New 10 2) (List.filter (concerns "a") es)).2 = mkAccount 3 1 0.
Proof.
  intros es. split; [vm_compute; reflexivity|].
  rewrite (proj2 (limiter_bound 10 2 "a" es ltac:(discriminate) ltac:(lia))). vm_compute; reflexivity.
Defined.
