(* ===== verification/StoreUsers.v ===== *)
(** Accounts: users, domains, aliases, contacts and the greylist
    (src/pkg/storage/{users,domains,aliases,contacts,greylist}.go).  Each
    [sql_*] definition is one SQL statement of the source. *)
From S2P Require Import Prelude GoLib Cache Sql Schema World.

(** ORDER BY on TEXT columns: the BINARY collation. *)
Definition string_le (a b : string) : Prop := String.leb a b = true.
#[export] Instance string_le_dec : RelDecision string_le.
Proof. unfold string_le. intros a b. apply _. Defined.

(** Lexicographic order on two text columns. *)
Definition string2_le (a b : string * string) : Prop :=
  String.ltb a.1 b.1 = true ∨ (a.1 = b.1 ∧ string_le a.2 b.2).
#[export] Instance string2_le_dec : RelDecision string2_le.
Proof. unfold string2_le. intros a b. apply _. Defined.

Definition wrap (ctx : string) (e : error) : error := Errorf ctx e "".

(** The [%q] verb, for text without characters it would escape. *)
Definition quoted (s : string) : string := String (chr 34) (s +:+ String (chr 34) EmptyString).

(** [QueryRow(...).Scan(...)]: the first row of the result. *)
Definition query_row {R} (l : list R) : res R :=
  match l with r :: _ => Ok r | [] => Err (Sentinel ErrNoRows) end.

(** * users.go *)
Definition sql_insert_user (email hash : string) (now : Z) (isAdmin : bool) (d : DB) : res Z * DB :=
  if decide (email ∈ user_Email <$> rows (users d)) then (Err (unique_violation "users.email"), d)
  else let t := insert_row (λ id, mkUser id email hash isAdmin now true) (users d) in
       (Ok (seq_ t), set_users t d).

Definition CreateUser (email passwordHash : string) (isAdmin : bool) : state World (res Z) :=
  let! now := time_now_unix in
  let! r := stmt (sql_insert_user email passwordHash now isAdmin) in
  match r with
  | Err err =>
      if isConstraintError err then sret (Err (wrap "storage: create user: " (Sentinel ErrAlreadyExists)))
      else sret (Err (wrap "storage: create user: " err))
  | Ok id =>
      do! smodify (λ w, set_userCache (Delete (w_userCache w) email) w) in
      sret (Ok id)
  end.

Definition userByEmailCache_Get (email : string) : state World (option User) := λ w,
  let '(r, c) := Get (w_userCache w) (w_now w) email in (r, set_userCache c w).

Definition GetUserByEmail `{MapRange} (email : string) : state World (res User) :=
  let! hit := userByEmailCache_Get email in
  match hit with
  | Some u => sret (Ok u)
  | None =>
      let! r := query (λ d, query_row (select (λ u, user_Email u = email) (users d))) in
      match r with
      | Err (Sentinel ErrNoRows) => sret (Err (wrap "storage: user not found: " (Sentinel ErrNotFound)))
      | Err err => sret (Err (wrap "storage: get user by email: " err))
      | Ok u =>
          do! smodify (λ w, set_userCache (Set_ (w_userCache w) (w_now w) email u) w) in
          sret (Ok u)
      end
  end.

Definition GetUserByID (id : Z) : state World (res User) :=
  let! r := query (λ d, query_row (select (λ u, user_ID u = id) (users d))) in
  match r with
  | Err (Sentinel ErrNoRows) => sret (Err (wrap "storage: user not found: " (Sentinel ErrNotFound)))
  | Err err => sret (Err (wrap "storage: get user by id: " err))
  | Ok u => sret (Ok u)
  end.

(** Rows are kept in rowid order, so ORDER BY id is the identity. *)
Definition ListUsers : state World (res (list User)) :=
  let! r := query (λ d, Ok (rows (users d))) in
  match r with
  | Err err => sret (Err (wrap "storage: list users: " err))
  | Ok us => sret (Ok us)
  end.

(** The UPDATE that [UpdateUser] assembles from the non-nil arguments. *)
Definition updated_user (email hash : option string) (isActive isAdmin : option bool) (u : User) : User :=
  mkUser (user_ID u) (default (user_Email u) email) (default (user_PasswordHash u) hash)
    (default (user_IsAdmin u) isAdmin) (user_CreatedAt u) (default (user_IsActive u) isActive).

Definition sql_update_user (id : Z) (email hash : option string) (isActive isAdmin : option bool) (d : DB)
    : res Z * DB :=
  let t := update_rows (λ u, user_ID u = id) (updated_user email hash isActive isAdmin) (users d) in
  if decide (unique user_Email t) then (Ok (affected (λ u, user_ID u = id) (users d)), set_users t d)
  else (Err (unique_violation "users.email"), d).

Definition UpdateUser (id : Z) (email passwordHash : option string) (isActive isAdmin : option bool)
    : state World (res unit) :=
  match email, passwordHash, isActive, isAdmin with
  | None, None, None, None => sret (Ok tt)
  | _, _, _, _ =>
      let! r := stmt (sql_update_user id email passwordHash isActive isAdmin) in
      match r with
      | Err err => sret (Err (wrap "storage: update user: " err))
      | Ok n => if n =? 0 then sret (Err (wrap "storage: update user: " (Sentinel ErrNotFound)))
                else sret (Ok tt)
      end
  end.

Definition sql_delete_user (id : Z) (d : DB) : res Z * DB :=
  (Ok (affected (λ u, user_ID u = id) (users d)), delete_users (λ u, user_ID u = id) d).

Definition DeleteUser (id : Z) : state World (res unit) :=
  let! r := stmt (sql_delete_user id) in
  match r with
  | Err err => sret (Err (wrap "storage: delete user: " err))
  | Ok n => if n =? 0 then sret (Err (wrap "storage: delete user: " (Sentinel ErrNotFound)))
            else sret (Ok tt)
  end.

Definition CountUsers : state World (res Z) :=
  let! r := query (λ d, Ok (Z.of_nat (length (rows (users d))))) in
  match r with
  | Err err => sret (Err (wrap "storage: count users: " err))
  | Ok n => sret (Ok n)
  end.

(** The result map has one entry for each address that names a user. *)
Definition GetUsersByEmail (emails : list string) : state World (res (gmap string User)) :=
  match emails with
  | [] => sret (Ok ∅)
  | _ =>
      let! r := query (λ d, Ok (select (λ u, user_Email u ∈ emails) (users d))) in
      match r with
      | Err err => sret (Err (wrap "storage: get users by email: " err))
      | Ok us => sret (Ok (foldl (λ m u, <[user_Email u := u]> m) ∅ us))
      end
  end.

(** * domains.go *)
Definition ListDomains : state World (res (list string)) :=
  let! r := query (λ d, Ok (order_by string_le (domain_name <$> rows (domains d)))) in
  match r with
  | Err err => sret (Err (wrap "storage: list domains: " err))
  | Ok ds => sret (Ok ds)
  end.

Definition sql_insert_domain (name : string) (d : DB) : res unit * DB :=
  if decide (name ∈ domain_name <$> rows (domains d)) then (Err (pk_violation "domains.name"), d)
  else (Ok tt, set_domains (insert_row (λ _, mkDomain name true) (domains d)) d).

Definition CreateDomain (name : string) : state World (res unit) :=
  let! r := stmt (sql_insert_domain (strings.ToLower name)) in
  match r with
  | Err err =>
      if isUniqueConstraint err
      then sret (Err (Errorf "" (Sentinel ErrAlreadyExists) (": domain " +:+ quoted name +:+ " already exists")))
      else sret (Err (wrap ("storage: create domain " +:+ quoted name +:+ ": ") err))
  | Ok _ => sret (Ok tt)
  end.

Definition sql_delete_domain (name : string) (d : DB) : res Z * DB :=
  (Ok (affected (λ x, domain_name x = name) (domains d)),
   set_domains (delete_rows (λ x, domain_name x = name) (domains d)) d).

Definition DeleteDomain (name : string) : state World (res unit) :=
  let! r := stmt (sql_delete_domain name) in
  match r with
  | Err err => sret (Err (wrap ("storage: delete domain " +:+ quoted name +:+ ": ") err))
  | Ok n => if n =? 0 then sret (Err (Errorf "" (Sentinel ErrNotFound) (": domain " +:+ quoted name)))
            else sret (Ok tt)
  end.

Definition IsLocalDomain (domain : string) : state World (res bool) :=
  let! r := query (λ d, query_row (select (λ x, domain_name x = strings.ToLower domain) (domains d))) in
  match r with
  | Err (Sentinel ErrNoRows) => sret (Ok false)
  | Err err => sret (Err (wrap ("storage: check domain " +:+ quoted domain +:+ ": ") err))
  | Ok _ => sret (Ok true)
  end.

(** * aliases.go *)
Definition alias_order (a b : Alias) : Prop :=
  string2_le (alias_Domain a, alias_Source a) (alias_Domain b, alias_Source b).
#[export] Instance alias_order_dec : RelDecision alias_order.
Proof. unfold alias_order. intros a b. apply _. Defined.

Definition ListAliases : state World (res (list Alias)) :=
  let! r := query (λ d, Ok (order_by alias_order (rows (aliases d)))) in
  match r with
  | Err err => sret (Err (wrap "storage: list aliases: " err))
  | Ok l => sret (Ok l)
  end.

Definition sql_insert_alias (source destination domain : string) (d : DB) : res Z * DB :=
  if decide ((source, domain) ∈ alias_key <$> rows (aliases d))
  then (Err (unique_violation "aliases.source, aliases.domain"), d)
  else let t := insert_row (λ id, mkAlias id source destination domain) (aliases d) in
       (Ok (seq_ t), set_aliases t d).

Definition CreateAlias (source destination domain : string) : state World (res Z) :=
  let! r := stmt (sql_insert_alias source destination domain) in
  match r with
  | Err err =>
      if isUniqueConstraint err
      then sret (Err (Errorf "" (Sentinel ErrAlreadyExists)
                        (": alias " +:+ quoted source +:+ " already exists for domain " +:+ quoted domain)))
      else sret (Err (wrap ("storage: create alias " +:+ quoted source +:+ ": ") err))
  | Ok id => sret (Ok id)
  end.

Definition sql_delete_alias (id : Z) (d : DB) : res Z * DB :=
  (Ok (affected (λ a, alias_ID a = id) (aliases d)),
   set_aliases (delete_rows (λ a, alias_ID a = id) (aliases d)) d).

Definition DeleteAlias (id : Z) : state World (res unit) :=
  let! r := stmt (sql_delete_alias id) in
  match r with
  | Err err => sret (Err (wrap ("storage: delete alias " +:+ strconv.Itoa id +:+ ": ") err))
  | Ok n => if n =? 0 then sret (Err (Errorf "" (Sentinel ErrNotFound) (": alias " +:+ strconv.Itoa id)))
            else sret (Ok tt)
  end.

Definition GetAlias (source domain : string) : state World (res Alias) :=
  let! r := query (λ d, query_row (select (λ a, alias_Source a = source ∧ alias_Domain a = domain) (aliases d))) in
  match r with
  | Err (Sentinel ErrNoRows) =>
      sret (Err (Errorf "" (Sentinel ErrNotFound) (": alias " +:+ quoted source +:+ " for domain " +:+ quoted domain)))
  | Err err => sret (Err (wrap "storage: get alias: " err))
  | Ok a => sret (Ok a)
  end.

Definition GetAliasesByDomain (domain : string) : state World (res (list Alias)) :=
  let! r := query (λ d, Ok (order_by alias_order (select (λ a, alias_Domain a = domain) (aliases d)))) in
  match r with
  | Err err => sret (Err (wrap "storage: get aliases by domain: " err))
  | Ok l => sret (Ok l)
  end.

(** * contacts.go *)
Definition sql_insert_contact (userID : Z) (name email : string) (now : Z) (d : DB) : res Z * DB :=
  if decide ((userID, email) ∈ ct_key <$> rows (contacts d))
  then (Err (unique_violation "contacts.user_id, contacts.email"), d)
  else if decide (userID ∈ user_ids d)
  then let t := insert_row (λ id, mkContact id userID name email now) (contacts d) in
       (Ok (seq_ t), set_contacts t d)
  else (Err fk_violation, d).

Definition CreateContact (userID : Z) (name email : string) : state World (res Z) :=
  let! now := time_now_unix in
  let! r := stmt (sql_insert_contact userID name email now) in
  match r with
  | Err err =>
      if isConstraintError err then sret (Err (wrap "storage: create contact: " (Sentinel ErrAlreadyExists)))
      else sret (Err (wrap "storage: create contact: " err))
  | Ok id => sret (Ok id)
  end.

Definition contact_order (a b : Contact) : Prop := string2_le (ct_Name a, ct_Email a) (ct_Name b, ct_Email b).
#[export] Instance contact_order_dec : RelDecision contact_order.
Proof. unfold contact_order. intros a b. apply _. Defined.

Definition ListContacts (userID : Z) : state World (res (list Contact)) :=
  let! r := query (λ d, Ok (order_by contact_order (select (λ c, ct_UserID c = userID) (contacts d)))) in
  match r with
  | Err err => sret (Err (wrap "storage: list contacts: " err))
  | Ok l => sret (Ok l)
  end.

Definition sql_delete_contact (userID contactID : Z) (d : DB) : res Z * DB :=
  (Ok (affected (λ c, ct_ID c = contactID ∧ ct_UserID c = userID) (contacts d)),
   set_contacts (delete_rows (λ c, ct_ID c = contactID ∧ ct_UserID c = userID) (contacts d)) d).

Definition DeleteContact (userID contactID : Z) : state World (res unit) :=
  let! r := stmt (sql_delete_contact userID contactID) in
  match r with
  | Err err => sret (Err (wrap "storage: delete contact: " err))
  | Ok n => if n =? 0 then sret (Err (wrap "storage: delete contact: " (Sentinel ErrNotFound)))
            else sret (Ok tt)
  end.

(** * greylist.go *)
Definition sql_upsert_greylist (ip from to : string) (now : Z) (d : DB) : res unit * DB :=
  let key g := gl_key g = (ip, from, to) in
  if decide ((ip, from, to) ∈ gl_key <$> rows (greylist d))
  then (Ok tt, set_greylist (update_rows key
          (λ g, mkGreylistRow (gl_ip g) (gl_from g) (gl_to g) (gl_first_seen g) now (gl_passed g))
          (greylist d)) d)
  else (Ok tt, set_greylist (insert_row (λ _, mkGreylistRow ip from to now now 0) (greylist d)) d).

Definition RecordAttempt (ip from to : string) : state World (res unit) :=
  let! now := time_now_unix in stmt (sql_upsert_greylist ip from to now).

Definition IsWhitelisted (ip from to : string) : state World (res bool) :=
  let! r := query (λ d, query_row (select (λ g, gl_key g = (ip, from, to)) (greylist d))) in
  match r with
  | Err (Sentinel ErrNoRows) => sret (Ok false)
  | Err err => sret (Err err)
  | Ok g => sret (Ok (gl_passed g =? 1))
  end.

Definition sql_mark_passed (ip from to : string) (d : DB) : res unit * DB :=
  (Ok tt, set_greylist (update_rows (λ g, gl_key g = (ip, from, to))
     (λ g, mkGreylistRow (gl_ip g) (gl_from g) (gl_to g) (gl_first_seen g) (gl_last_seen g) 1)
     (greylist d)) d).

Definition MarkPassed (ip from to : string) : state World (res unit) := stmt (sql_mark_passed ip from to).

(** * Every statement keeps the database well-formed *)
Create HintDb stmts.
Lemma unique_insert_dec {R K} (key : R → K) mk (t : table R) k :
  unique key t → k ∉ key <$> rows t → key (mk (seq_ t + 1)) = k → unique key (insert_row mk t).
Proof.
  intros Hu Hk <-. apply unique_insert; [done|]. intros r Hr E. apply Hk. rewrite <- E.
  by apply list_elem_of_fmap_2.
Qed.

#[export] Hint Resolve ids_ok_insert ids_ok_update unique_update unique_insert_dec
  Forall_insert_row references_insert references_update : sql.

Lemma sql_insert_user_ok email hash now adm : stmt_ok (sql_insert_user email hash now adm).
Proof.
  intros d H. unfold sql_insert_user. case_decide; [done|]. simpl fst. unfold snd.
  wf_split H; eauto with sql.
Qed.

Lemma sql_update_user_ok id e h a m : stmt_ok (sql_update_user id e h a m).
Proof.
  intros d H. unfold sql_update_user. case_decide; [|done]. unfold snd. wf_split H; eauto with sql.
Qed.

Lemma sql_delete_user_ok id : stmt_ok (sql_delete_user id).
Proof. intros d H. by apply delete_users_wf. Qed.

Lemma sql_delete_user_mbox id : mbox_ok (sql_delete_user id).
Proof. intros d. apply mbox_evolves_delete. Qed.

Lemma sql_insert_domain_ok n : stmt_ok (sql_insert_domain n).
Proof. intros d H. unfold sql_insert_domain. case_decide; [done|]. unfold snd. wf_split H; eauto with sql. Qed.

Lemma sql_delete_domain_ok n : stmt_ok (sql_delete_domain n).
Proof. intros d H. unfold sql_delete_domain, snd. wf_split H; eauto with sql. Qed.

Lemma sql_insert_alias_ok s t n : stmt_ok (sql_insert_alias s t n).
Proof. intros d H. unfold sql_insert_alias. case_decide; [done|]. unfold snd. wf_split H; eauto with sql. Qed.

Lemma sql_delete_alias_ok id : stmt_ok (sql_delete_alias id).
Proof. intros d H. unfold sql_delete_alias, snd. wf_split H; eauto with sql. Qed.

Lemma sql_insert_contact_ok u n e t : stmt_ok (sql_insert_contact u n e t).
Proof.
  intros d H. unfold sql_insert_contact. case_decide; [done|]. case_decide; [|done]. unfold snd.
  wf_split H; eauto with sql. by apply Forall_insert_row.
Qed.

Lemma sql_delete_contact_ok u c : stmt_ok (sql_delete_contact u c).
Proof. intros d H. unfold sql_delete_contact, snd. wf_split H; eauto with sql. by apply Forall_delete_rows. Qed.

Lemma sql_upsert_greylist_ok ip f t n : stmt_ok (sql_upsert_greylist ip f t n).
Proof.
  intros d H. unfold sql_upsert_greylist. case_decide; unfold snd; wf_split H; eauto with sql.
Qed.

Lemma sql_mark_passed_ok ip f t : stmt_ok (sql_mark_passed ip f t).
Proof. intros d H. unfold sql_mark_passed, snd. wf_split H; eauto with sql. Qed.

#[export] Hint Resolve sql_insert_user_ok sql_update_user_ok sql_delete_user_ok sql_delete_user_mbox sql_insert_domain_ok
  sql_delete_domain_ok sql_insert_alias_ok sql_delete_alias_ok sql_insert_contact_ok
  sql_delete_contact_ok sql_upsert_greylist_ok sql_mark_passed_ok : stmts.

(** The database is only changed by statements. *)
Lemma pres_smodify_db f :
  (∀ w, w_db (f w) = w_db w) → (∀ w, w_mboxCache (f w) = w_mboxCache w) → pres wf (smodify f).
Proof. intros Hf Hc. apply pres_modify. intros w. apply wf_frame; [apply Hf|by rewrite Hc]. Qed.

Lemma pres_smodify_mboxCache g :
  (∀ w, entries (g w) ⊆ entries (w_mboxCache w)) → pres wf (smodify (λ w, set_mboxCache (g w) w)).
Proof. intros Hg. apply pres_modify. intros w. apply wf_frame; [done|apply Hg]. Qed.

(** * Every operation keeps the database well-formed, whatever fails *)
#[export] Hint Extern 1 (pres wf (stmt _)) => (apply pres_stmt; [solve [auto with stmts]|solve [auto with stmts | same_mailboxes]]) : pres.
#[export] Hint Extern 1 (pres wf (smodify _)) => (apply pres_smodify_db; intros; reflexivity) : pres.
#[export] Hint Extern 2 (pres wf (smodify (λ w, set_mboxCache _ w))) =>
  (apply pres_smodify_mboxCache; intros; first [apply delete_subseteq | apply map_empty_subseteq]) : pres.
#[export] Hint Extern 1 (pres (mcache_is _) (smodify _)) => (apply pres_modify; intros; assumption) : pres.
#[export] Hint Extern 1 (pres wf (withTx _)) => (apply pres_withTx; [pres_walk|intros; pres_walk]) : pres.

Lemma userByEmailCache_Get_wf email : pres wf (userByEmailCache_Get email).
Proof. intros w Hw. unfold userByEmailCache_Get. by destruct (Get _ _ _). Qed.
#[export] Hint Resolve userByEmailCache_Get_wf : pres.
Lemma on_db_userCache P email : pres (on_db P) (userByEmailCache_Get email).
Proof. apply on_db_get. intros w. unfold userByEmailCache_Get. by destruct (Get _ _ _). Qed.
#[export] Hint Resolve on_db_userCache : pres.

Section wf.
Context `{MapRange}.
Lemma CreateUser_wf e h a : pres wf (CreateUser e h a). Proof. unfold CreateUser. pres_walk. Qed.
Lemma GetUserByEmail_wf e : pres wf (GetUserByEmail e). Proof. unfold GetUserByEmail. pres_walk. Qed.
Lemma GetUserByID_wf i : pres wf (GetUserByID i). Proof. unfold GetUserByID. pres_walk. Qed.
Lemma ListUsers_wf : pres wf ListUsers. Proof. unfold ListUsers. pres_walk. Qed.
Lemma UpdateUser_wf i e h a m : pres wf (UpdateUser i e h a m). Proof. unfold UpdateUser. pres_walk. Qed.
Lemma DeleteUser_wf i : pres wf (DeleteUser i). Proof. unfold DeleteUser. pres_walk. Qed.
Lemma CountUsers_wf : pres wf CountUsers. Proof. unfold CountUsers. pres_walk. Qed.
Lemma GetUsersByEmail_wf l : pres wf (GetUsersByEmail l). Proof. unfold GetUsersByEmail. pres_walk. Qed.
Lemma ListDomains_wf : pres wf ListDomains. Proof. unfold ListDomains. pres_walk. Qed.
Lemma CreateDomain_wf n : pres wf (CreateDomain n). Proof. unfold CreateDomain. pres_walk. Qed.
Lemma DeleteDomain_wf n : pres wf (DeleteDomain n). Proof. unfold DeleteDomain. pres_walk. Qed.
Lemma IsLocalDomain_wf n : pres wf (IsLocalDomain n). Proof. unfold IsLocalDomain. pres_walk. Qed.
Lemma ListAliases_wf : pres wf ListAliases. Proof. unfold ListAliases. pres_walk. Qed.
Lemma CreateAlias_wf s d n : pres wf (CreateAlias s d n). Proof. unfold CreateAlias. pres_walk. Qed.
Lemma DeleteAlias_wf i : pres wf (DeleteAlias i). Proof. unfold DeleteAlias. pres_walk. Qed.
Lemma GetAlias_wf s n : pres wf (GetAlias s n). Proof. unfold GetAlias. pres_walk. Qed.
Lemma GetAliasesByDomain_wf n : pres wf (GetAliasesByDomain n). Proof. unfold GetAliasesByDomain. pres_walk. Qed.
Lemma CreateContact_wf u n e : pres wf (CreateContact u n e). Proof. unfold CreateContact. pres_walk. Qed.
Lemma ListContacts_wf u : pres wf (ListContacts u). Proof. unfold ListContacts. pres_walk. Qed.
Lemma DeleteContact_wf u c : pres wf (DeleteContact u c). Proof. unfold DeleteContact. pres_walk. Qed.
Lemma RecordAttempt_wf i f t : pres wf (RecordAttempt i f t). Proof. unfold RecordAttempt. pres_walk. Qed.
Lemma IsWhitelisted_wf i f t : pres wf (IsWhitelisted i f t). Proof. unfold IsWhitelisted. pres_walk. Qed.
Lemma MarkPassed_wf i f t : pres wf (MarkPassed i f t). Proof. unfold MarkPassed. pres_walk. Qed.
End wf.

#[export] Hint Resolve CreateUser_wf GetUserByEmail_wf GetUserByID_wf ListUsers_wf UpdateUser_wf DeleteUser_wf
  CountUsers_wf GetUsersByEmail_wf ListDomains_wf CreateDomain_wf DeleteDomain_wf IsLocalDomain_wf ListAliases_wf
  CreateAlias_wf DeleteAlias_wf GetAlias_wf GetAliasesByDomain_wf CreateContact_wf ListContacts_wf
  DeleteContact_wf RecordAttempt_wf IsWhitelisted_wf MarkPassed_wf : pres.
