(* ===== verification/StoreMail.v ===== *)
(** Mailboxes and messages (src/pkg/storage/{mailboxes,messages}.go). *)
From S2P Require Import Prelude GoLib Cache Sql Schema World StoreUsers.

(** * mailboxes.go *)
Definition DefaultMailboxes : list string := ["INBOX"; "Sent"; "Trash"; "Spam"; "Drafts"].

Definition sql_insert_mailbox (userID : Z) (name : string) (d : DB) : res Z * DB :=
  if decide ((userID, name) ∈ mbox_key <$> rows (mailboxes d))
  then (Err (unique_violation "mailboxes.user_id, mailboxes.name"), d)
  else if decide (userID ∈ user_ids d)
  then let t := insert_row (λ id, mkMailbox id userID name) (mailboxes d) in (Ok (seq_ t), set_mailboxes t d)
  else (Err fk_violation, d).

Definition CreateMailbox (userID : Z) (name : string) : state World (res Z) :=
  let! r := stmt (sql_insert_mailbox userID name) in
  match r with
  | Err err =>
      if isConstraintError err then sret (Err (wrap "storage: create mailbox: " (Sentinel ErrAlreadyExists)))
      else sret (Err (wrap "storage: create mailbox: " err))
  | Ok id =>
      do! smodify (λ w, set_mboxCache (Delete (w_mboxCache w) (userID, name)) w) in
      sret (Ok id)
  end.

Definition EnsureDefaultMailboxes (userID : Z) : state World (res unit) :=
  let! stop := sfor DefaultMailboxes (λ name,
    let! r := CreateMailbox userID name in
    match r with
    | Err err => if errors_is err ErrAlreadyExists then sret None
                 else sret (Some (wrap ("storage: create mailbox " +:+ name +:+ ": ") err))
    | Ok _ => sret None
    end) in
  match stop with Some err => sret (Err err) | None => sret (Ok tt) end.

Definition mailboxCache_Get (key : Z * string) : state World (option Mailbox) := λ w,
  let '(r, c) := Get (w_mboxCache w) (w_now w) key in (r, set_mboxCache c w).

Definition GetMailbox `{MapRange} (userID : Z) (name : string) : state World (res Mailbox) :=
  let! hit := mailboxCache_Get (userID, name) in
  match hit with
  | Some m => sret (Ok m)
  | None =>
      let! r := query (λ d, query_row (select (λ m, mbox_key m = (userID, name)) (mailboxes d))) in
      match r with
      | Err (Sentinel ErrNoRows) => sret (Err (wrap "storage: mailbox not found: " (Sentinel ErrNotFound)))
      | Err err => sret (Err (wrap "storage: get mailbox: " err))
      | Ok m =>
          do! smodify (λ w, set_mboxCache (Set_ (w_mboxCache w) (w_now w) (userID, name) m) w) in
          sret (Ok m)
      end
  end.

Definition GetMailboxByID (mailboxID : Z) : state World (res Mailbox) :=
  let! r := query (λ d, query_row (select (λ m, mbox_ID m = mailboxID) (mailboxes d))) in
  match r with
  | Err (Sentinel ErrNoRows) => sret (Err (wrap "storage: mailbox not found: " (Sentinel ErrNotFound)))
  | Err err => sret (Err (wrap "storage: get mailbox by id: " err))
  | Ok m => sret (Ok m)
  end.

Definition mbox_name_le (a b : Mailbox) : Prop := string_le (mbox_Name a) (mbox_Name b).
#[export] Instance mbox_name_le_dec : RelDecision mbox_name_le.
Proof. unfold mbox_name_le. intros a b. apply _. Defined.

Definition ListMailboxes (userID : Z) : state World (res (list Mailbox)) :=
  let! r := query (λ d, Ok (order_by mbox_name_le (select (λ m, mbox_UserID m = userID) (mailboxes d)))) in
  match r with
  | Err err => sret (Err (wrap "storage: list mailboxes: " err))
  | Ok l => sret (Ok l)
  end.

Definition sql_delete_mailbox (mailboxID : Z) (d : DB) : res unit * DB :=
  (Ok tt, delete_mailboxes (λ m, mbox_ID m = mailboxID) d).

Definition DeleteMailbox (mailboxID : Z) : state World (res unit) :=
  let! r := GetMailboxByID mailboxID in
  match r with
  | Err err => sret (Err (wrap "storage: delete mailbox: " err))
  | Ok m =>
      let! r := stmt (sql_delete_mailbox mailboxID) in
      match r with
      | Err err => sret (Err (wrap "storage: delete mailbox: " err))
      | Ok _ =>
          do! smodify (λ w, set_mboxCache (Delete (w_mboxCache w) (mbox_UserID m, mbox_Name m)) w) in
          sret (Ok tt)
      end
  end.

Definition sql_rename_mailbox (mailboxID : Z) (newName : string) (d : DB) : res Z * DB :=
  let t := update_rows (λ m, mbox_ID m = mailboxID)
             (λ m, mkMailbox (mbox_ID m) (mbox_UserID m) newName) (mailboxes d) in
  if decide (unique mbox_key t) then (Ok (affected (λ m, mbox_ID m = mailboxID) (mailboxes d)), set_mailboxes t d)
  else (Err (unique_violation "mailboxes.user_id, mailboxes.name"), d).

Definition RenameMailbox (mailboxID : Z) (newName : string) : state World (res unit) :=
  let! r := stmt (sql_rename_mailbox mailboxID newName) in
  match r with
  | Err err => sret (Err (wrap "storage: rename mailbox: " err))
  | Ok n =>
      if n =? 0 then sret (Err (wrap "storage: rename mailbox: " (Sentinel ErrNotFound)))
      else do! smodify (λ w, set_mboxCache (Clear (w_mboxCache w)) w) in sret (Ok tt)
  end.

(** * messages.go *)
Definition FlagSeen : Z := 1.
Definition FlagAnswered : Z := 2.
Definition FlagFlagged : Z := 4.
Definition FlagDeleted : Z := 8.
Definition FlagDraft : Z := 16.

Definition uint32 (n : Z) : Z := n mod 2 ^ 32.

(** SELECT MAX(uid): NULL on an empty mailbox. *)
Definition max_uid (mailboxID : Z) (d : DB) : option Z :=
  match msg_UID <$> select (λ m, msg_MailboxID m = mailboxID) (messages d) with
  | [] => None
  | u :: us => Some (foldl Z.max u us)
  end.

(** [uint32(maxUID.Int64) + 1], where a NULL scans as 0. *)
Definition next_uid (maxUID : option Z) : Z := uint32 (uint32 (default 0 maxUID) + 1).

Definition sql_insert_message (mailboxID uid : Z) (blobKey : string) (size flags now : Z)
    (fromAddr toAddr subject : string) (d : DB) : res Z * DB :=
  if decide ((mailboxID, uid) ∈ msg_key <$> rows (messages d))
  then (Err (unique_violation "messages.mailbox_id, messages.uid"), d)
  else if decide (mailboxID ∈ mailbox_ids d)
  then let t := insert_row (λ id, mkMessage id mailboxID uid blobKey size flags now fromAddr toAddr subject)
                  (messages d) in (Ok (seq_ t), set_messages t d)
  else (Err fk_violation, d).

(** [InsertMessage] returns the message ID and the assigned UID. *)
Definition InsertMessage (mailboxID : Z) (blobKey : string) (size : Z)
    (fromAddr toAddr subject : string) (flags : Z) : state World (res (Z * Z)) :=
  withTx (
    let! r := query (λ d, Ok (max_uid mailboxID d)) in
    match r with
    | Err err => sret (Err (wrap "storage: max uid: " err))
    | Ok maxUID =>
        let uid := next_uid maxUID in
        let! now := time_now_unix in
        let! r := stmt (sql_insert_message mailboxID uid blobKey size flags now fromAddr toAddr subject) in
        match r with
        | Err err => sret (Err (wrap "storage: insert message: " err))
        | Ok msgID => sret (Ok (msgID, uid))
        end
    end).

Definition GetMessageByUID (mailboxID uid : Z) : state World (res Message) :=
  let! r := query (λ d, query_row (select (λ m, msg_key m = (mailboxID, uid)) (messages d))) in
  match r with
  | Err (Sentinel ErrNoRows) => sret (Err (wrap "storage: message not found: " (Sentinel ErrNotFound)))
  | Err err => sret (Err (wrap "storage: get message by uid: " err))
  | Ok m => sret (Ok m)
  end.

Definition GetMessageByID (msgID : Z) : state World (res Message) :=
  let! r := query (λ d, query_row (select (λ m, msg_ID m = msgID) (messages d))) in
  match r with
  | Err (Sentinel ErrNoRows) => sret (Err (wrap "storage: message not found: " (Sentinel ErrNotFound)))
  | Err err => sret (Err (wrap "storage: get message by id: " err))
  | Ok m => sret (Ok m)
  end.

(** ORDER BY uid DESC *)
Definition uid_desc (a b : Message) : Prop := msg_UID b ≤ msg_UID a.
#[export] Instance uid_desc_dec : RelDecision uid_desc.
Proof. unfold uid_desc. intros a b. apply _. Defined.
#[export] Instance uid_desc_trans : Transitive uid_desc.
Proof. unfold uid_desc. intros a b c. lia. Qed.
#[export] Instance uid_desc_total : Total uid_desc.
Proof. unfold uid_desc. intros a b. lia. Qed.

Definition sql_list_messages (mailboxID limit sinceUID : Z) (d : DB) : list Message :=
  let l := order_by uid_desc
    (select (λ m, msg_MailboxID m = mailboxID ∧ (0 < sinceUID → sinceUID < msg_UID m)) (messages d)) in
  if 0 <? limit then take (Z.to_nat limit) l else l.

Definition ListMessages (mailboxID limit sinceUID : Z) : state World (res (list Message)) :=
  let! r := query (λ d, Ok (sql_list_messages mailboxID limit sinceUID d)) in
  match r with
  | Err err => sret (Err (wrap "storage: list messages: " err))
  | Ok l => sret (Ok l)
  end.

Definition ListMessagesPaginated (mailboxID limit offset : Z) : state World (res (list Message)) :=
  let limit := if (limit <=? 0) || (200 <? limit) then 50 else limit in
  let offset := if offset <? 0 then 0 else offset in
  let! r := query (λ d, Ok (take (Z.to_nat limit) (drop (Z.to_nat offset)
              (order_by uid_desc (select (λ m, msg_MailboxID m = mailboxID) (messages d)))))) in
  match r with
  | Err err => sret (Err (wrap "storage: list messages paginated: " err))
  | Ok l => sret (Ok l)
  end.

Definition with_flags (flags : Z) (m : Message) : Message :=
  mkMessage (msg_ID m) (msg_MailboxID m) (msg_UID m) (msg_BlobKey m) (msg_Size m) flags
    (msg_InternalDate m) (msg_FromAddr m) (msg_ToAddr m) (msg_Subject m).

(** [SET flags = ((flags & ~mask) | (flags' & mask))] *)
Definition merge_flags (old flags flagsMask : Z) : Z :=
  Z.lor (Z.land old (Z.lnot flagsMask)) (Z.land flags flagsMask).

Definition sql_update_flags (messageID flags flagsMask : Z) (d : DB) : res Z * DB :=
  (Ok (affected (λ m, msg_ID m = messageID) (messages d)),
   set_messages (update_rows (λ m, msg_ID m = messageID)
     (λ m, with_flags (merge_flags (msg_Flags m) flags flagsMask) m) (messages d)) d).

Definition UpdateFlags (messageID flags flagsMask : Z) : state World (res unit) :=
  let! r := stmt (sql_update_flags messageID flags flagsMask) in
  match r with
  | Err err => sret (Err (wrap "storage: update flags: " err))
  | Ok n => if n =? 0 then sret (Err (wrap "storage: update flags: " (Sentinel ErrNotFound)))
            else sret (Ok tt)
  end.

Definition with_mailbox (mailboxID : Z) (m : Message) : Message :=
  mkMessage (msg_ID m) mailboxID (msg_UID m) (msg_BlobKey m) (msg_Size m) (msg_Flags m)
    (msg_InternalDate m) (msg_FromAddr m) (msg_ToAddr m) (msg_Subject m).

Definition sql_move_message (messageID destMailboxID : Z) (d : DB) : res Z * DB :=
  let t := update_rows (λ m, msg_ID m = messageID) (with_mailbox destMailboxID) (messages d) in
  let n := affected (λ m, msg_ID m = messageID) (messages d) in
  if decide (unique msg_key t) then
    if decide (n = 0 ∨ destMailboxID ∈ mailbox_ids d) then (Ok n, set_messages t d)
    else (Err fk_violation, d)
  else (Err (unique_violation "messages.mailbox_id, messages.uid"), d).

Definition MoveMessage (messageID destMailboxID : Z) : state World (res unit) :=
  let! r := stmt (sql_move_message messageID destMailboxID) in
  match r with
  | Err err => sret (Err (wrap "storage: move message: " err))
  | Ok n => if n =? 0 then sret (Err (wrap "storage: move message: " (Sentinel ErrNotFound)))
            else sret (Ok tt)
  end.

Definition sql_delete_message (messageID : Z) (d : DB) : res Z * DB :=
  (Ok (affected (λ m, msg_ID m = messageID) (messages d)), delete_messages (λ m, msg_ID m = messageID) d).

Definition DeleteMessage (messageID : Z) : state World (res unit) :=
  let! r := stmt (sql_delete_message messageID) in
  match r with
  | Err err => sret (Err (wrap "storage: delete message: " err))
  | Ok n => if n =? 0 then sret (Err (wrap "storage: delete message: " (Sentinel ErrNotFound)))
            else sret (Ok tt)
  end.

Definition CountMessages (mailboxID : Z) : state World (res Z) :=
  let! r := query (λ d, Ok (affected (λ m, msg_MailboxID m = mailboxID) (messages d))) in
  match r with
  | Err err => sret (Err (wrap "storage: count messages: " err))
  | Ok n => sret (Ok n)
  end.

Definition ListMessageUIDs (mailboxID : Z) : state World (res (list Z)) :=
  let! r := query (λ d, Ok (order_by Z.le (msg_UID <$> select (λ m, msg_MailboxID m = mailboxID) (messages d)))) in
  match r with
  | Err err => sret (Err (wrap "storage: list uids: " err))
  | Ok l => sret (Ok l)
  end.

Definition expungeable (mailboxID : Z) (m : Message) : Prop :=
  msg_MailboxID m = mailboxID ∧ Z.land (msg_Flags m) FlagDeleted ≠ 0.
#[export] Instance expungeable_dec mailboxID m : Decision (expungeable mailboxID m).
Proof. unfold expungeable. apply _. Defined.

Definition sql_expunge (mailboxID : Z) (d : DB) : res Z * DB :=
  (Ok (affected (expungeable mailboxID) (messages d)), delete_messages (expungeable mailboxID) d).

Definition ExpungeMailbox (mailboxID : Z) : state World (res Z) :=
  let! r := stmt (sql_expunge mailboxID) in
  match r with
  | Err err => sret (Err (wrap "storage: expunge mailbox: " err))
  | Ok n => sret (Ok n)
  end.

(** * Every statement keeps the database well-formed *)
Ltac stmt_wf H := unfold snd; wf_split H; eauto with sql.

Lemma sql_insert_mailbox_ok u n : stmt_ok (sql_insert_mailbox u n).
Proof.
  intros d H. unfold sql_insert_mailbox. case_decide; [done|]. case_decide; [|done]. stmt_wf H.
  by apply Forall_insert_row.
Qed.

Lemma sql_delete_mailbox_ok i : stmt_ok (sql_delete_mailbox i).
Proof. intros d H. by apply delete_mailboxes_wf. Qed.

Lemma sql_insert_mailbox_mbox u n : mbox_ok (sql_insert_mailbox u n).
Proof.
  intros d. unfold sql_insert_mailbox. case_decide; [apply mbox_evolves_refl|].
  case_decide; [by apply mbox_evolves_insert|apply mbox_evolves_refl].
Qed.
Lemma sql_delete_mailbox_mbox i : mbox_ok (sql_delete_mailbox i).
Proof. intros d. apply mbox_evolves_delete. Qed.
Lemma sql_rename_mailbox_mbox i n : mbox_ok (sql_rename_mailbox i n).
Proof.
  intros d. unfold sql_rename_mailbox. case_decide; [by apply mbox_evolves_update|apply mbox_evolves_refl].
Qed.

Lemma references_update_row {R C} (fk : C → Z) (id : R → Z) P `{∀ c, Decision (P c)} f (cs : table C) (t : table R) :
  (∀ c, P c → fk c ∈ id <$> rows t → fk (f c) ∈ id <$> rows t) →
  references fk id (rows cs) t → references fk id (rows (update_rows P f cs)) t.
Proof. intros Hf Hr. apply Forall_update_rows; [exact Hr|]. exact Hf. Qed.

Lemma sql_rename_mailbox_ok i n : stmt_ok (sql_rename_mailbox i n).
Proof.
  intros d H. unfold sql_rename_mailbox. case_decide; [|done]. stmt_wf H.
  by apply references_update_row.
Qed.

Lemma uint32_range n : 0 ≤ uint32 n < 2 ^ 32.
Proof. apply Z.mod_pos_bound. lia. Qed.

Lemma next_uid_range u : 0 ≤ next_uid u < 2 ^ 32.
Proof. apply uint32_range. Qed.

Lemma sql_insert_message_ok m u k z f n a b s :
  0 ≤ u < 2 ^ 32 → stmt_ok (sql_insert_message m u k z f n a b s).
Proof.
  intros Hu d H. unfold sql_insert_message. case_decide; [done|]. case_decide; [|done]. stmt_wf H.
  by apply Forall_insert_row.
Qed.

Lemma sql_update_flags_ok i f m : stmt_ok (sql_update_flags i f m).
Proof.
  intros d H. unfold sql_update_flags. stmt_wf H.
  - by apply references_update_row.
  - by apply Forall_update_rows.
Qed.

Lemma sql_move_message_ok i m : stmt_ok (sql_move_message i m).
Proof.
  intros d H. unfold sql_move_message. case_decide; [|done]. case_decide as Hm; [|done]. stmt_wf H.
  - unfold references. rewrite Forall_forall. intros r (r0 & Hr0 & ->)%elem_of_update.
    case_decide as E; [|by eapply Forall_forall in wf_msg_fk].
    destruct Hm as [Hn|Hm]; [|done]. exfalso. unfold affected in Hn.
    assert (r0 ∈ select (λ m0, msg_ID m0 = i) (messages d)) as Hin by by apply elem_of_select.
    destruct (select _ _); [by apply elem_of_nil in Hin|simpl in Hn; lia].
  - by apply Forall_update_rows.
Qed.

Lemma sql_delete_message_ok i : stmt_ok (sql_delete_message i).
Proof. intros d H. by apply delete_messages_wf. Qed.

Lemma sql_expunge_ok i : stmt_ok (sql_expunge i).
Proof. intros d H. by apply delete_messages_wf. Qed.

#[export] Hint Resolve sql_insert_mailbox_mbox sql_delete_mailbox_mbox sql_rename_mailbox_mbox sql_insert_mailbox_ok sql_delete_mailbox_ok sql_rename_mailbox_ok next_uid_range
  sql_insert_message_ok sql_update_flags_ok sql_move_message_ok sql_delete_message_ok sql_expunge_ok : stmts.

(** * Every operation keeps the database well-formed, whatever fails *)
Lemma mailboxCache_Get_wf key : pres wf (mailboxCache_Get key).
Proof.
  intros w Hw. unfold mailboxCache_Get. pose proof (Get_sub (w_mboxCache w) (w_now w) key) as Hs.
  destruct (Get _ _ _) as [r c]. revert Hw. apply wf_frame; [done|exact Hs].
Qed.
#[export] Hint Resolve mailboxCache_Get_wf : pres.
Lemma on_db_mboxCache P key : pres (on_db P) (mailboxCache_Get key).
Proof. apply on_db_get. intros w. unfold mailboxCache_Get. by destruct (Get _ _ _). Qed.
#[export] Hint Resolve on_db_mboxCache : pres.

Section wf.
Context `{MapRange}.
Lemma CreateMailbox_wf u n : pres wf (CreateMailbox u n). Proof. unfold CreateMailbox. pres_walk. Qed.
Lemma GetMailbox_wf u n : pres wf (GetMailbox u n).
Proof.
  unfold GetMailbox. apply pres_bind; [apply mailboxCache_Get_wf|intros [m|]; [apply pres_ret|]]. intros w Hw. unfold sbind.
  destruct (query_cases (λ d, query_row (select (λ m, mbox_key m = (u, n)) (mailboxes d))) w) as [[fs ->]|[fs ->]]; [done|].
  destruct (select (λ m, mbox_key m = (u, n)) (mailboxes (w_db w))) as [|b l] eqn:E; [done|].
  assert (b ∈ select (λ m, mbox_key m = (u, n)) (mailboxes (w_db w))) as [<- Hb]%elem_of_select by (rewrite E; left).
  split; [apply Hw|]. apply mbox_cache_true_Set; [apply (wf_mailboxes _ Hw)|done|apply Hw].
Qed.
Lemma GetMailboxByID_wf i : pres wf (GetMailboxByID i). Proof. unfold GetMailboxByID. pres_walk. Qed.
Lemma ListMailboxes_wf u : pres wf (ListMailboxes u). Proof. unfold ListMailboxes. pres_walk. Qed.
Lemma RenameMailbox_wf i n : pres wf (RenameMailbox i n). Proof. unfold RenameMailbox. pres_walk. Qed.
Lemma InsertMessage_wf m k z a b s f : pres wf (InsertMessage m k z a b s f).
Proof. unfold InsertMessage. pres_walk. Qed.
Lemma GetMessageByUID_wf m u : pres wf (GetMessageByUID m u). Proof. unfold GetMessageByUID. pres_walk. Qed.
Lemma GetMessageByID_wf i : pres wf (GetMessageByID i). Proof. unfold GetMessageByID. pres_walk. Qed.
Lemma ListMessages_wf m l s : pres wf (ListMessages m l s). Proof. unfold ListMessages. pres_walk. Qed.
Lemma ListMessagesPaginated_wf m l o : pres wf (ListMessagesPaginated m l o).
Proof. unfold ListMessagesPaginated. pres_walk. Qed.
Lemma UpdateFlags_wf i f m : pres wf (UpdateFlags i f m). Proof. unfold UpdateFlags. pres_walk. Qed.
Lemma MoveMessage_wf i m : pres wf (MoveMessage i m). Proof. unfold MoveMessage. pres_walk. Qed.
Lemma DeleteMessage_wf i : pres wf (DeleteMessage i). Proof. unfold DeleteMessage. pres_walk. Qed.
Lemma CountMessages_wf m : pres wf (CountMessages m). Proof. unfold CountMessages. pres_walk. Qed.
Lemma ListMessageUIDs_wf m : pres wf (ListMessageUIDs m). Proof. unfold ListMessageUIDs. pres_walk. Qed.
Lemma ExpungeMailbox_wf m : pres wf (ExpungeMailbox m). Proof. unfold ExpungeMailbox. pres_walk. Qed.
End wf.

#[export] Hint Resolve CreateMailbox_wf GetMailbox_wf GetMailboxByID_wf ListMailboxes_wf RenameMailbox_wf
  InsertMessage_wf GetMessageByUID_wf GetMessageByID_wf ListMessages_wf ListMessagesPaginated_wf UpdateFlags_wf
  MoveMessage_wf DeleteMessage_wf CountMessages_wf ListMessageUIDs_wf ExpungeMailbox_wf : pres.

Lemma EnsureDefaultMailboxes_wf u : pres wf (EnsureDefaultMailboxes u).
Proof. unfold EnsureDefaultMailboxes. pres_walk. Qed.
Lemma DeleteMailbox_wf i : pres wf (DeleteMailbox i).
Proof. unfold DeleteMailbox. pres_walk. Qed.
#[export] Hint Resolve EnsureDefaultMailboxes_wf DeleteMailbox_wf : pres.

(** * Running without failures *)
Lemma set_db_set_db d d' w : set_db d (set_db d' w) = set_db d w.
Proof. by destruct w. Qed.

Lemma withTx_atomic {A} (m : state World (res A)) w e :
  (withTx m w).1 = Err e → w_db (withTx m w).2 = w_db w.
Proof.
  unfold withTx. assert (∀ w', w_db (stmt (λ d, (Ok tt, d)) w').2 = w_db w') as Hs.
  { intros w'. unfold stmt. by repeat case_match. }
  pose proof (Hs w) as H1. destruct (stmt _ w) as [[u|e1] w1]; [|intros _; exact H1].
  destruct (m w1) as [[a|e2] w2]; [|done].
  destruct (stmt _ w2) as [[u'|e3] w3]; done.
Qed.

Lemma max_uid_spec mb d :
  match max_uid mb d with
  | None => ∀ m, m ∈ rows (messages d) → msg_MailboxID m ≠ mb
  | Some u => (∃ m, m ∈ rows (messages d) ∧ msg_MailboxID m = mb ∧ msg_UID m = u) ∧
              ∀ m, m ∈ rows (messages d) → msg_MailboxID m = mb → msg_UID m ≤ u
  end.
Proof.
  assert (∀ (l : list Z) u, foldl Z.max u l ∈ u :: l ∧ ∀ x, x ∈ u :: l → x ≤ foldl Z.max u l) as Hmax.
  { induction l as [|y l IH]; intros u; simpl.
    - split; [left|]. intros x ->%list_elem_of_singleton. done.
    - destruct (IH (Z.max u y)) as [Hin Hle]. split.
      + apply elem_of_cons in Hin as [->|Hin]; [|by do 2 right].
        destruct (Z.max_spec u y) as [[_ ->]|[_ ->]]; [right; left|left].
      + specialize (Hle (Z.max u y) ltac:(left)) as Hm. intros x Hx.
        apply elem_of_cons in Hx as [->|[->|Hx]%elem_of_cons]; [lia|lia|]. apply Hle. by right. }
  unfold max_uid. destruct (msg_UID <$> _) as [|u us] eqn:E.
  - intros m Hm Hmb. assert (m ∈ select (λ m, msg_MailboxID m = mb) (messages d)) as Hs by by apply elem_of_select.
    apply (list_elem_of_fmap_2 msg_UID) in Hs. rewrite E in Hs. by apply elem_of_nil in Hs.
  - destruct (Hmax us u) as [Hin Hle]. rewrite <- E in Hin, Hle. split.
    + apply list_elem_of_fmap in Hin as (m & Hu & [Hmb Hm]%elem_of_select). eauto.
    + intros m Hm Hmb. apply Hle. apply list_elem_of_fmap_2, elem_of_select. done.
Qed.

Lemma next_uid_succ u : 0 ≤ u < 2 ^ 32 - 1 → next_uid (Some u) = u + 1.
Proof. intros Hu. unfold next_uid, uint32. simpl. rewrite (Z.mod_small u) by lia. apply Z.mod_small. lia. Qed.

Lemma next_uid_le u : 0 ≤ u < 2 ^ 32 → next_uid (Some u) ≤ u + 1.
Proof. intros Hu. destruct (decide (u = 2 ^ 32 - 1)) as [->|]; [done|]. rewrite next_uid_succ; lia. Qed.

Lemma wf_uid_range w m : wf w → m ∈ rows (messages (w_db w)) → 0 ≤ msg_UID m < 2 ^ 32.
Proof. intros Hw Hm. pose proof (wf_msg_uid _ Hw) as H. by eapply Forall_forall in H. Qed.

Lemma InsertMessage_run mb k z a b s f w :
  w_faults w = [] →
  let uid := next_uid (max_uid mb (w_db w)) in
  InsertMessage mb k z a b s f w =
  match sql_insert_message mb uid k z f (w_now w / second) a b s (w_db w) with
  | (Ok id, d) => (Ok (id, uid), set_db d w)
  | (Err e, _) => (Err (wrap "storage: insert message: " e), w)
  end.
Proof.
  intros Hf uid. unfold InsertMessage.
  set (body := sbind _ _). assert (body w =
    match sql_insert_message mb uid k z f (w_now w / second) a b s (w_db w) with
    | (Ok id, d) => (Ok (id, uid), set_db d w)
    | (Err e, d) => (Err (wrap "storage: insert message: " e), set_db d w)
    end) as E.
  { unfold body, sbind. rewrite query_run by done. unfold time_now_unix. rewrite stmt_ok_run by done.
    fold uid. by destruct (sql_insert_message _ _ _ _ _ _ _ _ _ _) as [[id|e] d]. }
  rewrite withTx_run, E; [| done |]; destruct (sql_insert_message _ _ _ _ _ _ _ _ _ _) as [[id|e] d]; try done.
  - by rewrite set_db_set_db, set_db_same.
  - by rewrite E.
  - by rewrite E.
Qed.

(** An insertion that succeeds: the mailbox exists and its UIDs leave room. *)
Lemma InsertMessage_ok mb k z a b s f w :
  wf w → w_faults w = [] → mb ∈ mailbox_ids (w_db w) →
  (∀ m, m ∈ rows (messages (w_db w)) → msg_MailboxID m = mb → msg_UID m < 2 ^ 32 - 1) →
  ∃ id uid,
    InsertMessage mb k z a b s f w = (Ok (id, uid), set_db (set_messages (mkTable
      (rows (messages (w_db w)) ++ [mkMessage id mb uid k z f (w_now w / second) a b s]) id) (w_db w)) w) ∧
    (∀ m, m ∈ rows (messages (w_db w)) → msg_ID m < id) ∧
    (∀ m, m ∈ rows (messages (w_db w)) → msg_MailboxID m = mb → msg_UID m < uid) ∧
    ∀ n, 1 ≤ n → (∀ m, m ∈ rows (messages (w_db w)) → msg_MailboxID m = mb → msg_UID m < n) → uid ≤ n.
Proof.
  intros Hw Hf Hmb Hlt. rewrite InsertMessage_run by done. set (uid := next_uid _).
  pose proof (max_uid_spec mb (w_db w)) as Hmax.
  assert ((∀ m, m ∈ rows (messages (w_db w)) → msg_MailboxID m = mb → msg_UID m < uid) ∧
    ∀ n, 1 ≤ n → (∀ m, m ∈ rows (messages (w_db w)) → msg_MailboxID m = mb → msg_UID m < n) → uid ≤ n) as [Hu Hn].
  { unfold uid. destruct (max_uid mb (w_db w)) as [u|]; [|split; [intros m Hm Em; by destruct (Hmax m Hm)|intros n H1 _; change (next_uid None) with 1; lia]].
    destruct Hmax as [(m' & Hm' & Em' & <-) Hle]. specialize (Hlt m' Hm' Em').
    pose proof (wf_uid_range w m' Hw Hm'). rewrite next_uid_succ by lia.
    split; [intros m Hm Em; specialize (Hle m Hm Em); lia|]. intros n H1 H2. specialize (H2 m' Hm' Em'). lia. }
  exists (seq_ (messages (w_db w)) + 1), uid. unfold sql_insert_message. case_decide as Hk.
  { apply list_elem_of_fmap in Hk as (m & E & Hm). injection E as -> E. specialize (Hu m Hm eq_refl). lia. }
  rewrite decide_True by done. split_and!; try done. intros m Hm.
  destruct (wf_messages _ Hw) as [_ Hseq]. rewrite Forall_forall in Hseq. specialize (Hseq m Hm). lia.
Qed.

Lemma affected_zero {R} (P : R → Prop) `{∀ r, Decision (P r)} t :
  (∀ r, r ∈ rows t → ¬ P r) → affected P t = 0.
Proof.
  intros Hn. unfold affected. destruct (select P t) as [|r l] eqn:E; [done|].
  assert (r ∈ select P t) as [HP Hr]%elem_of_select by (rewrite E; left). by destruct (Hn r).
Qed.

Lemma affected_one {R K} (key : R → K) (P : R → Prop) `{∀ r, Decision (P r)} t r :
  unique key t → r ∈ rows t → (∀ r', P r' ↔ key r' = key r) → affected P t = 1.
Proof. intros Hu Hr HP. unfold affected. by rewrite (select_unique key P t r). Qed.

Lemma uids_unique w mb : wf w → NoDup (msg_UID <$> select (λ m, msg_MailboxID m = mb) (messages (w_db w))).
Proof.
  intros Hw. assert (unique msg_key (messages (w_db w))) as Hu by apply Hw.
  apply NoDup_fmap_2_strong; [|].
  - intros m1 m2 [E1 H1]%elem_of_select [E2 H2]%elem_of_select E.
    apply (unique_inj msg_key (messages (w_db w))); [done..|]. unfold msg_key. congruence.
  - apply NoDup_filter. unfold unique in Hu. by apply NoDup_fmap_1 in Hu.
Qed.

(** * Properties *)

(** C16.  [InsertMessage] on a well-formed database.  A failure of any kind
    leaves the database alone.  When nothing fails: the message gets a fresh
    primary key and a UID above every UID of its mailbox, and nothing else
    changes, as long as the mailbox exists and its UIDs have not reached the end
    of [uint32]; there the UID wraps to 0; without the mailbox the foreign key
    rejects the message. *)
Theorem InsertMessage_spec (mb : Z) (k : string) (z : Z) (a b s : string) (f : Z) (w : World) :
  wf w →
  let out := InsertMessage mb k z a b s f w in
  (∀ e, out.1 = Err e → w_db out.2 = w_db w) ∧
  (w_faults w = [] →
    (mb ∉ mailbox_ids (w_db w) → is_ok out.1 = false) ∧
    (mb ∈ mailbox_ids (w_db w) →
      (∀ m, m ∈ rows (messages (w_db w)) → msg_MailboxID m = mb → msg_UID m < 2 ^ 32 - 1) →
      ∃ id uid, out.1 = Ok (id, uid) ∧
        (∀ m, m ∈ rows (messages (w_db w)) → msg_ID m < id) ∧
        (∀ m, m ∈ rows (messages (w_db w)) → msg_MailboxID m = mb → msg_UID m < uid) ∧
        out.2 = set_db (set_messages (mkTable
          (rows (messages (w_db w)) ++ [mkMessage id mb uid k z f (w_now w / second) a b s]) id) (w_db w)) w) ∧
    (∀ m, m ∈ rows (messages (w_db w)) → msg_MailboxID m = mb → msg_UID m = 2 ^ 32 - 1 →
      ∀ id uid, out.1 = Ok (id, uid) → uid = 0)).
Proof.
  intros Hw out. split; [intros e He; by eapply withTx_atomic|]. intros Hf.
  unfold out. rewrite InsertMessage_run by done. set (uid := next_uid _). clear out.
  pose proof (max_uid_spec mb (w_db w)) as Hmax. split_and!.
  - intros Hmb. unfold sql_insert_message. case_decide; [done|]. case_decide; done.
  - intros Hmb Hlt. destruct (InsertMessage_ok mb k z a b s f w Hw Hf Hmb Hlt) as (id & uid' & E & Hid & Hu & _).
    rewrite InsertMessage_run in E by done. fold uid in E. rewrite E. by exists id, uid'.
  - intros m Hm Em Eu id uid'. destruct (sql_insert_message _ _ _ _ _ _ _ _ _ _) as [[i|e] d]; [|done].
    intros E. cbn [fst] in E. injection E as _ <-. unfold uid.
    destruct (max_uid mb (w_db w)) as [u|]; [|by destruct (Hmax m Hm)].
    destruct Hmax as [(m' & Hm' & Em' & <-) Hle]. specialize (Hle m Hm Em).
    pose proof (wf_uid_range w m' Hw Hm'). by assert (msg_UID m' = 2 ^ 32 - 1) as -> by lia.
Qed.

(** A world with one user who has two mailboxes and three messages. *)
Definition demo_db : DB :=
  let msg id mb uid fl := mkMessage id mb uid "k" 10 fl 100 "a@x" "u@example.com" "s" in
  set_messages (mkTable [msg 1 1 1 0; msg 2 1 2 FlagDeleted; msg 3 2 1 FlagSeen] 3)
   (set_mailboxes (mkTable [mkMailbox 1 1 "INBOX"; mkMailbox 2 1 "Sent"] 2)
    (set_users (mkTable [mkUser 1 "u@example.com" "h" false 50 true] 1) empty_db)).
Definition demo_world : World := set_db demo_db (init_world (1000 * second)).

Lemma demo_wf : wf demo_world.
Proof.
  apply wf_cold; [done|]. constructor; cbn; try (split; [|repeat constructor; cbn; lia]);
    try (apply (bool_decide_unpack _); vm_compute; exact I); repeat constructor; cbn; lia.
Qed.

Lemma InsertMessage_spec_witness :
  ∃ id uid, (InsertMessage 1 "k" 5 "a" "b" "s" 0 demo_world).1 = Ok (id, uid) ∧ 2 < uid.
Proof.
  destruct (InsertMessage_spec 1 "k" 5 "a" "b" "s" 0 demo_world demo_wf) as [_ H].
  destruct (H eq_refl) as (_ & H1 & _). destruct H1 as (id & uid & E & _ & Hu & _).
  - vm_compute. left.
  - intros m Hm _. vm_compute in Hm. repeat (apply elem_of_cons in Hm as [->|Hm]; [done|]). by apply elem_of_nil in Hm.
  - exists id, uid. split; [exact E|].
    apply (Hu (mkMessage 2 1 2 "k" 10 FlagDeleted 100 "a@x" "u@example.com" "s")); [|done].
    right. left.
Defined.

(** UIDs are reused: when the message with the highest UID of a mailbox is
    deleted, the next message stored there gets a UID that is not above the
    deleted one, so that a client cannot rely on UIDs only growing. *)
Theorem uid_reused_after_delete (m : Message) (k : string) (z : Z) (a b s : string) (f : Z) (w : World) :
  wf w → w_faults w = [] → m ∈ rows (messages (w_db w)) → 1 ≤ msg_UID m →
  (∀ m', m' ∈ rows (messages (w_db w)) → msg_MailboxID m' = msg_MailboxID m → msg_UID m' ≤ msg_UID m) →
  let w' := (DeleteMessage (msg_ID m) w).2 in
  ∀ id uid, (InsertMessage (msg_MailboxID m) k z a b s f w').1 = Ok (id, uid) → uid ≤ msg_UID m.
Proof.
  intros Hw Hf Hm H1 Hmax w' id uid.
  assert (w' = set_db (delete_messages (λ x, msg_ID x = msg_ID m) (w_db w)) w) as Ew.
  { unfold w', DeleteMessage, sbind. rewrite stmt_ok_run by done. cbn [sql_delete_message fst].
    by case_match. }
  assert (wf w') as Hw' by by apply DeleteMessage_wf.
  rewrite Ew in *. clear w' Ew. rewrite InsertMessage_run by done.
  cbn [w_db set_db]. set (d := delete_messages _ _) in *.
  pose proof (max_uid_spec (msg_MailboxID m) d) as Hs. destruct (sql_insert_message _ _ _ _ _ _ _ _ _ _) as [[i|e] d']; [|done].
  cbn [fst]. intros [= _ <-]. destruct (max_uid _ d) as [u|]; [|change (next_uid None) with 1; lia].
  destruct Hs as [(m' & [Hne Hm']%elem_of_delete & Em & <-) _].
  assert (msg_UID m' < msg_UID m) as Hlt.
  { specialize (Hmax m' Hm' Em). destruct (decide (msg_UID m' = msg_UID m)) as [E|]; [|lia].
    exfalso. apply Hne. f_equal. apply (unique_inj msg_key (messages (w_db w))); [apply Hw|done..|].
    unfold msg_key. congruence. }
  pose proof (next_uid_le (msg_UID m') (wf_uid_range w m' Hw Hm')). lia.
Qed.

Lemma uid_reused_after_delete_witness :
  (InsertMessage 1 "k" 5 "a" "b" "s" 0 (DeleteMessage 2 demo_world).2).1 = Ok (4, 2) ∧ 2 ≤ 2.
Proof.
  split; [vm_compute; reflexivity|].
  apply (uid_reused_after_delete (mkMessage 2 1 2 "k" 10 FlagDeleted 100 "a@x" "u@example.com" "s")
           "k" 5 "a" "b" "s" 0 demo_world demo_wf eq_refl) with (id := 4);
    [right; left|done| |vm_compute; reflexivity].
  intros m Hm _. vm_compute in Hm. repeat (apply elem_of_cons in Hm as [->|Hm]; [done|]). by apply elem_of_nil in Hm.
Defined.

(** [UpdateFlags] sets exactly the flags the mask selects: bit [i] of the
    message's flags becomes bit [i] of [flags] where the mask has a 1 and keeps
    its value where it has a 0; every other message and every other column
    stays; an unknown message is reported as [ErrNotFound]. *)
Theorem UpdateFlags_spec (id flags mask : Z) (w : World) :
  wf w → w_faults w = [] →
  let out := UpdateFlags id flags mask w in
  (id ∉ message_ids (w_db w) → out.2 = w ∧ ∃ e, out.1 = Err e ∧ errors_is e ErrNotFound = true) ∧
  (∀ m, m ∈ rows (messages (w_db w)) → msg_ID m = id →
    out.1 = Ok tt ∧
    ∃ fl, out.2 = set_db (set_messages (mkTable
                 ((λ m', if decide (msg_ID m' = id) then with_flags fl m else m') <$> rows (messages (w_db w)))
                 (seq_ (messages (w_db w)))) (w_db w)) w ∧
          ∀ i, 0 ≤ i → Z.testbit fl i = if Z.testbit mask i then Z.testbit flags i else Z.testbit (msg_Flags m) i).
Proof.
  intros Hw Hf out. unfold out, UpdateFlags, sbind. rewrite stmt_ok_run by done. cbn [sql_update_flags fst snd].
  split.
  - intros Hid. assert (∀ r, r ∈ rows (messages (w_db w)) → msg_ID r ≠ id) as Hn.
    { intros r Hr <-. apply Hid. by apply list_elem_of_fmap_2. }
    rewrite affected_zero by done. cbn [Z.eqb]. split; [|eauto]. unfold sret. cbn [fst snd].
    rewrite <- (set_db_same w) at 4. f_equal. unfold update_rows. destruct w as [d ? ? ? ? ? ? ? ?]. cbn [w_db] in *.
    destruct d as [? ? ? ? [ms sq] ? ? ? ? ? ?]. cbn in *. unfold set_messages. cbn. do 2 f_equal.
    rewrite <- (list_fmap_id ms) at 2. apply list_fmap_ext. intros i r Hr%list_elem_of_lookup_2.
    by rewrite decide_False by auto.
  - intros m Hm <-.
    rewrite (affected_one msg_ID _ _ m) by (try done; apply Hw). cbn [Z.eqb sret fst snd].
    split; [done|]. exists (merge_flags (msg_Flags m) flags mask). split.
    + f_equal. f_equal. unfold update_rows. f_equal. apply list_fmap_ext. intros i r Hr%list_elem_of_lookup_2. case_decide as E; [|done].
      by rewrite (unique_inj msg_ID (messages (w_db w)) r m) by (try done; apply Hw).
    + intros i Hi. unfold merge_flags. rewrite Z.lor_spec, !Z.land_spec, Z.lnot_spec by done.
      destruct (Z.testbit mask i); simpl; by rewrite ?andb_true_r, ?andb_false_r, ?orb_false_r.
Qed.

Lemma UpdateFlags_spec_witness :
  (UpdateFlags 3 FlagFlagged (Z.lor FlagSeen FlagFlagged) demo_world).1 = Ok tt.
Proof.
  destruct (UpdateFlags_spec 3 FlagFlagged (Z.lor FlagSeen FlagFlagged) demo_world demo_wf eq_refl) as [_ H].
  apply (H (mkMessage 3 2 1 "k" 10 FlagSeen 100 "a@x" "u@example.com" "s")); [|done]. do 2 right; left.
Defined.

(** ** Listing *)
Lemma list_all_sorted w mb :
  wf w → StronglySorted (λ a b, msg_UID b < msg_UID a)
           (order_by uid_desc (select (λ m, msg_MailboxID m = mb) (messages (w_db w)))).
Proof.
  intros Hw. set (l := select _ _). assert (NoDup (msg_UID <$> order_by uid_desc l)) as Hnd.
  { rewrite order_by_perm. by apply uids_unique. }
  assert (StronglySorted uid_desc (order_by uid_desc l)) as Hs by (apply order_by_sorted; apply _).
  induction Hs as [|m l' _ IH Hall]; [constructor|]. apply NoDup_cons in Hnd as [Hn Hnd].
  constructor; [by apply IH|]. rewrite Forall_forall in *. intros x Hx. specialize (Hall x Hx).
  unfold uid_desc in Hall. destruct (decide (msg_UID x = msg_UID m)) as [E|]; [|lia].
  exfalso. apply Hn. rewrite <- E. by apply list_elem_of_fmap_2.
Qed.

Lemma concat_pages {A} (l : list A) n k :
  concat ((λ i, take n (drop (i * n) l)) <$> seq 0 k) = take (k * n) l.
Proof.
  induction k as [|k IH]; [done|]. rewrite seq_S, fmap_app, concat_app, IH. simpl.
  rewrite app_nil_r, take_take_drop. f_equal. lia.
Qed.

(** Paging through a mailbox shows every message exactly once, in strictly
    descending UID order: the pages of a size the code accepts, concatenated,
    are the full listing [ListMessages] returns, which is a permutation of the
    rows of the mailbox. *)
Theorem pages_cover_mailbox (mb limit : Z) (pages : nat) (w : World) :
  wf w → w_faults w = [] → 1 ≤ limit ≤ 200 →
  (length (rows (messages (w_db w))) ≤ pages * Z.to_nat limit)%nat →
  let page i := default [] (match (ListMessagesPaginated mb limit (Z.of_nat i * limit) w).1 with
                            | Ok l => Some l | Err _ => None end) in
  let all := concat (page <$> seq 0 pages) in
  (ListMessages mb 0 0 w).1 = Ok all ∧
  all ≡ₚ select (λ m, msg_MailboxID m = mb) (messages (w_db w)) ∧
  StronglySorted (λ a b, msg_UID b < msg_UID a) all.
Proof.
  intros Hw Hf Hl Hp page all. set (full := order_by uid_desc (select (λ m, msg_MailboxID m = mb) (messages (w_db w)))).
  assert (all = full) as ->.
  { unfold all. erewrite (list_fmap_ext page (λ i, take (Z.to_nat limit) (drop (i * Z.to_nat limit) full))).
    - rewrite concat_pages, take_ge; [done|]. unfold full. rewrite order_by_perm.
      etrans; [apply length_filter|]. done.
    - intros i x _. unfold page, ListMessagesPaginated, sbind. rewrite query_run by done.
      destruct (Z.leb_spec limit 0); [lia|]. destruct (Z.ltb_spec 200 limit); [lia|]. cbn [orb].
      destruct (Z.ltb_spec (Z.of_nat x * limit) 0); [nia|].
      cbn. rewrite Z2Nat.inj_mul, Nat2Z.id by lia. done. }
  split_and!; [|apply order_by_perm|by apply list_all_sorted].
  unfold ListMessages, sbind. rewrite query_run by done. cbn. do 2 f_equal. unfold sql_list_messages, full. simpl.
  f_equal. unfold select. apply list_filter_iff. intros m. split; [naive_solver|]. intros E. split; [done|lia].
Qed.

Lemma pages_cover_mailbox_witness :
  (ListMessages 1 0 0 demo_world).1 =
  Ok [mkMessage 2 1 2 "k" 10 FlagDeleted 100 "a@x" "u@example.com" "s";
      mkMessage 1 1 1 "k" 10 0 100 "a@x" "u@example.com" "s"].
Proof.
  destruct (pages_cover_mailbox 1 1 3 demo_world demo_wf eq_refl) as (E & _ & _).
  - lia.
  - vm_compute. lia.
  - exact E.
Defined.

(** ** Expunging *)
Lemma land_FlagDeleted fl : Z.land fl FlagDeleted ≠ 0 ↔ Z.testbit fl 3 = true.
Proof.
  unfold FlagDeleted. change 8 with (2 ^ 3). split.
  - intros Hn. destruct (Z.testbit fl 3) eqn:E; [done|]. destruct Hn. apply Z.bits_inj'. intros i Hi.
    rewrite Z.land_spec, Z.bits_0, Z.pow2_bits_eqb by lia. destruct (Z.eqb_spec 3 i) as [<-|]; [by rewrite E|].
    by rewrite andb_false_r.
  - intros E Hz. assert (Z.testbit (Z.land fl (2 ^ 3)) 3 = true) as Ht.
    { rewrite Z.land_spec, E, Z.pow2_bits_true by lia. done. }
    rewrite Hz, Z.bits_0 in Ht. done.
Qed.

Lemma length_filter_split {A} (P : A → Prop) `{∀ x, Decision (P x)} (l : list A) :
  (length (filter P l) + length (filter (λ x, ¬ P x) l))%nat = length l.
Proof.
  induction l as [|x l IH]; [done|]. rewrite !filter_cons. repeat case_decide; simpl; try done; lia.
Qed.

(** [ExpungeMailbox] removes exactly the messages of the mailbox that carry
    \Deleted (bit 3), reports how many they were, drops the deliveries that were
    queued for them and no other ones, and touches nothing else; repeating it
    removes nothing. *)
Theorem ExpungeMailbox_spec (mb : Z) (w : World) :
  w_faults w = [] →
  let out := ExpungeMailbox mb w in
  let d := w_db w in
  let d' := w_db out.2 in
  (∀ m, m ∈ rows (messages d') ↔
        m ∈ rows (messages d) ∧ ¬ (msg_MailboxID m = mb ∧ Z.testbit (msg_Flags m) 3 = true)) ∧
  out.1 = Ok (Z.of_nat (length (rows (messages d))) - Z.of_nat (length (rows (messages d')))) ∧
  (wf w → ∀ q, q ∈ rows (queue d') ↔ q ∈ rows (queue d) ∧ qi_MessageID q ∈ message_ids d') ∧
  out.2 = set_db (set_queue (queue d') (set_messages (messages d') d)) w ∧
  (ExpungeMailbox mb out.2).1 = Ok 0.
Proof.
  intros Hf out d d'. assert (out = (Ok (affected (expungeable mb) (messages d)),
    set_db (delete_messages (expungeable mb) d) w)) as Eo.
  { unfold out, ExpungeMailbox, sbind. rewrite stmt_ok_run by done. done. }
  unfold d' in *. clear d'. rewrite Eo. cbn [fst snd w_db set_db].
  assert (∀ m, expungeable mb m ↔ msg_MailboxID m = mb ∧ Z.testbit (msg_Flags m) 3 = true) as He.
  { intros m. unfold expungeable. by rewrite land_FlagDeleted. }
  split_and!.
  - intros m. unfold delete_messages. db_cbn. rewrite elem_of_delete, He. tauto.
  - unfold affected. f_equal. pose proof (length_filter_split (expungeable mb) (rows (messages d))) as E.
    unfold delete_messages. db_cbn. unfold delete_rows, select. cbn [rows]. lia.
  - intros Hw q. unfold delete_messages, message_ids. db_cbn. rewrite elem_of_delete.
    assert (q ∈ rows (queue d) → qi_MessageID q ∈ msg_ID <$> rows (messages d)) as Hfk.
    { intros Hq. pose proof (wf_queue_fk _ Hw) as Hr. unfold references in Hr. rewrite Forall_forall in Hr. by apply Hr. }
    rewrite !list_elem_of_fmap in *. split.
    + intros [Hg Hq]. split; [done|]. destruct (Hfk Hq) as (m & E & Hm). exists m. split; [done|].
      apply elem_of_delete. split; [|done]. intros Hx. apply Hg. exists m. split; [done|]. by apply elem_of_select.
    + intros [Hq (m & E & [Hx Hm]%elem_of_delete)]. split; [|done]. intros (m' & E' & [Hx' Hm']%elem_of_select).
      assert (m = m') as <-; [|done]. apply (unique_inj msg_ID (messages d)); [apply Hw|done..|congruence].
  - unfold delete_messages. by destruct d.
  - unfold ExpungeMailbox, sbind. rewrite stmt_ok_run by done. cbn. f_equal. apply affected_zero.
    intros m [Hm _]%elem_of_delete. exact Hm.
Qed.

Lemma ExpungeMailbox_spec_witness :
  (ExpungeMailbox 1 demo_world).1 = Ok 1 ∧ (ExpungeMailbox 1 (ExpungeMailbox 1 demo_world).2).1 = Ok 0.
Proof.
  destruct (ExpungeMailbox_spec 1 demo_world eq_refl) as (_ & H1 & _ & _ & H2). split; [exact H1|exact H2].
Defined.

(** [MoveMessage] keeps the message's UID.  The move therefore succeeds only
    into an existing mailbox in which no other message has that UID, and then
    changes nothing but the message's mailbox; otherwise it fails and the
    database stays as it was. *)
Theorem MoveMessage_spec (m : Message) (dest : Z) (w : World) :
  wf w → w_faults w = [] → m ∈ rows (messages (w_db w)) →
  let out := MoveMessage (msg_ID m) dest w in
  let taken := ∃ m', m' ∈ rows (messages (w_db w)) ∧ m' ≠ m ∧ msg_MailboxID m' = dest ∧ msg_UID m' = msg_UID m in
  (out.1 = Ok tt ↔ dest ∈ mailbox_ids (w_db w) ∧ ¬ taken) ∧
  (is_ok out.1 = false → out.2 = w) ∧
  (out.1 = Ok tt → ∀ x, x ∈ rows (messages (w_db out.2)) ↔
     x = with_mailbox dest m ∨ x ∈ rows (messages (w_db w)) ∧ x ≠ m).
Proof.
  intros Hw Hf Hm out taken.
  assert (∀ r, r ∈ rows (messages (w_db w)) → msg_ID r = msg_ID m → r = m) as Hid.
  { intros r Hr E. apply (unique_inj msg_ID (messages (w_db w))); [apply Hw|done..]. }
  set (t := update_rows (λ x, msg_ID x = msg_ID m) (with_mailbox dest) (messages (w_db w))).
  assert (∀ x, x ∈ rows t ↔ x = with_mailbox dest m ∨ x ∈ rows (messages (w_db w)) ∧ x ≠ m) as Ht.
  { intros x. unfold t. rewrite elem_of_update. split.
    - intros (r & Hr & ->). case_decide as E; [left; by rewrite (Hid r)|]. right. split; [done|]. by intros ->.
    - intros [->|[Hx Hn]]; [exists m|exists x]; split; try done; case_decide as E; try done. by destruct Hn; apply Hid. }
  assert (unique msg_key t ↔ ¬ taken) as Hu.
  { split.
    - intros Hu (m' & Hm' & Hne & Ed & Eu). assert (m' = with_mailbox dest m) as E.
      { apply (unique_inj msg_key t); [done|apply Ht; by right|apply Ht; by left|].
        unfold msg_key. simpl. congruence. }
      apply Hne, Hid; [done|]. by rewrite E.
    - intros Hn. pose proof (wf_msg_keys _ Hw) as Hk. apply NoDup_fmap_2_strong.
      + intros x y Hx%Ht Hy%Ht E. unfold msg_key in E. injection E as E1 E2.
        destruct Hx as [->|[Hx Nx]], Hy as [->|[Hy Ny]]; simpl in *; try done.
        * destruct Hn. by exists y.
        * destruct Hn. by exists x.
        * apply (unique_inj msg_key (messages (w_db w))); try done. unfold msg_key. congruence.
      + pose proof (ids_ok_update msg_ID (λ x, msg_ID x = msg_ID m) (with_mailbox dest) (messages (w_db w))
          (λ _, eq_refl) (wf_messages _ Hw)) as [Hi _]. unfold unique in Hi. by apply NoDup_fmap_1 in Hi. }
  assert (affected (λ x, msg_ID x = msg_ID m) (messages (w_db w)) = 1) as Ha
    by (apply (affected_one msg_ID _ _ m); try done; apply Hw).
  unfold out, MoveMessage, sbind. rewrite stmt_ok_run by done. unfold sql_move_message. fold t. rewrite Ha.
  case_decide as Hc; [rewrite Hu in Hc; case_decide as Hd|rewrite Hu in Hc]; cbn [fst snd Z.eqb sret is_ok].
  - split_and!; try done. split; [|done]. intros _. split; [|done]. by destruct Hd.
  - rewrite set_db_same. split_and!; try done. split; [done|]. intros []. destruct Hd; by right.
  - rewrite set_db_same. split_and!; try done. split; [done|]. by intros [].
Qed.

Lemma MoveMessage_spec_witness : (MoveMessage 1 2 demo_world).2 = demo_world.
Proof.
  pose proof (MoveMessage_spec (mkMessage 1 1 1 "k" 10 0 100 "a@x" "u@example.com" "s") 2 demo_world demo_wf eq_refl) as H.
  destruct H as (_ & H & _); [left|]. apply H. vm_compute. reflexivity.
Defined.
