(* ===== verification/Migrations.v ===== *)
(** Opening and migrating the database (src/pkg/storage/db.go, the DDL of
    src/pkg/storage/schema.go).  The state is the process together with the
    catalogue of the SQLite file: its tables, indexes, triggers and
    [user_version].  Every statement consumes one entry of the failure schedule
    of [World] and commits on its own, as [db.Exec] runs them. *)
From S2P Require Import Prelude GoLib Sql Schema World StoreUsers StoreMail.

(** * The catalogue *)
Record Table := mkTableDef { columns : list (string * string); constraints : list string }.
Inductive trigger_event := AfterInsert | AfterDelete | AfterUpdate.

Record Catalog := mkCatalog {
  tables : gmap string Table;
  indexes : gmap string (string * list string);
  triggers : gmap string (trigger_event * string);
  user_version : Z }.
Definition empty_catalog : Catalog := mkCatalog ∅ ∅ ∅ 0.

#[export] Instance Table_eq_dec : EqDecision Table.
Proof. solve_decision. Defined.
#[export] Instance trigger_event_eq_dec : EqDecision trigger_event.
Proof. solve_decision. Defined.
#[export] Instance Catalog_eq_dec : EqDecision Catalog.
Proof. solve_decision. Defined.

Definition with_tables (t : gmap string Table) (c : Catalog) : Catalog :=
  mkCatalog t (indexes c) (triggers c) (user_version c).
Definition with_indexes (i : gmap string (string * list string)) (c : Catalog) : Catalog :=
  mkCatalog (tables c) i (triggers c) (user_version c).
Definition with_triggers (t : gmap string (trigger_event * string)) (c : Catalog) : Catalog :=
  mkCatalog (tables c) (indexes c) t (user_version c).
Definition with_version (v : Z) (c : Catalog) : Catalog :=
  mkCatalog (tables c) (indexes c) (triggers c) v.

(** The names of a table's columns; none for a table that does not exist. *)
Definition column_names (c : Catalog) (t : string) : list string :=
  match tables c !! t with Some d => fst <$> columns d | None => [] end.

(** * The statements of the migrations *)

(** All but [ALTER TABLE] and [UPDATE] say IF NOT EXISTS. *)
Inductive ddl :=
  | CreateTable (name : string) (cols : list (string * string)) (constraints : list string)
  | CreateIndex (name table : string) (cols : list string)
  | CreateVirtualTable (name : string) (cols : list string)
  | CreateTrigger (name : string) (event : trigger_event) (table : string)
  | AddColumn (table : string) (col : string * string)
  | PromoteFirstUser.

Definition table_users : ddl :=
  CreateTable "users"
    [("id", "INTEGER PRIMARY KEY AUTOINCREMENT");
     ("email", "TEXT NOT NULL UNIQUE");
     ("password_hash", "TEXT NOT NULL");
     ("created_at", "INTEGER NOT NULL");
     ("is_active", "INTEGER NOT NULL DEFAULT 1")] [].
Definition table_domains : ddl :=
  CreateTable "domains"
    [("name", "TEXT PRIMARY KEY");
     ("is_active", "INTEGER NOT NULL DEFAULT 1")] [].
Definition table_aliases : ddl :=
  CreateTable "aliases"
    [("id", "INTEGER PRIMARY KEY AUTOINCREMENT");
     ("source", "TEXT NOT NULL");
     ("destination", "TEXT NOT NULL");
     ("domain", "TEXT NOT NULL")] ["UNIQUE(source, domain)"].
Definition table_mailboxes : ddl :=
  CreateTable "mailboxes"
    [("id", "INTEGER PRIMARY KEY AUTOINCREMENT");
     ("user_id", "INTEGER NOT NULL REFERENCES users(id) ON DELETE CASCADE");
     ("name", "TEXT NOT NULL")] ["UNIQUE(user_id, name)"].
Definition table_messages : ddl :=
  CreateTable "messages"
    [("id", "INTEGER PRIMARY KEY AUTOINCREMENT");
     ("mailbox_id", "INTEGER NOT NULL REFERENCES mailboxes(id) ON DELETE CASCADE");
     ("uid", "INTEGER NOT NULL");
     ("blob_key", "TEXT NOT NULL");
     ("size", "INTEGER NOT NULL DEFAULT 0");
     ("flags", "INTEGER NOT NULL DEFAULT 0");
     ("internal_date", "INTEGER NOT NULL");
     ("from_addr", "TEXT");
     ("to_addr", "TEXT");
     ("subject", "TEXT")] ["UNIQUE(mailbox_id, uid)"].
Definition table_attachments : ddl :=
  CreateTable "attachments"
    [("id", "INTEGER PRIMARY KEY AUTOINCREMENT");
     ("message_id", "INTEGER NOT NULL REFERENCES messages(id) ON DELETE CASCADE");
     ("blob_key", "TEXT NOT NULL");
     ("filename", "TEXT");
     ("mime_type", "TEXT");
     ("size", "INTEGER NOT NULL DEFAULT 0");
     ("sha256", "TEXT");
     ("refcount", "INTEGER NOT NULL DEFAULT 1")] [].
Definition table_queue : ddl :=
  CreateTable "queue"
    [("id", "INTEGER PRIMARY KEY AUTOINCREMENT");
     ("message_id", "INTEGER NOT NULL REFERENCES messages(id) ON DELETE CASCADE");
     ("rcpt_to", "TEXT NOT NULL");
     ("next_attempt", "INTEGER NOT NULL");
     ("attempt_count", "INTEGER NOT NULL DEFAULT 0");
     ("status", "TEXT NOT NULL DEFAULT 'pending'")] [].
Definition table_sessions : ddl :=
  CreateTable "sessions"
    [("token", "TEXT PRIMARY KEY");
     ("user_id", "INTEGER NOT NULL REFERENCES users(id) ON DELETE CASCADE");
     ("expires_at", "INTEGER NOT NULL")] [].
Definition table_audit_logs : ddl :=
  CreateTable "audit_logs"
    [("id", "INTEGER PRIMARY KEY AUTOINCREMENT");
     ("timestamp", "INTEGER NOT NULL");
     ("user_id", "INTEGER");
     ("event", "TEXT NOT NULL");
     ("details", "TEXT")] [].
Definition table_blobs : ddl :=
  CreateTable "blobs"
    [("key", "TEXT PRIMARY KEY");
     ("data", "BLOB NOT NULL");
     ("size", "INTEGER NOT NULL DEFAULT 0");
     ("created_at", "INTEGER NOT NULL")] [].
Definition table_greylist : ddl :=
  CreateTable "greylist"
    [("ip", "TEXT NOT NULL");
     ("from_addr", "TEXT NOT NULL");
     ("to_addr", "TEXT NOT NULL");
     ("first_seen", "INTEGER NOT NULL");
     ("last_seen", "INTEGER NOT NULL");
     ("passed", "INTEGER NOT NULL DEFAULT 0")] ["PRIMARY KEY (ip, from_addr, to_addr)"].
Definition table_dmarc_results : ddl :=
  CreateTable "dmarc_results"
    [("id", "INTEGER PRIMARY KEY AUTOINCREMENT");
     ("source_ip", "TEXT NOT NULL");
     ("from_domain", "TEXT NOT NULL");
     ("spf_result", "TEXT NOT NULL DEFAULT 'none'");
     ("dkim_result", "TEXT NOT NULL DEFAULT 'none'");
     ("disposition", "TEXT NOT NULL DEFAULT 'none'");
     ("timestamp", "INTEGER NOT NULL");
     ("report_sent", "INTEGER NOT NULL DEFAULT 0")] [].
Definition table_contacts : ddl :=
  CreateTable "contacts"
    [("id", "INTEGER PRIMARY KEY AUTOINCREMENT");
     ("user_id", "INTEGER NOT NULL REFERENCES users(id) ON DELETE CASCADE");
     ("name", "TEXT");
     ("email", "TEXT NOT NULL");
     ("created_at", "INTEGER NOT NULL")] ["UNIQUE(user_id, email)"].

Definition ddl_1 : list ddl :=
  [table_users;
   table_domains;
   table_aliases;
   table_mailboxes;
   table_messages;
   CreateIndex "idx_messages_mailbox_uid" "messages" ["mailbox_id"; "uid"];
   table_attachments;
   table_queue;
   CreateIndex "idx_queue_next_attempt" "queue" ["next_attempt"];
   table_sessions;
   table_audit_logs;
   table_blobs].
Definition ddl_2 : list ddl :=
  [table_greylist].
Definition ddl_3 : list ddl :=
  [CreateVirtualTable "messages_fts" ["subject"; "from_addr"; "to_addr"; "body"];
   CreateTrigger "messages_ai" AfterInsert "messages";
   CreateTrigger "messages_ad" AfterDelete "messages";
   CreateTrigger "messages_au" AfterUpdate "messages"].
Definition ddl_4 : list ddl :=
  [table_dmarc_results;
   CreateIndex "idx_dmarc_results_domain_unsent" "dmarc_results" ["from_domain"; "report_sent"]].
Definition ddl_5 : list ddl :=
  [AddColumn "blobs" ("refcount", "INTEGER NOT NULL DEFAULT 1")].
Definition ddl_6 : list ddl :=
  [AddColumn "users" ("is_admin", "INTEGER NOT NULL DEFAULT 0");
   PromoteFirstUser].
Definition ddl_7 : list ddl :=
  [table_contacts;
   CreateIndex "idx_contacts_user" "contacts" ["user_id"]].
Definition migrations : list (Z * list ddl) :=
  [(1, ddl_1); (2, ddl_2); (3, ddl_3); (4, ddl_4); (5, ddl_5); (6, ddl_6); (7, ddl_7)].

(** * What SQLite does with them *)
Definition sql_error (msg : string) : error := EngineError 1 ("SQL logic error: " +:+ msg +:+ " (1)").
Definition no_such_table (t : string) : error := sql_error ("no such table: " +:+ t).

Definition exec_catalog (s : ddl) (c : Catalog) : res Catalog :=
  match s with
  | CreateTable n cols cs =>
      match tables c !! n with
      | Some _ => Ok c
      | None => Ok (with_tables (<[n := mkTableDef cols cs]> (tables c)) c)
      end
  | CreateVirtualTable n cols =>
      match tables c !! n with
      | Some _ => Ok c
      | None => Ok (with_tables (<[n := mkTableDef ((λ x, (x, "")) <$> cols) []]> (tables c)) c)
      end
  | CreateIndex n t cols =>
      match indexes c !! n with
      | Some _ => Ok c
      | None =>
          match tables c !! t with
          | None => Err (no_such_table ("main." +:+ t))
          | Some d =>
              match list_find (λ x, x ∉ fst <$> columns d) cols with
              | Some (_, x) => Err (sql_error ("table " +:+ t +:+ " has no column named " +:+ x))
              | None => Ok (with_indexes (<[n := (t, cols)]> (indexes c)) c)
              end
          end
      end
  | CreateTrigger n e t =>
      match triggers c !! n with
      | Some _ => Ok c
      | None =>
          match tables c !! t with
          | None => Err (no_such_table ("main." +:+ t))
          | Some _ => Ok (with_triggers (<[n := (e, t)]> (triggers c)) c)
          end
      end
  | AddColumn t col =>
      match tables c !! t with
      | None => Err (no_such_table t)
      | Some d =>
          if decide (fst col ∈ fst <$> columns d) then Err (sql_error ("duplicate column name: " +:+ fst col))
          else Ok (with_tables (<[t := mkTableDef (columns d ++ [col]) (constraints d)]> (tables c)) c)
      end
  | PromoteFirstUser =>
      if decide ("is_admin" ∈ column_names c "users") then Ok c else Err (sql_error "no such column: is_admin")
  end.

Definition set_IsAdmin (b : bool) (u : User) : User :=
  mkUser (user_ID u) (user_Email u) (user_PasswordHash u) b (user_CreatedAt u) (user_IsActive u).
Definition set_refcount (n : Z) (b : BlobRow) : BlobRow :=
  mkBlobRow (blob_key b) (blob_data b) (blob_size b) (blob_created_at b) n.

(** [id = (SELECT id FROM users ORDER BY id LIMIT 1)] *)
Definition first_user (d : DB) (u : User) : Prop := Forall (λ v, user_ID u ≤ user_ID v) (rows (users d)).
#[export] Instance first_user_dec d u : Decision (first_user d u).
Proof. unfold first_user. apply _. Defined.

(** The effect on the rows: an added column takes its default. *)
Definition exec_rows (s : ddl) (d : DB) : DB :=
  match s with
  | AddColumn t (col, _) =>
      if String.eqb t "users" && String.eqb col "is_admin"
      then set_users (update_rows (λ _, True) (set_IsAdmin false) (users d)) d
      else if String.eqb t "blobs" && String.eqb col "refcount"
      then set_blobs (update_rows (λ _, True) (set_refcount 1) (blobs d)) d
      else d
  | PromoteFirstUser => set_users (update_rows (first_user d) (set_IsAdmin true) (users d)) d
  | _ => d
  end.

(** * db.go *)
Notation migrating := (state (World * Catalog)).

(** A statement on the database and its catalogue. *)
Definition sql {A} (f : DB → Catalog → res A * (DB * Catalog)) : migrating (res A) := λ s,
  let '(w, c) := s in
  match w_faults w with
  | true :: fs => (Err engine_fault, (set_faults fs w, c))
  | _ => let '(r, (d, c)) := f (w_db w) c in (r, (set_db d (set_faults (tail (w_faults w)) w), c))
  end.

Definition exec_ddl (s : ddl) : migrating (res unit) :=
  sql (λ d c, match exec_catalog s c with
              | Ok c' => (Ok tt, (exec_rows s d, c'))
              | Err e => (Err e, (d, c))
              end).

(** [db.Exec] of several statements: up to the first that fails. *)
Fixpoint Exec (l : list ddl) : migrating (res unit) :=
  match l with
  | [] => sret (Ok tt)
  | s :: l =>
      let! r := exec_ddl s in
      match r with
      | Err e => sret (Err e)
      | Ok _ => Exec l
      end
  end.

Definition read_version : migrating (res Z) := sql (λ d c, (Ok (user_version c), (d, c))).
Definition set_user_version (v : Z) : migrating (res unit) := sql (λ d c, (Ok tt, (d, with_version v c))).

(** [Open], given what [sql.Open] answers for the path; the ping and the PRAGMA
    are statements. *)
Definition Open (sql_Open : string → res unit) (path : string) : migrating (res unit) :=
  match sql_Open (path +:+ "?_journal_mode=WAL&_synchronous=NORMAL") with
  | Err err => sret (Err (wrap ("storage: open " +:+ path +:+ ": ") err))
  | Ok _ =>
      let! r := sql (λ d c, (Ok tt, (d, c))) in
      match r with
      | Err err => sret (Err (wrap ("storage: ping " +:+ path +:+ ": ") err))
      | Ok _ =>
          let! r := sql (λ d c, (Ok tt, (d, c))) in
          match r with
          | Err err => sret (Err (wrap "storage: enable foreign keys: " err))
          | Ok _ => sret (Ok tt)
          end
      end
  end.

Definition version_le (a b : Z * list ddl) : Prop := fst a ≤ fst b.
#[export] Instance version_le_dec : RelDecision version_le.
Proof. unfold version_le. intros a b. apply _. Defined.

(** The loop over the sorted migrations. *)
Fixpoint run_migrations (currentVersion : Z) (ms : list (Z * list ddl)) : migrating (res unit) :=
  match ms with
  | [] => sret (Ok tt)
  | (version, ddl) :: ms =>
      if version <=? currentVersion then run_migrations currentVersion ms else
      let! r := Exec ddl in
      match r with
      | Err err => sret (Err (wrap ("storage: migration v" +:+ strconv.Itoa version +:+ ": ") err))
      | Ok _ =>
          let! r := set_user_version version in
          match r with
          | Err err => sret (Err (wrap ("storage: set version " +:+ strconv.Itoa version +:+ ": ") err))
          | Ok _ => run_migrations currentVersion ms
          end
      end
  end.

Definition Migrate : migrating (res unit) :=
  let! r := read_version in
  match r with
  | Err err => sret (Err (wrap "storage: read version: " err))
  | Ok currentVersion => run_migrations currentVersion (order_by version_le migrations)
  end.

(** * The catalogue alone *)

(** What [Exec] and [Migrate] do to the catalogue when no statement is failed
    from outside. *)
Fixpoint catalog_all (l : list ddl) (c : Catalog) : res unit * Catalog :=
  match l with
  | [] => (Ok tt, c)
  | s :: l => match exec_catalog s c with Ok c' => catalog_all l c' | Err e => (Err e, c) end
  end.

Fixpoint migrate_catalog (currentVersion : Z) (ms : list (Z * list ddl)) (c : Catalog) : res unit * Catalog :=
  match ms with
  | [] => (Ok tt, c)
  | (version, ddl) :: ms =>
      if version <=? currentVersion then migrate_catalog currentVersion ms c else
      match catalog_all ddl c with
      | (Err err, c) => (Err (wrap ("storage: migration v" +:+ strconv.Itoa version +:+ ": ") err), c)
      | (Ok _, c) => migrate_catalog currentVersion ms (with_version version c)
      end
  end.

(** The rows after the statements, in order. *)
Definition rows_all (l : list ddl) (d : DB) : DB := foldl (λ d s, exec_rows s d) d l.
Definition pending_ddl (currentVersion : Z) (ms : list (Z * list ddl)) : list ddl :=
  concat (snd <$> filter (λ m, currentVersion < m.1) ms).

(** The catalogue of a database migrated to version [n]. *)
Definition schema_at (n : nat) : Catalog :=
  foldl (λ c m, with_version m.1 (catalog_all m.2 c).2) empty_catalog (take n migrations).

Definition ddl_of (n : nat) : list ddl := default [] (snd <$> migrations !! n).
(** The catalogue when the first [k] statements of the migration after version
    [n] have run. *)
Definition partial_schema (n k : nat) : Catalog := (catalog_all (take k (ddl_of n)) (schema_at n)).2.

Lemma migrations_sorted : order_by version_le migrations = migrations.
Proof. vm_compute. reflexivity. Qed.

Lemma exec_ddl_run s w c :
  w_faults w = [] →
  exec_ddl s (w, c) = match exec_catalog s c with
                      | Ok c' => (Ok tt, (set_db (exec_rows s (w_db w)) w, c'))
                      | Err e => (Err e, (w, c))
                      end.
Proof.
  intros Hf. unfold exec_ddl, sql. rewrite Hf. destruct (exec_catalog s c); destruct w; cbn in *; by subst.
Qed.

Lemma Exec_run l w c :
  w_faults w = [] →
  (Exec l (w, c)).1 = (catalog_all l c).1 ∧ (Exec l (w, c)).2.2 = (catalog_all l c).2 ∧
  w_faults (Exec l (w, c)).2.1 = [] ∧
  ((catalog_all l c).1 = Ok tt → (Exec l (w, c)).2.1 = set_db (rows_all l (w_db w)) w).
Proof.
  revert w c. induction l as [|s l IH]; intros w c Hf.
  - split_and!; try done. intros _. by destruct w.
  - cbn [Exec catalog_all]. unfold sbind. rewrite exec_ddl_run by done. destruct (exec_catalog s c) as [c'|e]; [|done].
    destruct (IH (set_db (exec_rows s (w_db w)) w) c' Hf) as (E1 & E2 & E3 & E4). by split_and!.
Qed.

Lemma rows_all_app l1 l2 d : rows_all (l1 ++ l2) d = rows_all l2 (rows_all l1 d).
Proof. apply foldl_app. Qed.

Lemma run_migrations_run cv ms w c :
  w_faults w = [] →
  (run_migrations cv ms (w, c)).1 = (migrate_catalog cv ms c).1 ∧
  (run_migrations cv ms (w, c)).2.2 = (migrate_catalog cv ms c).2 ∧
  ((migrate_catalog cv ms c).1 = Ok tt → (run_migrations cv ms (w, c)).2.1 = set_db (rows_all (pending_ddl cv ms) (w_db w)) w).
Proof.
  revert w c. induction ms as [|[v l] ms IH]; intros w c Hf.
  - split_and!; try done. intros _. by destruct w.
  - cbn [run_migrations migrate_catalog]. unfold pending_ddl. rewrite filter_cons. cbn [fst].
    destruct (Z.leb_spec v cv) as [Hle|Hlt].
    { rewrite decide_False by (cbn; lia). by apply IH. }
    rewrite decide_True by done. rewrite fmap_cons. cbn [snd]. unfold sbind.
    destruct (Exec_run l w c Hf) as (E1 & E2 & E3 & E4).
    destruct (Exec l (w, c)) as [r [w1 c1]]. cbn [fst snd] in *. subst r c1.
    destruct (catalog_all l c) as [[[]|e] c1]; [|done]. cbn [fst snd] in *. rewrite (E4 eq_refl) in *.
    unfold set_user_version, sql. rewrite E3. cbn [set_db w_db w_faults tail] in *.
    match goal with |- context [run_migrations cv ms (?w2, _)] => replace w2 with (set_db (rows_all l (w_db w)) w) by (by destruct w; cbn in *; subst) end.
    destruct (IH (set_db (rows_all l (w_db w)) w) (with_version v c1) Hf) as (F1 & F2 & F3). split_and!; try done.
    intros E. rewrite (F3 E). change (set_db ?x (set_db _ w)) with (set_db x w). f_equal. symmetry. apply rows_all_app.
Qed.

Lemma Migrate_run w c :
  w_faults w = [] →
  let out := migrate_catalog (user_version c) migrations c in
  (Migrate (w, c)).1 = out.1 ∧ (Migrate (w, c)).2.2 = out.2 ∧
  (out.1 = Ok tt → (Migrate (w, c)).2.1 = set_db (rows_all (pending_ddl (user_version c) migrations) (w_db w)) w).
Proof.
  intros Hf out. unfold Migrate, sbind, read_version, sql. rewrite Hf. cbn [tail].
  rewrite migrations_sorted. replace (set_db _ _) with w by (by destruct w; cbn in *; subst).
  by apply run_migrations_run.
Qed.

#[export] Instance error_eq_dec : EqDecision error.
Proof. solve_decision. Defined.
#[export] Instance res_eq_dec {A} `{EqDecision A} : EqDecision (res A).
Proof. solve_decision. Defined.

(** * Rows *)
Lemma exec_rows_wf s d : db_wf d → db_wf (exec_rows s d).
Proof.
  intros H. destruct s as [| | | |t [col dflt]|]; try exact H; cbn [exec_rows].
  - case_match; [stmt_wf H|]. case_match; [stmt_wf H|exact H].
  - stmt_wf H.
Qed.

Lemma rows_all_wf l d : db_wf d → db_wf (rows_all l d).
Proof. revert d. induction l as [|s l IH]; intros d Hd; [done|]. by apply IH, exec_rows_wf. Qed.

(** No migration touches the mailboxes. *)
Lemma exec_rows_mailboxes s d : mailboxes (exec_rows s d) = mailboxes d.
Proof. destruct s; cbn; try done; repeat case_match; done. Qed.
Lemma rows_all_mailboxes l d : mailboxes (rows_all l d) = mailboxes d.
Proof. revert d. induction l as [|s l IH]; intros d; [done|]. by etransitivity; [apply IH|apply exec_rows_mailboxes]. Qed.

(** What an upgrade from version [n] makes of the users and the blobs. *)
Definition upgraded_users (n : nat) (d : DB) : list User :=
  if (n <? 6)%nat then (λ u, set_IsAdmin (bool_decide (first_user d u)) u) <$> rows (users d) else rows (users d).
Definition upgraded_blobs (n : nat) (d : DB) : list BlobRow :=
  if (n <? 5)%nat then set_refcount 1 <$> rows (blobs d) else rows (blobs d).

Definition promoted (d : DB) : DB := exec_rows PromoteFirstUser (exec_rows (AddColumn "users" ("is_admin", "")) d).

Lemma promoted_users d : rows (users (promoted d)) = upgraded_users 0 d.
Proof.
  unfold promoted, upgraded_users. cbn. rewrite <- list_fmap_compose. apply list_fmap_ext. intros _ u _. unfold compose.
  assert (first_user (set_users (update_rows (λ _, True) (set_IsAdmin false) (users d)) d)
            (set_IsAdmin false u) ↔ first_user d u) as Hiff.
  { unfold first_user. cbn. by rewrite Forall_fmap. }
  rewrite (decide_True (P := True)) by done. case_decide as Hc.
  - rewrite bool_decide_eq_true_2 by by apply Hiff. done.
  - rewrite bool_decide_eq_false_2; [done|]. by rewrite <- Hiff.
Qed.

Lemma rows_all_upgrade n d :
  (n ≤ 7)%nat →
  rows_all (pending_ddl (Z.of_nat n) migrations) d =
  let d1 := if (n <? 5)%nat then exec_rows (AddColumn "blobs" ("refcount", "")) d else d in
  if (n <? 6)%nat then promoted d1 else d1.
Proof. intros Hn. do 8 (destruct n as [|n]; [reflexivity|]). lia. Qed.

(** The columns the Go code reads and writes, table by table (the fields of the
    row types in src/pkg/storage/types.go, and the tables without a row type). *)
Definition row_columns : list (string * list string) :=
  [("users", ["id"; "email"; "password_hash"; "created_at"; "is_active"; "is_admin"]);
   ("domains", ["name"; "is_active"]);
   ("aliases", ["id"; "source"; "destination"; "domain"]);
   ("mailboxes", ["id"; "user_id"; "name"]);
   ("messages", ["id"; "mailbox_id"; "uid"; "blob_key"; "size"; "flags"; "internal_date"; "from_addr"; "to_addr"; "subject"]);
   ("queue", ["id"; "message_id"; "rcpt_to"; "next_attempt"; "attempt_count"; "status"]);
   ("sessions", ["token"; "user_id"; "expires_at"]);
   ("greylist", ["ip"; "from_addr"; "to_addr"; "first_seen"; "last_seen"; "passed"]);
   ("dmarc_results", ["id"; "source_ip"; "from_domain"; "spf_result"; "dkim_result"; "disposition"; "timestamp"; "report_sent"]);
   ("contacts", ["id"; "user_id"; "name"; "email"; "created_at"]);
   ("blobs", ["key"; "data"; "size"; "created_at"; "refcount"]);
   ("messages_fts", ["subject"; "from_addr"; "to_addr"; "body"])].

Lemma migration_step n :
  (n < 7)%nat →
  drop n migrations = (Z.of_nat (S n), ddl_of n) :: drop (S n) migrations ∧
  catalog_all (ddl_of n) (schema_at n) = (Ok tt, (catalog_all (ddl_of n) (schema_at n)).2) ∧
  with_version (Z.of_nat (S n)) (catalog_all (ddl_of n) (schema_at n)).2 = schema_at (S n).
Proof.
  intros Hn. assert (migrations !! n = Some (Z.of_nat (S n), ddl_of n)) as Hm by (do 7 (destruct n as [|n]; [reflexivity|]); lia).
  split; [by apply drop_S|]. split.
  - rewrite (surjective_pairing (catalog_all _ _)) at 1. f_equal.
    do 7 (destruct n as [|n]; [vm_cast_no_check (eq_refl (Ok tt : res unit))|]). lia.
  - unfold schema_at. erewrite (take_S_r _ n) by done. by rewrite foldl_app.
Qed.

Lemma migrate_rest v k n :
  (n + k = 7)%nat → (v ≤ n)%nat → migrate_catalog (Z.of_nat v) (drop n migrations) (schema_at n) = (Ok tt, schema_at 7).
Proof.
  revert n. induction k as [|k IH]; intros n Hn Hv.
  - by replace n with 7%nat by lia.
  - destruct (migration_step n ltac:(lia)) as (-> & E & Es). cbn [migrate_catalog].
    destruct (Z.leb_spec (Z.of_nat (S n)) (Z.of_nat v)); [lia|]. rewrite E, Es. apply IH; lia.
Qed.

Lemma migrate_from n : (n ≤ 7)%nat → migrate_catalog (Z.of_nat n) migrations (schema_at n) = (Ok tt, schema_at 7).
Proof.
  intros Hn. rewrite <- (migrate_rest n (7 - n) n) by lia. generalize (schema_at n). intros c.
  do 8 (destruct n as [|n]; [reflexivity|]). lia.
Qed.

Lemma version_of n : (n ≤ 7)%nat → user_version (schema_at n) = Z.of_nat n.
Proof. intros Hn. do 8 (destruct n as [|n]; [vm_compute; reflexivity|]). lia. Qed.

(** C21.  Migration: from a database at any version 0 to 7, with nothing failing,
    [Migrate] succeeds and brings the catalogue to version 7, where every table
    the Go code uses has exactly the columns it reads and writes.  The rows
    keep their content but for the added columns: an upgrade to version 5 gives
    every blob one reference, and an upgrade to version 6 makes the user with the
    lowest ID, and no other, an administrator.  At version 7 nothing changes.  A
    well-formed database stays so. *)
Theorem Migrate_schema (n : nat) (w : World) :
  (n ≤ 7)%nat → w_faults w = [] →
  let out := Migrate (w, schema_at n) in
  let d := w_db w in
  let d' := w_db out.2.1 in
  out.1 = Ok tt ∧ user_version out.2.2 = 7 ∧
  Forall (λ '(t, cols), column_names out.2.2 t = cols) row_columns ∧
  out.2.1 = set_db d' w ∧ d' = set_blobs (blobs d') (set_users (users d') d) ∧
  rows (users d') = upgraded_users n d ∧ rows (blobs d') = upgraded_blobs n d ∧
  (n = 7%nat → out.2 = (w, schema_at n)) ∧ (wf w → wf out.2.1).
Proof.
  intros Hn Hf out d d'. destruct (Migrate_run w (schema_at n) Hf) as (E1 & E2 & E3).
  rewrite version_of, migrate_from in * by done. cbn [fst snd] in *. specialize (E3 eq_refl). fold out in E1, E2, E3. clearbody out.
  set (x := rows_all _ _) in E3.
  assert (d' = x) as Ed by (unfold d'; by rewrite E3).
  rewrite E1, E2. split; [done|]. split; [done|]. split.
  { apply (bool_decide_unpack _). vm_cast_no_check I. }
  assert (out.2.1 = set_db d' w) as Hset by (rewrite Ed; exact E3). split; [exact Hset|]. assert (wf w → wf out.2.1) as Hwf by 
    (intros Hw; rewrite E3; apply wf_set_db; [done|by apply rows_all_wf|apply rows_all_mailboxes]).
  unfold x in Ed. rewrite rows_all_upgrade in Ed by done. fold d in Ed. split_and!.
  - rewrite Ed. by destruct (n <? 5)%nat, (n <? 6)%nat; destruct d.
  - rewrite Ed. unfold upgraded_users. destruct (n <? 6)%nat.
    + rewrite promoted_users. by destruct (n <? 5)%nat.
    + by destruct (n <? 5)%nat.
  - rewrite Ed. unfold upgraded_blobs. by destruct (n <? 5)%nat, (n <? 6)%nat.
  - intros ->. change (d' = d) in Ed. rewrite (surjective_pairing out.2), E2, Hset, Ed. f_equal. apply set_db_same.
  - exact Hwf.
Qed.

(** A database with users and blobs from before versions 5 and 6; the system
    user the server creates at start is the one with the lowest ID. *)
Definition old_db : DB :=
  set_blobs (mkTable [mkBlobRow "k" "data" 4 0 0] 0)
    (set_users (mkTable [mkUser 0 "system@outbound.local" "" false 0 true; mkUser 1 "alice@x" "h" false 0 true] 1) empty_db).
Definition old_world : World := set_db old_db (init_world 0).

Lemma Migrate_schema_witness :
  let out := Migrate (old_world, schema_at 4) in
  out.1 = Ok tt ∧
  rows (users (w_db out.2.1)) = [mkUser 0 "system@outbound.local" "" true 0 true; mkUser 1 "alice@x" "h" false 0 true] ∧
  rows (blobs (w_db out.2.1)) = [mkBlobRow "k" "data" 4 0 1].
Proof.
  intros out. destruct (Migrate_schema 4 old_world ltac:(lia) eq_refl) as (H1 & _ & _ & _ & _ & H2 & H3 & _).
  split; [exact H1|]. split.
  - etransitivity; [exact H2|vm_compute; reflexivity].
  - etransitivity; [exact H3|vm_compute; reflexivity].
Defined.

(** * Interrupted migrations *)
Lemma sql_cases {A} (f : DB → Catalog → res A * (DB * Catalog)) w c :
  (∃ w', sql f (w, c) = (Err engine_fault, (w', c))) ∨
  (∃ w', sql f (w, c) = ((f (w_db w) c).1, (w', (f (w_db w) c).2.2))).
Proof.
  unfold sql. destruct (w_faults w) as [|[] fs]; [right|left|right]; try (by eexists);
    destruct (f (w_db w) c) as [r [d' c']]; by eexists.
Qed.

(** However it ends, [Exec] leaves what some of the statements, in order, did. *)
Lemma Exec_prefix l w c c' :
  catalog_all l c = (Ok tt, c') →
  ∃ k, (k ≤ length l)%nat ∧ (Exec l (w, c)).2.2 = (catalog_all (take k l) c).2 ∧
    (∀ x, (Exec l (w, c)).1 = Ok x → (Exec l (w, c)).2.2 = c').
Proof.
  revert w c. induction l as [|s l IH]; intros w c E.
  - injection E as ->. exists 0%nat. split_and!; [done..|]. by intros.
  - cbn [catalog_all] in E. cbn [Exec]. unfold sbind.
    destruct (exec_catalog s c) as [c1|] eqn:Es; [|discriminate].
    destruct (sql_cases (λ d c, match exec_catalog s c with
              | Ok c' => (Ok tt, (exec_rows s d, c')) | Err e => (Err e, (d, c)) end) w c) as [[w1 E1]|[w1 E1]];
      unfold exec_ddl; rewrite E1.
    + exists 0%nat. split; [lia|]. split; [done|]. by intros.
    + rewrite Es. cbn [fst snd]. destruct (IH w1 c1 E) as (k & Hk & Hc & Hx). exists (S k). split; [cbn; lia|].
      split; [|done]. cbn [take catalog_all]. rewrite Es. exact Hc.
Qed.

Definition interrupted (c : Catalog) : Prop :=
  ∃ n k, (n < 7)%nat ∧ (k ≤ length (ddl_of n))%nat ∧ c = partial_schema n k.

Lemma run_migrations_interrupted v n w :
  (v ≤ n)%nat → (n ≤ 7)%nat →
  let c := (run_migrations (Z.of_nat v) (drop n migrations) (w, schema_at n)).2.2 in
  c = schema_at 7 ∨ interrupted c.
Proof.
  intros Hv Hn. remember (7 - n)%nat as j eqn:Ej. revert n w Hv Hn Ej.
  induction j as [|j IH]; intros n w Hv Hn Ej.
  { left. replace n with 7%nat by lia. reflexivity. }
  destruct (migration_step n ltac:(lia)) as (Hd & Hc & Hs). set (c1 := (catalog_all _ _).2) in Hc, Hs. clearbody c1. rewrite Hd. cbn [run_migrations].
  destruct (Z.leb_spec (Z.of_nat (S n)) (Z.of_nat v)); [lia|]. unfold sbind.
  destruct (Exec_prefix (ddl_of n) w (schema_at n) c1 Hc) as (k & Hk & E1 & E2).
  destruct (Exec (ddl_of n) (w, schema_at n)) as [[u|e] [w1 c2]]; cbn [fst snd] in *.
  - specialize (E2 u eq_refl). subst c1.
    destruct (sql_cases (λ d c, (Ok tt, (d, with_version (Z.of_nat (S n)) c))) w1 c2) as [[w2 E3]|[w2 E3]];
      unfold set_user_version; rewrite E3; cbn [fst snd].
    + right. exists n, k. split_and!; [lia|done|exact E1].
    + rewrite Hs. apply IH; lia.
  - right. exists n, k. split_and!; [lia|done|exact E1].
Qed.

(** ALTER TABLE has run, but the version that records it was not written. *)
Definition half_altered (c : Catalog) : bool :=
  bool_decide (user_version c = 4 ∧ "refcount" ∈ column_names c "blobs" ∨
               user_version c = 5 ∧ "is_admin" ∈ column_names c "users").

Definition stuck (c : Catalog) : error :=
  if user_version c =? 4
  then wrap "storage: migration v5: " (sql_error "duplicate column name: refcount")
  else wrap "storage: migration v6: " (sql_error "duplicate column name: is_admin").

Definition resumes (n k : nat) : bool :=
  let c := partial_schema n k in
  bool_decide (migrate_catalog (user_version c) migrations c =
               if half_altered c then (Err (stuck c), c) else (Ok tt, schema_at 7)).

Lemma resume_all : forallb (λ n, forallb (resumes n) (seq 0 (S (length (ddl_of n))))) (seq 0 7) = true.
Proof. vm_cast_no_check (eq_refl true). Qed.

Lemma resume_partial n k :
  (n < 7)%nat → (k ≤ length (ddl_of n))%nat →
  let c := partial_schema n k in
  migrate_catalog (user_version c) migrations c = if half_altered c then (Err (stuck c), c) else (Ok tt, schema_at 7).
Proof.
  intros Hn Hk. pose proof resume_all as Ha. rewrite forallb_forall in Ha. specialize (Ha n).
  specialize (Ha ltac:(apply in_seq; lia)). rewrite forallb_forall in Ha. specialize (Ha k ltac:(apply in_seq; lia)).
  unfold resumes in Ha. by apply bool_decide_eq_true in Ha.
Qed.

Lemma run_migrations_skip n s :
  (n ≤ 7)%nat → run_migrations (Z.of_nat n) migrations s = run_migrations (Z.of_nat n) (drop n migrations) s.
Proof. intros Hn. do 8 (destruct n as [|n]; [reflexivity|]). lia. Qed.

Lemma not_half_altered n : (n ≤ 7)%nat → half_altered (schema_at n) = false.
Proof. intros Hn. do 8 (destruct n as [|n]; [vm_cast_no_check (eq_refl false)|]). lia. Qed.

(** C40.  Interrupted migration: whatever statement of [Migrate] fails, the next run
    without failures completes the upgrade to version 7, except in one
    situation: an ALTER TABLE has run but the version that records it was not
    written.  Then every later run fails on the duplicate column and leaves the
    catalogue where it was, so the server no longer starts. *)
Theorem Migrate_interrupted (n : nat) (schedule : list bool) (w w2 : World) :
  (n ≤ 7)%nat → w_faults w2 = [] →
  let c := (Migrate (set_faults schedule w, schema_at n)).2.2 in
  let out := Migrate (w2, c) in
  if half_altered c
  then out.1 = Err (stuck c) ∧ out.2.2 = c
  else out.1 = Ok tt ∧ out.2.2 = schema_at 7.
Proof.
  intros Hn Hf c out. destruct (Migrate_run w2 c Hf) as (E1 & E2 & _). fold out in E1, E2. rewrite E1, E2.
  assert (c = schema_at n ∨ c = schema_at 7 ∨ interrupted c) as Hc.
  { unfold c, Migrate, sbind, read_version.
    destruct (sql_cases (λ d c, (Ok (user_version c), (d, c))) (set_faults schedule w) (schema_at n)) as [[w1 E]|[w1 E]];
      rewrite E; [by left|right].
    cbn [fst snd]. rewrite version_of, migrations_sorted, run_migrations_skip by done. by apply run_migrations_interrupted. }
  destruct Hc as [Ec|[Ec|(m & k & Hm & Hk & Ec)]].
  - rewrite Ec, version_of, migrate_from by done. by rewrite not_half_altered.
  - rewrite Ec, version_of, migrate_from by done. by rewrite not_half_altered.
  - rewrite Ec, resume_partial by done. by destruct (half_altered _).
Qed.

(** The disk fails when version 5 is about to be recorded. *)
Lemma Migrate_interrupted_witness :
  let c := (Migrate (set_faults [false; false; true] old_world, schema_at 4)).2.2 in
  let out := Migrate (old_world, c) in
  out.1 = Err (wrap "storage: migration v5: " (sql_error "duplicate column name: refcount")) ∧ out.2.2 = c.
Proof.
  intros c out. pose proof (Migrate_interrupted 4 [false; false; true] old_world old_world ltac:(lia) eq_refl) as H.
  cbv zeta in H. fold c in H. assert (half_altered c = true) as E by (vm_compute; reflexivity).
  rewrite E in H. assert (stuck c = wrap "storage: migration v5: " (sql_error "duplicate column name: refcount")) as Es
    by (vm_compute; reflexivity). rewrite Es in H. exact H.
Defined.
