(* ===== verification/Ownership.v ===== *)
(** Who owns a message: the rows of one user, and the operations that leave the
    rows of everybody else alone.  [M] is the table of mailboxes, which the
    sessions of the mail protocols do not change, and [F] the messages of the
    other users. *)
From S2P Require Import Prelude GoLib Cache Sql Schema World StoreUsers StoreMail.

(** Steps that leave messages and mailboxes alone. *)
Definition inert (m : World → World) : Prop := ∀ w,
  mailboxes (w_db (m w)) = mailboxes (w_db w) ∧ messages (w_db (m w)) = messages (w_db w).

Lemma inert_query {A} (f : DB → res A) : inert (λ w, (query f w).2).
Proof. intros w. destruct (query_cases f w) as [[fs ->]|[fs ->]]; done. Qed.

Section ownership.
Context `{MR : MapRange} (u : Z) (M : table Mailbox) (F : list Message).

(** The message lies in a mailbox of [u]. *)
Definition mine (m : Message) : Prop := (msg_MailboxID m, u) ∈ (λ b, (mbox_ID b, mbox_UserID b)) <$> rows M.

#[export] Instance mine_dec m : Decision (mine m).
Proof. unfold mine. apply _. Defined.

(** A mailbox that may be used for [u]: its ID has been handed out, and any row
    with it belongs to [u]. *)
Definition mbox_mine (id : Z) : Prop :=
  id ≤ seq_ M ∧ ∀ b, b ∈ rows M → mbox_ID b = id → mbox_UserID b = u.

(** Any row with this ID is a message of [u]. *)
Definition msg_mine (d : DB) (id : Z) : Prop := ∀ m, m ∈ rows (messages d) → msg_ID m = id → mine m.

Definition world_iso (w : World) : Prop :=
  wf w ∧ mailboxes (w_db w) = M ∧ filter (λ m, ¬ mine m) (rows (messages (w_db w))) = F.

Lemma fk_mine w m :
  world_iso w → m ∈ rows (messages (w_db w)) → mbox_mine (msg_MailboxID m) → mine m.
Proof.
  intros (Hw & HM & _) Hm [_ Hb]. pose proof (wf_msg_fk _ Hw) as Hfk. unfold references in Hfk.
  rewrite Forall_forall, HM in Hfk. apply Hfk in Hm. apply list_elem_of_fmap in Hm as (b & E & Hin).
  apply list_elem_of_fmap. exists b. split; [|done]. rewrite E. f_equal. symmetry. by apply Hb.
Qed.

Lemma row_mbox_mine w b :
  world_iso w → b ∈ rows M → mbox_UserID b = u → mbox_mine (mbox_ID b).
Proof.
  intros (Hw & HM & _) Hb Hu. pose proof (wf_mailboxes _ Hw) as [Hi Hs]. rewrite HM in Hi, Hs.
  rewrite Forall_forall in Hs. split; [by apply Hs|]. intros b' Hb' E. by rewrite (unique_inj mbox_ID M b' b).
Qed.

Lemma world_iso_cache w c :
  entries c ⊆ entries (w_mboxCache w) → world_iso w → world_iso (set_mboxCache c w).
Proof. intros Hs (Hw & HM & HF). split; [|done]. revert Hw. by apply wf_frame. Qed.

Lemma GetMailbox_iso n w :
  world_iso w →
  world_iso (GetMailbox u n w).2 ∧ messages (w_db (GetMailbox u n w).2) = messages (w_db w) ∧
  ∀ b, (GetMailbox u n w).1 = Ok b → mbox_mine (mbox_ID b).
Proof.
  intros Hi. pose proof Hi as (Hw & HM & HF). pose proof (GetMailbox_wf u n w Hw) as Hw'. revert Hw'.
  unfold GetMailbox, sbind, mailboxCache_Get.
  pose proof (Get_sub (w_mboxCache w) (w_now w) (u, n)) as Hsub.
  pose proof (Get_hit (w_mboxCache w) (w_now w) (u, n)) as Hhit.
  destruct (Cache.Get (w_mboxCache w) (w_now w) (u, n)) as [[b|] c]; cbn [fst snd] in *.
  - intros Hw'. split_and!; [by apply world_iso_cache|done|].
    intros b' [= ->]. destruct (Hhit b' eq_refl) as (e & He & <- & _).
    destruct (proj2 Hw (u, n) e He) as [Hs Hb]. rewrite HM in Hs, Hb. by split.
  - set (w1 := set_mboxCache c w). assert (world_iso w1) as Hi1 by by apply world_iso_cache.
    destruct (query_cases (λ d, query_row (select (λ m, mbox_key m = (u, n)) (mailboxes d))) w1) as [[fs ->]|[fs ->]].
    { intros _. split_and!; [exact Hi1|done|done]. }
    change (mailboxes (w_db w1)) with (mailboxes (w_db w)). rewrite HM.
    destruct (select (λ m, mbox_key m = (u, n)) M) as [|b l] eqn:E; cbn [query_row].
    { intros _. split_and!; [exact Hi1|done|done]. }
    assert (b ∈ select (λ m, mbox_key m = (u, n)) M) as [Hk Hb]%elem_of_select by (rewrite E; left).
    injection Hk as Eu En. unfold smodify, sret. cbn [fst snd]. intros Hw'.
    split_and!; [by split_and!|done|]. intros b' [= <-]. by apply (row_mbox_mine w).
Qed.

Lemma world_iso_UpdateFlags id f m w :
  world_iso w → msg_mine (w_db w) id →
  world_iso (UpdateFlags id f m w).2 ∧
  ∀ i, msg_mine (w_db w) i → msg_mine (w_db (UpdateFlags id f m w).2) i.
Proof.
  intros (Hw & HM & HF) Hid. pose proof (UpdateFlags_wf id f m w Hw) as Hw'.
  assert (∀ w', w_db w' = w_db w ∨ w_db w' = (sql_update_flags id f m (w_db w)).2 → wf w' →
    world_iso w' ∧ ∀ i, msg_mine (w_db w) i → msg_mine (w_db w') i) as Hgoal.
  { intros w' [E|E] Hwf; (split; [split; [done|split]|]).
    - by rewrite E.
    - by rewrite E.
    - intros i. by rewrite E.
    - by rewrite E.
    - rewrite E, <- HF. apply filter_update_rows. intros x Hx Ex.
      assert (mine x) as Hmx by by apply Hid. split; intros Hn; by apply Hn.
    - intros i Hi x Hx Ex. rewrite E in Hx. cbn in Hx. apply list_elem_of_fmap in Hx as (y & -> & Hy).
      case_decide; [|by apply Hi]. apply (Hi y); done. }
  unfold UpdateFlags, sbind in *. destruct (stmt_cases (sql_update_flags id f m) w) as [[fs E]|[fs E]]; rewrite E in *.
  - apply Hgoal; [by left|done].
  - cbn [sql_update_flags fst snd] in *. destruct (_ =? 0); apply Hgoal; try done; by right.
Qed.

Lemma world_iso_InsertMessage mb k z a b s f :
  mbox_mine mb → pres world_iso (InsertMessage mb k z a b s f).
Proof.
  intros [_ Hb] w (Hw & HM & HF). split; [by apply InsertMessage_wf|].
  set (P := λ d, mailboxes d = M ∧ filter (λ m, ¬ mine m) (rows (messages d)) = F).
  assert (on_db P (InsertMessage mb k z a b s f w).2) as [H1 H2].
  { revert w Hw HM HF. intros w _ HM HF. apply (on_db_withTx P); [|done]. pres_walk. apply on_db_stmt.
    intros d [E1 E2]. unfold sql_insert_message. case_decide; [done|]. case_decide as Hin; [|done]. split; [done|].
    cbn. rewrite filter_app, E2, filter_cons_False, filter_nil, app_nil_r; [done|]. intros Hn. apply Hn.
    unfold mailbox_ids in Hin. rewrite E1 in Hin. apply list_elem_of_fmap in Hin as (x & -> & Hx).
    apply list_elem_of_fmap. exists x. split; [|done]. cbn. f_equal. symmetry. by apply Hb. }
  done.
Qed.
End ownership.
