(* ===== verification/StoreQueue.v ===== *)
(** The delivery queue and the DMARC result log
    (src/pkg/storage/{queue,dmarc}.go). *)
From S2P Require Import Prelude GoLib Cache Sql Schema World StoreUsers StoreMail.

(** * queue.go *)
Definition sql_enqueue (messageID : Z) (rcptTo : string) (now : Z) (d : DB) : res unit * DB :=
  if decide (messageID ∈ message_ids d)
  then (Ok tt, set_queue (insert_row (λ id, mkQueueItem id messageID rcptTo now 0 "pending") (queue d)) d)
  else (Err fk_violation, d).

Definition Enqueue (messageID : Z) (rcptTo : string) : state World (res unit) :=
  let! now := time_now_unix in
  let! r := stmt (sql_enqueue messageID rcptTo now) in
  match r with
  | Err err => sret (Err (wrap "storage: enqueue: " err))
  | Ok _ => sret (Ok tt)
  end.

Definition with_status (s : string) (q : QueueItem) : QueueItem :=
  mkQueueItem (qi_ID q) (qi_MessageID q) (qi_RcptTo q) (qi_NextAttempt q) (qi_AttemptCount q) s.

(** ORDER BY next_attempt *)
Definition attempt_le (a b : QueueItem) : Prop := qi_NextAttempt a ≤ qi_NextAttempt b.
#[export] Instance attempt_le_dec : RelDecision attempt_le.
Proof. unfold attempt_le. intros a b. apply _. Defined.
#[export] Instance attempt_le_trans : Transitive attempt_le.
Proof. unfold attempt_le. intros a b c. lia. Qed.
#[export] Instance attempt_le_total : Total attempt_le.
Proof. unfold attempt_le. intros a b. lia. Qed.

Definition due (now : Z) (q : QueueItem) : Prop := qi_Status q = "pending" ∧ qi_NextAttempt q ≤ now.
#[export] Instance due_dec now q : Decision (due now q).
Proof. unfold due. apply _. Defined.

Definition sql_next_due (now : Z) (d : DB) : res QueueItem :=
  query_row (order_by attempt_le (select (due now) (queue d))).

Definition claimable (id : Z) (q : QueueItem) : Prop := qi_ID q = id ∧ qi_Status q = "pending".
#[export] Instance claimable_dec id q : Decision (claimable id q).
Proof. unfold claimable. apply _. Defined.

Definition sql_claim (id : Z) (d : DB) : res Z * DB :=
  (Ok (affected (claimable id) (queue d)),
   set_queue (update_rows (claimable id) (with_status "active") (queue d)) d).

(** The body of the transaction [ClaimNext] runs. *)
Definition ClaimNext_tx : state World (res QueueItem) :=
  let! now := time_now_unix in
  let! r := query (sql_next_due now) in
  match r with
  | Err err => sret (Err err)
  | Ok item =>
      let! r := stmt (sql_claim (qi_ID item)) in
      match r with
      | Err err => sret (Err err)
      | Ok n => if n =? 0 then sret (Err (Sentinel ErrNoRows)) else sret (Ok item)
      end
  end.

(** [ClaimNext] returns [(nil, nil)] when nothing is due.  The item it returns
    still has the status that was read before the update. *)
Definition ClaimNext : state World (res (option QueueItem)) :=
  let! r := withTx ClaimNext_tx in
  match r with
  | Err (Sentinel ErrNoRows) => sret (Ok None)
  | Err err => sret (Err (wrap "storage: claim next: " err))
  | Ok item => sret (Ok (Some item))
  end.

Definition sql_delete_queue (queueID : Z) (d : DB) : res Z * DB :=
  (Ok (affected (λ q, qi_ID q = queueID) (queue d)),
   set_queue (delete_rows (λ q, qi_ID q = queueID) (queue d)) d).

Definition Complete (queueID : Z) : state World (res unit) :=
  let! r := stmt (sql_delete_queue queueID) in
  match r with
  | Err err => sret (Err (wrap "storage: complete: " err))
  | Ok n => if n =? 0 then sret (Err (wrap "storage: complete: " (Sentinel ErrNotFound))) else sret (Ok tt)
  end.

Definition rescheduled (nextAttempt : Z) (q : QueueItem) : QueueItem :=
  mkQueueItem (qi_ID q) (qi_MessageID q) (qi_RcptTo q) nextAttempt (qi_AttemptCount q + 1) "pending".

Definition sql_reschedule (queueID nextAttempt : Z) (d : DB) : res Z * DB :=
  (Ok (affected (λ q, qi_ID q = queueID) (queue d)),
   set_queue (update_rows (λ q, qi_ID q = queueID) (rescheduled nextAttempt) (queue d)) d).

(** The body of the transaction [Fail] runs: [true] when the item was dropped. *)
Definition Fail_tx (queueID nextAttempt maxRetries : Z) : state World (res bool) :=
  let! r := query (λ d, query_row (qi_AttemptCount <$> select (λ q, qi_ID q = queueID) (queue d))) in
  match r with
  | Err err => sret (Err err)
  | Ok attemptCount =>
      if maxRetries <=? attemptCount then
        let! r := stmt (sql_delete_queue queueID) in sret (res_fmap (λ _, true) r)
      else
        let! r := stmt (sql_reschedule queueID nextAttempt) in sret (res_fmap (λ _, false) r)
  end.

(** [nextAttempt] is in Unix seconds.  The deferred rollback makes the explicit
    begin / commit of the source a [withTx]. *)
Definition Fail_ (queueID nextAttempt maxRetries : Z) : state World (res unit) :=
  let! r := withTx (Fail_tx queueID nextAttempt maxRetries) in
  match r with
  | Err err => sret (Err err)
  | Ok true => sret (Err (Sentinel ErrMaxRetries))
  | Ok false => sret (Ok tt)
  end.

Definition ListPending : state World (res (list QueueItem)) :=
  let! r := query (λ d, Ok (order_by attempt_le (rows (queue d)))) in
  match r with
  | Err err => sret (Err (wrap "storage: list pending: " err))
  | Ok l => sret (Ok l)
  end.

Definition QueueSize : state World (res Z) :=
  let! r := query (λ d, Ok (Z.of_nat (length (rows (queue d))))) in
  match r with
  | Err err => sret (Err (wrap "storage: queue size: " err))
  | Ok n => sret (Ok n)
  end.

(** * dmarc.go *)
Definition sql_insert_dmarc (sourceIP fromDomain spfResult dkimResult disposition : string) (now : Z) (d : DB)
    : res unit * DB :=
  (Ok tt, set_dmarc_results (insert_row (λ id,
     mkDMARCResult id sourceIP fromDomain spfResult dkimResult disposition now false) (dmarc_results d)) d).

Definition InsertDMARCResult (sourceIP fromDomain spfResult dkimResult disposition : string)
    : state World (res unit) :=
  let! now := time_now_unix in
  let! r := stmt (sql_insert_dmarc sourceIP fromDomain spfResult dkimResult disposition now) in
  match r with
  | Err err => sret (Err (wrap "storage: insert dmarc result: " err))
  | Ok _ => sret (Ok tt)
  end.

Record AggregatedDMARCResult := mkAggregated {
  ag_SourceIP : string; ag_FromDomain : string;
  ag_SPFPass : Z; ag_SPFFail : Z; ag_DKIMPass : Z; ag_DKIMFail : Z;
  ag_Disposition : string; ag_Count : Z; ag_Timestamp : Z }.

Definition unsent (r : DMARCResult) : Prop := dm_ReportSent r = false.
#[export] Instance unsent_dec r : Decision (unsent r).
Proof. unfold unsent. apply _. Defined.

(** GROUP BY from_domain, source_ip, disposition *)
Definition dm_group (r : DMARCResult) : string * string * string :=
  (dm_FromDomain r, dm_SourceIP r, dm_Disposition r).

(** SUM(CASE WHEN P THEN 1 ELSE 0 END) *)
Definition sum_case (P : DMARCResult → bool) (l : list DMARCResult) : Z :=
  foldr (λ r n, (if P r then 1 else 0) + n) 0 l.

(** One result row; a group is never empty, so MAX is not NULL. *)
Definition aggregate (l : list DMARCResult) (g : string * string * string) : AggregatedDMARCResult :=
  let rs := filter (λ r, dm_group r = g) l in
  mkAggregated g.1.2 g.1.1
    (sum_case (λ r, String.eqb (dm_SPFResult r) "pass") rs)
    (sum_case (λ r, negb (String.eqb (dm_SPFResult r) "pass")) rs)
    (sum_case (λ r, String.eqb (dm_DKIMResult r) "pass") rs)
    (sum_case (λ r, negb (String.eqb (dm_DKIMResult r) "pass")) rs)
    g.2 (Z.of_nat (length rs))
    (match dm_Timestamp <$> rs with t :: ts => foldl Z.max t ts | [] => 0 end).

(** ORDER BY from_domain, source_ip; the order of the dispositions is free. *)
Definition aggregate_le (a b : AggregatedDMARCResult) : Prop :=
  string2_le (ag_FromDomain a, ag_SourceIP a) (ag_FromDomain b, ag_SourceIP b).
#[export] Instance aggregate_le_dec : RelDecision aggregate_le.
Proof. unfold aggregate_le. intros a b. apply _. Defined.

Definition sql_unsent_dmarc (d : DB) : list AggregatedDMARCResult :=
  let l := select unsent (dmarc_results d) in
  order_by aggregate_le (aggregate l <$> remove_dups (dm_group <$> l)).

Definition GetUnsentDMARCResults : state World (res (list AggregatedDMARCResult)) :=
  let! r := query (λ d, Ok (sql_unsent_dmarc d)) in
  match r with
  | Err err => sret (Err (wrap "storage: query unsent dmarc results: " err))
  | Ok l => sret (Ok l)
  end.

Definition marked_sent (r : DMARCResult) : DMARCResult :=
  mkDMARCResult (dm_ID r) (dm_SourceIP r) (dm_FromDomain r) (dm_SPFResult r) (dm_DKIMResult r)
    (dm_Disposition r) (dm_Timestamp r) true.

Definition sql_mark_sent (domain : string) (d : DB) : res unit * DB :=
  (Ok tt, set_dmarc_results (update_rows (λ r, dm_FromDomain r = domain ∧ dm_ReportSent r = false)
     marked_sent (dmarc_results d)) d).

Definition MarkDMARCResultsSent (domains : list string) : state World (res unit) :=
  match domains with
  | [] => sret (Ok tt)
  | _ => withTx (
      let! stop := sfor domains (λ domain,
        let! r := stmt (sql_mark_sent domain) in
        match r with
        | Err err => sret (Some (wrap ("storage: mark dmarc results sent for " +:+ domain +:+ ": ") err))
        | Ok _ => sret None
        end) in
      match stop with Some err => sret (Err err) | None => sret (Ok tt) end)
  end.

Definition GetDMARCDomains : state World (res (list string)) :=
  let! r := query (λ d, Ok (remove_dups (dm_FromDomain <$> select unsent (dmarc_results d)))) in
  match r with
  | Err err => sret (Err (wrap "storage: query dmarc domains: " err))
  | Ok l => sret (Ok l)
  end.

(** * Every statement keeps the database well-formed *)
Lemma sql_enqueue_ok m r n : stmt_ok (sql_enqueue m r n).
Proof.
  intros d H. unfold sql_enqueue. case_decide; [|done]. stmt_wf H.
  - apply Forall_insert_row; [done|]. split; simpl; [by left|lia].
  - by apply Forall_insert_row.
Qed.

Lemma sql_claim_ok i : stmt_ok (sql_claim i).
Proof.
  intros d H. unfold sql_claim. stmt_wf H.
  - apply Forall_update_rows; [done|]. intros r _ [_ Hr]. split; [by right|done].
  - by apply references_update_row.
Qed.

Lemma sql_delete_queue_ok i : stmt_ok (sql_delete_queue i).
Proof. intros d H. unfold sql_delete_queue. stmt_wf H. by apply Forall_delete_rows. Qed.

Lemma sql_reschedule_ok i n : stmt_ok (sql_reschedule i n).
Proof.
  intros d H. unfold sql_reschedule. stmt_wf H.
  - apply Forall_update_rows; [done|]. intros r _ [_ Hr]. split; simpl; [by left|lia].
  - by apply references_update_row.
Qed.

Lemma sql_insert_dmarc_ok a b c e f n : stmt_ok (sql_insert_dmarc a b c e f n).
Proof. intros d H. unfold sql_insert_dmarc. stmt_wf H. Qed.

Lemma sql_mark_sent_ok x : stmt_ok (sql_mark_sent x).
Proof. intros d H. unfold sql_mark_sent. stmt_wf H. Qed.

#[export] Hint Resolve sql_enqueue_ok sql_claim_ok sql_delete_queue_ok sql_reschedule_ok
  sql_insert_dmarc_ok sql_mark_sent_ok : stmts.

(** * Every operation keeps the database well-formed, whatever fails *)
Section wf.
Lemma Enqueue_wf m r : pres wf (Enqueue m r). Proof. unfold Enqueue. pres_walk. Qed.
Lemma ClaimNext_wf : pres wf ClaimNext.
Proof. unfold ClaimNext, ClaimNext_tx. pres_walk. Qed.
Lemma Complete_wf i : pres wf (Complete i). Proof. unfold Complete. pres_walk. Qed.
Lemma Fail_wf i n m : pres wf (Fail_ i n m).
Proof.
  unfold Fail_. unfold Fail_tx. pres_walk.
Qed.
Lemma ListPending_wf : pres wf ListPending. Proof. unfold ListPending. pres_walk. Qed.
Lemma QueueSize_wf : pres wf QueueSize. Proof. unfold QueueSize. pres_walk. Qed.
Lemma InsertDMARCResult_wf a b c e f : pres wf (InsertDMARCResult a b c e f).
Proof. unfold InsertDMARCResult. pres_walk. Qed.
Lemma GetUnsentDMARCResults_wf : pres wf GetUnsentDMARCResults.
Proof. unfold GetUnsentDMARCResults. pres_walk. Qed.
Lemma MarkDMARCResultsSent_wf l : pres wf (MarkDMARCResultsSent l).
Proof. unfold MarkDMARCResultsSent. destruct l; pres_walk. Qed.
Lemma GetDMARCDomains_wf : pres wf GetDMARCDomains. Proof. unfold GetDMARCDomains. pres_walk. Qed.
End wf.
#[export] Hint Resolve Enqueue_wf ClaimNext_wf Complete_wf Fail_wf ListPending_wf QueueSize_wf
  InsertDMARCResult_wf GetUnsentDMARCResults_wf MarkDMARCResultsSent_wf GetDMARCDomains_wf : pres.

(** * Properties *)

(** ** Claiming *)
Lemma order_by_head {R} (le : R → R → Prop) `{!RelDecision le} `{!Transitive le, !Total le} l r l' :
  order_by le l = r :: l' → r ∈ l ∧ ∀ x, x ∈ l → le r x.
Proof.
  intros E. split; [rewrite <- (order_by_perm le l), E; left|].
  intros x Hx. rewrite <- (order_by_perm le l), E in Hx. apply elem_of_cons in Hx as [->|Hx].
  - by destruct (total le r r).
  - pose proof (order_by_sorted le l) as Hs. rewrite E in Hs. apply StronglySorted_inv in Hs as [_ Hall].
    by eapply Forall_forall in Hall.
Qed.

Lemma sql_next_due_spec now d :
  match sql_next_due now d with
  | Ok q => q ∈ rows (queue d) ∧ due now q ∧ ∀ q', q' ∈ rows (queue d) → due now q' → qi_NextAttempt q ≤ qi_NextAttempt q'
  | Err e => e = Sentinel ErrNoRows ∧ ∀ q, q ∈ rows (queue d) → ¬ due now q
  end.
Proof.
  unfold sql_next_due. destruct (order_by attempt_le _) as [|q l] eqn:E; simpl.
  - split; [done|]. intros q Hq Hd. assert (q ∈ select (due now) (queue d)) as Hs by by apply elem_of_select.
    rewrite <- (order_by_perm attempt_le), E in Hs. by apply elem_of_nil in Hs.
  - apply order_by_head in E as [[Hd Hq]%elem_of_select Hle]; [|apply _..].
    split_and!; [done..|]. intros q' Hq' Hd'. apply Hle, elem_of_select. done.
Qed.

Definition claimed (q : QueueItem) (d : DB) : DB :=
  set_queue (update_rows (claimable (qi_ID q)) (with_status "active") (queue d)) d.

Lemma ClaimNext_run w :
  wf w → w_faults w = [] →
  ClaimNext w = match sql_next_due (w_now w / second) (w_db w) with
                | Ok q => (Ok (Some q), set_db (claimed q (w_db w)) w)
                | Err _ => (Ok None, w)
                end.
Proof.
  intros Hw Hf. unfold ClaimNext, sbind.
  pose proof (sql_next_due_spec (w_now w / second) (w_db w)) as Hs.
  assert (ClaimNext_tx w = match sql_next_due (w_now w / second) (w_db w) with
                   | Ok q => (Ok q, set_db (claimed q (w_db w)) w)
                   | Err e => (Err e, w)
                   end) as E.
  { unfold ClaimNext_tx, sbind, time_now_unix. rewrite query_run by done.
    destruct (sql_next_due _ _) as [q|e]; [|done]. destruct Hs as (Hq & [Hp _] & _).
    rewrite stmt_ok_run by done. unfold sql_claim. cbn [fst snd].
    unfold affected. rewrite (select_unique (λ q', (qi_ID q', qi_Status q')) _ _ q); [done| |done|].
    - apply (NoDup_fmap_1 fst). rewrite <- list_fmap_compose. apply (wf_queue _ Hw).
    - intros q'. unfold claimable. rewrite Hp. split; [intros [-> ->]; done|by intros [= -> ->]]. }
  rewrite withTx_run, E; [|done|]; destruct (sql_next_due _ _) as [q|e]; try done.
  - destruct Hs as [-> _]. by rewrite set_db_same.
  - by rewrite E.
  - by rewrite E.
Qed.

(** [ClaimNext] on a well-formed queue: with nothing due it returns no item
    and changes nothing; otherwise the item it returns is pending, due and no
    later than any other due item, its row becomes active, and no other row
    changes.  A failure leaves the database alone. *)
Theorem ClaimNext_spec (w : World) :
  wf w →
  let out := ClaimNext w in
  let now := w_now w / second in
  (∀ e, out.1 = Err e → w_db out.2 = w_db w) ∧
  (w_faults w = [] →
   (out = (Ok None, w) ∧ ∀ q, q ∈ rows (queue (w_db w)) → ¬ due now q) ∨
   ∃ q, out.1 = Ok (Some q) ∧ q ∈ rows (queue (w_db w)) ∧ due now q ∧
        (∀ q', q' ∈ rows (queue (w_db w)) → due now q' → qi_NextAttempt q ≤ qi_NextAttempt q') ∧
        out.2 = set_db (set_queue (queue (w_db out.2)) (w_db w)) w ∧
        ∀ x, x ∈ rows (queue (w_db out.2)) ↔
             x = with_status "active" q ∨ x ∈ rows (queue (w_db w)) ∧ qi_ID x ≠ qi_ID q).
Proof.
  intros Hw out now. split.
  - intros e He. unfold out, ClaimNext, sbind in *.
    pose proof (withTx_atomic ClaimNext_tx w) as Ha. destruct (withTx ClaimNext_tx w) as [[q|err] w']; [done|].
    specialize (Ha err eq_refl). by repeat case_match.
  - intros Hf. unfold out, now. rewrite ClaimNext_run by done.
    pose proof (sql_next_due_spec (w_now w / second) (w_db w)) as Hs. destruct (sql_next_due _ _) as [q|e].
    + right. destruct Hs as (Hq & Hd & Hle). exists q. split_and!; try done; try apply Hd.
      intros x. unfold claimed. cbn [snd w_db set_db]. db_cbn. rewrite elem_of_update. split.
      * intros (r & Hr & ->). case_decide as Hc.
        { left. f_equal. apply (unique_inj qi_ID (queue (w_db w))); [apply Hw|done|done|apply Hc]. }
        right. split; [done|]. intros E. apply Hc. split; [done|].
        replace r with q; [apply Hd|]. apply (unique_inj qi_ID (queue (w_db w))); [apply Hw|done..].
      * intros [->|[Hx Hn]].
        { exists q. split; [done|]. rewrite decide_True; [done|]. split; [done|apply Hd]. }
        exists x. split; [done|]. rewrite decide_False; [done|]. by intros [].
    + left. by destruct Hs.
Qed.

Definition demo_queue : DB :=
  set_queue (mkTable [mkQueueItem 1 1 "a@y" 900 0 "pending"; mkQueueItem 2 1 "b@y" 800 1 "pending";
                      mkQueueItem 3 1 "c@y" 100 0 "active"; mkQueueItem 4 1 "d@y" 2000 0 "pending"] 4) demo_db.
Definition demo_queue_world : World := set_db demo_queue demo_world.
Lemma demo_queue_wf : wf demo_queue_world.
Proof.
  pose proof demo_wf as [H _]. destruct H. apply wf_cold; [done|]. constructor; db_cbn; try done.
  - split; [apply (bool_decide_unpack _); vm_compute; exact I|repeat constructor; cbn; lia].
  - repeat (constructor; [split; cbn; [tauto|lia]|]). constructor.
  - repeat constructor.
Qed.

Lemma ClaimNext_spec_witness :
  (ClaimNext demo_queue_world).1 = Ok (Some (mkQueueItem 2 1 "b@y" 800 1 "pending")).
Proof.
  destruct (ClaimNext_spec demo_queue_world demo_queue_wf) as [_ H].
  destruct (H eq_refl) as [[E _]|(q & E & _)]; vm_compute in E |- *; [discriminate E|exact eq_refl].
Defined.

(** ** Exclusive claims, under failures *)
Lemma claimed_status q w x :
  wf w → q ∈ rows (queue (w_db w)) → x ∈ rows (queue (claimed q (w_db w))) →
  (qi_ID x = qi_ID q → qi_Status x ≠ "pending") ∧
  ∃ y, y ∈ rows (queue (w_db w)) ∧ qi_ID y = qi_ID x ∧ (qi_Status x = "pending" → qi_Status y = "pending").
Proof.
  intros Hw Hq Hx. unfold claimed in Hx. db_cbn. apply elem_of_update in Hx as (r & Hr & ->).
  case_decide as Hc; simpl; [split; [done|]; exists r; by destruct Hc|]. split; [|eauto].
  intros E Hp. by apply Hc.
Qed.

Lemma ClaimNext_cases w :
  wf w →
  (∃ q, (ClaimNext w).1 = Ok (Some q) ∧ q ∈ rows (queue (w_db w)) ∧ qi_Status q = "pending" ∧
        w_db (ClaimNext w).2 = claimed q (w_db w)) ∨
  ((∀ q, (ClaimNext w).1 ≠ Ok (Some q)) ∧ w_db (ClaimNext w).2 = w_db w).
Proof.
  intros Hw. unfold ClaimNext, sbind.
  destruct (withTx_cases ClaimNext_tx w) as [fs [(e & E & Ed)|(q & E & Eb & Ed & _)]]; destruct (withTx ClaimNext_tx w) as [r w'];
    simpl in *; subst r.
  - right. by repeat case_match.
  - left. exists q. split; [done|]. cbn [snd sret]. rewrite Ed. clear Ed. revert Eb. unfold ClaimNext_tx, sbind, time_now_unix.
    pose proof (sql_next_due_spec (w_now w / second) (w_db w)) as Hs.
    destruct (query_cases (sql_next_due (w_now w / second)) (set_faults fs w)) as [[fs1 Eq]|[fs1 Eq]];
      cbn [w_now set_faults] in *; rewrite Eq; [done|]. cbn [w_db set_faults].
    destruct (sql_next_due _ _) as [q1|]; [|done]. destruct Hs as (Hq & [Hp _] & _).
    destruct (stmt_cases (sql_claim (qi_ID q1)) (set_faults fs1 (set_faults fs w))) as [[fs2 Ec]|[fs2 Ec]]; rewrite Ec; [done|].
    unfold sql_claim. cbn [fst snd]. case_match; [done|]. by intros [= ->].
Qed.

Inductive qop :=
  | QEnqueue (messageID : Z) (rcptTo : string) | QClaim | QComplete (id : Z)
  | QFail (id nextAttempt maxRetries : Z) | QTick (d : N).

(** The world and the items handed out by [ClaimNext] and not given back since. *)
Definition qstep (s : World * list Z) (o : qop) : World * list Z :=
  let '(w, out) := s in
  match o with
  | QEnqueue m r => ((Enqueue m r w).2, out)
  | QClaim => let '(r, w') := ClaimNext w in
      (w', match r with Ok (Some q) => qi_ID q :: out | _ => out end)
  | QComplete i => ((Complete i w).2, out)
  | QFail i n m => let '(r, w') := Fail_ i n m w in
      (w', match r with Ok _ => filter (λ x, x ≠ i) out | Err _ => out end)
  | QTick d => (set_now (w_now w + Z.of_N d) w, out)
  end.
Definition qrun (w : World) (os : list qop) : World * list Z := foldl qstep (w, []) os.

(** Items handed out are not pending, and no new item takes their ID. *)
Definition held (w : World) (i : Z) : Prop :=
  i ≤ seq_ (queue (w_db w)) ∧ ∀ q, q ∈ rows (queue (w_db w)) → qi_ID q = i → qi_Status q ≠ "pending".

Lemma held_delete w w' P `{∀ q, Decision (P q)} i :
  queue (w_db w') = delete_rows P (queue (w_db w)) → held w i → held w' i.
Proof.
  intros E [Hs Hp]. unfold held. rewrite E. split; [done|]. intros q [_ Hq]%elem_of_delete. by apply Hp.
Qed.

Lemma Enqueue_held m r w i : held w i → held (Enqueue m r w).2 i.
Proof.
  intros Hh. unfold Enqueue, sbind, time_now_unix.
  destruct (stmt_cases (sql_enqueue m r (w_now w / second)) w) as [[fs ->]|[fs ->]]; [exact Hh|].
  assert (held (set_db (sql_enqueue m r (w_now w / second) (w_db w)).2 (set_faults fs w)) i);
    [|by destruct (sql_enqueue _ _ _ _) as [[] ?]].
  unfold sql_enqueue. case_decide; [|done]. destruct Hh as [Hs Hp]. split; [simpl; lia|].
  intros q Hq E. cbn in Hq. apply elem_of_app in Hq as [Hq| ->%list_elem_of_singleton]; [by apply Hp|].
  simpl in E. lia.
Qed.

Lemma Complete_held k w i : held w i → held (Complete k w).2 i.
Proof.
  intros Hh. unfold Complete, sbind.
  destruct (stmt_cases (sql_delete_queue k) w) as [[fs ->]|[fs ->]]; [exact Hh|]. cbn [sql_delete_queue fst snd].
  case_match; (eapply held_delete; [|exact Hh]; done).
Qed.

Lemma Fail_cases k n m w :
  (∃ e, (Fail_ k n m w).1 = Err e ∧ (w_db (Fail_ k n m w).2 = w_db w ∨
        w_db (Fail_ k n m w).2 = set_queue (delete_rows (λ q, qi_ID q = k) (queue (w_db w))) (w_db w))) ∨
  ((Fail_ k n m w).1 = Ok tt ∧ w_db (Fail_ k n m w).2 = (sql_reschedule k n (w_db w)).2).
Proof.
  unfold Fail_, sbind.
  destruct (withTx_cases (Fail_tx k n m) w) as [fs [(e & E & Ed)|(b & E & Eb & Ed & _)]];
    destruct (withTx (Fail_tx k n m) w) as [r w']; simpl in *; subst r.
  { left. exists e. simpl. eauto. }
  revert Eb. rewrite <- (eq_refl : w_db (set_faults fs w) = w_db w). unfold Fail_tx, sbind in *. revert Ed.
  destruct (query_cases (λ d, query_row (qi_AttemptCount <$> select (λ q, qi_ID q = k) (queue d))) (set_faults fs w)) as [[fs1 Eq]|[fs1 Eq]];
    rewrite Eq; [done|].
  destruct (query_row _) as [ac|]; [|done]. destruct (Z.leb_spec m ac).
  - destruct (stmt_cases (sql_delete_queue k) (set_faults fs1 (set_faults fs w))) as [[fs2 Es]|[fs2 Es]]; rewrite Es; [done|].
    intros Ed [= <-]. left. exists (Sentinel ErrMaxRetries). split; [done|]. right. cbn. by rewrite Ed.
  - destruct (stmt_cases (sql_reschedule k n) (set_faults fs1 (set_faults fs w))) as [[fs2 Es]|[fs2 Es]]; rewrite Es; [done|].
    intros Ed [= <-]. right. split; [done|]. cbn. by rewrite Ed.
Qed.

Definition qinv (s : World * list Z) : Prop := wf s.1 ∧ NoDup s.2 ∧ ∀ i, i ∈ s.2 → held s.1 i.

Lemma qstep_inv s o : qinv s → qinv (qstep s o).
Proof.
  destruct s as [w out]. intros (Hw & Hnd & Hh). simpl in *. destruct o as [m r| |k|k n mx|d]; simpl.
  - split_and!; [by apply Enqueue_wf|done|]. intros i Hi. by apply Enqueue_held, Hh.
  - pose proof (ClaimNext_wf w Hw) as Hw'. pose proof (ClaimNext_cases w Hw) as Hc.
    destruct (ClaimNext w) as [r w'] eqn:Ec. simpl in *.
    destruct Hc as [(q & -> & Hq & Hp & Ed)|[Hn Ed]].
    + assert (∀ i, held w i → held w' i) as Hkeep.
      { intros i [Hs Hi]. unfold held. rewrite Ed. split; [done|]. intros x Hx E Hxp.
        destruct (claimed_status q w x Hw Hq Hx) as [_ (y & Hy & Ey & Hyp)]. apply (Hi y Hy); [congruence|auto]. }
      split_and!; [done| |].
      * apply NoDup_cons. split; [|done]. intros Hi. by destruct (Hh _ Hi) as [_ Hi']; apply (Hi' q).
      * intros i [->|Hi]%elem_of_cons; [|auto]. split.
        { cbn [fst]; rewrite Ed. simpl. pose proof (wf_queue _ Hw) as [_ Hs]. by eapply Forall_forall in Hs. }
        intros x Hx E. cbn [fst] in Hx. rewrite Ed in Hx. by apply (claimed_status q w x Hw Hq Hx).
    + assert (out = match r with Ok (Some q) => qi_ID q :: out | _ => out end) as <-.
      { destruct r as [[q|]|]; [by destruct (Hn q)|done..]. }
      split_and!; [done|done|]. intros i Hi. unfold held. cbn [fst]. rewrite Ed. by apply Hh.
  - split_and!; [by apply Complete_wf|done|]. intros i Hi. by apply Complete_held, Hh.
  - pose proof (Fail_wf k n mx w Hw) as Hw'. pose proof (Fail_cases k n mx w) as Hc.
    destruct (Fail_ k n mx w) as [r w']. simpl in *. destruct Hc as [(e & -> & Hd)|[-> Hd]].
    + split_and!; [done|done|]. intros i Hi. destruct Hd as [E|E].
      * unfold held. cbn [fst]. rewrite E. by apply Hh.
      * unfold held. cbn [fst]. rewrite E. destruct (Hh i Hi) as [Hs Hp]. split; [done|].
        intros x [_ Hx]%elem_of_delete. by apply Hp.
    + split_and!; [done|by apply NoDup_filter|]. intros i [Hne Hi]%list_elem_of_filter.
      destruct (Hh i Hi) as [Hs Hp]. unfold held. cbn [fst]. rewrite Hd. split; [done|].
      intros x (y & Hy & ->)%elem_of_update. case_decide as E; [simpl; congruence|by apply Hp].
  - split_and!; done.
Qed.

(** C11.  A queue item is never in the hands of two workers: in any interleaving of
    enqueues, claims, completions, failures and the passage of time, with any
    schedule of statement failures, an item that was claimed is not claimed
    again until a [Fail] has put it back. *)
Theorem claims_exclusive (w : World) (os : list qop) :
  wf w → NoDup (qrun w os).2.
Proof.
  intros Hw. assert (qinv (qrun w os)) as (_ & Hnd & _); [|done]. unfold qrun.
  assert (qinv (w, [])) as Hi.
  { split_and!; [done|constructor|]. intros i Hi. by apply elem_of_nil in Hi. }
  revert Hi. generalize (w, @nil Z) as s. induction os as [|o os IH]; intros s Hi; [done|].
  apply IH, qstep_inv, Hi.
Qed.

Lemma claims_exclusive_witness :
  NoDup (qrun demo_queue_world [QClaim; QClaim; QFail 2 900 5; QTick 200; QClaim; QClaim; QComplete 1]).2.
Proof. apply claims_exclusive, demo_queue_wf. Defined.

(** ** Bounded retries *)
Lemma Fail_run k n m w q :
  wf w → w_faults w = [] → q ∈ rows (queue (w_db w)) → qi_ID q = k →
  Fail_ k n m w =
    if m <=? qi_AttemptCount q then (Err (Sentinel ErrMaxRetries), set_db (sql_delete_queue k (w_db w)).2 w)
    else (Ok tt, set_db (sql_reschedule k n (w_db w)).2 w).
Proof.
  intros Hw Hf Hq Hk. unfold Fail_, sbind.
  assert (Fail_tx k n m w = if m <=? qi_AttemptCount q then (Ok true, set_db (sql_delete_queue k (w_db w)).2 w)
            else (Ok false, set_db (sql_reschedule k n (w_db w)).2 w)) as E.
  { unfold Fail_tx, sbind. rewrite query_run by done.
    rewrite (select_unique qi_ID _ _ q); [|apply Hw|done|by intros; rewrite Hk]. cbn [list_fmap fmap query_row].
    case_match; rewrite stmt_ok_run by done; done. }
  rewrite withTx_run, E; [|done|]; [|rewrite E]; by destruct (m <=? qi_AttemptCount q).
Qed.

(** A worker that keeps failing: [Fail] after [Fail], [times] of them. *)
Fixpoint fail_times (k maxRetries : Z) (times : list Z) (w : World) : list (res unit) * World :=
  match times with
  | [] => ([], w)
  | t :: ts => let '(r, w1) := Fail_ k t maxRetries w in
               let '(rs, w2) := fail_times k maxRetries ts w1 in (r :: rs, w2)
  end.

(** C27.  Retries are bounded, and each of them is recorded: an item with [a]
    attempts behind it can fail [maxRetries - a] more times, each failure
    putting it back as pending at the requested time with one more attempt;
    the next failure removes it and reports [ErrMaxRetries]. *)
Theorem retries_bounded (q : QueueItem) (maxRetries : Z) (times : list Z) (last : Z) (w : World) :
  wf w → w_faults w = [] → q ∈ rows (queue (w_db w)) →
  qi_AttemptCount q + Z.of_nat (length times) = maxRetries →
  let retried := fail_times (qi_ID q) maxRetries times w in
  let dropped := Fail_ (qi_ID q) last maxRetries retried.2 in
  retried.1 = replicate (length times) (Ok tt) ∧
  (∀ t ts, times = ts ++ [t] →
     mkQueueItem (qi_ID q) (qi_MessageID q) (qi_RcptTo q) t maxRetries "pending" ∈ rows (queue (w_db retried.2))) ∧
  dropped.1 = Err (Sentinel ErrMaxRetries) ∧
  ∀ q', q' ∈ rows (queue (w_db dropped.2)) → qi_ID q' ≠ qi_ID q.
Proof.
  revert q w. induction times as [|t ts IH]; intros q w Hw Hf Hq Ha.
  - simpl in *. rewrite (Fail_run _ _ _ _ q) by done. destruct (Z.leb_spec maxRetries (qi_AttemptCount q)); [|lia].
    split_and!; [done| |done|]; [intros t ts E; by destruct ts|]. intros q' [Hne _]%elem_of_delete. done.
  - simpl fail_times. pose proof (Fail_wf (qi_ID q) t maxRetries w Hw) as Hw'.
    rewrite (Fail_run _ _ _ _ q) in * by done. simpl length in Ha.
    destruct (Z.leb_spec maxRetries (qi_AttemptCount q)); [lia|]. cbn [snd] in Hw'.
    set (w' := set_db _ w) in *. set (q' := rescheduled t q).
    assert (q' ∈ rows (queue (w_db w'))) as Hq'.
    { apply elem_of_update. exists q. split; [done|]. by rewrite decide_True. }
    specialize (IH q' w' Hw' Hf Hq' ltac:(simpl; lia)). change (qi_ID q') with (qi_ID q) in IH.
    destruct (fail_times _ _ ts w') as [rs w1] eqn:Ef. cbn [fst snd] in *.
    destruct IH as (-> & Hlast & Hr & Hg). split_and!; [done| |done|done].
    intros t' ts' E. destruct ts' as [|t0 ts'].
    + injection E as -> ->. injection Ef as <-. unfold q', rescheduled in Hq'.
      replace (qi_AttemptCount q + 1) with maxRetries in Hq' by (simpl in Ha; lia). exact Hq'.
    + injection E as -> E. exact (Hlast t' ts' E).
Qed.

Lemma retries_bounded_witness :
  (Fail_ 2 500 3 (fail_times 2 3 [300; 400] demo_queue_world).2).1 = Err (Sentinel ErrMaxRetries).
Proof.
  apply (retries_bounded (mkQueueItem 2 1 "b@y" 800 1 "pending") 3 [300; 400] 500 demo_queue_world
    demo_queue_wf eq_refl); [right; left|done].
Defined.

(** ** The DMARC log *)
Lemma sum_case_split P l : sum_case P l + sum_case (λ r, negb (P r)) l = Z.of_nat (length l).
Proof. induction l as [|r l IH]; [done|]. simpl. destruct (P r); simpl; lia. Qed.

Definition sumZ (l : list Z) : Z := foldr Z.add 0 l.

Lemma sumZ_perm l1 l2 : l1 ≡ₚ l2 → sumZ l1 = sumZ l2.
Proof. induction 1; simpl; lia. Qed.

(** The groups of a list partition it. *)
Lemma group_sizes {A K} `{EqDecision K} (g : A → K) (ks : list K) (l : list A) :
  NoDup ks → (∀ x, x ∈ l → g x ∈ ks) →
  sumZ ((λ k, Z.of_nat (length (filter (λ x, g x = k) l))) <$> ks) = Z.of_nat (length l).
Proof.
  intros Hnd. revert l. induction Hnd as [|k ks Hk _ IH]; intros l Hl.
  - destruct l as [|x l]; [done|]. specialize (Hl x ltac:(left)). by apply elem_of_nil in Hl.
  - cbn [list_fmap fmap sumZ foldr].
    pose proof (length_filter_split (λ x, g x = k) l) as E.
    assert (∀ k', k' ∈ ks → filter (λ x, g x = k') (filter (λ x, ¬ g x = k) l) = filter (λ x, g x = k') l) as Hf.
    { intros k' Hk'. rewrite list_filter_filter. apply list_filter_iff. intros x. split; [tauto|].
      intros Ex. split; first [done|intros Ey; apply Hk; by rewrite <- Ey, Ex]. }
    specialize (IH (filter (λ x, ¬ g x = k) l)).
    erewrite (list_fmap_ext _ (λ k', Z.of_nat (length (filter (λ x, g x = k') l)))) in IH;
      [|intros i k' Hk'%list_elem_of_lookup_2; cbv beta; by rewrite Hf].
    unfold sumZ in IH. rewrite IH; [lia|]. intros x [Hx Hin]%list_elem_of_filter. specialize (Hl x Hin).
    apply elem_of_cons in Hl as [E'|]; [congruence|done].
Qed.

Lemma sumZ_fmap_order {A} (f : A → Z) (le : A → A → Prop) `{!RelDecision le} l :
  sumZ (f <$> order_by le l) = sumZ (f <$> l).
Proof. apply sumZ_perm. by rewrite order_by_perm. Qed.

Lemma GetUnsent_run w :
  w_faults w = [] → GetUnsentDMARCResults w = (Ok (sql_unsent_dmarc (w_db w)), w).
Proof. intros Hf. unfold GetUnsentDMARCResults, sbind. by rewrite query_run. Qed.

Definition all_marked (domains : list string) (d : DB) : DB := foldl (λ d x, (sql_mark_sent x d).2) d domains.

Lemma MarkSent_run domains w :
  w_faults w = [] → MarkDMARCResultsSent domains w = (Ok tt, set_db (all_marked domains (w_db w)) w).
Proof.
  intros Hf. unfold MarkDMARCResultsSent. destruct domains as [|x0 xs0]; [by destruct w|].
  set (l := x0 :: xs0). clearbody l. set (loop := sfor _ _).
  assert (∀ l w, w_faults w = [] → sfor l (λ domain,
      let! r := stmt (sql_mark_sent domain) in
      match r with
      | Ok _ => sret None
      | Err err => sret (Some (wrap ("storage: mark dmarc results sent for " +:+ domain +:+ ": ") err))
      end) w = (None, set_db (all_marked l (w_db w)) w)) as Hl.
  { clear. induction l as [|x l IH]; intros w Hf; simpl; [by destruct w|].
    unfold sbind. rewrite stmt_ok_run by done. cbn [sql_mark_sent fst snd sret]. rewrite IH by done.
    by rewrite set_db_set_db. }
  rewrite withTx_run; unfold sbind, loop; rewrite ?Hl; done.
Qed.

Lemma all_marked_rows domains d r :
  r ∈ rows (dmarc_results (all_marked domains d)) → unsent r →
  r ∈ rows (dmarc_results d) ∧ dm_FromDomain r ∉ domains.
Proof.
  revert d. induction domains as [|x l IH]; intros d Hr Hu; [split; [done|by apply not_elem_of_nil]|].
  apply IH in Hr as [Hr Hn]; [|done]. cbn in Hr. apply list_elem_of_fmap in Hr as (r0 & -> & Hr0).
  case_decide as E; [done|]. split; [done|]. rewrite not_elem_of_cons. split; [|done].
  intros Ex. apply E. done.
Qed.

(** The aggregated DMARC rows account for every unreported result exactly
    once: their counts add up to the number of unsent rows, the passes and
    failures of SPF and of DKIM add up to each row's count; and after the
    domains that occur have been marked as sent, nothing is left to report. *)
Theorem dmarc_rows_account (w : World) :
  w_faults w = [] →
  let l := sql_unsent_dmarc (w_db w) in
  GetUnsentDMARCResults w = (Ok l, w) ∧
  sumZ (ag_Count <$> l) = Z.of_nat (length (select unsent (dmarc_results (w_db w)))) ∧
  (∀ a, a ∈ l → ag_SPFPass a + ag_SPFFail a = ag_Count a ∧ ag_DKIMPass a + ag_DKIMFail a = ag_Count a) ∧
  (∀ ds, (GetDMARCDomains w).1 = Ok ds →
     (GetUnsentDMARCResults (MarkDMARCResultsSent ds w).2).1 = Ok []).
Proof.
  intros Hf l. split_and!; [by apply GetUnsent_run| | |].
  - unfold l, sql_unsent_dmarc. rewrite sumZ_fmap_order, <- list_fmap_compose.
    apply (group_sizes dm_group); [apply NoDup_remove_dups|]. intros x Hx.
    apply elem_of_remove_dups. by apply list_elem_of_fmap_2.
  - intros a Ha. unfold l, sql_unsent_dmarc in Ha. rewrite order_by_perm in Ha.
    apply list_elem_of_fmap in Ha as (g & -> & _). unfold aggregate. cbn. split; apply sum_case_split.
  - intros ds. unfold GetDMARCDomains, sbind. rewrite query_run by done. intros [= <-].
    rewrite MarkSent_run, GetUnsent_run by done. cbn [fst snd]. f_equal. cbn [w_db set_db].
    unfold sql_unsent_dmarc. set (ds := remove_dups _). destruct (select unsent (dmarc_results (all_marked _ _))) as [|r rs] eqn:E; [done|].
    exfalso. assert (r ∈ select unsent (dmarc_results (all_marked ds (w_db w)))) as [Hu Hr]%elem_of_select by (rewrite E; left).
    destruct (all_marked_rows _ _ _ Hr Hu) as [Hr' Hn]. apply Hn, elem_of_remove_dups.
    by apply list_elem_of_fmap_2, elem_of_select.
Qed.

Lemma dmarc_rows_account_witness :
  let w := set_db (set_dmarc_results (mkTable
     [mkDMARCResult 1 "1.2.3.4" "x.org" "pass" "fail" "none" 5 false;
      mkDMARCResult 2 "1.2.3.4" "x.org" "fail" "fail" "none" 9 false;
      mkDMARCResult 3 "1.2.3.5" "y.org" "pass" "pass" "none" 9 true] 3) empty_db) (init_world 0) in
  GetUnsentDMARCResults w = (Ok [mkAggregated "1.2.3.4" "x.org" 1 1 0 2 "none" 2 9], w).
Proof. intros w. destruct (dmarc_rows_account w eq_refl) as [E _]. exact E. Defined.
