(* ===== verification/Search.v ===== *)
(** Full-text search (src/pkg/storage/search.go): the translation of what a user
    typed into an FTS5 query, and the two queries that use it.  The FTS5 engine
    is a parameter: it maps a query and the messages to the ranked matches. *)
From S2P Require Import Prelude GoLib Cache Sql Schema World StoreUsers StoreMail.

(** * Runes

    [for _, r := range q] decodes UTF-8; an invalid byte yields U+FFFD.
    [next_rune] is the encoding [WriteRune] gives back, with the width read. *)
Definition cont (b : Z) : bool := (128 <=? b) && (b <=? 191).
Definition replacement : string := String (chr 239) (String (chr 191) (String (chr 189) EmptyString)).

Definition next_rune (c0 : ascii) (rest : string) : string * nat :=
  let b0 := ord c0 in
  let invalid := (replacement, 1%nat) in
  if b0 <? 128 then (String c0 EmptyString, 1%nat)
  else match rest with
  | EmptyString => invalid
  | String c1 rest2 =>
      let b1 := ord c1 in
      if (194 <=? b0) && (b0 <=? 223) then
        if cont b1 then (String c0 (String c1 EmptyString), 2%nat) else invalid
      else match rest2 with
      | EmptyString => invalid
      | String c2 rest3 =>
          let b2 := ord c2 in
          if (224 <=? b0) && (b0 <=? 239) then
            let lo := if b0 =? 224 then 160 else 128 in
            let hi := if b0 =? 237 then 159 else 191 in
            if (lo <=? b1) && (b1 <=? hi) && cont b2
            then (String c0 (String c1 (String c2 EmptyString)), 3%nat) else invalid
          else match rest3 with
          | EmptyString => invalid
          | String c3 _ =>
              let lo := if b0 =? 240 then 144 else 128 in
              let hi := if b0 =? 244 then 143 else 191 in
              if (240 <=? b0) && (b0 <=? 244) && (lo <=? b1) && (b1 <=? hi) && cont b2 && cont (ord c3)
              then (String c0 (String c1 (String c2 (String c3 EmptyString))), 4%nat) else invalid
          end
      end
  end.

(** The runes of a string; [skip] bytes belong to the rune just read. *)
Fixpoint runes_aux (s : string) (skip : nat) : list string :=
  match s with
  | EmptyString => []
  | String c s' =>
      match skip with
      | S k => runes_aux s' k
      | O => let '(r, n) := next_rune c s' in r :: runes_aux s' (n - 1)
      end
  end.
Definition runes (s : string) : list string := runes_aux s 0.

(** * search.go *)
Definition dq : ascii := chr 34.
Definition dquote : string := String dq EmptyString.

Definition escapeFTS5Quotes (s : string) : string := strings.ReplaceChar s dq (dquote +:+ dquote).

(** The body of the loop: the terms found, the buffer, and [inQuote]. *)
Definition tokenize_step (st : list string * string * bool) (r : string) : list string * string * bool :=
  let '(terms, buf, inQuote) := st in
  if String.eqb r dquote then (terms, buf +:+ r, negb inQuote)
  else if String.eqb r " " && negb inQuote then
    if String.eqb buf EmptyString then (terms, buf, inQuote) else (terms ++ [buf], EmptyString, inQuote)
  else (terms, buf +:+ r, inQuote).

Definition tokenizeQuery (q : string) : list string :=
  let '(terms, buf, _) := foldl tokenize_step ([], EmptyString, false) (runes q) in
  if String.eqb buf EmptyString then terms else terms ++ [buf].

(** What a token stands for: a quoted phrase loses its outer quotes. *)
Definition token_text (tok : string) : string :=
  if strings.HasPrefix tok dquote && strings.HasSuffix tok dquote && (2 <=? slen tok)
  then stake (String.length tok - 2) (sdrop 1 tok)
  else tok.

Definition fts5Query (q : string) : string :=
  if String.eqb q EmptyString then q
  else strings.Join ((λ tok, dquote +:+ escapeFTS5Quotes (token_text tok) +:+ dquote) <$> tokenizeQuery q) " ".

Section search.
(** The rows the engine matches, in the order of their rank, or its error. *)
Context (fts5_match : string → list Message → res (list Message)).

Definition limited (limit : Z) (l : list Message) : list Message :=
  if 0 <? limit then take (Z.to_nat limit) l else l.

Definition SearchMessages (mailboxID : Z) (q : string) (limit : Z) : state World (res (list Message)) :=
  if String.eqb q EmptyString then sret (Ok []) else
  let! r := query (λ d, res_fmap (λ l, limited limit (filter (λ m, msg_MailboxID m = mailboxID) l))
              (fts5_match (fts5Query q) (rows (messages d)))) in
  match r with
  | Err err => sret (Err (wrap "storage: search messages: " err))
  | Ok l => sret (Ok l)
  end.

Definition SearchMessagesAll (q : string) (limit : Z) : state World (res (list Message)) :=
  if String.eqb q EmptyString then sret (Ok []) else
  let! r := query (λ d, res_fmap (limited limit) (fts5_match (fts5Query q) (rows (messages d)))) in
  match r with
  | Err err => sret (Err (wrap "storage: search all messages: " err))
  | Ok l => sret (Ok l)
  end.

Lemma SearchMessages_wf m q l : pres wf (SearchMessages m q l).
Proof. unfold SearchMessages. pres_walk. Qed.
Lemma SearchMessagesAll_wf q l : pres wf (SearchMessagesAll q l).
Proof. unfold SearchMessagesAll. pres_walk. Qed.
End search.
#[export] Hint Resolve SearchMessages_wf SearchMessagesAll_wf : pres.

(** * The FTS5 grammar of string terms

    A reader of FTS5 queries that consist of string literals only: a literal is
    enclosed in double quotes, a doubled quote inside stands for one quote, and
    literals are separated by spaces.  Anything else (a bareword, an operator,
    a column filter, an unterminated literal) is refused. *)
Fixpoint fts5_read (s : string) (lit : option string) : option (list string) :=
  match s, lit with
  | EmptyString, None => Some []
  | EmptyString, Some _ => None
  | String c s', None =>
      if Ascii.eqb c dq then fts5_read s' (Some EmptyString)
      else if Ascii.eqb c " " then fts5_read s' None else None
  | String c s', Some buf =>
      if Ascii.eqb c dq then
        match s' with
        | String c' s'' => if Ascii.eqb c' dq then fts5_read s'' (Some (buf +:+ dquote))
                           else cons buf <$> fts5_read s' None
        | EmptyString => Some [buf]
        end
      else fts5_read s' (Some (buf +:+ String c EmptyString))
  end.

Lemma fts5_read_literal t buf rest :
  strings.HasPrefix rest dquote = false →
  fts5_read (escapeFTS5Quotes t +:+ dquote +:+ rest) (Some buf) = cons (buf +:+ t) <$> fts5_read rest None.
Proof.
  intros Hr. revert buf. induction t as [|c t IH]; intros buf; rewrite ?string_app_nil_r.
  - change (escapeFTS5Quotes "" +:+ dquote +:+ rest) with (String dq rest). cbn [fts5_read].
    rewrite Ascii.eqb_refl. destruct rest as [|c' s'']; [done|].
    cbn [strings.HasPrefix dquote] in Hr. destruct (Ascii.eqb_spec dq c') as [|Hne]; [by destruct s''|].
    destruct (Ascii.eqb_spec c' dq) as [->|]; [done|]. done.
  - unfold escapeFTS5Quotes. cbn [strings.ReplaceChar]. fold (escapeFTS5Quotes t).
    destruct (Ascii.eqb_spec c dq) as [->|Hne].
    + change ((dquote +:+ dquote) +:+ escapeFTS5Quotes t) with (String dq (String dq (escapeFTS5Quotes t))).
      rewrite !string_app_cons. cbn [fts5_read]. rewrite !Ascii.eqb_refl, IH. by rewrite <- string_app_assoc.
    + rewrite string_app_cons. cbn [fts5_read]. destruct (Ascii.eqb_spec c dq); [done|].
      rewrite IH, <- string_app_assoc. done.
Qed.

Lemma fts5_read_terms (l : list string) :
  fts5_read (strings.Join ((λ t, dquote +:+ escapeFTS5Quotes t +:+ dquote) <$> l) " ") None = Some l.
Proof.
  induction l as [|t l IH]; [done|]. unfold strings.Join in *.
  cbn [list_fmap fmap]. set (rest := match l with [] => "" | _ => " " +:+ String.concat " " ((λ t, dquote +:+ escapeFTS5Quotes t +:+ dquote) <$> l) end).
  assert (String.concat " " ((dquote +:+ escapeFTS5Quotes t +:+ dquote) ::
      ((λ t, dquote +:+ escapeFTS5Quotes t +:+ dquote) <$> l)) =
      String dq (escapeFTS5Quotes t +:+ dquote +:+ rest)) as E.
  { unfold rest. destruct l as [|t2 l2]; cbn [list_fmap fmap String.concat].
    - by rewrite string_app_nil_r.
    - unfold dquote at 1. rewrite !string_app_cons. f_equal. simpl. rewrite <- !string_app_assoc. done. }
  transitivity (fts5_read (String dq (escapeFTS5Quotes t +:+ dquote +:+ rest)) None); [f_equal; exact E|].
  cbn [fts5_read]. rewrite Ascii.eqb_refl.
  assert (fts5_read rest None = Some l) as Hrest.
  { unfold rest. destruct l as [|t2 l2]; [done|]. rewrite string_app_cons. exact IH. }
  rewrite fts5_read_literal, Hrest; [done|]. unfold rest. by destruct l.
Qed.

(** C35.  Whatever a user types, the text handed to FTS5 is a sequence of string
    literals, one for each token of the query and with exactly that token's
    text: no operator, column filter or unbalanced quote can come from the
    input, and quotes inside a token survive. *)
Theorem fts5Query_only_literals (q : string) :
  fts5_read (fts5Query q) None = Some (token_text <$> tokenizeQuery q).
Proof.
  unfold fts5Query. destruct (String.eqb_spec q EmptyString) as [->|_]; [done|].
  rewrite <- fts5_read_terms. by rewrite <- list_fmap_compose.
Qed.
