(* ===== verification/Auth.v ===== *)
(** Authentication (src/pkg/auth/{auth,password,session}.go): password hashes in
    the PHC string format, the account manager, and API sessions.  Argon2id is a
    parameter; the random bytes a call draws are an argument ([None] when the
    system's source fails). *)
From S2P Require Import Prelude GoLib Dmarc Cache Sql Schema World StoreUsers StoreMail.

(** * [base64.RawStdEncoding] *)
Fixpoint raw_quads (data : list Z) : list ascii :=
  match data with
  | [] => []
  | [b0] => take 2 (quad b0 0 0 1)
  | [b0; b1] => take 3 (quad b0 b1 0 2)
  | b0 :: b1 :: b2 :: rest => quad b0 b1 b2 3 ++ raw_quads rest
  end.
Definition EncodeToString (data : list Z) : string := string_of_list_ascii (raw_quads data).

Fixpoint raw_decode (cs : list ascii) : option (list Z) :=
  match cs with
  | [] => Some []
  | [_] => None
  | [c0; c1] => v0 ← dec_char c0; v1 ← dec_char c1; Some (take 1 (dec_bytes v0 v1 0 0))
  | [c0; c1; c2] => v0 ← dec_char c0; v1 ← dec_char c1; v2 ← dec_char c2; Some (take 2 (dec_bytes v0 v1 v2 0))
  | c0 :: c1 :: c2 :: c3 :: rest =>
      v0 ← dec_char c0; v1 ← dec_char c1; v2 ← dec_char c2; v3 ← dec_char c3;
      tl ← raw_decode rest; Some (dec_bytes v0 v1 v2 v3 ++ tl)
  end.
(** Line breaks are skipped. *)
Definition DecodeString (s : string) : option (list Z) :=
  raw_decode (List.filter (λ c, negb (is_crlf c)) (list_ascii_of_string s)).

(** * [fmt.Sscanf] with literals and [%d] verbs *)
Definition blank (c : ascii) : bool := strings.is_space c && negb (Ascii.eqb c (chr 10)).
Fixpoint span_digits (s : string) : string * string :=
  match s with
  | String c s' => match strconv.digit c with
                   | Some _ => let '(ds, r) := span_digits s' in (String c ds, r)
                   | None => (EmptyString, s)
                   end
  | EmptyString => (EmptyString, EmptyString)
  end.
(** One [%d]: blanks, an optional sign, digits; the value and what is left. *)
Definition scan_d (s : string) : option (Z * string) :=
  let s := strings.TrimLeftFunc blank s in
  let '(sign, s) := match s with
    | String c s' => if Ascii.eqb c "-" then ("-", s') else if Ascii.eqb c "+" then ("+", s') else ("", s)
    | EmptyString => ("", s)
    end in
  let '(ds, rest) := span_digits s in
  if String.eqb ds EmptyString then None else
  v ← strconv.ParseInt (sign +:+ ds); Some (v, rest).
Definition scan_lit (lit s : string) : option string :=
  if strings.HasPrefix s lit then Some (sdrop (String.length lit) s) else None.

(** * password.go *)
Definition argonTime : Z := 1.
Definition argonMemory : Z := 64 * 1024.
Definition argonThreads : Z := 4.
Definition argonKeyLen : Z := 32.
Definition argonSaltLen : nat := 16.
Definition argon2_Version : Z := 19.

Definition ValidatePasswordStrength (password : string) : option error :=
  if slen password <? 8 then Some (ErrorNew "auth: password must be at least 8 characters") else None.

Section password.
(** [argon2.IDKey(password, salt, time, memory, threads, keyLen)] *)
Context (IDKey : string → list Z → Z → Z → Z → Z → list Z).

Definition HashPassword (password : string) (rand : option (list Z)) : res string :=
  match rand with
  | None => Err (wrap "auth: hash password: " (ErrorNew "rand"))
  | Some salt =>
      let hash := IDKey password salt argonTime argonMemory argonThreads argonKeyLen in
      Ok ("$argon2id$v=" +:+ strconv.Itoa argon2_Version +:+ "$m=" +:+ strconv.Itoa argonMemory +:+ ",t=" +:+
          strconv.Itoa argonTime +:+ ",p=" +:+ strconv.Itoa argonThreads +:+ "$" +:+ EncodeToString salt +:+
          "$" +:+ EncodeToString hash)
  end.

Definition VerifyPassword (password encodedHash : string) : res bool :=
  match strings.Split encodedHash "$" with
  | [_; alg; vers; params; salt64; hash64] =>
      if negb (String.eqb alg "argon2id") then Err (ErrorNew ("auth: unsupported algorithm: " +:+ alg)) else
      match (s ← scan_lit "v=" vers; scan_d s) with
      | None => Err (wrap "auth: parse version: " (ErrorNew "scan"))
      | Some _ =>
      match (s ← scan_lit "m=" params; '(memory, s) ← scan_d s; s ← scan_lit ",t=" s; '(time, s) ← scan_d s;
             s ← scan_lit ",p=" s; '(threads, _) ← scan_d s; Some (memory, time, threads)) with
      | None => Err (wrap "auth: parse params: " (ErrorNew "scan"))
      | Some (memory, time, threads) =>
      match DecodeString salt64 with
      | None => Err (wrap "auth: decode salt: " (ErrorNew "base64"))
      | Some salt =>
      match DecodeString hash64 with
      | None => Err (wrap "auth: decode hash: " (ErrorNew "base64"))
      | Some expectedHash =>
          let computedHash := IDKey password salt (uint32 time) (uint32 memory) (threads mod 2 ^ 8)
                                (uint32 (Z.of_nat (length expectedHash))) in
          Ok (bool_decide (expectedHash = computedHash))
      end end end end
  | _ => Err (ErrorNew "auth: invalid hash format")
  end.

(** * auth.go *)
Definition Authenticate `{MapRange} (username password : string) : state World (res Z) :=
  let! r := GetUserByEmail username in
  match r with
  | Err err =>
      if errors_is err ErrNotFound then sret (Err (Errorf "" (Sentinel ErrInvalidCredentials) ": user not found"))
      else sret (Err (wrap "auth: get user: " err))
  | Ok user =>
      if negb (user_IsActive user) then sret (Err (Errorf "" (Sentinel ErrUserInactive) (": " +:+ user_Email user)))
      else match VerifyPassword password (user_PasswordHash user) with
      | Err err => sret (Err (wrap "auth: verify password: " err))
      | Ok false => sret (Err (Errorf "" (Sentinel ErrInvalidCredentials) ": wrong password"))
      | Ok true => sret (Ok (user_ID user))
      end
  end.

Definition CreateAccount (email password : string) (isAdmin : bool) (rand : option (list Z))
    : state World (res Z) :=
  match ValidatePasswordStrength password with
  | Some err => sret (Err err)
  | None =>
      match HashPassword password rand with
      | Err err => sret (Err err)
      | Ok hash =>
          let! r := StoreUsers.CreateUser email hash isAdmin in
          match r with
          | Err err => sret (Err (wrap "auth: create user: " err))
          | Ok userID =>
              let! r := EnsureDefaultMailboxes userID in
              match r with
              | Err err => sret (Err (wrap "auth: create mailboxes: " err))
              | Ok _ => sret (Ok userID)
              end
          end
      end
  end.

(** * sasl.go *)

(** What the PLAIN server of the SASL library calls with the decoded credentials. *)
Definition SMTPAuth `{MapRange} (identity username password : string) : state World (res unit) :=
  let! r := Authenticate username password in
  match r with
  | Err err => sret (Err (wrap "smtp auth: " err))
  | Ok _ => sret (Ok tt)
  end.

(** [AuthAdapter]; the connection is not looked at. *)
Definition AuthAdapter `{MapRange} (username password : string) : state World (res Z) :=
  let! r := Authenticate username password in
  match r with
  | Err err => sret (Err err)
  | Ok userID => sret (Ok userID)
  end.

Lemma Authenticate_wf `{MapRange} u p : pres wf (Authenticate u p).
Proof. unfold Authenticate. pres_walk. Qed.
Lemma CreateAccount_wf e p a r : pres wf (CreateAccount e p a r).
Proof. unfold CreateAccount. pres_walk. Qed.
End password.
#[export] Hint Resolve Authenticate_wf CreateAccount_wf : pres.

(** * session.go *)
Definition hex_digit (v : Z) : ascii := if v <? 10 then chr (48 + v) else chr (87 + v).
Definition hex_encode (bs : list Z) : string :=
  string_of_list_ascii (concat ((λ b, [hex_digit (b / 16); hex_digit (b mod 16)]) <$> bs)).

Definition sql_insert_session (token : string) (userID expiresAt : Z) (d : DB) : res unit * DB :=
  if decide (token ∈ sess_token <$> rows (sessions d)) then (Err (pk_violation "sessions.token"), d)
  else if decide (userID ∈ user_ids d)
  then (Ok tt, set_sessions (insert_row (λ _, mkSessionRow token userID expiresAt) (sessions d)) d)
  else (Err fk_violation, d).

(** [expiry] is a [time.Duration] in nanoseconds, [rand] the 32 random bytes. *)
Definition CreateSession (userID expiry : Z) (rand : option (list Z)) : state World (res string) :=
  match rand with
  | None => sret (Err (wrap "auth: create session: " (ErrorNew "rand")))
  | Some tokenBytes =>
      let token := hex_encode tokenBytes in
      let! now := time_now in
      let expiresAt := (now + expiry) / second in
      let! r := stmt (sql_insert_session token userID expiresAt) in
      match r with
      | Err err => sret (Err (wrap "auth: insert session: " err))
      | Ok _ => sret (Ok token)
      end
  end.

Definition sessionCache_Get (token : string) : state World (option Z) := λ w,
  let '(r, c) := Get (w_sessCache w) (w_now w) token in (r, set_sessCache c w).
Definition sessionCache_Delete (token : string) : state World unit :=
  smodify (λ w, set_sessCache (Delete (w_sessCache w) token) w).
Definition sessionCache_Set `{MapRange} (token : string) (userID : Z) : state World unit :=
  smodify (λ w, set_sessCache (Set_ (w_sessCache w) (w_now w) token userID) w).

Definition sql_delete_session (token : string) (d : DB) : res unit * DB :=
  (Ok tt, set_sessions (delete_rows (λ s, sess_token s = token) (sessions d)) d).

Definition ValidateSession `{MapRange} (token : string) : state World (res Z) :=
  let! hit := sessionCache_Get token in
  match hit with
  | Some userID => sret (Ok userID)
  | None =>
      let! r := query (λ d, query_row (select (λ s, sess_token s = token) (sessions d))) in
      match r with
      | Err (Sentinel ErrNoRows) => sret (Err (ErrorNew "auth: invalid session"))
      | Err err => sret (Err (wrap "auth: validate session: " err))
      | Ok s =>
          let! now := time_now_unix in
          if sess_expires_at s <? now then
            do! sessionCache_Delete token in
            do! stmt (sql_delete_session token) in
            sret (Err (ErrorNew "auth: session expired"))
          else
            do! sessionCache_Set token (sess_user_id s) in
            sret (Ok (sess_user_id s))
      end
  end.

Definition RevokeSession (token : string) : state World (res unit) :=
  do! sessionCache_Delete token in
  let! r := stmt (sql_delete_session token) in
  match r with
  | Err err => sret (Err (wrap "auth: revoke session: " err))
  | Ok _ => sret (Ok tt)
  end.

(** ** Well-formedness *)
Lemma sql_insert_session_ok t u e : stmt_ok (sql_insert_session t u e).
Proof.
  intros d H. unfold sql_insert_session. case_decide; [done|]. case_decide; [|done]. stmt_wf H.
  by apply Forall_insert_row.
Qed.
Lemma sql_delete_session_ok t : stmt_ok (sql_delete_session t).
Proof. intros d H. unfold sql_delete_session. stmt_wf H. by apply Forall_delete_rows. Qed.
#[export] Hint Resolve sql_insert_session_ok sql_delete_session_ok : stmts.

Lemma sessionCache_Get_wf t : pres wf (sessionCache_Get t).
Proof. intros w Hw. unfold sessionCache_Get. by destruct (Get _ _ _). Qed.
Lemma sessionCache_Delete_wf t : pres wf (sessionCache_Delete t).
Proof. unfold sessionCache_Delete. pres_walk. Qed.
Lemma sessionCache_Set_wf `{MapRange} t u : pres wf (sessionCache_Set t u).
Proof. unfold sessionCache_Set. pres_walk. Qed.
#[export] Hint Resolve sessionCache_Get_wf sessionCache_Delete_wf sessionCache_Set_wf : pres.
Lemma on_db_sessCache P t : pres (on_db P) (sessionCache_Get t).
Proof. apply on_db_get. intros w. unfold sessionCache_Get. by destruct (Get _ _ _). Qed.
#[export] Hint Resolve on_db_sessCache : pres.

Lemma CreateSession_wf u e r : pres wf (CreateSession u e r).
Proof. unfold CreateSession. pres_walk. Qed.
Lemma ValidateSession_wf `{MapRange} t : pres wf (ValidateSession t).
Proof. unfold ValidateSession. pres_walk. Qed.
Lemma RevokeSession_wf t : pres wf (RevokeSession t).
Proof. unfold RevokeSession. pres_walk. Qed.
#[export] Hint Resolve CreateSession_wf ValidateSession_wf RevokeSession_wf : pres.

(** Reading an account leaves every table alone. *)
Lemma on_db_Authenticate `{MapRange} IDKey P u p : pres (on_db P) (Authenticate IDKey u p).
Proof. unfold Authenticate, GetUserByEmail. pres_walk. Qed.
Lemma on_db_GetMailbox `{MapRange} P u n : pres (on_db P) (GetMailbox u n).
Proof. unfold GetMailbox. pres_walk. Qed.
#[export] Hint Resolve on_db_Authenticate on_db_GetMailbox : pres.

(** * Base64 and PHC strings *)
Lemma enc_char_no_dollar v : 0 ≤ v < 64 → enc_char v ≠ "$"%char.
Proof.
  intros Hv. assert (forallb (λ v, bool_decide (enc_char v ≠ "$"%char)) (List.map Z.of_nat (seq 0 64)) = true) as H
    by (vm_compute; reflexivity).
  rewrite forallb_forall in H. apply (bool_decide_eq_true_1 _), H, in_map_iff.
  exists (Z.to_nat v). rewrite in_seq. lia.
Qed.

(** A character of the base64 alphabet: no line break, no separator. *)
Definition phc_char (c : ascii) : Prop := is_crlf c = false ∧ c ≠ "$"%char.

Lemma enc_phc v : 0 ≤ v < 64 → phc_char (enc_char v).
Proof. intros Hv. split; [by apply enc_char_spec|by apply enc_char_no_dollar]. Qed.

Lemma raw_quads_spec data :
  Forall is_byte data → raw_decode (raw_quads data) = Some data ∧ Forall phc_char (raw_quads data).
Proof.
  assert (is_byte 0) as H0 by (unfold is_byte; lia).
  induction data as [|a|a b|a b c l IH] using list_ind3; intros Hd; [by split|..];
    rewrite ?Forall_cons in Hd; cbn [raw_quads].
  - destruct Hd as [Ha _]. rewrite quad_alt by done. destruct (sextets a 0 0) as [(H1 & H2 & _) E]; try done.
    change (0 mod 16 * 4 + 0 / 64) with 0 in E. change (0 mod 64) with 0 in E.
    cbn [take raw_decode]. destruct (enc_char_spec _ H1) as (-> & _), (enc_char_spec _ H2) as (-> & _).
    split; [cbn -[dec_bytes Z.div Z.modulo]; by rewrite E|]. repeat constructor; apply enc_phc; done.
  - destruct Hd as (Ha & Hb & _). rewrite quad_alt by done. destruct (sextets a b 0) as [(H1 & H2 & H3 & _) E]; try done.
    change (0 mod 64) with 0 in E. change (2 <? 2) with false. change (2 <? 3) with true.
    cbn [take raw_decode]. destruct (enc_char_spec _ H1) as (-> & _), (enc_char_spec _ H2) as (-> & _),
      (enc_char_spec _ H3) as (-> & _).
    split; [cbn -[dec_bytes Z.div Z.modulo]; by rewrite E|]. repeat constructor; apply enc_phc; done.
  - destruct Hd as (Ha & Hb & Hc & Hl). rewrite quad_alt by done.
    destruct (sextets a b c) as [(H1 & H2 & H3 & H4) E]; try done. destruct (IH Hl) as [Ed Hp].
    change (3 <? 2) with false. change (3 <? 3) with false. cbn [app raw_decode].
    destruct (enc_char_spec _ H1) as (-> & _), (enc_char_spec _ H2) as (-> & _),
      (enc_char_spec _ H3) as (-> & _), (enc_char_spec _ H4) as (-> & _).
    split; [cbn -[dec_bytes Z.div Z.modulo raw_decode]; rewrite Ed; cbn -[dec_bytes Z.div Z.modulo]; by rewrite E|].
    repeat (constructor; [apply enc_phc; done|]). done.
Qed.

Lemma filter_all {A} (f : A → bool) l : Forall (λ x, f x = true) l → List.filter f l = l.
Proof. induction 1 as [|x l E _ IH]; simpl; [done|]. by rewrite E, IH. Qed.

Lemma DecodeString_Encode data : Forall is_byte data → DecodeString (EncodeToString data) = Some data.
Proof.
  intros Hd. destruct (raw_quads_spec data Hd) as [E Hp]. unfold DecodeString, EncodeToString.
  rewrite list_ascii_of_string_of_list_ascii, filter_all; [done|].
  eapply Forall_impl; [exact Hp|]. intros c [Hc _]. by rewrite Hc.
Qed.

Lemma Split_app sep s t :
  Forall (λ c, c ≠ sep) (list_ascii_of_string s) →
  strings.Split (s +:+ String sep t) sep = s :: strings.Split t sep.
Proof.
  induction s as [|c s IH]; cbn [list_ascii_of_string]; intros Hs.
  - change ("" +:+ String sep t) with (String sep t). cbn. by rewrite Ascii.eqb_refl.
  - apply Forall_cons in Hs as [Hc Hs]. rewrite string_app_cons. cbn [strings.Split].
    destruct (Ascii.eqb_spec c sep); [done|]. by rewrite (IH Hs).
Qed.

Lemma Split_none sep s :
  Forall (λ c, c ≠ sep) (list_ascii_of_string s) → strings.Split s sep = [s].
Proof.
  induction s as [|c s IH]; [done|]. cbn [list_ascii_of_string strings.Split]. intros [Hc Hs]%Forall_cons.
  destruct (Ascii.eqb_spec c sep); [done|]. by rewrite (IH Hs).
Qed.

Lemma Encode_no_dollar data :
  Forall is_byte data → Forall (λ c, c ≠ "$"%char) (list_ascii_of_string (EncodeToString data)).
Proof.
  intros Hd. unfold EncodeToString. rewrite list_ascii_of_string_of_list_ascii.
  eapply Forall_impl; [apply raw_quads_spec, Hd|]. by intros c [].
Qed.

Section hashes.
Context (IDKey : string → list Z → Z → Z → Z → Z → list Z).
(** What golang.org/x/crypto/argon2 documents: the key is [keyLen] bytes. *)
Context (IDKey_bytes : ∀ p s t m th n, Forall is_byte (IDKey p s t m th n)).
Context (IDKey_len : ∀ p s t m th n, 0 ≤ n → Z.of_nat (length (IDKey p s t m th n)) = n).

(** The key [HashPassword] derives from a password and a salt. *)
Definition derived (password : string) (salt : list Z) : list Z :=
  IDKey password salt argonTime argonMemory argonThreads argonKeyLen.

Lemma VerifyPassword_hash password salt h pw :
  Forall is_byte salt → HashPassword IDKey password (Some salt) = Ok h →
  VerifyPassword IDKey pw h = Ok (bool_decide (derived password salt = derived pw salt)).
Proof using IDKey_bytes IDKey_len.
  intros Hs. unfold HashPassword. fold (derived password salt). intros [= <-].
  assert (Forall is_byte (derived password salt)) as Hb by apply IDKey_bytes.
  assert (Z.of_nat (length (derived password salt)) = 32) as Hl by by apply IDKey_len.
  set (s64 := EncodeToString salt). set (h64 := EncodeToString (derived password salt)).
  change ("$argon2id$v=" +:+ _) with
    ("" +:+ String "$" ("argon2id" +:+ String "$" ("v=19" +:+ String "$"
       ("m=65536,t=1,p=4" +:+ String "$" (s64 +:+ String "$" h64))))).
  unfold VerifyPassword. rewrite !Split_app, Split_none;
    [|by apply Encode_no_dollar|by apply Encode_no_dollar|repeat constructor; done..].
  unfold s64, h64. rewrite !DecodeString_Encode by done. rewrite Hl. reflexivity.
Qed.
End hashes.

(** C28.  Password hashes: what [HashPassword] produces is a PHC string that
    [VerifyPassword] parses back to the same salt, parameters and key, so a
    password is accepted exactly when Argon2id derives the same key from it;
    the password itself always is. *)
Theorem password_roundtrip (IDKey : string → list Z → Z → Z → Z → Z → list Z)
    (password pw h : string) (salt : list Z) :
  (∀ p s t m th n, Forall is_byte (IDKey p s t m th n)) →
  (∀ p s t m th n, 0 ≤ n → Z.of_nat (length (IDKey p s t m th n)) = n) →
  Forall is_byte salt →
  HashPassword IDKey password (Some salt) = Ok h →
  VerifyPassword IDKey pw h =
    Ok (bool_decide (IDKey password salt argonTime argonMemory argonThreads argonKeyLen =
                     IDKey pw salt argonTime argonMemory argonThreads argonKeyLen)) ∧
  VerifyPassword IDKey password h = Ok true.
Proof.
  intros Hb Hl Hs Hh. split; [exact (VerifyPassword_hash IDKey Hb Hl _ _ _ pw Hs Hh)|].
  rewrite (VerifyPassword_hash IDKey Hb Hl _ _ _ password Hs Hh). by rewrite bool_decide_eq_true_2.
Qed.

(** A toy key derivation with the documented shape: the password, cut or padded. *)
Definition toy_key (p : string) (s : list Z) (t m th n : Z) : list Z :=
  take (Z.to_nat n) (((λ c, ord c) <$> list_ascii_of_string p) ++ replicate (Z.to_nat n) 0).

Lemma ord_byte c : is_byte (ord c).
Proof.
  unfold is_byte, ord. pose proof (N_ascii_bounded c). lia.
Qed.

Lemma toy_key_bytes p s t m th n : Forall is_byte (toy_key p s t m th n).
Proof.
  apply Forall_take, Forall_app. split.
  - apply Forall_fmap, Forall_forall. intros c _. apply ord_byte.
  - apply Forall_replicate. unfold is_byte. lia.
Qed.
Lemma toy_key_len p s t m th n : 0 ≤ n → Z.of_nat (length (toy_key p s t m th n)) = n.
Proof. intros Hn. unfold toy_key. rewrite length_take, length_app, length_replicate. lia. Qed.

Lemma password_roundtrip_witness :
  ∃ h, HashPassword toy_key "correct horse" (Some [1; 2; 255]) = Ok h ∧
       VerifyPassword toy_key "correct horse" h = Ok true ∧ VerifyPassword toy_key "wrong" h = Ok false.
Proof.
  assert (Forall is_byte [1; 2; 255]) as Hs by (unfold is_byte; repeat constructor; lia).
  eexists. split; [reflexivity|].
  destruct (password_roundtrip toy_key "correct horse" "wrong" _ [1; 2; 255] toy_key_bytes toy_key_len Hs eq_refl) as [E1 E2].
  split; [exact E2|exact E1].
Defined.

(** * Accounts *)
(** What the rest of the process sees unchanged by mailbox creation. *)
Record same_accounts (w w' : World) : Prop := mk_same_accounts {
  sa_users : users (w_db w') = users (w_db w);
  sa_cache : w_userCache w' = w_userCache w;
  sa_now : w_now w' = w_now w;
  sa_faults : w_faults w' = [];
}.

Lemma CreateMailbox_fresh u n w :
  w_faults w = [] → (u, n) ∉ mbox_key <$> rows (mailboxes (w_db w)) → u ∈ user_ids (w_db w) →
  ∃ id w', CreateMailbox u n w = (Ok id, w') ∧ same_accounts w w' ∧
    mbox_key <$> rows (mailboxes (w_db w')) = (mbox_key <$> rows (mailboxes (w_db w))) ++ [(u, n)].
Proof.
  intros Hf Hk Hu. unfold CreateMailbox, sbind. rewrite stmt_ok_run by done.
  unfold sql_insert_mailbox. rewrite decide_False by done. rewrite decide_True by done.
  eexists _, _. split; [reflexivity|]. split; [by constructor|]. cbn. by rewrite fmap_app.
Qed.

Lemma ensure_loop u names w :
  w_faults w = [] → u ∈ user_ids (w_db w) → NoDup names →
  (∀ n, n ∈ names → (u, n) ∉ mbox_key <$> rows (mailboxes (w_db w))) →
  ∃ w', sfor names (λ name,
      let! r := CreateMailbox u name in
      match r with
      | Err err => if errors_is err ErrAlreadyExists then sret None
                   else sret (Some (wrap ("storage: create mailbox " +:+ name +:+ ": ") err))
      | Ok _ => sret None
      end) w = (None, w') ∧ same_accounts w w' ∧
    mbox_key <$> rows (mailboxes (w_db w')) =
      (mbox_key <$> rows (mailboxes (w_db w))) ++ ((λ n, (u, n)) <$> names).
Proof.
  intros Hf Hu Hnd. revert w Hf Hu. induction Hnd as [|n names Hn Hnd IH]; intros w Hf Hu Hk.
  - exists w. split; [done|]. split; [by constructor|]. by rewrite app_nil_r.
  - destruct (CreateMailbox_fresh u n w Hf (Hk n ltac:(left)) Hu) as (id & w1 & E1 & S1 & K1).
    destruct (IH w1) as (w2 & E2 & S2 & K2).
    + apply S1.
    + unfold user_ids. by rewrite (sa_users _ _ S1).
    + intros n' Hn'. rewrite K1, elem_of_app, list_elem_of_singleton. intros [Hin|[= ->]]; [|done].
      by apply (Hk n'); [right|].
    + exists w2. split; [|split].
      * cbn [sfor]. unfold sbind at 1 2. rewrite E1. cbn. exact E2.
      * destruct S1, S2. constructor; congruence.
      * rewrite K2, K1, <- app_assoc. done.
Qed.

Lemma GetUserByEmail_miss `{MapRange} email w u :
  wf w → w_faults w = [] → entries (w_userCache w) !! email = None →
  u ∈ rows (users (w_db w)) → user_Email u = email → (GetUserByEmail email w).1 = Ok u.
Proof.
  intros Hw Hf Hc Hu <-. unfold GetUserByEmail, sbind, userByEmailCache_Get, Get, Get_read. rewrite Hc.
  rewrite query_run by done. cbn [w_db set_userCache].
  rewrite (select_unique user_Email _ _ u); [done|apply Hw|done|done].
Qed.

Section accounts.
Context (IDKey : string → list Z → Z → Z → Z → Z → list Z) `{MapRange}.

Lemma Authenticate_user email pw w u :
  (GetUserByEmail email w).1 = Ok u →
  (Authenticate IDKey email pw w).1 =
    if negb (user_IsActive u) then Err (Errorf "" (Sentinel ErrUserInactive) (": " +:+ user_Email u))
    else match VerifyPassword IDKey pw (user_PasswordHash u) with
         | Err err => Err (wrap "auth: verify password: " err)
         | Ok false => Err (Errorf "" (Sentinel ErrInvalidCredentials) ": wrong password")
         | Ok true => Ok (user_ID u)
         end.
Proof.
  intros E. unfold Authenticate, sbind. destruct (GetUserByEmail email w) as [r w']. simpl in E. subst r.
  by repeat case_match.
Qed.

Lemma CreateAccount_run email pw adm salt w :
  wf w → w_faults w = [] → 8 ≤ slen pw → email ∉ user_Email <$> rows (users (w_db w)) →
  ∃ id h w', CreateAccount IDKey email pw adm (Some salt) w = (Ok id, w') ∧
    HashPassword IDKey pw (Some salt) = Ok h ∧
    id = seq_ (users (w_db w)) + 1 ∧
    rows (users (w_db w')) = rows (users (w_db w)) ++ [mkUser id email h adm (w_now w / second) true] ∧
    entries (w_userCache w') !! email = None ∧ w_faults w' = [] ∧
    mbox_key <$> rows (mailboxes (w_db w')) =
      (mbox_key <$> rows (mailboxes (w_db w))) ++ ((λ n, (id, n)) <$> DefaultMailboxes).
Proof.
  intros Hw Hf Hl He. unfold CreateAccount, ValidatePasswordStrength.
  destruct (Z.ltb_spec (slen pw) 8); [lia|]. destruct (HashPassword IDKey pw (Some salt)) as [h|] eqn:Eh; [|done].
  unfold sbind at 1. unfold StoreUsers.CreateUser, sbind at 1, time_now_unix. unfold sbind at 1.
  rewrite stmt_ok_run by done. unfold sql_insert_user. rewrite decide_False by done. cbn [fst snd sbind smodify sret].
  set (id := seq_ (insert_row _ _)).
  set (w1 := set_userCache _ _). destruct (wf_db _ Hw).
  destruct (ensure_loop id DefaultMailboxes w1) as (w2 & E2 & S2 & K2).
  - done.
  - unfold user_ids. cbn. rewrite fmap_app, elem_of_app. right. left.
  - by apply (bool_decide_unpack _).
  - intros n _ Hin. apply list_elem_of_fmap in Hin as (m & Em & Hm). injection Em as Em _.
    cbn in Hm. unfold references in wf_mbox_fk. rewrite Forall_forall in wf_mbox_fk.
    apply wf_mbox_fk in Hm. rewrite <- Em in Hm. apply list_elem_of_fmap in Hm as (u & Eu & Hu).
    destruct wf_users as [_ Hseq]. rewrite Forall_forall in Hseq. specialize (Hseq u Hu). unfold id in Eu. simpl in Eu. lia.
  - exists id, h, w2. unfold EnsureDefaultMailboxes, sbind at 1 2. rewrite E2. split_and!; try done.
    + by rewrite (sa_users _ _ S2).
    + rewrite (sa_cache _ _ S2). cbn. apply lookup_delete_eq.
    + apply S2.
Qed.
End accounts.

(** C17.  Creating an account makes it usable: on a well-formed database, for a new
    address and a password of at least eight bytes, [CreateUser] of the auth
    manager succeeds with a fresh ID, provisions the five default mailboxes, and
    from then on [Authenticate] accepts for that address exactly the passwords
    from which Argon2id derives the same key. *)
Theorem create_then_authenticate `{MapRange} (IDKey : string → list Z → Z → Z → Z → Z → list Z)
    (email pw : string) (adm : bool) (salt : list Z) (w : World) :
  (∀ p s t m th n, Forall is_byte (IDKey p s t m th n)) →
  (∀ p s t m th n, 0 ≤ n → Z.of_nat (length (IDKey p s t m th n)) = n) →
  Forall is_byte salt → wf w → w_faults w = [] →
  8 ≤ slen pw → email ∉ user_Email <$> rows (users (w_db w)) →
  ∃ id w', CreateAccount IDKey email pw adm (Some salt) w = (Ok id, w') ∧
    id ∉ user_ids (w_db w) ∧
    (∀ n, n ∈ DefaultMailboxes → (id, n) ∈ mbox_key <$> rows (mailboxes (w_db w'))) ∧
    (∀ pw', (Authenticate IDKey email pw' w').1 = Ok id ↔ derived IDKey pw salt = derived IDKey pw' salt).
Proof.
  intros Hb Hkl Hs Hw Hf Hl He.
  destruct (CreateAccount_run IDKey email pw adm salt w Hw Hf Hl He) as (id & h & w' & E & Eh & Eid & Eu & Ec & Ef & Ek).
  exists id, w'. split; [done|]. split; [|split].
  - intros (u & Ei & Hu)%list_elem_of_fmap. destruct (wf_users _ Hw) as [_ Hseq].
    rewrite Forall_forall in Hseq. specialize (Hseq u Hu). lia.
  - intros n Hn. rewrite Ek. apply elem_of_app. right. by apply list_elem_of_fmap_2.
  - intros pw'. assert (wf w') as Hw' by (pose proof (CreateAccount_wf IDKey email pw adm (Some salt) w Hw) as X; by rewrite E in X).
    assert ((GetUserByEmail email w').1 = Ok (mkUser id email h adm (w_now w / second) true)) as Eg.
    { apply GetUserByEmail_miss; try done. rewrite Eu. apply elem_of_app. right. left. }
    rewrite (Authenticate_user IDKey email pw' w' _ Eg). cbn [user_IsActive negb user_PasswordHash user_ID].
    rewrite (VerifyPassword_hash IDKey Hb Hkl pw salt h pw' Hs Eh). case_bool_decide; naive_solver.
Qed.

Lemma create_then_authenticate_witness :
  ∃ id w', CreateAccount toy_key "new@example.com" "correct horse" false (Some [7; 8; 9]) demo_world = (Ok id, w') ∧
    (Authenticate toy_key "new@example.com" "correct horse" w').1 = Ok id.
Proof.
  destruct (create_then_authenticate toy_key "new@example.com" "correct horse" false [7; 8; 9] demo_world
    toy_key_bytes toy_key_len) as (id & w' & E & _ & _ & Ha).
  - unfold is_byte. repeat constructor; lia.
  - apply demo_wf.
  - reflexivity.
  - vm_compute. discriminate.
  - apply (bool_decide_unpack _). vm_compute. exact I.
  - exists id, w'. split; [exact E|]. apply Ha. reflexivity.
Defined.

(** ** Cached credentials *)
Lemma stmt_frame {A} (f : DB → res A * DB) w :
  w_userCache (stmt f w).2 = w_userCache w ∧ w_now (stmt f w).2 = w_now w ∧ w_sessCache (stmt f w).2 = w_sessCache w.
Proof. unfold stmt. by repeat case_match. Qed.

Lemma UpdateUser_frame i e h a m w :
  w_userCache (UpdateUser i e h a m w).2 = w_userCache w ∧ w_now (UpdateUser i e h a m w).2 = w_now w.
Proof.
  pose proof (stmt_frame (sql_update_user i e h a m) w) as (E1 & E2 & _). unfold UpdateUser, sbind.
  destruct e, h, a, m; try done; destruct (stmt _ w) as [[n|err] w']; simpl in *; repeat case_match; done.
Qed.

Lemma DeleteUser_frame i w :
  w_userCache (DeleteUser i w).2 = w_userCache w ∧ w_now (DeleteUser i w).2 = w_now w.
Proof.
  unfold DeleteUser, sbind. pose proof (stmt_frame (sql_delete_user i) w) as (E1 & E2 & _).
  destruct (stmt _ w) as [[n|err] w']; simpl in *; repeat case_match; done.
Qed.

Lemma Authenticate_cached `{MapRange} IDKey email pw w e :
  entries (w_userCache w) !! email = Some e → expired (w_userCache w) (w_now w) e = false →
  (Authenticate IDKey email pw w).1 =
    if negb (user_IsActive (val e)) then Err (Errorf "" (Sentinel ErrUserInactive) (": " +:+ user_Email (val e)))
    else match VerifyPassword IDKey pw (user_PasswordHash (val e)) with
         | Err err => Err (wrap "auth: verify password: " err)
         | Ok false => Err (Errorf "" (Sentinel ErrInvalidCredentials) ": wrong password")
         | Ok true => Ok (user_ID (val e))
         end.
Proof.
  intros He Hx. apply Authenticate_user. unfold GetUserByEmail, sbind, userByEmailCache_Get, Get, Get_read.
  by rewrite He, Hx.
Qed.

(** [UpdateUser] and [DeleteUser] leave the user cache alone: while an
    address is cached (30 seconds from the lookup), authentication decides on the
    cached row, so a deactivated or deleted account still gets in, and an old
    password is still accepted. *)
Theorem stale_credentials `{MR : MapRange} IDKey (email pw : string) (e : entry User) (id : Z)
    (em h : option string) (act adm : option bool) (d : Z) (w : World) :
  entries (w_userCache w) !! email = Some e →
  0 ≤ d → expired (w_userCache w) (w_now w + d) e = false →
  let later w' := set_now (w_now w' + d) w' in
  (Authenticate IDKey email pw (later (UpdateUser id em h act adm w).2)).1 = (Authenticate IDKey email pw w).1 ∧
  (Authenticate IDKey email pw (later (DeleteUser id w).2)).1 = (Authenticate IDKey email pw w).1.
Proof.
  intros He Hd Hx later.
  assert (expired (w_userCache w) (w_now w) e = false) as Hx0.
  { unfold expired in *. destruct (0 <? ttl (w_userCache w)); [|done]. cbn [andb] in *.
    rewrite Z.ltb_ge in *. lia. }
  rewrite (Authenticate_cached IDKey email pw w e He Hx0).
  pose proof (UpdateUser_frame id em h act adm w) as [E1 E2]. pose proof (DeleteUser_frame id w) as [E3 E4].
  split; apply Authenticate_cached; cbn [w_userCache w_now set_now later]; congruence.
Qed.

Definition cached_world : World :=
  let w := (CreateAccount toy_key "eve@example.com" "hunter2hunter2" false (Some [7; 8; 9]) demo_world).2 in
  (Authenticate toy_key "eve@example.com" "hunter2hunter2" w).2.

Definition cached_entry : entry User :=
  default (mkEntry (mkUser 0 "" "" false 0 false) 0) (entries (w_userCache cached_world) !! "eve@example.com").

Lemma stale_credentials_witness :
  let deactivated := (UpdateUser 2 None None (Some false) None cached_world).2 in
  res_fmap user_IsActive (GetUserByID 2 deactivated).1 = Ok false ∧
  (Authenticate toy_key "eve@example.com" "hunter2hunter2"
     (set_now (w_now deactivated + 30 * second) deactivated)).1 = Ok 2.
Proof.
  intros deactivated. split; [vm_compute; reflexivity|].
  destruct (stale_credentials toy_key "eve@example.com" "hunter2hunter2" cached_entry 2 None None (Some false) None
    (30 * second) cached_world) as [Ha _].
  - vm_compute. reflexivity.
  - vm_compute. discriminate.
  - vm_compute. reflexivity.
  - etransitivity; [exact Ha|vm_compute; reflexivity].
Defined.
