(* ===== verification/Sessions.v ===== *)
(** API sessions (src/pkg/auth/session.go) as calls that run at the same time.
    The session cache is one object of the process; [ValidateSession] and
    [RevokeSession] take its lock and talk to the database in separate steps, and in
    between other calls and the rest of the process go on.  [Auth.ValidateSession]
    and [Auth.RevokeSession] are these programs run alone. *)
From S2P Require Import Prelude Proc GoLib Cache Sql Schema World StoreUsers StoreMail Auth.

(** * The programs *)
Section programs.
Context `{MR : MapRange}.

(** [sessionCache.Set(token, userID); return userID, nil] *)
Definition remember (token : string) (s : SessionRow) : proc World (res Z) :=
  do* act (sessionCache_Set token (sess_user_id s)) in Done (Ok (sess_user_id s)).

(** The branch of an expired row. *)
Definition clean_up (token : string) : proc World (res Z) :=
  do* act (sessionCache_Delete token) in
  do* act (stmt (sql_delete_session token)) in
  Done (Err (ErrorNew "auth: session expired")).

Definition check_row (token : string) (s : SessionRow) : proc World (res Z) :=
  let* now := act time_now_unix in
  if sess_expires_at s <? now then clean_up token else remember token s.

(** After a miss in the cache. *)
Definition validate_miss (token : string) : proc World (res Z) :=
  let* r := act (query (λ d, query_row (select (λ s, sess_token s = token) (sessions d)))) in
  match r with
  | Err (Sentinel ErrNoRows) => Done (Err (ErrorNew "auth: invalid session"))
  | Err err => Done (Err (wrap "auth: validate session: " err))
  | Ok s => check_row token s
  end.

(** The second critical section of [sessionCache.Get]. *)
Definition evict_entry (token : string) : proc World (res Z) :=
  do* act (smodify (λ w, set_sessCache (Get_evict (w_sessCache w) (w_now w) token) w)) in validate_miss token.

(** The entry the first one found is looked at after its lock is released. *)
Definition check_entry (token : string) (e : entry Z) : proc World (res Z) :=
  let* stale := act (λ w, (expired (w_sessCache w) (w_now w) e, w)) in
  if stale : bool then evict_entry token else Done (Ok (val e)).

Definition ValidateSession_proc (token : string) : proc World (res Z) :=
  let* e := act (λ w, (entries (w_sessCache w) !! token, w)) in
  match e with
  | Some e => check_entry token e
  | None => validate_miss token
  end.

Definition RevokeSession_proc (token : string) : proc World (res unit) :=
  do* act (sessionCache_Delete token) in
  let* r := act (stmt (sql_delete_session token)) in
  match r with
  | Err err => Done (Err (wrap "auth: revoke session: " err))
  | Ok _ => Done (Ok tt)
  end.

(** Run alone they are the operations of Auth. *)
Lemma validate_miss_exec token w :
  exec (validate_miss token) w =
  let '(r, w') := (let! r := query (λ d, query_row (select (λ s, sess_token s = token) (sessions d))) in
      match r with
      | Err (Sentinel ErrNoRows) => sret (Err (ErrorNew "auth: invalid session"))
      | Err err => sret (Err (wrap "auth: validate session: " err))
      | Ok s =>
          let! now := time_now_unix in
          if sess_expires_at s <? now then
            do! sessionCache_Delete token in
            do! stmt (sql_delete_session token) in
            sret (Err (ErrorNew "auth: session expired"))
          else
            do! sessionCache_Set token (sess_user_id s) in
            sret (Ok (sess_user_id s))
      end) w in (Returns r, w').
Proof using.
  unfold validate_miss. rewrite exec_act. unfold sbind at 1 2. destruct (query _ w) as [[s|err] w1].
  - unfold check_row. rewrite exec_act. unfold sbind at 1 2, time_now_unix. destruct (_ <? _).
    + unfold clean_up. rewrite exec_act. unfold sbind at 1 2, sessionCache_Delete, smodify. rewrite exec_act. unfold sbind.
      by destruct (stmt _ _).
    + unfold remember. by rewrite exec_act.
  - by destruct err as [[]|?|?|? ? ?].
Qed.

Lemma ValidateSession_exec token w :
  exec (ValidateSession_proc token) w = let '(r, w') := ValidateSession token w in (Returns r, w').
Proof using.
  unfold ValidateSession_proc, ValidateSession. rewrite exec_act. unfold sbind at 1 2, sessionCache_Get, Get, Get_read.
  destruct (entries (w_sessCache w) !! token) as [e|] eqn:Ee.
  - unfold check_entry. rewrite exec_act. unfold sbind at 1. destruct (expired _ _ e).
    + unfold evict_entry. rewrite exec_act. unfold sbind at 1, smodify. apply validate_miss_exec.
    + cbn. f_equal. by destruct w.
  - assert (set_sessCache (w_sessCache w) w = w) as -> by by destruct w. apply validate_miss_exec.
Qed.

Lemma RevokeSession_exec token w :
  exec (RevokeSession_proc token) w = let '(r, w') := RevokeSession token w in (Returns r, w').
Proof using.
  unfold RevokeSession_proc, RevokeSession. rewrite exec_act. unfold sbind at 1 2, sessionCache_Delete, smodify.
  rewrite exec_act. unfold sbind. by destruct (stmt _ _) as [[[]|e] w1].
Qed.
End programs.

(** * Calls at the same time *)
(** A call that has begun: the token, when, and the rest of its program. *)
Inductive session_call :=
  | Validating (token : string) (since : Z) (rest : proc World (res Z))
  | Revoking (token : string) (since : Z) (rest : proc World (res unit)).
Record State := mkState { st_world : World; st_calls : list session_call }.

Definition begun (c : session_call) : Z := match c with Validating _ t _ | Revoking _ t _ => t end.

(** [var sessionCache = cache.New[string, int64](60*time.Second, 10000)] *)
Definition sessionCache_new : Cache string Z := New (60 * second) 10000.

(** The next step of a program. *)
Definition next_act {A} (p : proc World A) (w : World) : option (proc World A * World) :=
  match p with
  | Act _ m k => let '(x, w') := m w in Some (k x, w')
  | Wait (Returns x) k => Some (k x, w)
  | _ => None
  end.

Definition advance_call (c : session_call) (w : World) : option (session_call * World) :=
  match c with
  | Validating tok t p => '(p', w') ← next_act p w; Some (Validating tok t p', w')
  | Revoking tok t p => '(p', w') ← next_act p w; Some (Revoking tok t p', w')
  end.

Section system.
Context `{MR : MapRange} (L : Z).

(** A call begins, or takes its next step, no later than [L] after it began; the
    rest of the process does anything that leaves the session cache alone; the
    process is started again. *)
Inductive sess_step : State → State → Prop :=
  | ss_validate tok s :
      sess_step s (mkState (st_world s) (st_calls s ++ [Validating tok (w_now (st_world s)) (ValidateSession_proc tok)]))
  | ss_revoke tok s :
      sess_step s (mkState (st_world s) (st_calls s ++ [Revoking tok (w_now (st_world s)) (RevokeSession_proc tok)]))
  | ss_advance i c c' w' s :
      st_calls s !! i = Some c → w_now (st_world s) ≤ begun c + L → advance_call c (st_world s) = Some (c', w') →
      sess_step s (mkState w' (<[i := c']> (st_calls s)))
  | ss_elsewhere w' s :
      w_sessCache w' = w_sessCache (st_world s) → w_now (st_world s) ≤ w_now w' → sess_step s (mkState w' (st_calls s))
  | ss_restart w' s :
      w_sessCache w' = sessionCache_new → w_now (st_world s) ≤ w_now w' → sess_step s (mkState w' []).

(** The states of a run, the last first. *)
Inductive sess_history : list State → Prop :=
  | sh_start w : w_sessCache w = sessionCache_new → sess_history [mkState w []]
  | sh_step s s' past : sess_history (s :: past) → sess_step s s' → sess_history (s' :: s :: past).
End system.

(** At the instant [q] of the run, the row [r] was stored. *)
Definition stored_at (h : list State) (q : Z) (r : SessionRow) : Prop :=
  ∃ s, s ∈ h ∧ w_now (st_world s) = q ∧ r ∈ rows (sessions (w_db (st_world s))).
(** The token was that of an unexpired session of the user then. *)
Definition vouched (h : list State) (tok : string) (uid q : Z) : Prop :=
  ∃ r, stored_at h q r ∧ sess_token r = tok ∧ sess_user_id r = uid ∧ q < (sess_expires_at r + 1) * second.

Lemma stored_at_mono s h q r : stored_at h q r → stored_at (s :: h) q r.
Proof. intros (x & Hx & H). exists x. split; [by right|done]. Qed.
Lemma vouched_mono s h tok uid q : vouched h tok uid q → vouched (s :: h) tok uid q.
Proof. intros (r & Hr & H). exists r. split; [by apply stored_at_mono|done]. Qed.

Lemma sessionCache_new_empty tok e : entries sessionCache_new !! tok ≠ Some e.
Proof. unfold sessionCache_new, New. cbn [entries]. by rewrite lookup_empty. Qed.

(** A step that only drops entries of the session cache. *)
Definition shrinking {A} (m : state World A) : Prop := ∀ w,
  entries (w_sessCache (m w).2) ⊆ entries (w_sessCache w) ∧ ttl (w_sessCache (m w).2) = ttl (w_sessCache w) ∧
  w_now (m w).2 = w_now w.

Lemma shrinking_stmt {A} (f : DB → res A * DB) : shrinking (stmt f).
Proof. intros w. by destruct (stmt_cases f w) as [[fs ->]|[fs ->]]. Qed.
Lemma shrinking_query {A} (f : DB → res A) : shrinking (query f).
Proof. intros w. by destruct (query_cases f w) as [[fs ->]|[fs ->]]. Qed.
Lemma shrinking_delete tok : shrinking (sessionCache_Delete tok).
Proof. intros w. split; [apply delete_subseteq|done]. Qed.

(** A program that only takes such steps and accepts nothing. *)
Fixpoint refuses {A} (P : A → Prop) (p : proc World A) : Prop :=
  match p with
  | Done a => P a
  | Act _ m k => shrinking m ∧ ∀ x, refuses P (k x)
  | Wait _ k => ∀ x, refuses P (k x)
  end.

Section invariant.
Context `{MR : MapRange} (L : Z).

(** How far a validation has come, and what it knows. *)
Inductive stage (h : list State) (now : Z) (tok : string) (since : Z) : proc World (res Z) → Prop :=
  | sg_start : stage h now tok since (ValidateSession_proc tok)
  | sg_entry e q : vouched h tok (val e) q → expiresAt e ≤ q + L + 60 * second → stage h now tok since (check_entry tok e)
  | sg_evict : stage h now tok since (evict_entry tok)
  | sg_miss : stage h now tok since (validate_miss tok)
  | sg_row r q : stored_at h q r → sess_token r = tok → since ≤ q ≤ now → stage h now tok since (check_row tok r)
  | sg_remember r q :
      stored_at h q r → sess_token r = tok → since ≤ q → q < (sess_expires_at r + 1) * second →
      stage h now tok since (remember tok r)
  | sg_refuses p : refuses (λ a, is_ok a = false) p → stage h now tok since p
  | sg_done uid q : vouched h tok uid q → since ≤ q + L + 60 * second → stage h now tok since (Done (Ok uid)).

Definition call_ok (h : list State) (now : Z) (c : session_call) : Prop :=
  begun c ≤ now ∧
  match c with
  | Validating tok since p => stage h now tok since p
  | Revoking _ _ p => refuses (λ _, True) p
  end.

Definition cache_ok (h : list State) (c : Cache string Z) : Prop :=
  ttl c = 60 * second ∧
  ∀ tok e, entries c !! tok = Some e → ∃ q, vouched h tok (val e) q ∧ expiresAt e ≤ q + L + 60 * second.

Lemma stage_mono s h now now' tok since p : now ≤ now' → stage h now tok since p → stage (s :: h) now' tok since p.
Proof using.
  intros Hn [|e q Hv He| | |r q Hr Ht Hq|r q Hr Ht Hq Hx|p' Hp|uid q Hv Hq].
  - apply sg_start.
  - by apply (sg_entry _ _ _ _ e q); [apply vouched_mono|].
  - apply sg_evict.
  - apply sg_miss.
  - apply (sg_row _ _ _ _ r q); [by apply stored_at_mono|done|lia].
  - by apply (sg_remember _ _ _ _ r q); [apply stored_at_mono| | |].
  - by apply sg_refuses.
  - by apply (sg_done _ _ _ _ uid q); [apply vouched_mono|].
Qed.

Lemma call_ok_mono s h now now' c : now ≤ now' → call_ok h now c → call_ok (s :: h) now' c.
Proof using. intros Hn [H1 H2]. split; [lia|]. destruct c; [by eapply stage_mono|done]. Qed.

Lemma cache_ok_mono s h c c' :
  entries c' ⊆ entries c → ttl c' = ttl c → cache_ok h c → cache_ok (s :: h) c'.
Proof using.
  intros Hs Ht [H1 H2]. split; [congruence|]. intros tok e He. destruct (H2 tok e) as (q & Hv & Hq); [by eapply lookup_weaken|].
  exists q. split; [by apply vouched_mono|done].
Qed.

Lemma refuses_next {A} (P : A → Prop) p w p' w' :
  refuses P p → next_act p w = Some (p', w') → refuses P p' ∧
  entries (w_sessCache w') ⊆ entries (w_sessCache w) ∧ ttl (w_sessCache w') = ttl (w_sessCache w) ∧ w_now w' = w_now w.
Proof using.
  destruct p as [a|b X m k|X [x|] k]; cbn; [done| | |done].
  - intros [Hm Hk]. specialize (Hm w). destruct (m w) as [x w1]. intros [= <- <-]. split; [apply Hk|exact Hm].
  - intros Hk [= <- <-]. split; [apply Hk|done].
Qed.

(** One step of a validation, from the last state of the run. *)
Lemma stage_next s past tok since p p' w' s' :
  let w := st_world s in
  since ≤ w_now w ≤ since + L → cache_ok (s :: past) (w_sessCache w) →
  stage (s :: past) (w_now w) tok since p → next_act p w = Some (p', w') →
  stage (s' :: s :: past) (w_now w) tok since p' ∧ cache_ok (s' :: s :: past) (w_sessCache w') ∧ w_now w' = w_now w.
Proof using.
  intros w Ht Hc Hst Hn. assert (∀ c, cache_ok (s :: past) c → cache_ok (s' :: s :: past) c) as Hup by (intros c; by apply cache_ok_mono).
  destruct Hst as [|e q Hv He| | |r q Hr Htok Hq|r q Hr Htok Hq Hx|p Hp|uid q Hv Hq].
  - cbn in Hn. injection Hn as <- <-. split; [|by auto]. destruct (entries (w_sessCache w) !! tok) as [e|] eqn:Ee; [|apply sg_miss].
    destruct Hc as [_ Hc]. destruct (Hc tok e Ee) as (q & Hv & Hq). apply (sg_entry _ _ _ _ e q); [by apply vouched_mono|done].
  - cbn in Hn. injection Hn as <- <-. split; [|by auto]. destruct (expired (w_sessCache w) (w_now w) e) eqn:Ex; [apply sg_evict|].
    apply (sg_done _ _ _ _ _ q); [by apply vouched_mono|]. unfold expired in Ex. rewrite (proj1 Hc) in Ex. unfold second in *.
    apply andb_false_iff in Ex as [Ex|Ex]; [done|]. apply Z.ltb_ge in Ex. lia.
  - cbn in Hn. injection Hn as <- <-. split; [apply sg_miss|]. split; [|done]. revert Hc. apply cache_ok_mono; [apply Get_evict_sub|apply Get_evict_params].
  - unfold validate_miss, act, next_act in Hn. cbn [pbind] in Hn.
    pose proof (shrinking_query (λ d, query_row (select (λ s, sess_token s = tok) (sessions d))) w) as (Q1 & Q2 & Q3).
    assert (∀ r, (query (λ d, query_row (select (λ s, sess_token s = tok) (sessions d))) w).1 = Ok r →
      r ∈ rows (sessions (w_db w)) ∧ sess_token r = tok) as Hq.
    { intros r. destruct (query_cases (λ d, query_row (select (λ s, sess_token s = tok) (sessions d))) w) as [[fs ->]|[fs ->]]; [done|].
      simpl. destruct (select _ _) as [|x l] eqn:E; [done|]. intros [= ->].
      assert (r ∈ select (λ s, sess_token s = tok) (sessions (w_db w))) as [? ?]%elem_of_select by (rewrite E; left). done. }
    destruct (query _ w) as [r w1]. injection Hn as <- <-. cbn [fst snd] in *.
    split; [|split; [by eapply cache_ok_mono|done]].
    destruct r as [r|err]; [|destruct err as [[]|?|?|? ? ?]; by apply sg_refuses].
    destruct (Hq r eq_refl) as [Hin Htok]. apply (sg_row _ _ _ _ r (w_now w)); [|done|lia].
    exists s. split; [right; left|done].
  - cbn in Hn. injection Hn as <- <-. split; [|by auto]. destruct (Z.ltb_spec (sess_expires_at r) (w_now w / second)) as [Hlt|Hge].
    + apply sg_refuses. cbn. split; [apply shrinking_delete|]. intros _. split; [apply shrinking_stmt|done].
    + apply (sg_remember _ _ _ _ r q); [by apply stored_at_mono|done|lia|].
      unfold second in *. pose proof (Z.mod_pos_bound (w_now w) (10 ^ 9)). pose proof (Z.div_mod (w_now w) (10 ^ 9)). lia.
  - cbn in Hn. injection Hn as <- <-.
    assert (vouched (s :: past) tok (sess_user_id r) q) as Hv by by exists r.
    split; [apply (sg_done _ _ _ _ _ q); [by apply vouched_mono|unfold second; lia]|]. split; [|done]. destruct Hc as [Hc1 Hc2]. split.
    + cbn. by rewrite (proj1 (Set_params _ _ _ _)).
    + intros tok' e He. cbn in He. destruct (decide (tok = tok')) as [<-|Hne].
      * rewrite Set_lookup, Hc1 in He. injection He as <-. exists q. split; [by apply vouched_mono|]. cbn. lia.
      * apply Set_lookup_ne in He; [|done]. destruct (Hc2 tok' e He) as (q' & Hv' & Hq'). exists q'. split; [by apply vouched_mono|done].
  - destruct (refuses_next _ p w p' w' Hp Hn) as (H1 & H2 & H3 & H4). split; [by apply sg_refuses|]. split; [by eapply cache_ok_mono|done].
  - done.
Qed.

Definition run_ok (h : list State) : Prop :=
  match h with
  | [] => True
  | s :: _ => cache_ok h (w_sessCache (st_world s)) ∧ ∀ c, c ∈ st_calls s → call_ok h (w_now (st_world s)) c
  end.

Lemma history_ok h : 0 ≤ L → sess_history L h → run_ok h.
Proof using.
  intros HL. induction 1 as [w Hw|s s' past _ [IHc IHt] Hs].
  { split; [|by intros c ?%elem_of_nil]. cbn. rewrite Hw. split; [done|]. intros tok e He. by apply sessionCache_new_empty in He. }
  assert (∀ now', w_now (st_world s) ≤ now' → ∀ c, c ∈ st_calls s → call_ok (s' :: s :: past) now' c) as Hup.
  { intros now' Hn c Hc. eapply call_ok_mono; [exact Hn|by apply IHt]. }
  assert (cache_ok (s' :: s :: past) (w_sessCache (st_world s))) as Hcs by by eapply cache_ok_mono.
  destruct Hs as [tok s|tok s|i c c' w' s Hi Hl Ha|w' s Hc Hn|w' s Hc Hn]; cbn [run_ok st_world st_calls].
  - split; [exact Hcs|]. intros c [Hc|Hc%list_elem_of_singleton]%elem_of_app; [by apply Hup|subst c]. split; [done|apply sg_start].
  - split; [exact Hcs|]. intros c [Hc|Hc%list_elem_of_singleton]%elem_of_app; [by apply Hup|subst c]. split; [done|].
    cbn. split; [apply shrinking_delete|]. intros _. split; [apply shrinking_stmt|]. by intros [].
  - pose proof (IHt c (list_elem_of_lookup_2 _ _ _ Hi)) as [Hb Hk].
    assert (cache_ok (mkState w' (<[i:=c']> (st_calls s)) :: s :: past) (w_sessCache w') ∧ w_now w' = w_now (st_world s) ∧
      call_ok (mkState w' (<[i:=c']> (st_calls s)) :: s :: past) (w_now (st_world s)) c') as (H1 & H2 & H3).
    { destruct c as [tok since p|tok since p]; cbn in Ha, Hk, Hl, Hb; destruct (next_act p (st_world s)) as [[p' w1]|] eqn:En; try done;
        injection Ha as <- <-.
      - destruct (stage_next s past tok since p p' w1 (mkState w1 (<[i:=Validating tok since p']> (st_calls s))) ltac:(done) IHc Hk En)
          as (S1 & S2 & S3). done.
      - destruct (refuses_next _ p _ p' w1 Hk En) as (R1 & R2 & R3 & R4). split; [by eapply cache_ok_mono|]. done. }
    split; [exact H1|]. rewrite H2. intros x (j & Hj)%list_elem_of_lookup. apply list_lookup_insert_Some in Hj as [(_ & -> & _)|[_ Hj]]; [exact H3|].
    apply Hup; [done|]. by eapply list_elem_of_lookup_2.
  - split; [by rewrite Hc|]. intros c Hin. by apply Hup.
  - split; [|by intros c ?%elem_of_nil]. rewrite Hc. split; [done|]. intros tok e He. by apply sessionCache_new_empty in He.
Qed.
End invariant.

(** C18.  Who a session token stands for.  Let any number of [ValidateSession] and
    [RevokeSession] calls run at the same time, step by step, each for at most [L]
    from its beginning to its last step; in between, let the rest of the process
    do anything to the database - delete users with their sessions, create
    sessions, fail statements - and let the process be started again.  If a
    validation that began at [since] accepts a token as one of the user [uid], then at some
    instant [q] of the run a session of [uid] with that token was stored, not yet
    past its expiry second, and [since] is at most 60 seconds plus [L] after [q].
    So a call that begins more than that after the session expired, was
    revoked or was deleted with its user is refused; sooner than that it may
    be accepted ([deleted_user_accepted], [revoke_race]). *)
Theorem session_acceptance `{MR : MapRange} (L : Z) (s : State) (past : list State) (tok : string) (since uid : Z) :
  0 ≤ L → sess_history L (s :: past) → Validating tok since (Done (Ok uid)) ∈ st_calls s →
  ∃ q r, stored_at (s :: past) q r ∧ sess_token r = tok ∧ sess_user_id r = uid ∧
    q < (sess_expires_at r + 1) * second ∧ since ≤ q + L + 60 * second.
Proof.
  intros HL Hh Hin. pose proof (history_ok L _ HL Hh) as [_ Ht]. destruct (Ht _ Hin) as [_ Hst]. cbn in Hst.
  remember (Done (Ok uid)) as p eqn:Ep. destruct Hst as [|e q Hv He| | |r q Hr Htok Hq|r q Hr Htok Hq Hx|p Hp|u q Hv Hq]; try discriminate.
  - by subst p.
  - injection Ep as ->. destruct Hv as (r & Hr & H1 & H2 & H3). by exists q, r.
Qed.

(** After a revocation that nothing interrupts, the token is refused. *)
Lemma revoke_then_validate `{MR : MapRange} (w : World) (tok : string) (uid : Z) :
  (RevokeSession tok w).1 = Ok tt → (ValidateSession tok (RevokeSession tok w).2).1 ≠ Ok uid.
Proof.
  unfold RevokeSession, sessionCache_Delete, sbind, smodify. set (w1 := set_sessCache _ _).
  destruct (stmt_cases (sql_delete_session tok) w1) as [[fs ->]|[fs ->]]; [done|]. intros _. cbn [fst snd sql_delete_session sret].
  set (w2 := set_db _ _). assert (entries (w_sessCache w2) !! tok = None) as Hn by apply lookup_delete_eq.
  assert (∀ s, s ∈ rows (sessions (w_db w2)) → sess_token s ≠ tok) as Hd by by intros s [Hs _]%elem_of_delete.
  clearbody w2. unfold ValidateSession, sbind at 1, sessionCache_Get, Get, Get_read. rewrite Hn. unfold sbind at 1.
  destruct (query_cases (λ d, query_row (select (λ s, sess_token s = tok) (sessions d)))
      (set_sessCache (w_sessCache w2) w2)) as [[fs' ->]|[fs' ->]]; [done|]. cbn [w_db set_sessCache].
  destruct (select _ _) as [|s l] eqn:E; [done|].
  assert (s ∈ select (λ s, sess_token s = tok) (sessions (w_db w2))) as [Hst Hs]%elem_of_select by (rewrite E; left).
  by destruct (Hd s Hs).
Qed.

(** ** Runs *)
Inductive sess_event :=
  | EValidate (token : string) | ERevoke (token : string) | EAdvance (i : nat)
  | EDeleteUser (id : Z) | ECreate (userID expiry : Z) (rand : option (list Z)) | ETick (d : N).

Section runs.
Context `{MR : MapRange} (L : Z).

(** What the storage layer does to users and sessions is a step of the rest. *)
Lemma CreateSession_elsewhere u x r w :
  w_sessCache (CreateSession u x r w).2 = w_sessCache w ∧ w_now (CreateSession u x r w).2 = w_now w.
Proof using.
  unfold CreateSession. destruct r as [bs|]; [|done]. unfold sbind, time_now. set (f := sql_insert_session _ _ _).
  destruct (stmt_cases f w) as [[fs ->]|[fs ->]]; [done|]. by destruct (f (w_db w)) as [[[]|e] d].
Qed.
Lemma DeleteUser_elsewhere id w :
  w_sessCache (DeleteUser id w).2 = w_sessCache w ∧ w_now (DeleteUser id w).2 = w_now w.
Proof using.
  unfold DeleteUser, sbind. destruct (stmt_cases (sql_delete_user id) w) as [[fs ->]|[fs ->]]; [done|].
  destruct (sql_delete_user id (w_db w)) as [[n|e] d]; cbn; [|done]. by destruct (n =? 0).
Qed.

Definition sess_perform (e : sess_event) (s : State) : option State :=
  let w := st_world s in
  match e with
  | EValidate tok => Some (mkState w (st_calls s ++ [Validating tok (w_now w) (ValidateSession_proc tok)]))
  | ERevoke tok => Some (mkState w (st_calls s ++ [Revoking tok (w_now w) (RevokeSession_proc tok)]))
  | EAdvance i =>
      c ← st_calls s !! i;
      if w_now w <=? begun c + L then '(c', w') ← advance_call c w; Some (mkState w' (<[i := c']> (st_calls s))) else None
  | EDeleteUser id => Some (mkState (DeleteUser id w).2 (st_calls s))
  | ECreate u x r => Some (mkState (CreateSession u x r w).2 (st_calls s))
  | ETick d => Some (mkState (set_now (w_now w + Z.of_N d) w) (st_calls s))
  end.

Lemma sess_perform_step e s s' : sess_perform e s = Some s' → sess_step L s s'.
Proof using.
  destruct e as [tok|tok|i|id|u x r|d]; cbn [sess_perform]; intros H.
  - injection H as <-. apply ss_validate.
  - injection H as <-. apply ss_revoke.
  - destruct (st_calls s !! i) as [c|] eqn:Ei; [|done]. cbn in H. destruct (Z.leb_spec (w_now (st_world s)) (begun c + L)); [|done].
    destruct (advance_call c (st_world s)) as [[c' w']|] eqn:Ea; [|done]. injection H as <-. by eapply ss_advance.
  - injection H as <-. destruct (DeleteUser_elsewhere id (st_world s)) as [E1 E2]. apply ss_elsewhere; [done|by rewrite E2].
  - injection H as <-. destruct (CreateSession_elsewhere u x r (st_world s)) as [E1 E2]. apply ss_elsewhere; [done|by rewrite E2].
  - injection H as <-. apply ss_elsewhere; [done|]. cbn. lia.
Qed.

(** The run with its states, the last first. *)
Fixpoint play (es : list sess_event) (s : State) (past : list State) : option (State * list State) :=
  match es with
  | [] => Some (s, past)
  | e :: es => s' ← sess_perform e s; play es s' (s :: past)
  end.

Lemma play_history es s past s' past' :
  sess_history L (s :: past) → play es s past = Some (s', past') → sess_history L (s' :: past').
Proof using.
  revert s past. induction es as [|e es IH]; intros s past Hh Hp; cbn in Hp; [by injection Hp as <- <-|].
  destruct (sess_perform e s) as [s1|] eqn:E; [|done]. apply (IH s1 (s :: past)); [|done].
  apply sh_step; [done|by eapply sess_perform_step].
Qed.
End runs.

(** What the [i]th call of a run answered - its token, its beginning, the answer -
    and the sessions stored at the end. *)
Definition answer_of (i : nat) (o : option (State * list State)) : option (string * Z * res Z) :=
  '(s, _) ← o; c ← st_calls s !! i; match c with Validating tok since (Done a) => Some (tok, since, a) | _ => None end.
Definition sessions_at_end (o : option (State * list State)) : list SessionRow :=
  match o with Some (s, _) => rows (sessions (w_db (st_world s))) | None => [] end.
Definition demo_play (es : list sess_event) : option (State * list State) :=
  play (5 * second) es (mkState demo_world []) [].

(** One validation, alone: it reads the row, looks at the clock, remembers, accepts. *)
Definition validation (tok : string) (i : nat) : list sess_event := [EValidate tok; EAdvance i; EAdvance i; EAdvance i; EAdvance i].

(** The user is deleted with its sessions, and for a minute its token goes on
    working: nothing takes it out of the cache. *)
Definition deleted_user_run : list sess_event :=
  [ECreate 1 3600000000000 (Some [171; 205])] ++ validation "abcd" 0 ++
  [EDeleteUser 1; ETick 59000000000; EValidate "abcd"; EAdvance 1; EAdvance 1].

(** A validation has read the row when a revocation begins and ends; then it
    puts the token back into the cache. *)
Definition revoke_race_run : list sess_event :=
  [ECreate 1 3600000000000 (Some [171; 205]); EValidate "abcd"; EAdvance 0; EAdvance 0;
   ERevoke "abcd"; EAdvance 1; EAdvance 1; EAdvance 0; EAdvance 0; ETick 59000000000; EValidate "abcd"; EAdvance 2; EAdvance 2].

Lemma deleted_user_accepted :
  answer_of 1 (demo_play deleted_user_run) = Some ("abcd", 1059 * second, Ok 1) ∧ sessions_at_end (demo_play deleted_user_run) = [].
Proof. split; vm_compute; reflexivity. Qed.

Lemma revoke_race :
  answer_of 2 (demo_play revoke_race_run) = Some ("abcd", 1059 * second, Ok 1) ∧ sessions_at_end (demo_play revoke_race_run) = [].
Proof. split; vm_compute; reflexivity. Qed.

Lemma answer_at i o tok since a :
  answer_of i o = Some (tok, since, a) → ∃ s past, o = Some (s, past) ∧ Validating tok since (Done a) ∈ st_calls s.
Proof.
  destruct o as [[s past]|]; [|done]. cbn. destruct (st_calls s !! i) as [c|] eqn:Ei; [|done]. cbn.
  destruct c as [t x [b|? ? ? ?|? ? ?]|]; try done. intros [= -> -> ->]. exists s, past. split; [done|]. by eapply list_elem_of_lookup_2.
Qed.

Lemma session_acceptance_witness :
  ∃ s past q r, demo_play deleted_user_run = Some (s, past) ∧ stored_at (s :: past) q r ∧ sess_token r = "abcd" ∧
    sess_user_id r = 1 ∧ 994 * second ≤ q.
Proof.
  destruct (answer_at _ _ _ _ _ (proj1 deleted_user_accepted)) as (s & past & E & Hin).
  assert (sess_history (5 * second) (s :: past)) as Hh by (eapply play_history; [by apply (sh_start _ demo_world)|exact E]).
  destruct (session_acceptance (5 * second) s past "abcd" (1059 * second) 1 ltac:(done) Hh Hin) as (q & r & H1 & H2 & H3 & _ & H5).
  exists s, past, q, r. split_and!; [done..|]. unfold second in *. lia.
Defined.
