(* ===== verification/Blob.v ===== *)
(** Blob stores (src/pkg/blobstore/{interface,fs,sqlite}.go): the interface as a
    type class with its contract, the filesystem store and the SQLite store, and
    the abstract maps these two refine.
    SHA-256 is a parameter ([digest], the 64 hexadecimal digits); the argument of
    [Put] is what [io.ReadAll] makes of the reader. *)
From S2P Require Import Prelude GoLib Cache Sql Schema World StoreUsers StoreMail.

(** * The file operations of package [os] the store uses

    Each consumes one entry of the failure schedule. *)
Definition io_error : error := ErrorNew "input/output error".

Definition faulty : state World bool := λ w,
  match w_faults w with
  | b :: fs => (b, set_faults fs w)
  | [] => (false, w)
  end.

Definition os_call {A} (f : gmap string string → res A * gmap string string) : state World (res A) :=
  let! bad := faulty in
  if bad : bool then sret (Err io_error) else
  λ w, let '(r, m) := f (w_files w) in (r, set_files m w).

(** [os.Stat]: the size of the file. *)
Definition os_Stat (path : string) : state World (res Z) :=
  os_call (λ m, (match m !! path with Some d => Ok (slen d) | None => Err (Sentinel ErrNotExist) end, m)).
Definition os_MkdirAll (path : string) : state World (res unit) := os_call (λ m, (Ok tt, m)).
Definition os_WriteFile (path data : string) : state World (res unit) :=
  os_call (λ m, (Ok tt, <[path := data]> m)).
(** [os.Open] followed by reading the whole file. *)
Definition os_ReadFile (path : string) : state World (res string) :=
  os_call (λ m, (match m !! path with Some d => Ok d | None => Err (Sentinel ErrNotExist) end, m)).
Definition os_Remove (path : string) : state World (res unit) :=
  os_call (λ m, match m !! path with
                | Some _ => (Ok tt, delete path m)
                | None => (Err (Sentinel ErrNotExist), m)
                end).

(** * The interface *)
Class Store := mkStore {
  Put : res string → state World (res (string * Z));
  Get : string → state World (res string);
  Delete : string → state World (res unit);
  Exists : string → state World (res bool);
}.

(** What a store may touch: its own files and table, and the failure schedule. *)
Definition store_frame (w w' : World) : Prop :=
  ∃ b f fs, w' = set_files f (set_faults fs (set_db (set_blobs b (w_db w)) w)).

#[export] Instance store_frame_preorder : PreOrder store_frame.
Proof.
  split.
  - intros w. exists (blobs (w_db w)), (w_files w), (w_faults w). by destruct w as [[] ? ? ? ? ? ? ? ?].
  - intros w1 w2 w3 (b & f & fs & ->) (b' & f' & fs' & ->). by exists b', f', fs'.
Qed.

(** The contract, for a store whose keys are [digest]s: a view of the blobs it
    holds, and what each operation does to it when nothing fails.  [Put] is only
    promised to store its data if the view holds nothing else under that key. *)
Class StoreSpec (S : Store) (digest : string → string) := {
  view : World → string → option string;
  Put_frame r w : store_frame w (Put r w).2;
  Get_frame k w : store_frame w (Get k w).2;
  Delete_frame k w : store_frame w (Delete k w).2;
  Put_store_wf r : pres wf (Put r);
  Get_store_wf k : pres wf (Get k);
  Delete_store_wf k : pres wf (Delete k);
  Put_quiet r : pres quiet (Put r);
  Get_quiet k : pres quiet (Get k);
  Delete_quiet k : pres quiet (Delete k);
  view_ext w w' : blobs (w_db w) = blobs (w_db w') → w_files w = w_files w' → ∀ k, view w k = view w' k;
  view_put data w : w_faults w = [] →
    (∀ d, view w (digest data) = Some d → d = data) →
    (Put (Ok data) w).1 = Ok (digest data, slen data) ∧ w_faults (Put (Ok data) w).2 = [] ∧
    ∀ k, view (Put (Ok data) w).2 k = if decide (k = digest data) then Some data else view w k;
  view_get k w d : w_faults w = [] → view w k = Some d → Get k w = (Ok d, w);
  view_none k w : w_faults w = [] → view w k = None → is_ok (Get k w).1 = false ∧ (Get k w).2 = w;
}.
#[export] Hint Resolve Put_store_wf Get_store_wf Delete_store_wf : pres.

Section stores.
(** [fmt.Sprintf("%x", sha256.Sum256(data))] *)
Context (digest : string → string).

Definition sha256Key (r : res string) : res (string * string * Z) :=
  match r with
  | Err err => Err (wrap "blobstore: read: " err)
  | Ok data => Ok (digest data, data, slen data)
  end.

(** ** fs.go *)
Section fs.
Context (root : string).

(** [key[0:2]] and [key[2:4]] panic on a shorter key. *)
Definition slice_panic : error := ErrorNew "runtime error: slice bounds out of range".

Definition shard (key : string) : string :=
  root +:+ "/" +:+ stake 2 key +:+ "/" +:+ stake 2 (sdrop 2 key).
Definition blob_path (key : string) : string := shard key +:+ "/" +:+ key.

Definition FSStore_Put (r : res string) : state World (res (string * Z)) :=
  match sha256Key r with
  | Err err => sret (Err err)
  | Ok (key, data, size) =>
      if slen key <? 4 then sret (Err slice_panic) else
      let path := blob_path key in
      let! fi := os_Stat path in
      match fi with
      | Ok n =>
          if 0 <? n then sret (Ok (key, size)) else
          let! r := os_MkdirAll (shard key) in
          match r with
          | Err err => sret (Err (wrap "blobstore: mkdir: " err))
          | Ok _ =>
              let! r := os_WriteFile path data in
              match r with
              | Err err => sret (Err (wrap "blobstore: write: " err))
              | Ok _ => sret (Ok (key, size))
              end
          end
      | Err _ =>
          let! r := os_MkdirAll (shard key) in
          match r with
          | Err err => sret (Err (wrap "blobstore: mkdir: " err))
          | Ok _ =>
              let! r := os_WriteFile path data in
              match r with
              | Err err => sret (Err (wrap "blobstore: write: " err))
              | Ok _ => sret (Ok (key, size))
              end
          end
      end
  end.

Definition FSStore_Get (key : string) : state World (res string) :=
  if slen key <? 4 then sret (Err slice_panic) else
  let! r := os_ReadFile (blob_path key) in
  match r with
  | Err err => if errors_is err ErrNotExist then sret (Err (wrap "blobstore: not found: " (Sentinel ErrNotExist)))
               else sret (Err (wrap "blobstore: open: " err))
  | Ok d => sret (Ok d)
  end.

(** The empty shard directories are removed afterwards, which shows nowhere. *)
Definition FSStore_Delete (key : string) : state World (res unit) :=
  if slen key <? 4 then sret (Err slice_panic) else
  let! r := os_Remove (blob_path key) in
  match r with
  | Err err => if errors_is err ErrNotExist then sret (Ok tt) else sret (Err (wrap "blobstore: delete: " err))
  | Ok _ => sret (Ok tt)
  end.

Definition FSStore_Exists (key : string) : state World (res bool) :=
  if slen key <? 4 then sret (Err slice_panic) else
  let! r := os_Stat (blob_path key) in
  match r with
  | Ok _ => sret (Ok true)
  | Err err => if errors_is err ErrNotExist then sret (Ok false) else sret (Err (wrap "blobstore: stat: " err))
  end.

Definition FSStore : Store := mkStore FSStore_Put FSStore_Get FSStore_Delete FSStore_Exists.
End fs.

(** ** sqlite.go *)
Definition bump (n : Z) (b : BlobRow) : BlobRow :=
  mkBlobRow (blob_key b) (blob_data b) (blob_size b) (blob_created_at b) (blob_refcount b + n).

Definition sql_upsert_blob (key data : string) (now : Z) (d : DB) : res unit * DB :=
  if decide (key ∈ blob_key <$> rows (blobs d))
  then (Ok tt, set_blobs (update_rows (λ b, blob_key b = key) (bump 1) (blobs d)) d)
  else (Ok tt, set_blobs (insert_row (λ _, mkBlobRow key data (slen data) now 1) (blobs d)) d).

Definition SQLiteStore_Put (r : res string) : state World (res (string * Z)) :=
  match sha256Key r with
  | Err err => sret (Err err)
  | Ok (key, data, size) =>
      let! now := time_now_unix in
      let! r := stmt (sql_upsert_blob key data now) in
      match r with
      | Err err => sret (Err (wrap "blobstore: upsert: " err))
      | Ok _ => sret (Ok (key, size))
      end
  end.

Definition SQLiteStore_Get (key : string) : state World (res string) :=
  let! r := query (λ d, query_row (blob_data <$> select (λ b, blob_key b = key) (blobs d))) in
  match r with
  | Err (Sentinel ErrNoRows) => sret (Err (wrap "blobstore: not found: " (Sentinel ErrNoRows)))
  | Err err => sret (Err (wrap "blobstore: get: " err))
  | Ok data => sret (Ok data)
  end.

Definition sql_decrement_blob (key : string) (d : DB) : res unit * DB :=
  (Ok tt, set_blobs (update_rows (λ b, blob_key b = key) (bump (-1)) (blobs d)) d).
Definition sql_delete_blob (key : string) (d : DB) : res unit * DB :=
  (Ok tt, set_blobs (delete_rows (λ b, blob_key b = key ∧ blob_refcount b ≤ 0) (blobs d)) d).

Definition SQLiteStore_Delete (key : string) : state World (res unit) :=
  let! r := stmt (sql_decrement_blob key) in
  match r with
  | Err err => sret (Err (wrap "blobstore: decrement refcount: " err))
  | Ok _ =>
      let! r := stmt (sql_delete_blob key) in
      match r with
      | Err err => sret (Err (wrap "blobstore: delete: " err))
      | Ok _ => sret (Ok tt)
      end
  end.

Definition SQLiteStore_Exists (key : string) : state World (res bool) :=
  let! r := query (λ d, Ok (affected (λ b, blob_key b = key) (blobs d))) in
  match r with
  | Err err => sret (Err (wrap "blobstore: exists: " err))
  | Ok count => sret (Ok (0 <? count))
  end.

Definition SQLiteStore : Store :=
  mkStore SQLiteStore_Put SQLiteStore_Get SQLiteStore_Delete SQLiteStore_Exists.
End stores.

(** * Well-formedness and frames *)
Lemma sql_upsert_blob_ok k x n : stmt_ok (sql_upsert_blob k x n).
Proof. intros d H. unfold sql_upsert_blob. case_decide; stmt_wf H. Qed.
Lemma sql_decrement_blob_ok k : stmt_ok (sql_decrement_blob k).
Proof. intros d H. unfold sql_decrement_blob. stmt_wf H. Qed.
Lemma sql_delete_blob_ok k : stmt_ok (sql_delete_blob k).
Proof. intros d H. unfold sql_delete_blob. stmt_wf H. Qed.
#[export] Hint Resolve sql_upsert_blob_ok sql_decrement_blob_ok sql_delete_blob_ok : stmts.

Lemma os_call_wf {A} (f : gmap string string → res A * gmap string string) : pres wf (os_call f).
Proof.
  unfold os_call. apply pres_bind.
  - intros w Hw. unfold faulty. by destruct (w_faults w).
  - intros []; [apply pres_ret|]. intros w Hw. by destruct (f (w_files w)).
Qed.
Lemma os_call_quiet {A} (f : gmap string string → res A * gmap string string) : pres quiet (os_call f).
Proof.
  unfold os_call. apply pres_bind.
  - intros w Hw. unfold faulty, quiet in *. by rewrite Hw.
  - intros []; [apply pres_ret|]. intros w Hw. by destruct (f (w_files w)).
Qed.
#[export] Hint Resolve os_call_wf os_call_quiet : pres.

(** [framed m]: [m] touches nothing but what belongs to the store. *)
Definition framed {A} (m : state World A) : Prop := ∀ w, store_frame w (m w).2.

Lemma framed_ret {A} (a : A) : framed (sret a).
Proof. intros w. reflexivity. Qed.
Lemma framed_bind {A B} (m : state World A) (k : A → state World B) :
  framed m → (∀ a, framed (k a)) → framed (sbind m k).
Proof.
  intros Hm Hk w. unfold sbind. specialize (Hm w). destruct (m w) as [a w1]. etransitivity; [exact Hm|apply Hk].
Qed.
Lemma framed_stmt {A} (f : DB → res A * DB) : (∀ d, ∃ b, (f d).2 = set_blobs b d) → framed (stmt f).
Proof.
  intros Hf w. destruct (stmt_cases f w) as [[fs ->]|[fs ->]]; simpl.
  - exists (blobs (w_db w)), (w_files w), fs. by destruct w as [[] ? ? ? ? ? ? ? ?].
  - destruct (Hf (w_db w)) as [b ->]. exists b, (w_files w), fs. by destruct w.
Qed.
Lemma framed_os {A} (f : gmap string string → res A * gmap string string) : framed (os_call f).
Proof.
  unfold os_call. apply framed_bind.
  - intros w. unfold faulty. destruct (w_faults w) as [|b fs]; [reflexivity|].
    exists (blobs (w_db w)), (w_files w), fs. by destruct w as [[] ? ? ? ? ? ? ? ?].
  - intros []; [apply framed_ret|]. intros w. destruct (f (w_files w)) as [r m]. simpl.
    exists (blobs (w_db w)), m, (w_faults w). by destruct w as [[] ? ? ? ? ? ? ? ?].
Qed.
Lemma framed_time : framed time_now_unix.
Proof. intros w. reflexivity. Qed.

Ltac framed_walk :=
  repeat first [ apply framed_ret | apply framed_time | apply framed_os
               | apply framed_stmt; let d := fresh "d" in intros d; unfold sql_upsert_blob; try case_decide;
                   first [ eexists; reflexivity | exists (blobs d); by destruct d ]
               | apply framed_bind; [|intros] | case_match ].

Lemma os_call_run {A} (f : gmap string string → res A * gmap string string) w :
  w_faults w = [] → os_call f w = ((f (w_files w)).1, set_files (f (w_files w)).2 w).
Proof. intros Hf. unfold os_call, sbind, faulty. rewrite Hf. by destruct (f (w_files w)). Qed.

Lemma set_files_same w : set_files (w_files w) w = w.
Proof. by destruct w. Qed.

(** * The SQLite store meets the contract *)
Section sqlite_spec.
Context (digest : string → string).

Definition sqlite_view (w : World) (k : string) : option string :=
  blob_data <$> head (select (λ b, blob_key b = k) (blobs (w_db w))).

Lemma sqlite_view_spec w k d :
  sqlite_view w k = Some d → ∃ b, b ∈ rows (blobs (w_db w)) ∧ blob_key b = k ∧ blob_data b = d.
Proof.
  unfold sqlite_view. destruct (select _ _) as [|b l] eqn:E; [done|]. intros [= <-]. exists b.
  assert (b ∈ select (λ b, blob_key b = k) (blobs (w_db w))) as [Hk Hb]%elem_of_select by (rewrite E; left). done.
Qed.

(** The view reads the first row of the key in any list of rows. *)
Definition lookup_blob (k : string) (l : list BlobRow) : option string :=
  blob_data <$> head (filter (λ b, blob_key b = k) l).

Lemma lookup_blob_bump k k' n l :
  lookup_blob k ((λ b, if decide (blob_key b = k') then bump n b else b) <$> l) = lookup_blob k l.
Proof.
  unfold lookup_blob. induction l as [|b l IH]; [done|]. cbn [list_fmap fmap]. rewrite !filter_cons.
  destruct (decide (blob_key b = k')); cbn [bump blob_key]; case_decide; done.
Qed.

Lemma sqlite_view_put data w :
  w_faults w = [] → (∀ d, sqlite_view w (digest data) = Some d → d = data) →
  (SQLiteStore_Put digest (Ok data) w).1 = Ok (digest data, slen data) ∧
  w_faults (SQLiteStore_Put digest (Ok data) w).2 = [] ∧
  ∀ k, sqlite_view (SQLiteStore_Put digest (Ok data) w).2 k =
       if decide (k = digest data) then Some data else sqlite_view w k.
Proof.
  intros Hf Hc. unfold SQLiteStore_Put, sha256Key, sbind, time_now_unix. rewrite stmt_ok_run by done.
  set (key := digest data) in *. unfold sql_upsert_blob. case_decide as Hk; cbn [fst snd sret]; (split; [done|split; [done|]]); intros k.
  - transitivity (lookup_blob k ((λ b, if decide (blob_key b = key) then bump 1 b else b) <$> rows (blobs (w_db w)))); [done|].
    rewrite lookup_blob_bump. case_decide as E; [|done]. subst k.
    apply list_elem_of_fmap in Hk as (b & Eb & Hb).
    assert (b ∈ filter (λ b, blob_key b = key) (rows (blobs (w_db w)))) as Hin by by apply list_elem_of_filter.
    revert Hc. unfold lookup_blob, sqlite_view, select. destruct (filter _ _) as [|b0 l]; [by apply elem_of_nil in Hin|].
    intros Hc. cbn. f_equal. by apply Hc.
  - transitivity (lookup_blob k (rows (blobs (w_db w)) ++ [mkBlobRow key data (slen data) (w_now w / second) 1])); [done|].
    unfold lookup_blob. rewrite filter_app, filter_cons, filter_nil. cbn [blob_key].
    destruct (decide (key = k)) as [<-|Hne].
    + rewrite decide_True by done. assert (filter (λ b, blob_key b = key) (rows (blobs (w_db w))) = []) as ->; [|done].
      destruct (filter (λ b, blob_key b = key) (rows (blobs (w_db w)))) as [|b l] eqn:E; [done|].
      assert (b ∈ filter (λ b, blob_key b = key) (rows (blobs (w_db w)))) as [Eb Hb]%list_elem_of_filter by (rewrite E; left).
      exfalso. apply Hk. rewrite <- Eb. by apply list_elem_of_fmap_2.
    + rewrite decide_False by congruence. by rewrite app_nil_r.
Qed.

Lemma sqlite_get_run k w :
  w_faults w = [] →
  SQLiteStore_Get k w = (match sqlite_view w k with
                         | Some d => Ok d
                         | None => Err (wrap "blobstore: not found: " (Sentinel ErrNoRows)) end, w).
Proof.
  intros Hf. unfold SQLiteStore_Get, sbind. rewrite query_run by done. unfold sqlite_view.
  by destruct (select _ _) as [|b l].
Qed.

#[export, refine] Instance SQLiteStore_spec : StoreSpec (SQLiteStore digest) digest := {
  view := sqlite_view;
}.
Proof.
  - intros r. change (framed (SQLiteStore_Put digest r)). unfold SQLiteStore_Put, query. framed_walk.
  - intros k. change (framed (SQLiteStore_Get k)). unfold SQLiteStore_Get, query. framed_walk.
  - intros k. change (framed (SQLiteStore_Delete k)). unfold SQLiteStore_Delete. framed_walk.
  - intros r. unfold Put. simpl. unfold SQLiteStore_Put. pres_walk.
  - intros k. unfold Get. simpl. unfold SQLiteStore_Get. pres_walk.
  - intros k. unfold Delete. simpl. unfold SQLiteStore_Delete. pres_walk.
  - intros r. unfold Put. simpl. unfold SQLiteStore_Put. pres_walk.
  - intros k. unfold Get. simpl. unfold SQLiteStore_Get. pres_walk.
  - intros k. unfold Delete. simpl. unfold SQLiteStore_Delete. pres_walk.
  - intros w w' Hb _ k. unfold sqlite_view. by rewrite Hb.
  - intros data w. apply sqlite_view_put.
  - intros k w d Hf Hv. change (SQLiteStore_Get k w = (Ok d, w)). by rewrite sqlite_get_run, Hv.
  - intros k w Hf Hv. change (is_ok (SQLiteStore_Get k w).1 = false ∧ (SQLiteStore_Get k w).2 = w).
    by rewrite sqlite_get_run, Hv.
Defined.
End sqlite_spec.

(** * The filesystem store meets the contract *)
Section fs_spec.
Context (digest : string → string) (root : string).
Context (digest_len : ∀ data, slen (digest data) = 64).

Definition fs_view (w : World) (k : string) : option string :=
  if slen k <? 4 then None else w_files w !! blob_path root k.

Lemma string_length_stake n s : (n ≤ String.length s)%nat → String.length (stake n s) = n.
Proof.
  revert s. induction n as [|n IH]; intros s; [done|]. destruct s as [|c s]; simpl; [lia|]. intros. rewrite IH; lia.
Qed.
Lemma string_length_sdrop n s : String.length (sdrop n s) = (String.length s - n)%nat.
Proof. revert s. induction n as [|n IH]; intros s; [simpl; lia|]. destruct s as [|c s]; simpl; [done|apply IH]. Qed.

Lemma string_app_inj_l p s t : p +:+ s = p +:+ t → s = t.
Proof. induction p as [|c p IH]; [done|]. rewrite !string_app_cons. intros [= E]. by apply IH. Qed.

Lemma string_app_inj_len p q s t : String.length p = String.length q → p +:+ s = q +:+ t → s = t.
Proof.
  revert q. induction p as [|c p IH]; intros [|d q]; try done. rewrite !string_app_cons. simpl.
  intros [= E] [= _ E']. by apply (IH q).
Qed.

Lemma blob_path_inj k1 k2 :
  (slen k1 <? 4) = false → (slen k2 <? 4) = false → blob_path root k1 = blob_path root k2 → k1 = k2.
Proof.
  intros H1%Z.ltb_ge H2%Z.ltb_ge. unfold slen in *. unfold blob_path, shard. rewrite <- !string_app_assoc.
  intros E%string_app_inj_l%string_app_inj_l. apply string_app_inj_len in E; [|by rewrite !string_length_stake by lia].
  apply string_app_inj_l, string_app_inj_len, string_app_inj_l in E; [done|].
  rewrite !string_length_stake; rewrite ?string_length_sdrop; lia.
Qed.

Lemma fs_put_run data w :
  w_faults w = [] →
  FSStore_Put digest root (Ok data) w =
    (Ok (digest data, slen data),
     match w_files w !! blob_path root (digest data) with
     | Some d => if 0 <? slen d then w else set_files (<[blob_path root (digest data) := data]> (w_files w)) w
     | None => set_files (<[blob_path root (digest data) := data]> (w_files w)) w
     end).
Proof using digest_len.
  intros Hf. unfold FSStore_Put, sha256Key. rewrite digest_len. cbn [Z.ltb Z.compare Pos.compare Pos.compare_cont].
  unfold os_Stat, os_MkdirAll, os_WriteFile, sbind at 1. rewrite os_call_run by done. cbn [fst snd].
  rewrite set_files_same. destruct (w_files w !! blob_path root (digest data)) as [d|]; [destruct (0 <? slen d); [done|]|];
    unfold sbind at 1; rewrite os_call_run by done; cbn [fst snd]; rewrite set_files_same;
    unfold sbind; by rewrite os_call_run by done.
Qed.

Lemma fs_get_run k w :
  w_faults w = [] →
  FSStore_Get root k w =
    (match fs_view w k with
     | Some d => Ok d
     | None => if slen k <? 4 then Err slice_panic else Err (wrap "blobstore: not found: " (Sentinel ErrNotExist))
     end, w).
Proof.
  intros Hf. unfold FSStore_Get, fs_view, os_ReadFile. destruct (slen k <? 4); [done|]. unfold sbind.
  rewrite os_call_run by done. cbn [fst snd]. rewrite set_files_same. by destruct (w_files w !! _).
Qed.

Lemma slen_pos s : s ≠ "" → (0 <? slen s) = true.
Proof. intros Hs. apply Z.ltb_lt. unfold slen. destruct s; [done|]. simpl. lia. Qed.

#[export, refine] Instance FSStore_spec : StoreSpec (FSStore digest root) digest := {
  view := fs_view;
}.
Proof using digest_len.
  - intros r. change (framed (FSStore_Put digest root r)). unfold FSStore_Put, os_Stat, os_MkdirAll, os_WriteFile. framed_walk.
  - intros k. change (framed (FSStore_Get root k)). unfold FSStore_Get, os_ReadFile. framed_walk.
  - intros k. change (framed (FSStore_Delete root k)). unfold FSStore_Delete, os_Remove. framed_walk.
  - intros r. unfold Put. simpl. unfold FSStore_Put, os_Stat, os_MkdirAll, os_WriteFile. pres_walk.
  - intros k. unfold Get. simpl. unfold FSStore_Get, os_ReadFile. pres_walk.
  - intros k. unfold Delete. simpl. unfold FSStore_Delete, os_Remove. pres_walk.
  - intros r. unfold Put. simpl. unfold FSStore_Put, os_Stat, os_MkdirAll, os_WriteFile. pres_walk.
  - intros k. unfold Get. simpl. unfold FSStore_Get, os_ReadFile. pres_walk.
  - intros k. unfold Delete. simpl. unfold FSStore_Delete, os_Remove. pres_walk.
  - intros w w' _ Hm k. unfold fs_view. by rewrite Hm.
  - intros data w Hf Hc. change (Put (Ok data) w) with (FSStore_Put digest root (Ok data) w).
    rewrite fs_put_run by done. cbn [fst snd]. split; [done|].
    assert (slen (digest data) <? 4 = false) as Hl by by rewrite digest_len.
    unfold fs_view in *. rewrite Hl in Hc. split; [by repeat case_match|]. intros k.
    assert (∀ m, m = <[blob_path root (digest data) := data]> (w_files w) →
      (if slen k <? 4 then None else m !! blob_path root k) =
      (if decide (k = digest data) then Some data else if slen k <? 4 then None else w_files w !! blob_path root k)) as Hins.
    { intros m ->. case_decide as E; [subst k; rewrite Hl; apply lookup_insert_eq|].
      destruct (slen k <? 4) eqn:Hk; [done|]. apply lookup_insert_ne. intros E'. apply E. symmetry.
      by apply blob_path_inj. }
    destruct (w_files w !! blob_path root (digest data)) as [d|] eqn:Ed; [|by apply Hins].
    destruct (0 <? slen d); [|by apply Hins]. case_decide as E; [|done]. subst k. rewrite Hl, Ed. f_equal. by apply Hc.
  - intros k w d Hf Hv. change (FSStore_Get root k w = (Ok d, w)). by rewrite fs_get_run, Hv.
  - intros k w Hf Hv. change (is_ok (FSStore_Get root k w).1 = false ∧ (FSStore_Get root k w).2 = w).
    rewrite fs_get_run, Hv by done. by destruct (slen k <? 4).
Defined.
End fs_spec.

(** * Properties *)

(** A stand-in for SHA-256 with its shape: 64 characters. *)
Definition toy_digest (s : string) : string :=
  stake 64 (s +:+ "0000000000000000000000000000000000000000000000000000000000000000").
Lemma toy_digest_len s : slen (toy_digest s) = 64.
Proof. unfold slen, toy_digest. rewrite string_length_stake; [done|]. rewrite string_length_app. simpl. lia. Qed.

(** Every stored row is referenced. *)
Definition refcounts_pos (w : World) : Prop := Forall (λ b, 1 ≤ blob_refcount b) (rows (blobs (w_db w))).

(** The rows [Delete] leaves of a list of rows. *)
Definition deleted_rows (key : string) (l : list BlobRow) : list BlobRow :=
  filter (λ b, ¬ (blob_key b = key ∧ blob_refcount b ≤ 0))
    ((λ b, if decide (blob_key b = key) then bump (-1) b else b) <$> l).

Lemma deleted_rows_shared key l :
  Forall (λ b, 1 ≤ blob_refcount b) l →
  deleted_rows key ((λ b, if decide (blob_key b = key) then bump 1 b else b) <$> l) = l.
Proof.
  unfold deleted_rows. induction 1 as [|b l Hb _ IH]; [done|]. cbn [list_fmap fmap]. unfold fmap in IH.
  rewrite filter_cons. destruct (decide (blob_key b = key)) as [E|E].
  - cbn [bump blob_key]. rewrite !(decide_True (P := blob_key b = key)) by done. cbn [bump blob_key blob_refcount].
    rewrite decide_True by lia. f_equal; [|exact IH]. unfold bump. destruct b; cbn. f_equal. lia.
  - rewrite !(decide_False (P := blob_key b = key)) by done. rewrite decide_True by tauto. f_equal. exact IH.
Qed.

Lemma deleted_rows_other key l : (∀ b, b ∈ l → blob_key b ≠ key) → deleted_rows key l = l.
Proof.
  unfold deleted_rows. induction l as [|b l IH]; intros Hl; [done|]. cbn [list_fmap fmap]. unfold fmap in IH.
  rewrite (decide_False (P := blob_key b = key)) by (apply Hl; left). rewrite filter_cons.
  rewrite decide_True by (intros [E _]; by apply (Hl b); [left|]). f_equal. apply IH. intros x Hx. apply Hl. by right.
Qed.

Lemma deleted_rows_fresh key data n l :
  (∀ b, b ∈ l → blob_key b ≠ key) → deleted_rows key (l ++ [mkBlobRow key data (slen data) n 1]) = l.
Proof.
  intros Hl. rewrite <- (deleted_rows_other key l Hl) at 2. unfold deleted_rows. rewrite fmap_app, filter_app.
  cbn [list_fmap fmap blob_key]. rewrite decide_True by done. rewrite filter_cons. cbn [bump blob_key blob_refcount].
  rewrite decide_False by (intros Hx; apply Hx; split; [done|lia]). by rewrite filter_nil, app_nil_r.
Qed.

Lemma sqlite_put_run digest data w :
  w_faults w = [] → SQLiteStore_Put digest (Ok data) w =
    (Ok (digest data, slen data), set_db (sql_upsert_blob (digest data) data (w_now w / second) (w_db w)).2 w).
Proof.
  intros Hf. unfold SQLiteStore_Put, sha256Key, sbind, time_now_unix. rewrite stmt_ok_run by done.
  unfold sql_upsert_blob. by case_decide.
Qed.

Lemma sqlite_delete_run key w :
  w_faults w = [] → SQLiteStore_Delete key w =
    (Ok tt, set_db (set_blobs (mkTable (deleted_rows key (rows (blobs (w_db w)))) (seq_ (blobs (w_db w)))) (w_db w)) w).
Proof.
  intros Hf. unfold SQLiteStore_Delete, sbind. rewrite stmt_ok_run by done. cbn [fst snd sql_decrement_blob].
  rewrite stmt_ok_run by done. cbn [fst snd sql_delete_blob]. by rewrite set_db_set_db.
Qed.

(** Reference counting in the SQLite store: putting a blob and deleting it
    again leaves the table exactly as it was, so in particular a blob that other
    messages share stays readable. *)
Theorem sqlite_put_delete_neutral (digest : string → string) (data : string) (w : World) :
  w_faults w = [] → refcounts_pos w →
  let w' := (SQLiteStore_Delete (digest data) (SQLiteStore_Put digest (Ok data) w).2).2 in
  rows (blobs (w_db w')) = rows (blobs (w_db w)) ∧
  ∀ k, (SQLiteStore_Get k w').1 = (SQLiteStore_Get k w).1.
Proof.
  intros Hf Hr w'. set (key := digest data) in *.
  assert (w_faults w' = [] ∧ rows (blobs (w_db w')) = rows (blobs (w_db w))) as [Hf' E].
  { unfold w'. rewrite sqlite_put_run by done. fold key. cbn [snd].
    unfold sql_upsert_blob. case_decide as Hk; cbn [fst snd]; rewrite sqlite_delete_run by done; (split; [done|]);
      cbn; [by apply deleted_rows_shared|].
    apply deleted_rows_fresh. intros b Hb Eb. apply Hk. rewrite <- Eb. by apply list_elem_of_fmap_2. }
  split; [done|]. intros k. rewrite !sqlite_get_run by done. unfold sqlite_view, select. by rewrite E.
Qed.

Lemma sqlite_put_delete_neutral_witness :
  let w := (SQLiteStore_Put toy_digest (Ok "shared") demo_world).2 in
  let w' := (SQLiteStore_Delete (toy_digest "shared") (SQLiteStore_Put toy_digest (Ok "shared") w).2).2 in
  (SQLiteStore_Get (toy_digest "shared") w').1 = Ok "shared".
Proof.
  intros w w'. destruct (sqlite_put_delete_neutral toy_digest "shared" w) as [_ E].
  - reflexivity.
  - vm_compute. repeat constructor. discriminate.
  - etransitivity; [exact (E (toy_digest "shared"))|vm_compute; reflexivity].
Defined.

(** The filesystem store shares a blob between equal messages without
    counting references: putting a blob that is already stored and deleting it
    again, which is what an aborted local delivery does, removes it for every
    message that uses it. *)
Theorem fs_delete_loses_shared_blob (digest : string → string) (root data : string) (w : World) :
  (∀ x, slen (digest x) = 64) → w_faults w = [] →
  (FSStore_Get root (digest data) w).1 = Ok data →
  let w' := (FSStore_Delete root (digest data) (FSStore_Put digest root (Ok data) w).2).2 in
  ∃ e, (FSStore_Get root (digest data) w').1 = Err e ∧ errors_is e ErrNotExist = true.
Proof.
  intros Hl Hf Hg w'. set (key := digest data) in *. assert (slen key <? 4 = false) as Hk by (unfold key; by rewrite Hl).
  assert (w_faults w' = [] ∧ w_files w' !! blob_path root key = None) as [Hf' Hn].
  { unfold w'. rewrite fs_put_run by done. cbn [snd]. fold key.
    set (w1 := match w_files w !! blob_path root key with Some _ => _ | None => _ end).
    assert (w_faults w1 = []) as Hf1 by (unfold w1; by repeat case_match). clearbody w1.
    unfold FSStore_Delete. rewrite Hk. unfold os_Remove, sbind. rewrite os_call_run by done.
    destruct (w_files w1 !! blob_path root key) eqn:E; cbn; [by rewrite lookup_delete_eq|done]. }
  rewrite fs_get_run by done. unfold fs_view. rewrite Hk, Hn. cbn [fst]. eexists. split; [reflexivity|done].
Qed.

Lemma fs_delete_loses_shared_blob_witness :
  let w := (FSStore_Put toy_digest "/b" (Ok "shared") demo_world).2 in
  ∃ e, (FSStore_Get "/b" (toy_digest "shared")
    (FSStore_Delete "/b" (toy_digest "shared") (FSStore_Put toy_digest "/b" (Ok "shared") w).2).2).1 = Err e ∧
    errors_is e ErrNotExist = true.
Proof.
  intros w. apply (fs_delete_loses_shared_blob toy_digest "/b" "shared" w toy_digest_len); vm_compute; reflexivity.
Defined.

(** * The stores as abstract maps *)
Inductive blob_op := OpPut (r : res string) | OpGet (key : string) | OpDelete (key : string) | OpExists (key : string).
Inductive blob_answer :=
  | APut (r : res (string * Z)) | AGet (r : res string) | ADelete (r : res unit) | AExists (r : res bool).

Definition run_op `{ST : Store} (op : blob_op) : state World blob_answer :=
  match op with
  | OpPut r => let! a := Put r in sret (APut a)
  | OpGet k => let! a := Get k in sret (AGet a)
  | OpDelete k => let! a := Delete k in sret (ADelete a)
  | OpExists k => let! a := Exists k in sret (AExists a)
  end.

(** A sequence of operations under any step function, with all the answers. *)
Fixpoint run_seq {S} (step : blob_op → state S blob_answer) (ops : list blob_op) : state S (list blob_answer) :=
  match ops with
  | [] => sret []
  | op :: ops => let! a := step op in let! l := run_seq step ops in sret (a :: l)
  end.

(** A step function that simulates another one simulates its sequences. *)
Lemma run_seq_refines {S T} (R : S → T → Prop) (f : blob_op → state S blob_answer) (g : blob_op → state T blob_answer) ops s t :
  (∀ op s t, R s t → (f op s).1 = (g op t).1 ∧ R (f op s).2 (g op t).2) → R s t →
  (run_seq f ops s).1 = (run_seq g ops t).1 ∧ R (run_seq f ops s).2 (run_seq g ops t).2.
Proof.
  intros Hstep. revert s t. induction ops as [|op ops IH]; intros s t HR; [done|].
  cbn [run_seq]. unfold sbind. destruct (Hstep op s t HR) as [E HR1].
  destruct (f op s) as [a s1], (g op t) as [b t1]. cbn [fst snd] in *. subst b.
  destruct (IH s1 t1 HR1) as [E2 HR2]. destruct (run_seq f ops s1), (run_seq g ops t1). cbn in *. by subst.
Qed.

Section refines.
Context (digest : string → string).

(** What the SQLite store is meant to be: contents with reference counts. *)
Definition counted_op (op : blob_op) : state (gmap string (string * Z)) blob_answer := λ m,
  match op with
  | OpPut (Err err) => (APut (Err (wrap "blobstore: read: " err)), m)
  | OpPut (Ok data) =>
      (APut (Ok (digest data, slen data)),
       match m !! digest data with
       | Some (d, n) => <[digest data := (d, n + 1)]> m
       | None => <[digest data := (data, 1)]> m
       end)
  | OpGet k =>
      (AGet (match m !! k with
             | Some (d, _) => Ok d
             | None => Err (wrap "blobstore: not found: " (Sentinel ErrNoRows))
             end), m)
  | OpDelete k =>
      (ADelete (Ok tt),
       match m !! k with
       | Some (d, n) => if n <=? 1 then delete k m else <[k := (d, n - 1)]> m
       | None => m
       end)
  | OpExists k => (AExists (Ok (bool_decide (is_Some (m !! k)))), m)
  end.

(** What the filesystem store is: contents without counts.  A file that is not
    empty is kept; a key of fewer than four characters panics. *)
Definition plain_op (op : blob_op) : state (gmap string string) blob_answer := λ m,
  match op with
  | OpPut (Err err) => (APut (Err (wrap "blobstore: read: " err)), m)
  | OpPut (Ok data) =>
      (APut (Ok (digest data, slen data)),
       match m !! digest data with
       | Some d => if String.eqb d "" then <[digest data := data]> m else m
       | None => <[digest data := data]> m
       end)
  | OpGet k =>
      (AGet (if slen k <? 4 then Err slice_panic else
             match m !! k with
             | Some d => Ok d
             | None => Err (wrap "blobstore: not found: " (Sentinel ErrNotExist))
             end), m)
  | OpDelete k => if slen k <? 4 then (ADelete (Err slice_panic), m) else (ADelete (Ok tt), delete k m)
  | OpExists k =>
      (AExists (if slen k <? 4 then Err slice_panic else Ok (bool_decide (is_Some (m !! k)))), m)
  end.

End refines.

(** The map a table of blobs stands for. *)
Definition counted_map (l : list BlobRow) : gmap string (string * Z) :=
  list_to_map ((λ b, (blob_key b, (blob_data b, blob_refcount b))) <$> l).

Definition sqlite_holds (w : World) (m : gmap string (string * Z)) : Prop :=
  w_faults w = [] ∧ NoDup (blob_key <$> rows (blobs (w_db w))) ∧ m = counted_map (rows (blobs (w_db w))).

Definition fs_holds (root : string) (w : World) (m : gmap string string) : Prop :=
  w_faults w = [] ∧ ∀ k, 4 ≤ slen k → m !! k = w_files w !! blob_path root k.
(** ** SQLite *)
Lemma counted_map_lookup l k : is_Some (counted_map l !! k) ↔ k ∈ blob_key <$> l.
Proof.
  induction l as [|b l IH]; [by rewrite elem_of_nil; split; [intros []|]|].
  change (counted_map (b :: l)) with (<[blob_key b := (blob_data b, blob_refcount b)]> (counted_map l)).
  rewrite fmap_cons, elem_of_cons, lookup_insert_is_Some', IH. split; intros [->|H]; auto.
Qed.

Lemma counted_map_bump n k l :
  counted_map ((λ b, if decide (blob_key b = k) then bump n b else b) <$> l) =
  alter (λ p, (p.1, p.2 + n)) k (counted_map l).
Proof.
  induction l as [|b l IH]; [by apply map_eq; intros k'; unfold counted_map; cbn; rewrite lookup_alter, lookup_empty; case_decide|].
  set (f := λ p : string * Z, (p.1, p.2 + n)) in *.
  assert (∀ x y, counted_map (x :: y) = <[blob_key x := (blob_data x, blob_refcount x)]> (counted_map y)) as Hcons by done.
  rewrite fmap_cons, !Hcons, IH. clear Hcons IH. destruct (decide (blob_key b = k)) as [<-|Hne].
  - apply map_eq. intros k'. destruct (decide (k' = blob_key b)) as [->|Hk].
    + rewrite lookup_alter_eq. cbn [bump blob_key]. by rewrite !lookup_insert_eq.
    + rewrite (lookup_alter_ne f _ (blob_key b) k') by done. cbn [bump blob_key]. rewrite !lookup_insert_ne by done.
      by rewrite lookup_alter_ne by done.
  - apply map_eq. intros k'. destruct (decide (k' = k)) as [->|Hk].
    + rewrite lookup_alter_eq, !lookup_insert_ne by done. by rewrite lookup_alter_eq.
    + rewrite (lookup_alter_ne f _ k k') by done. destruct (decide (k' = blob_key b)) as [->|Hk'];
        [by rewrite !lookup_insert_eq|]. rewrite !lookup_insert_ne by done. by rewrite lookup_alter_ne by done.
Qed.

Lemma filter_other k (l : list BlobRow) : k ∉ blob_key <$> l → filter (λ b, ¬ (blob_key b = k ∧ blob_refcount b ≤ 0)) l = l.
Proof.
  induction l as [|b l IH]; [done|]. rewrite fmap_cons, not_elem_of_cons. intros [Hb Hl]. rewrite filter_cons.
  rewrite decide_True by (intros [E _]; by apply Hb). by rewrite IH.
Qed.

Lemma counted_map_snoc b l :
  blob_key b ∉ blob_key <$> l → counted_map (l ++ [b]) = <[blob_key b := (blob_data b, blob_refcount b)]> (counted_map l).
Proof.
  induction l as [|x l IH]; [done|]. rewrite fmap_cons, not_elem_of_cons. intros [Hx Hl].
  change (<[blob_key x := (blob_data x, blob_refcount x)]> (counted_map (l ++ [b])) =
    <[blob_key b := (blob_data b, blob_refcount b)]> (<[blob_key x := (blob_data x, blob_refcount x)]> (counted_map l))).
  rewrite IH by done. apply insert_insert_ne. by intros E.
Qed.

Lemma counted_map_swept k (l : list BlobRow) :
  NoDup (blob_key <$> l) →
  counted_map (filter (λ b, ¬ (blob_key b = k ∧ blob_refcount b ≤ 0)) l) =
  match counted_map l !! k with Some (_, n) => if n <=? 0 then delete k (counted_map l) else counted_map l | None => counted_map l end.
Proof.
  induction l as [|b l IH]; [done|]. rewrite fmap_cons, NoDup_cons. intros [Hb Hn]. specialize (IH Hn).
  assert (∀ x, counted_map (b :: x) = <[blob_key b := (blob_data b, blob_refcount b)]> (counted_map x)) as Hcons by done.
  rewrite filter_cons, Hcons. destruct (decide (blob_key b = k)) as [<-|Hne].
  - rewrite lookup_insert_eq. assert (counted_map l !! blob_key b = None) as Hnone.
    { apply eq_None_not_Some. by rewrite counted_map_lookup. }
    destruct (Z.leb_spec (blob_refcount b) 0).
    + rewrite decide_False by tauto. by rewrite delete_insert_id, filter_other.
    + rewrite decide_True by lia. by rewrite Hcons, filter_other.
  - rewrite lookup_insert_ne by done. rewrite decide_True by tauto. rewrite Hcons, IH.
    destruct (counted_map l !! k) as [[d n]|]; [|done]. destruct (n <=? 0); [|done]. by rewrite delete_insert_ne.
Qed.

Section simulation.
Context (digest : string → string).

Lemma sqlite_refines_counted op w m :
  sqlite_holds w m →
  let r := run_op (ST := SQLiteStore digest) op w in
  r.1 = (counted_op digest op m).1 ∧ sqlite_holds r.2 (counted_op digest op m).2.
Proof using.
  intros (Hf & Hn & ->). set (l := rows (blobs (w_db w))) in *. destruct op as [[data|err]|k|k|k]; cbn zeta.
  - assert (run_op (ST := SQLiteStore digest) (OpPut (Ok data)) w =
      (APut (Ok (digest data, slen data)), set_db (sql_upsert_blob (digest data) data (w_now w / second) (w_db w)).2 w)) as ->.
    { cbn [run_op Put SQLiteStore]. unfold sbind. by rewrite sqlite_put_run. }
    split; [done|]. split; [done|]. cbn [counted_op fst snd]. unfold sql_upsert_blob. fold l.
    pose proof (counted_map_lookup l (digest data)) as Hin.
    destruct (decide _) as [Hk|Hk]; cbn [snd w_db set_db blobs set_blobs rows update_rows insert_row].
    + destruct (proj2 Hin Hk) as [[d n] E]. rewrite E. fold l. split; [|rewrite counted_map_bump].
      * rewrite <- list_fmap_compose. erewrite list_fmap_ext; [exact Hn|]. intros i b _. cbn. by case_decide.
      * apply map_eq. intros k'. destruct (decide (k' = digest data)) as [->|Hne];
          [by rewrite lookup_insert_eq, lookup_alter_eq, E|by rewrite lookup_insert_ne, lookup_alter_ne].
    + assert (counted_map l !! digest data = None) as E by (apply eq_None_not_Some; tauto). rewrite E. split.
      * rewrite fmap_app. apply NoDup_app. split; [exact Hn|]. split; [|constructor; [apply not_elem_of_nil|constructor]].
        intros x Hx ->%list_elem_of_singleton. by apply Hk.
      * symmetry. by apply (counted_map_snoc (mkBlobRow _ _ _ _ _)).
  - split; [done|]. split; done.
  - cbn [run_op Get SQLiteStore]. unfold sbind. rewrite sqlite_get_run by done. cbn [fst snd sret]. split; [|done].
    cbn [counted_op fst]. unfold sqlite_view, select. fold l.
    assert (counted_map l !! k = (λ b, (blob_data b, blob_refcount b)) <$> head (filter (λ b, blob_key b = k) l)) as ->;
      [|by destruct (head _)]. clear. induction l as [|b l IH]; [done|].
    change (counted_map (b :: l)) with (<[blob_key b := (blob_data b, blob_refcount b)]> (counted_map l)). rewrite filter_cons.
    destruct (decide (blob_key b = k)) as [<-|Hne]; [by rewrite lookup_insert_eq|by rewrite lookup_insert_ne].
  - cbn [run_op Delete SQLiteStore]. unfold sbind. rewrite sqlite_delete_run by done. cbn [fst snd sret].
    split; [done|]. split; [done|]. fold l. cbn [w_db set_db blobs set_blobs rows]. unfold deleted_rows.
    set (l' := (λ b, _) <$> l).
    assert (blob_key <$> l' = blob_key <$> l) as El.
    { unfold l'. rewrite <- list_fmap_compose. apply list_fmap_ext. intros i b _. cbn. by case_decide. }
    assert (NoDup (blob_key <$> l')) as Hn' by by rewrite El.
    split; [eapply sublist_NoDup; [exact Hn'|apply fmap_sublist, sublist_filter]|].
    rewrite counted_map_swept by exact Hn'. unfold l'. rewrite counted_map_bump, lookup_alter_eq. cbn [counted_op snd].
    destruct (counted_map l !! k) as [[d n]|] eqn:E; cbn [option_fmap option_map fmap fst snd].
    + destruct (Z.leb_spec n 1), (Z.leb_spec (n + -1) 0); try lia.
      * apply map_eq. intros k'. destruct (decide (k' = k)) as [->|Hne]; [by rewrite !lookup_delete_eq|].
        by rewrite !lookup_delete_ne, lookup_alter_ne.
      * apply map_eq. intros k'. destruct (decide (k' = k)) as [->|Hne];
          [by rewrite lookup_insert_eq, lookup_alter_eq, E|by rewrite lookup_insert_ne, lookup_alter_ne].
    + apply map_eq. intros k'. destruct (decide (k' = k)) as [->|Hne]; [by rewrite lookup_alter_eq, E|by rewrite lookup_alter_ne].
  - cbn [run_op Exists SQLiteStore]. unfold SQLiteStore_Exists, sbind. rewrite query_run by done. cbn [fst snd sret counted_op].
    split; [|done]. do 2 f_equal. rewrite (bool_decide_ext _ _ (counted_map_lookup l k)). unfold affected, select. fold l.
    symmetry. apply eq_bool_prop_intro. rewrite bool_decide_spec, Is_true_true, Z.ltb_lt. split.
    + intros (b & -> & Hb)%list_elem_of_fmap.
      assert (b ∈ filter (λ x, blob_key x = blob_key b) l) as Hin by by apply list_elem_of_filter.
      destruct (filter _ l); [by apply elem_of_nil in Hin|cbn; lia].
    + destruct (filter _ l) as [|b bs] eqn:E; [cbn; lia|]. intros _.
      assert (b ∈ filter (λ x, blob_key x = k) l) as [<- Hb]%list_elem_of_filter by (rewrite E; left).
      by apply list_elem_of_fmap_2.
Qed.

(** ** The file system *)
Context (root : string) (digest_len : ∀ data, slen (digest data) = 64).

Lemma fs_holds_insert w m k d :
  4 ≤ slen k → fs_holds root w m → fs_holds root (set_files (<[blob_path root k := d]> (w_files w)) w) (<[k := d]> m).
Proof using.
  intros Hk [Hf Hm]. split; [done|]. intros k' Hk'. cbn [w_files set_files]. destruct (decide (k' = k)) as [->|Hne];
    [by rewrite !lookup_insert_eq|]. rewrite !lookup_insert_ne; [by apply Hm| |done].
  intros E. apply Hne. symmetry. apply (blob_path_inj root) in E; [done|by apply Z.ltb_ge..].
Qed.

Lemma fs_refines_plain op w m :
  fs_holds root w m →
  let r := run_op (ST := FSStore digest root) op w in
  r.1 = (plain_op digest op m).1 ∧ fs_holds root r.2 (plain_op digest op m).2.
Proof using digest_len.
  intros Hw. pose proof Hw as [Hf Hm]. destruct op as [[data|err]|k|k|k]; cbn zeta.
  - cbn [run_op Put FSStore]. unfold sbind. rewrite fs_put_run by done. cbn [fst snd sret plain_op].
    assert (4 ≤ slen (digest data)) as Hk by by rewrite digest_len.
    split; [done|]. rewrite <- (Hm _ Hk). destruct (m !! digest data) as [d|]; [|by apply fs_holds_insert].
    destruct (String.eqb_spec d "") as [->|Hd]; [by apply fs_holds_insert|]. by rewrite slen_pos.
  - split; [done|]. done.
  - cbn [run_op Get FSStore]. unfold sbind. rewrite fs_get_run by done. cbn [fst snd sret plain_op]. split; [|done].
    unfold fs_view. destruct (Z.ltb_spec (slen k) 4); [done|]. by rewrite Hm.
  - cbn [run_op Delete FSStore plain_op]. unfold FSStore_Delete, sbind. destruct (Z.ltb_spec (slen k) 4) as [Hk|Hk]; [done|].
    unfold os_Remove, sbind. rewrite os_call_run by done. rewrite <- (Hm k Hk). destruct (m !! k) as [d|] eqn:E; cbn [fst snd sret].
    + split; [done|]. split; [done|]. intros k' Hk'. cbn [w_files set_files]. destruct (decide (k' = k)) as [->|Hne];
        [by rewrite !lookup_delete_eq|]. rewrite !lookup_delete_ne; [by apply Hm| |done].
      intros E'. apply Hne. symmetry. apply (blob_path_inj root) in E'; [done|by apply Z.ltb_ge..].
    + split; [done|]. rewrite set_files_same, delete_id by done. exact Hw.
  - cbn [run_op Exists FSStore plain_op]. unfold FSStore_Exists, sbind. destruct (Z.ltb_spec (slen k) 4) as [Hk|Hk]; [done|].
    unfold os_Stat, sbind. rewrite os_call_run by done. cbn [fst snd]. rewrite (Hm k Hk), set_files_same. by destruct (w_files w !! _).
Qed.
End simulation.

(** C29.  What the two local blob stores implement, for any sequence of operations on
    which nothing fails.  The SQLite store gives the answers of a map from keys to
    contents with reference counts: [Put] adds a reference and keeps the stored
    content, [Delete] takes one away and removes the content with the last.
    The filesystem store gives those of a map from keys to contents without counts:
    one [Delete] removes what any number of [Put]s stored, a stored content that is
    not empty is never replaced, and a key of fewer than four characters panics.
    At the end the table, or the files under the root, still stand for the map. *)
Theorem blob_stores_refine (digest : string → string) (root : string) (ops : list blob_op) (w : World)
    (m : gmap string (string * Z)) (f : gmap string string) :
  (∀ data, slen (digest data) = 64) → sqlite_holds w m → fs_holds root w f →
  let sqlite := run_seq (run_op (ST := SQLiteStore digest)) ops w in
  let fs := run_seq (run_op (ST := FSStore digest root)) ops w in
  sqlite.1 = (run_seq (counted_op digest) ops m).1 ∧ sqlite_holds sqlite.2 (run_seq (counted_op digest) ops m).2 ∧
  fs.1 = (run_seq (plain_op digest) ops f).1 ∧ fs_holds root fs.2 (run_seq (plain_op digest) ops f).2.
Proof.
  intros Hl Hm Hf sqlite fs.
  destruct (run_seq_refines sqlite_holds _ _ ops w m (sqlite_refines_counted digest) Hm) as [H1 H2].
  destruct (run_seq_refines (fs_holds root) _ _ ops w f (fs_refines_plain digest root Hl) Hf) as [H3 H4]. done.
Qed.

(** Shared by two messages and deleted for one: SQLite still has it, the files do not. *)
Lemma blob_stores_refine_witness :
  let ops := [OpPut (Ok "mail"); OpPut (Ok "mail"); OpDelete (toy_digest "mail"); OpGet (toy_digest "mail"); OpExists "abc"] in
  (run_seq (run_op (ST := SQLiteStore toy_digest)) ops demo_world).1 =
    [APut (Ok (toy_digest "mail", 4)); APut (Ok (toy_digest "mail", 4)); ADelete (Ok tt); AGet (Ok "mail"); AExists (Ok false)] ∧
  (run_seq (run_op (ST := FSStore toy_digest "/b")) ops demo_world).1 =
    [APut (Ok (toy_digest "mail", 4)); APut (Ok (toy_digest "mail", 4)); ADelete (Ok tt);
     AGet (Err (wrap "blobstore: not found: " (Sentinel ErrNotExist))); AExists (Err slice_panic)].
Proof.
  intros ops. destruct (blob_stores_refine toy_digest "/b" ops demo_world ∅ ∅) as (-> & _ & -> & _).
  - exact toy_digest_len.
  - split; [reflexivity|]. split; [constructor|reflexivity].
  - split; [reflexivity|]. intros k _. by rewrite !lookup_empty.
  - split; vm_compute; reflexivity.
Defined.
