(* ===== verification/S3.v ===== *)
(** The S3 blob store (src/pkg/blobstore/s3.go).  The AWS client is an argument: a
    type class of the four calls the store makes, with the documented behaviour of
    the service (strong consistency, NoSuchKey and 404 for absent objects,
    idempotent deletion) as its laws.  The store is an instance of the interface
    of Blob.v and meets its contract, so everything proved of the other
    components against that interface holds with this store too. *)
From S2P Require Import Prelude GoLib Cache Sql Schema World StoreUsers StoreMail Blob.

(** * The client *)

(** An error of the SDK, as [errors.As] takes it apart: whether its chain holds a
    [types.NoSuchKey], and the status of the [ResponseError] in it. *)
Record s3_error := mkS3Error { as_NoSuchKey : bool; as_ResponseError : option Z; s3_cause : error }.

Class S3Client := mkS3Client {
  PutObject : string → string → string → state World (s3_error + unit);
  GetObject : string → string → state World (s3_error + string);
  DeleteObject : string → string → state World (s3_error + unit);
  HeadObject : string → string → state World (s3_error + unit);
}.

(** * s3.go *)

(** The configuration the SDK loads, and how it makes a client of it; the second
    argument is the endpoint, with path-style addressing. *)
Record AwsSdk := mkAwsSdk {
  aws_config : Type;
  LoadDefaultConfig : string → res aws_config;
  NewFromConfig : aws_config → option string → S3Client;
}.

Record S3Store_ := mkS3Store { s3_client : option S3Client; s3_bucket : string; s3_prefix : string }.

Definition WithS3Client (client : S3Client) (s : S3Store_) : S3Store_ :=
  mkS3Store (Some client) (s3_bucket s) (s3_prefix s).

Definition NewS3Store (sdk : AwsSdk) (bucket prefix endpoint region : string) (opts : list (S3Store_ → S3Store_)) : res S3Store_ :=
  let s := foldl (λ s opt, opt s) (mkS3Store None bucket prefix) opts in
  match s3_client s with
  | Some _ => Ok s
  | None =>
      match LoadDefaultConfig sdk region with
      | Err err => Err (wrap "blobstore: aws config: " err)
      | Ok cfg =>
          let client := NewFromConfig sdk cfg (if String.eqb endpoint "" then None else Some endpoint) in
          Ok (mkS3Store (Some client) (s3_bucket s) (s3_prefix s))
      end
  end.

Section s3.
Context (digest : string → string) `{C : S3Client} (bucket prefix : string).

Definition objectKey (key : string) : string := prefix +:+ key.

Definition S3Store_Exists (key : string) : state World (res bool) :=
  let! r := HeadObject bucket (objectKey key) in
  match r with
  | inr _ => sret (Ok true)
  | inl err =>
      if bool_decide (as_ResponseError err = Some 404) then sret (Ok false)
      else if as_NoSuchKey err then sret (Ok false)
      else sret (Err (wrap "blobstore: s3 head: " (s3_cause err)))
  end.

(** A failing existence check does not stop the upload. *)
Definition S3Store_Put (r : res string) : state World (res (string * Z)) :=
  match sha256Key digest r with
  | Err err => sret (Err err)
  | Ok (key, data, size) =>
      let! exists_ := S3Store_Exists key in
      match exists_ with
      | Ok true => sret (Ok (key, size))
      | _ =>
          let! r := PutObject bucket (objectKey key) data in
          match r with
          | inl err => sret (Err (wrap "blobstore: s3 put: " (s3_cause err)))
          | inr _ => sret (Ok (key, size))
          end
      end
  end.

Definition S3Store_Get (key : string) : state World (res string) :=
  let! r := GetObject bucket (objectKey key) in
  match r with
  | inl err =>
      if as_NoSuchKey err then sret (Err (wrap "blobstore: not found: " (s3_cause err)))
      else sret (Err (wrap "blobstore: s3 get: " (s3_cause err)))
  | inr body => sret (Ok body)
  end.

Definition S3Store_Delete (key : string) : state World (res unit) :=
  let! r := DeleteObject bucket (objectKey key) in
  match r with
  | inl err => sret (Err (wrap "blobstore: s3 delete: " (s3_cause err)))
  | inr _ => sret (Ok tt)
  end.

Definition S3Store : Store := mkStore S3Store_Put S3Store_Get S3Store_Delete S3Store_Exists.
End s3.

(** * What the service promises *)

(** [objects w b k] is the content of the object [k] of bucket [b]; the buckets are
    part of the file state of the world. *)
Class S3ClientSpec (C : S3Client) := {
  objects : World → string → string → option string;
  objects_ext w w' : w_files w = w_files w' → objects w = objects w';
  s3_framed b k d : framed (PutObject b k d) ∧ framed (GetObject b k) ∧ framed (DeleteObject b k) ∧ framed (HeadObject b k);
  s3_wf b k d : pres wf (PutObject b k d) ∧ pres wf (GetObject b k) ∧ pres wf (DeleteObject b k) ∧ pres wf (HeadObject b k);
  s3_quiet b k d :
    pres quiet (PutObject b k d) ∧ pres quiet (GetObject b k) ∧ pres quiet (DeleteObject b k) ∧ pres quiet (HeadObject b k);
  put_object b k d w : w_faults w = [] →
    ∃ w', PutObject b k d w = (inr tt, w') ∧
      ∀ b' k', objects w' b' k' = if decide ((b', k') = (b, k)) then Some d else objects w b' k';
  get_object b k w : w_faults w = [] →
    match objects w b k with
    | Some d => GetObject b k w = (inr d, w)
    | None => ∃ e, GetObject b k w = (inl e, w) ∧ as_NoSuchKey e = true
    end;
  delete_object b k w : w_faults w = [] →
    ∃ w', DeleteObject b k w = (inr tt, w') ∧
      ∀ b' k', objects w' b' k' = if decide ((b', k') = (b, k)) then None else objects w b' k';
  head_object b k w : w_faults w = [] →
    match objects w b k with
    | Some d => HeadObject b k w = (inr tt, w)
    | None => ∃ e, HeadObject b k w = (inl e, w) ∧ as_ResponseError e = Some 404
    end;
}.

Section spec.
Context (digest : string → string) `{C : S3Client} `{!S3ClientSpec C} (bucket prefix : string).

Definition s3_view (w : World) (k : string) : option string := objects w bucket (objectKey prefix k).

Lemma objectKey_inj k k' : objectKey prefix k = objectKey prefix k' → k = k'.
Proof. apply string_app_inj_l. Qed.

Lemma s3_exists_run k w :
  w_faults w = [] → S3Store_Exists bucket prefix k w = (Ok (bool_decide (is_Some (s3_view w k))), w).
Proof.
  intros Hf. unfold S3Store_Exists, sbind, s3_view. pose proof (head_object bucket (objectKey prefix k) w Hf) as H.
  destruct (objects w bucket (objectKey prefix k)) as [d|].
  - rewrite H. by rewrite bool_decide_eq_true_2.
  - destruct H as (e & -> & Ee). rewrite bool_decide_eq_true_2 by done. rewrite bool_decide_eq_false_2; [done|]. by intros [? ?].
Qed.

Lemma s3_get_run k w :
  w_faults w = [] →
  ∃ e, S3Store_Get bucket prefix k w =
       (match s3_view w k with Some d => Ok d | None => Err (wrap "blobstore: not found: " e) end, w).
Proof.
  intros Hf. unfold S3Store_Get, sbind, s3_view. pose proof (get_object bucket (objectKey prefix k) w Hf) as H.
  destruct (objects w bucket (objectKey prefix k)) as [d|].
  - rewrite H. by exists io_error.
  - destruct H as (e & -> & Ee). rewrite Ee. by exists (s3_cause e).
Qed.

(** The other buckets, and the keys without the prefix. *)
Definition elsewhere (b k : string) : Prop := b ≠ bucket ∨ ∀ k', k ≠ prefix +:+ k'.

Lemma s3_put_run data w :
  w_faults w = [] → (∀ d, s3_view w (digest data) = Some d → d = data) →
  let out := S3Store_Put digest bucket prefix (Ok data) w in
  out.1 = Ok (digest data, slen data) ∧
  (∀ k, s3_view out.2 k = if decide (k = digest data) then Some data else s3_view w k) ∧
  (∀ b k, elsewhere b k → objects out.2 b k = objects w b k).
Proof.
  intros Hf Hc out. unfold out, S3Store_Put, sha256Key, sbind. rewrite s3_exists_run by done.
  case_bool_decide as He.
  - cbn. split_and!; try done. intros k. case_decide as E; [|done]. subst k. destruct He as [d Hd]. rewrite Hd. f_equal. by apply Hc.
  - destruct (put_object bucket (objectKey prefix (digest data)) data w Hf) as (w' & -> & Ho). cbn. split; [done|]. split.
    + intros k. unfold s3_view. rewrite Ho. case_decide as E; case_decide as E'; try done; [|by subst].
      injection E as E. exfalso. by apply E', objectKey_inj.
    + intros b k Hb. rewrite Ho. case_decide as E; [|done]. injection E as -> ->. destruct Hb as [?|Hb]; [done|]. by destruct (Hb (digest data)).
Qed.

Lemma s3_delete_run key w :
  w_faults w = [] →
  let out := S3Store_Delete bucket prefix key w in
  out.1 = Ok tt ∧
  (∀ k, s3_view out.2 k = if decide (k = key) then None else s3_view w k) ∧
  (∀ b k, elsewhere b k → objects out.2 b k = objects w b k).
Proof.
  intros Hf out. unfold out, S3Store_Delete, sbind.
  destruct (delete_object bucket (objectKey prefix key) w Hf) as (w' & -> & Ho). cbn. split; [done|]. split.
  - intros k. unfold s3_view. rewrite Ho. case_decide as E; case_decide as E'; try done; [|by subst].
    injection E as E. exfalso. by apply E', objectKey_inj.
  - intros b k Hb. rewrite Ho. case_decide as E; [|done]. injection E as -> ->. destruct Hb as [?|Hb]; [done|]. by destruct (Hb key).
Qed.

(** A call of the client, or of the store on top of it, preserves what the client's
    calls preserve. *)
Ltac client_walk H :=
  repeat first [ apply framed_ret | apply pres_ret | apply framed_bind; [|intros] | apply pres_bind; [|intros]
               | match goal with |- _ (PutObject ?b ?k ?d) => apply (H b k d) | |- _ (GetObject ?b ?k) => apply (H b k "")
                 | |- _ (DeleteObject ?b ?k) => apply (H b k "") | |- _ (HeadObject ?b ?k) => apply (H b k "") end
               | case_match ].

#[export, refine] Instance S3Store_spec : StoreSpec (S3Store digest bucket prefix) digest := {
  view := s3_view;
}.
Proof.
  - intros r. change (framed (S3Store_Put digest bucket prefix r)). unfold S3Store_Put, S3Store_Exists. client_walk s3_framed.
  - intros k. change (framed (S3Store_Get bucket prefix k)). unfold S3Store_Get. client_walk s3_framed.
  - intros k. change (framed (S3Store_Delete bucket prefix k)). unfold S3Store_Delete. client_walk s3_framed.
  - intros r. unfold Put. simpl. unfold S3Store_Put, S3Store_Exists. client_walk s3_wf.
  - intros k. unfold Get. simpl. unfold S3Store_Get. client_walk s3_wf.
  - intros k. unfold Delete. simpl. unfold S3Store_Delete. client_walk s3_wf.
  - intros r. unfold Put. simpl. unfold S3Store_Put, S3Store_Exists. client_walk s3_quiet.
  - intros k. unfold Get. simpl. unfold S3Store_Get. client_walk s3_quiet.
  - intros k. unfold Delete. simpl. unfold S3Store_Delete. client_walk s3_quiet.
  - intros w w' _ Hm k. unfold s3_view. by rewrite (objects_ext w w' Hm).
  - intros data w Hf Hc. destruct (s3_put_run data w Hf Hc) as (H1 & H2 & _). split; [exact H1|]. split; [|exact H2].
    assert (pres quiet (S3Store_Put digest bucket prefix (Ok data))) as Hq
      by (unfold S3Store_Put, S3Store_Exists; client_walk s3_quiet).
    exact (Hq w Hf).
  - intros k w d Hf Hv. change (S3Store_Get bucket prefix k w = (Ok d, w)). destruct (s3_get_run k w Hf) as [e ->]. by rewrite Hv.
  - intros k w Hf Hv. change (is_ok (S3Store_Get bucket prefix k w).1 = false ∧ (S3Store_Get bucket prefix k w).2 = w).
    destruct (s3_get_run k w Hf) as [e ->]. by rewrite Hv.
Defined.

(** C30.  The S3 store implements a map from keys to contents on its own part of the
    service: with nothing failing, [Put] stores the content under its digest,
    [Get] and [Exists] answer from the map, [Delete] removes the key whoever else
    uses it, and objects of other buckets, or without the store's prefix, stay as
    they are. *)
Theorem s3_refines_map (data key : string) (w : World) :
  w_faults w = [] → (∀ d, s3_view w (digest data) = Some d → d = data) →
  let put := S3Store_Put digest bucket prefix (Ok data) w in
  let del := S3Store_Delete bucket prefix key w in
  (put.1 = Ok (digest data, slen data) ∧
   (∀ k, s3_view put.2 k = if decide (k = digest data) then Some data else s3_view w k)) ∧
  (del.1 = Ok tt ∧ ∀ k, s3_view del.2 k = if decide (k = key) then None else s3_view w k) ∧
  (∀ d, S3Store_Get bucket prefix key w = (Ok d, w) ↔ s3_view w key = Some d) ∧
  S3Store_Exists bucket prefix key w = (Ok (bool_decide (is_Some (s3_view w key))), w) ∧
  ∀ b k, elsewhere b k → objects put.2 b k = objects w b k ∧ objects del.2 b k = objects w b k.
Proof.
  intros Hf Hc put del. destruct (s3_put_run data w Hf Hc) as (P1 & P2 & P3). destruct (s3_delete_run key w Hf) as (D1 & D2 & D3).
  split; [done|]. split; [done|]. split; [|split; [by apply s3_exists_run|]].
  - intros d. destruct (s3_get_run key w Hf) as [e ->]. destruct (s3_view w key); split; by intros [= ->].
  - intros b k Hb. split; [by apply P3|by apply D3].
Qed.
End spec.

(** * A service *)

(** A client whose buckets are directories of the file system, the path being an
    injective encoding of bucket and key. *)
Fixpoint object_path (b k : string) : string :=
  match b with
  | "" => "/" +:+ k
  | String c b => "." +:+ String c (object_path b k)
  end.

Lemma object_path_inj b k b' k' : object_path b k = object_path b' k' → (b, k) = (b', k').
Proof.
  revert b'. induction b as [|c b IH]; intros [|c' b']; cbn; intros E; try discriminate.
  - injection E as E. f_equal. exact E.
  - injection E as -> E. by injection (IH b' E) as -> ->.
Qed.

Definition sdk_call {A} (m : state World (res A)) : state World (s3_error + A) :=
  let! r := m in
  match r with
  | Ok a => sret (inr a)
  | Err (Sentinel ErrNotExist as e) => sret (inl (mkS3Error true (Some 404) e))
  | Err e => sret (inl (mkS3Error false (Some 500) e))
  end.

Definition minio : S3Client := {|
  PutObject b k d := sdk_call (os_WriteFile (object_path b k) d);
  GetObject b k := sdk_call (os_ReadFile (object_path b k));
  DeleteObject b k := sdk_call (os_call (λ m, (Ok tt, delete (object_path b k) m)));
  HeadObject b k := sdk_call (let! r := os_Stat (object_path b k) in sret (match r with Ok _ => Ok tt | Err e => Err e end));
|}.

Lemma sdk_framed {A} (m : state World (res A)) : framed m → framed (sdk_call m).
Proof. intros H. apply framed_bind; [done|]. intros r. repeat case_match; apply framed_ret. Qed.
Lemma sdk_pres I {A} (m : state World (res A)) : pres I m → pres I (sdk_call m).
Proof. intros H. apply pres_bind; [done|]. intros r. repeat case_match; apply pres_ret. Qed.

#[export, refine] Instance minio_spec : S3ClientSpec minio := { objects w b k := w_files w !! object_path b k }.
Proof.
  - intros w w' E. by rewrite E.
  - intros b k d. split_and!; apply sdk_framed; try apply framed_os. apply framed_bind; [apply framed_os|intros; apply framed_ret].
  - intros b k d. split_and!; apply sdk_pres; try apply os_call_wf. apply pres_bind; [apply os_call_wf|intros; apply pres_ret].
  - intros b k d. split_and!; apply sdk_pres; try apply os_call_quiet. apply pres_bind; [apply os_call_quiet|intros; apply pres_ret].
  - intros b k d w Hf. cbn. unfold sdk_call, sbind, os_WriteFile. rewrite os_call_run by done. eexists. split; [reflexivity|].
    intros b' k'. cbn. case_decide as E; [injection E as -> ->; apply lookup_insert_eq|].
    apply lookup_insert_ne. intros E'. by apply E, eq_sym, object_path_inj.
  - intros b k w Hf. cbn. unfold sdk_call, sbind, os_ReadFile. rewrite os_call_run by done. cbn. rewrite set_files_same.
    destruct (w_files w !! object_path b k); [done|]. by eexists.
  - intros b k w Hf. cbn. unfold sdk_call, sbind. rewrite os_call_run by done. eexists. split; [reflexivity|].
    intros b' k'. cbn. case_decide as E; [injection E as -> ->; apply lookup_delete_eq|].
    apply lookup_delete_ne. intros E'. by apply E, eq_sym, object_path_inj.
  - intros b k w Hf. cbn. unfold sdk_call, sbind, os_Stat. rewrite os_call_run by done. cbn. rewrite set_files_same.
    destruct (w_files w !! object_path b k); [done|]. by eexists.
Defined.

Lemma s3_refines_map_witness :
  let w := (S3Store_Put (C := minio) toy_digest "mail" "blobs/" (Ok "hello") demo_world).2 in
  w_faults w = [] ∧ S3Store_Get (C := minio) "mail" "blobs/" (toy_digest "hello") w = (Ok "hello", w) ∧
  S3Store_Get (C := minio) "mail" "other/" (toy_digest "hello") w ≠ (Ok "hello", w).
Proof.
  intros w. assert (w_faults w = []) as Hf by (vm_compute; reflexivity). split; [exact Hf|].
  assert (∀ p, (∀ d, s3_view (C := minio) "mail" p w (toy_digest "hello") = Some d → d = "hello") →
    S3Store_Get (C := minio) "mail" p (toy_digest "hello") w = (Ok "hello", w) ↔
    s3_view (C := minio) "mail" p w (toy_digest "hello") = Some "hello") as H.
  { intros p Hp. exact (proj1 (proj2 (proj2 (s3_refines_map toy_digest (C := minio) "mail" p "hello" (toy_digest "hello") w Hf Hp))) "hello"). }
  split.
  - apply H; vm_compute; [congruence|reflexivity].
  - rewrite H; vm_compute; congruence.
Defined.

(** The general round trip of blob stores holds of it. *)
Example s3_roundtrip :
  (Get (Store := S3Store (C := minio) toy_digest "mail" "blobs/") (toy_digest "hello")
    (Put (Store := S3Store (C := minio) toy_digest "mail" "blobs/") (Ok "hello") demo_world).2).1 = Ok "hello".
Proof. vm_compute. reflexivity. Qed.
