(* ===== verification/Worker.v ===== *)
(** Outbound delivery (src/pkg/queue/{manager,worker,ndr}.go): one round of a
    worker, from claiming a queue item to settling it.  The network is an
    environment of parameters: what DNS answers, what each server replies, if it
    ever does, what [smtp.SendMail] and the DKIM library return.  Dialling and
    DNS lookups end by their time limits; nothing limits the conversation that
    follows, so a server may leave the worker waiting for ever ([Hangs]).
    [net/smtp]'s client is modelled with its [didHello] flag.  The round is a
    program in the sense of Proc: each call of the storage layer, of the blob
    store or of the network is a step of its own. *)
From S2P Require Import Prelude Proc GoLib Cache Sql Schema World StoreUsers StoreMail StoreQueue Blob.

Record RelayConfig := mkRelayConfig {
  Relay_Host : string; Relay_Port : Z; Relay_Username : string; Relay_Password : string }.

(** [dkim.Signer]; the private key is opaque to the code. *)
Record Signer := mkSigner { Signer_domain : string; Signer_selector : string; Signer_privKey : string }.

(** [Manager], its configuration part. *)
Record Config := mkConfig {
  maxRetries : Z; interval : Z; dkim : option Signer; ipVersion : string; relayCfg : RelayConfig }.

(** [smtp.PlainAuth] *)
Record PlainAuth := mkPlainAuth {
  pa_identity : string; pa_username : string; pa_password : string; pa_host : string }.

(** * The remote side *)
Inductive smtp_step :=
  | Greeting | HelloCmd | StartTLSCmd | MailCmd | RcptCmd | DataCmd | BodyCopy | BodyClose | QuitCmd.

(** A server: its answer to each step ([None] for success), which may never come,
    and its extensions. *)
Record mx_server := mkServer { answer : smtp_step → returning (option error); offers_starttls : bool }.

Record Net := mkNet {
  LookupMX : string → res (list string);
  LookupHost : string → res (list string);
  DialTimeout : string → string → option error;
  server_of : string → mx_server;
  SendMail : string → option PlainAuth → string → list string → string → returning (option error);
  dkim_Sign : Signer → string → res string;
  format_date : Z → string;
}.

(** [smtp.validateLine] *)
Definition validateLine (line : string) : option error :=
  if strings.Contains line (String (chr 10) "") || strings.Contains line (String (chr 13) "")
  then Some (ErrorNew "smtp: A line must not contain CR or LF") else None.

(** [Client.Hello], for a client whose greeting has or has not happened yet. *)
Definition client_Hello (srv : mx_server) (didHello : bool) (localName : string) : returning (option error) :=
  match validateLine localName with
  | Some e => Returns (Some e)
  | None => if didHello then Returns (Some (ErrorNew "smtp: Hello called after other methods"))
            else answer srv HelloCmd
  end.

Definition wrap_opt (ctx : string) (o : returning (option error)) : returning (option error) :=
  rmap (fmap (wrap ctx)) o.

(** The steps of a conversation up to the first error, or to the first that is
    never answered. *)
Fixpoint first_error (l : list (returning (option error))) : returning (option error) :=
  match l with
  | [] => Returns None
  | Returns None :: l => first_error l
  | o :: _ => o
  end.

Section worker.
Context `{MR : MapRange} `{S : Store} (net_ : Net) (cfg : Config).

Definition JoinHostPort (host port : string) : string :=
  if strings.Contains host ":" then "[" +:+ host +:+ "]:" +:+ port else host +:+ ":" +:+ port.

Definition deliverViaRelay (raw : string) (rcfg : RelayConfig) (mailFrom rcptTo : string) : returning (option error) :=
  let addr := JoinHostPort (Relay_Host rcfg) (strconv.Itoa (Relay_Port rcfg)) in
  let auth := if String.eqb (Relay_Username rcfg) "" then None
              else Some (mkPlainAuth "" (Relay_Username rcfg) (Relay_Password rcfg) (Relay_Host rcfg)) in
  SendMail net_ addr auth mailFrom [rcptTo] raw.

(** [Signer.Sign]; the message is in memory, so reading it cannot fail. *)
Definition Signer_Sign (s : Signer) (msg : string) : res string :=
  match dkim_Sign net_ s msg with
  | Err err => Err (wrap "dkim: sign: " err)
  | Ok signed => Ok signed
  end.

(** The loop over the resolved addresses; [errs] are the dial errors so far. *)
Fixpoint dial_loop (ips : list string) (port : string) (wantV4 : bool) (errs : list error)
    : option unit * list error :=
  match ips with
  | [] => (None, errs)
  | ipStr :: ips =>
      match net.ParseIP ipStr with
      | None => dial_loop ips port wantV4 errs
      | Some parsed =>
          let isV4 := match net.To4 parsed with Some _ => true | None => false end in
          if negb (Bool.eqb isV4 wantV4) then dial_loop ips port wantV4 errs
          else match DialTimeout net_ "tcp" (JoinHostPort ipStr port) with
               | None => (Some tt, errs)
               | Some e => dial_loop ips port wantV4 (errs ++ [e])
               end
      end
  end.

Definition dialForIPVersion (mxHost port ipVersion : string) : option error :=
  if String.eqb ipVersion "" || String.eqb ipVersion "any"
  then DialTimeout net_ "tcp" (JoinHostPort mxHost port)
  else match LookupHost net_ mxHost with
       | Err err => Some (wrap ("resolve " +:+ mxHost +:+ ": ") err)
       | Ok ips =>
           match dial_loop ips port (String.eqb ipVersion "ipv4") [] with
           | (Some _, _) => None
           | (None, e :: _) => Some e
           | (None, []) => Some (ErrorNew ("no " +:+ ipVersion +:+ " addresses found for " +:+ mxHost))
           end
       end.

(** [deliverToMX] returns nil ([None]) when every step succeeded, the final
    QUIT included; it does not return when the server stops answering. *)
Definition deliverToMX (mxHost mailFrom rcptTo ipVersion : string) : returning (option error) :=
  let srv := server_of net_ mxHost in
  match dialForIPVersion mxHost "25" ipVersion with
  | Some e => Returns (Some (wrap "connect: " e))
  | None =>
      match answer srv Greeting with
      | Hangs => Hangs
      | Returns (Some e) => Returns (Some (wrap "smtp client: " e))
      | Returns None =>
          match strings.SplitN2 mailFrom "@" with
          | [_; heloDomain] =>
              first_error
                ([wrap_opt "helo: " (client_Hello srv false heloDomain)] ++
                 (if offers_starttls srv
                  then [wrap_opt "starttls: " (answer srv StartTLSCmd);
                        wrap_opt "helo after starttls: " (client_Hello srv true heloDomain)]
                  else []) ++
                 [wrap_opt "mail from: " (first_error [Returns (validateLine mailFrom); answer srv MailCmd]);
                  wrap_opt "rcpt to: " (first_error [Returns (validateLine rcptTo); answer srv RcptCmd]);
                  wrap_opt "data: " (answer srv DataCmd);
                  wrap_opt "copy: " (answer srv BodyCopy);
                  wrap_opt "close data: " (answer srv BodyClose);
                  answer srv QuitCmd])
          | _ => Returns (Some (ErrorNew ("invalid mail from address: " +:+ mailFrom)))
          end
      end
  end.

(** Tries the hosts in order; the last error when none accepts. *)
Fixpoint try_mxes (mxes : list string) (mailFrom rcptTo : string) (lastErr : option error) : proc World (option error) :=
  match mxes with
  | [] => Done lastErr
  | h :: mxes =>
      let* err := await (deliverToMX h mailFrom rcptTo (ipVersion cfg)) in
      match err with
      | None => Done None
      | Some e => try_mxes mxes mailFrom rcptTo (Some e)
      end
  end.

(** * Retry schedule *)
Definition minute : Z := 60 * second.
Definition hour : Z := 60 * minute.
Definition delays : list Z := [minute; 5 * minute; 15 * minute; hour; 4 * hour; 12 * hour; 24 * hour].
Definition retry_delay (attempt : Z) : Z :=
  if Z.of_nat (length delays) <=? attempt then 24 * hour
  else nth (Z.to_nat attempt) delays 0.
(** In Unix seconds, as [storage.Fail] stores it. *)
Definition nextAttempt (attempt : Z) : state World Z :=
  let! now := time_now in sret ((now + retry_delay attempt) / second).

(** * Metrics *)
Definition queue_metrics (f : Metrics → Metrics) : state World unit :=
  smodify (λ w, set_queueMetrics (f (w_queueMetrics w)) w).
Definition QueuePending_add (n : Z) (m : Metrics) : Metrics :=
  mkMetrics (SMTPConnections m) (MessagesReceived m) (MessagesDelivered m) (MessagesBounced m)
    (QueuePending m + n) (ActiveConnections m).
Definition MessagesDelivered_inc (m : Metrics) : Metrics :=
  mkMetrics (SMTPConnections m) (MessagesReceived m) (MessagesDelivered m + 1) (MessagesBounced m)
    (QueuePending m) (ActiveConnections m).
Definition MessagesBounced_inc (m : Metrics) : Metrics :=
  mkMetrics (SMTPConnections m) (MessagesReceived m) (MessagesDelivered m) (MessagesBounced m + 1)
    (QueuePending m) (ActiveConnections m).

(** [Manager.Enqueue] *)
Definition Manager_Enqueue (msgID : Z) (rcptTo : string) : state World (res unit) :=
  let! r := Enqueue msgID rcptTo in
  match r with
  | Err err => sret (Err err)
  | Ok _ => do! queue_metrics (QueuePending_add 1) in sret (Ok tt)
  end.

(** * ndr.go *)
Definition crlf : string := String (chr 13) (String (chr 10) "").
Definition lf : string := String (chr 10) "".

Definition GenerateNDR (date originalFrom originalTo reason originalMsg : string) : string :=
  String.concat "" (
    ["From: MAILER-DAEMON"; crlf; "To: "; originalFrom; crlf;
     "Subject: Mail delivery failed: "; reason; crlf; "Date: "; date; crlf;
     "MIME-Version: 1.0"; crlf;
     "Content-Type: multipart/report; report-type=delivery-status; boundary=ndrboundary"; crlf; crlf;
     "--ndrboundary"; crlf; "Content-Type: text/plain; charset=utf-8"; crlf; crlf;
     "Your message to "; originalTo; " could not be delivered."; lf;
     "Reason: "; reason; lf; lf;
     "--ndrboundary"; crlf; "Content-Type: message/delivery-status"; crlf; crlf;
     "Original-Recipient: "; originalTo; crlf; "Diagnostic-Code: smtp; "; reason; crlf;
     "Action: failed"; crlf; "Status: 5.0.0"; crlf; crlf;
     "--ndrboundary"; crlf; "Content-Type: message/rfc822"; crlf; crlf] ++
    (if 0 <? slen originalMsg then [originalMsg] else ["Original message not available"; crlf]) ++
    [crlf; "--ndrboundary--"; crlf]).

Definition BounceMessage (originalFrom originalTo reason originalMsg : string) : proc World (res unit) :=
  let* now := act time_now in
  let ndr := GenerateNDR (format_date net_ now) originalFrom originalTo reason originalMsg in
  let* r := act (Put (Ok ndr)) in
  match r with
  | Err err => Done (Err (wrap "queue: bounce store blob: " err))
  | Ok (blobKey, _) =>
      let* r := act (GetUserByEmail originalFrom) in
      match r with
      | Err _ => Done (Ok tt)
      | Ok user =>
          let* r := act (GetMailbox (user_ID user) "INBOX") in
          match r with
          | Err err => Done (Err (wrap "queue: bounce get inbox: " err))
          | Ok mbox =>
              let* r := act (InsertMessage (mbox_ID mbox) blobKey (slen ndr) "" originalFrom
                               ("Mail delivery failed: " +:+ reason) 0) in
              match r with
              | Err err => Done (Err (wrap "queue: bounce insert: " err))
              | Ok _ => do* act (queue_metrics MessagesBounced_inc) in Done (Ok tt)
              end
          end
      end
  end.

(** * worker.go *)
Definition deliverLocal (msg : Message) (item : QueueItem) (raw : string) : proc World (option error) :=
  let* r := act (Put (Ok raw)) in
  match r with
  | Err err => Done (Some (wrap "store blob: " err))
  | Ok (blobKey, size) =>
      let cleanup := act (Delete blobKey) in
      match strings.SplitN2 (qi_RcptTo item) "@" with
      | [localPart; domain] =>
          let* alias := act (GetAlias localPart domain) in
          let rcptEmail := match alias with Ok a => alias_Destination a | Err _ => qi_RcptTo item end in
          let* r := act (GetUserByEmail rcptEmail) in
          match r with
          | Err err => do* cleanup in Done (Some (wrap "get recipient user: " err))
          | Ok user =>
              let* r := act (GetMailbox (user_ID user) "INBOX") in
              match r with
              | Err err => do* cleanup in Done (Some (wrap "get inbox: " err))
              | Ok inbox =>
                  let fromAddr := if String.eqb (msg_FromAddr msg) "" then "postmaster@local" else msg_FromAddr msg in
                  let* r := act (InsertMessage (mbox_ID inbox) blobKey size fromAddr (qi_RcptTo item) (msg_Subject msg) 0) in
                  match r with
                  | Err err => do* cleanup in Done (Some (wrap "insert message: " err))
                  | Ok _ => Done None
                  end
              end
          end
      | _ => do* cleanup in Done (Some (ErrorNew ("invalid recipient address: " +:+ qi_RcptTo item)))
      end
  end.

(** [_ = storage.Fail(...)]: [Fail], like [Complete] below, is the marked step, the
    one that takes the item out of the worker's hands. *)
Definition fail_item (item : QueueItem) : proc World (res unit) :=
  let* t := act (nextAttempt (qi_AttemptCount item)) in marked (Fail_ (qi_ID item) t (maxRetries cfg)).
Definition fail_quietly (item : QueueItem) : proc World unit :=
  do* fail_item item in Done tt.

(** [Fail], and a bounce once the retries are used up. *)
Definition fail_or_bounce (msg : Message) (item : QueueItem) (reason : string) : proc World unit :=
  let* ferr := fail_item item in
  match ferr with
  | Err e => if errors_is e ErrMaxRetries
             then do* BounceMessage (msg_FromAddr msg) (qi_RcptTo item) reason "" in Done tt
             else Done tt
  | Ok _ => Done tt
  end.

Definition delivered (item : QueueItem) : proc World unit :=
  do* marked (Complete (qi_ID item)) in
  do* act (queue_metrics (QueuePending_add (-1))) in
  act (queue_metrics MessagesDelivered_inc).

(** What [deliverNext] does with the item it claimed. *)
Definition deliverItem (item : QueueItem) : proc World unit :=
  let* r := act (GetMessageByID (qi_MessageID item)) in
  match r with
  | Err _ => fail_quietly item
  | Ok msg =>
      let* r := act (Get (msg_BlobKey msg)) in
      match r with
      | Err _ => fail_quietly item
      | Ok raw =>
          let msgData := match dkim cfg with
                         | Some s => match Signer_Sign s raw with Ok signed => signed | Err _ => raw end
                         | None => raw
                         end in
          match strings.SplitN2 (qi_RcptTo item) "@" with
          | [_; domain] =>
              let* isLocal := act (IsLocalDomain domain) in
              match isLocal with
              | Err _ => fail_quietly item
              | Ok true =>
                  let* err := deliverLocal msg item raw in
                  match err with
                  | Some err => fail_or_bounce msg item ("local delivery failed: " +:+ error_text err)
                  | None => delivered item
                  end
              | Ok false =>
                  if negb (String.eqb (Relay_Host (relayCfg cfg)) "") then
                    let* err := await (deliverViaRelay msgData (relayCfg cfg) (msg_FromAddr msg) (qi_RcptTo item)) in
                    match err with
                    | Some err => fail_or_bounce msg item ("relay delivery failed: " +:+ error_text err)
                    | None => delivered item
                    end
                  else
                    match LookupMX net_ domain with
                    | Err err => fail_or_bounce msg item ("mx lookup failed: " +:+ error_text err)
                    | Ok [] => fail_or_bounce msg item "mx lookup failed"
                    | Ok mxes =>
                        let* err := try_mxes mxes (msg_FromAddr msg) (qi_RcptTo item) None in
                        match err with
                        | None => delivered item
                        | Some lastErr => fail_or_bounce msg item ("delivery failed: " +:+ error_text lastErr)
                        end
                    end
              end
          | _ => fail_quietly item
          end
      end
  end.

Definition deliverNext : proc World unit :=
  let* r := act ClaimNext in
  match r with
  | Err _ => Done tt
  | Ok None => Done tt
  | Ok (Some item) => deliverItem item
  end.
End worker.

(** * Settling an item *)

(** What the steps before the verdict leave alone. *)
Definition still (Q : table QueueItem) (now D : Z) (w : World) : Prop :=
  w_faults w = [] ∧ queue (w_db w) = Q ∧ w_now w = now ∧ MessagesDelivered (w_queueMetrics w) = D.
Definition calm (Q : table QueueItem) (now D : Z) (w : World) : Prop := wf w ∧ still Q now D w.

Section calm.
Context (Q : table QueueItem) (now D : Z).

Lemma calm_of {A} (m : state World A) : pres wf m → pres (still Q now D) m → pres (calm Q now D) m.
Proof. intros H1 H2 w [Hw Hs]. split; [by apply H1|by apply H2]. Qed.

Lemma still_stmt {A} (f : DB → res A * DB) : (∀ d, queue (f d).2 = queue d) → pres (still Q now D) (stmt f).
Proof. intros Hq w (Hn & HQ & Ht & HD). rewrite stmt_ok_run by done. split_and!; try done. cbn. by rewrite Hq. Qed.

Lemma still_query {A} (f : DB → res A) : pres (still Q now D) (query f).
Proof. by apply still_stmt. Qed.

Lemma still_get {A} (g : World → A * World) :
  (∀ w, w_db (g w).2 = w_db w ∧ w_faults (g w).2 = w_faults w ∧ w_now (g w).2 = w_now w ∧
       MessagesDelivered (w_queueMetrics (g w).2) = MessagesDelivered (w_queueMetrics w)) → pres (still Q now D) g.
Proof. intros Hf w Hs. destruct (Hf w) as (E1 & E2 & E3 & E4). unfold still. by rewrite E1, E2, E3, E4. Qed.

Lemma still_withTx {A} (m : state World (res A)) : pres (still Q now D) m → pres (still Q now D) (withTx m).
Proof.
  intros Hm w Hc. pose proof (Hm w Hc) as H1. destruct Hc as (Hn & HQ & Ht & HD).
  rewrite withTx_run by (done || apply H1). destruct (m w) as [[a|e] w2]; [done|].
  destruct H1 as (H2 & H3 & H4 & H5). done.
Qed.

Lemma still_userCache e : pres (still Q now D) (userByEmailCache_Get e).
Proof. apply still_get. intros w. unfold userByEmailCache_Get. by destruct (Cache.Get _ _ _). Qed.
Lemma still_mboxCache e : pres (still Q now D) (mailboxCache_Get e).
Proof. apply still_get. intros w. unfold mailboxCache_Get. by destruct (Cache.Get _ _ _). Qed.

Lemma calm_frame w w' : store_frame w w' → wf w' → w_faults w' = [] → calm Q now D w → calm Q now D w'.
Proof. intros (b & f & fs & ->) Hw Hf (_ & _ & HQ & Ht & HD). done. Qed.

Section store.
Context `{S : Store} (digest : string → string) `{!StoreSpec S digest}.

Lemma calm_Put r : pres (calm Q now D) (Put r).
Proof using StoreSpec0.
  intros w Hc. apply (calm_frame w); [apply Put_frame|by apply Put_store_wf, Hc|by apply Put_quiet, Hc|done].
Qed.
Lemma calm_Get k : pres (calm Q now D) (Blob.Get k).
Proof using StoreSpec0.
  intros w Hc. apply (calm_frame w); [apply Get_frame|by apply Get_store_wf, Hc|by apply Get_quiet, Hc|done].
Qed.
Lemma calm_Delete k : pres (calm Q now D) (Blob.Delete k).
Proof using StoreSpec0.
  intros w Hc. apply (calm_frame w); [apply Delete_frame|by apply Delete_store_wf, Hc|by apply Delete_quiet, Hc|done].
Qed.
End store.
End calm.

Lemma sql_insert_message_queue m u k z f n a b s d :
  queue (sql_insert_message m u k z f n a b s d).2 = queue d.
Proof. unfold sql_insert_message. by repeat case_decide. Qed.

#[export] Hint Resolve still_query still_userCache still_mboxCache pres_time_now pres_time_now_unix : pres.
#[export] Hint Extern 1 (pres (still _ _ _) (stmt (sql_insert_message _ _ _ _ _ _ _ _ _))) =>
  (apply still_stmt; intros; apply sql_insert_message_queue) : pres.
#[export] Hint Extern 1 (pres (still _ _ _) (smodify _)) => (apply still_get; intros; split_and!; reflexivity) : pres.
#[export] Hint Extern 1 (pres (calm _ _ _) (smodify _)) => (apply calm_of; solve [eauto with pres nocore]) : pres.

Section calm_ops.
Context `{MR : MapRange} (Q : table QueueItem) (now D : Z).

Lemma calm_GetUserByEmail e : pres (calm Q now D) (GetUserByEmail e).
Proof. apply calm_of; [auto with pres|]. unfold GetUserByEmail. pres_walk. Qed.
Lemma calm_GetMailbox u n : pres (calm Q now D) (GetMailbox u n).
Proof. apply calm_of; [auto with pres|]. unfold GetMailbox. pres_walk. Qed.
Lemma calm_GetMessageByID i : pres (calm Q now D) (GetMessageByID i).
Proof. apply calm_of; [auto with pres|]. unfold GetMessageByID. pres_walk. Qed.
Lemma calm_GetAlias s d : pres (calm Q now D) (GetAlias s d).
Proof. apply calm_of; [auto with pres|]. unfold GetAlias. pres_walk. Qed.
Lemma calm_IsLocalDomain d : pres (calm Q now D) (IsLocalDomain d).
Proof. apply calm_of; [auto with pres|]. unfold IsLocalDomain. pres_walk. Qed.
Lemma calm_InsertMessage m k z a b s f : pres (calm Q now D) (InsertMessage m k z a b s f).
Proof. apply calm_of; [auto with pres|]. unfold InsertMessage. apply still_withTx. pres_walk. Qed.
End calm_ops.
#[export] Hint Resolve calm_GetUserByEmail calm_GetMailbox calm_GetMessageByID calm_GetAlias calm_IsLocalDomain
  calm_InsertMessage : pres.

Section settle.
Context `{MR : MapRange} `{S : Store} (digest : string → string) `{!StoreSpec S digest} (net_ : Net) (cfg : Config).

Lemma calm_Bounce Q now D a b c e : pres (calm Q now D) (exec (BounceMessage net_ a b c e)).
Proof using StoreSpec0.
  unfold BounceMessage, queue_metrics. pose proof (calm_Put Q now D digest (S := S)). proc_walk.
Qed.

Lemma calm_deliverLocal Q now D msg item raw : pres (calm Q now D) (exec (deliverLocal msg item raw)).
Proof using StoreSpec0.
  unfold deliverLocal. pose proof (calm_Put Q now D digest (S := S)). pose proof (calm_Delete Q now D digest (S := S)). proc_walk.
Qed.

Lemma try_mxes_pure mxes from rcpt last w : (exec (try_mxes net_ cfg mxes from rcpt last) w).2 = w.
Proof using.
  revert last. induction mxes as [|h mxes IH]; intros last; [done|]. cbn [try_mxes].
  change (exec (pbind (await ?o) ?k) w) with (exec (Wait o k) w). cbn [exec pbind await].
  destruct (deliverToMX _ _ _ _ _) as [[e|]|]; [apply IH|done..].
Qed.

(** The queue after an item was settled: gone, or pending again. *)
Definition without (id : Z) (Q : table QueueItem) : table QueueItem := delete_rows (λ x, qi_ID x = id) Q.
Definition put_back (id t : Z) (Q : table QueueItem) : table QueueItem :=
  update_rows (λ x, qi_ID x = id) (rescheduled t) Q.

Definition verdict (Q : table QueueItem) (now D : Z) (item : QueueItem) (w : World) : Prop :=
  calm (without (qi_ID item) Q) now (D + 1) w ∨
  maxRetries cfg ≤ qi_AttemptCount item ∧ calm (without (qi_ID item) Q) now D w ∨
  qi_AttemptCount item < maxRetries cfg ∧
    calm (put_back (qi_ID item) ((now + retry_delay (qi_AttemptCount item)) / second) Q) now D w.

Context (Q : table QueueItem) (now D : Z) (item q : QueueItem).
Context (Hq : q ∈ rows Q) (Hid : qi_ID q = qi_ID item) (Ha : qi_AttemptCount q = qi_AttemptCount item).

Lemma fail_item_run w :
  calm Q now D w →
  let t := (now + retry_delay (qi_AttemptCount item)) / second in
  let w' := (exec (fail_item cfg item) w).2 in
  if maxRetries cfg <=? qi_AttemptCount item
  then (exec (fail_item cfg item) w).1 = Returns (Err (Sentinel ErrMaxRetries)) ∧ calm (without (qi_ID item) Q) now D w'
  else (exec (fail_item cfg item) w).1 = Returns (Ok tt) ∧ calm (put_back (qi_ID item) t Q) now D w'.
Proof using Hq Hid Ha.
  intros (Hw & Hf & HQ & Ht & HD) t. cbn zeta. unfold fail_item, nextAttempt. cbn [exec pbind act marked]. unfold sbind, time_now, sret.
  rewrite Ht. fold t. pose proof (Fail_wf (qi_ID item) t (maxRetries cfg) w Hw) as Hw'.
  rewrite (Fail_run (qi_ID item) t (maxRetries cfg) w q) in * by (try rewrite HQ; done). rewrite Ha in *.
  destruct (maxRetries cfg <=? qi_AttemptCount item); cbn [fst snd] in *; (split; [done|]); split_and!; try done;
    cbn; by rewrite HQ.
Qed.

(** A program of the item that ended has settled it; one that waits for ever has
    left the queue alone, and there is a server that does not answer. *)
Definition settled (o : returning unit) (w : World) : Prop :=
  match o with Returns _ => verdict Q now D item w | Hangs => calm Q now D w end.
Definition settles (p : proc World unit) : Prop := ∀ w, calm Q now D w → settled (exec p w).1 (exec p w).2.

Lemma fail_quietly_settles : settles (fail_quietly cfg item).
Proof using Hq Hid Ha.
  intros w Hc. pose proof (fail_item_run w Hc) as Hr. cbn zeta in Hr. unfold fail_quietly. rewrite exec_bind. unfold sbind.
  destruct (exec (fail_item cfg item) w) as [r w']. unfold settled, verdict. cbn [fst snd] in *.
  destruct (Z.leb_spec (maxRetries cfg) (qi_AttemptCount item)); destruct Hr as [-> Hr]; [right; left|right; right]; done.
Qed.

Lemma fail_or_bounce_settles msg reason : settles (fail_or_bounce net_ cfg msg item reason).
Proof using Hq Hid Ha StoreSpec0.
  intros w Hc. pose proof (fail_item_run w Hc) as Hr. cbn zeta in Hr. unfold fail_or_bounce. rewrite exec_bind. unfold sbind.
  destruct (exec (fail_item cfg item) w) as [r w']. unfold verdict. cbn [fst snd] in *.
  destruct (Z.leb_spec (maxRetries cfg) (qi_AttemptCount item)) as [Hm|Hm]; destruct Hr as [-> Hc']; cbn [after].
  - cbn [errors_is]. rewrite bool_decide_eq_true_2 by done. rewrite exec_bind. unfold sbind.
    pose proof (calm_Bounce (without (qi_ID item) Q) now D (msg_FromAddr msg) (qi_RcptTo item) reason "" w' Hc') as Hb.
    assert (prompt (BounceMessage net_ (msg_FromAddr msg) (qi_RcptTo item) reason "")) as Hp by (unfold BounceMessage; prompt_walk).
    destruct (prompt_returns _ w' Hp) as [r' Er].
    destruct (exec (BounceMessage _ _ _ _ _) w') as [o w2]. cbn [fst snd] in *. subst o. cbn. right; left. done.
  - right; right. done.
Qed.

Lemma delivered_settles : settles (delivered item).
Proof using.
  intros w Hc. pose proof (Complete_wf (qi_ID item) w (proj1 Hc)) as Hw. destruct Hc as (_ & Hf & HQ & Ht & HD).
  unfold delivered. cbn [exec pbind act marked]. unfold sbind, queue_metrics, smodify. revert Hw.
  unfold Complete, sbind. rewrite stmt_ok_run by done. cbn [sql_delete_queue fst snd].
  destruct (affected _ _ =? 0); cbn [sret fst snd settled]; intros Hw; left; (split; [exact Hw|]); split_and!; try done;
    cbn; by rewrite ?HQ, ?HD.
Qed.

(** The steps before the verdict keep the queue calm. *)
Lemma settles_bind {A} (p : proc World A) (k : A → proc World unit) :
  pres (calm Q now D) (exec p) → (∀ a, settles (k a)) → settles (pbind p k).
Proof using.
  intros Hp Hk w Hc. rewrite exec_bind. unfold sbind. specialize (Hp w Hc). destruct (exec p w) as [[a|] w']; [|exact Hp].
  by apply Hk.
Qed.

Lemma settles_act {A} (m : state World A) (k : A → proc World unit) :
  pres (calm Q now D) m → (∀ a, settles (k a)) → settles (pbind (act m) k).
Proof using. intros Hm. by apply settles_bind, pres_exec_act. Qed.

Lemma settles_await {A} (o : returning A) (k : A → proc World unit) : (∀ a, settles (k a)) → settles (pbind (await o) k).
Proof using. apply settles_bind, pres_exec_wait. Qed.

Lemma deliverItem_settles : settles (deliverItem net_ cfg item).
Proof using Hq Hid Ha StoreSpec0.
  unfold deliverItem. apply settles_act; [auto with pres|]. intros [msg|]; [|apply fail_quietly_settles].
  apply settles_act; [by eapply calm_Get|]. intros [raw|]; [|apply fail_quietly_settles].
  destruct (strings.SplitN2 _ _) as [|lp [|domain [|? ?]]]; try apply fail_quietly_settles.
  apply settles_act; [auto with pres|]. intros [[]|]; [| |apply fail_quietly_settles].
  - apply settles_bind; [apply calm_deliverLocal|]. intros [e|]; [apply fail_or_bounce_settles|apply delivered_settles].
  - destruct (negb _); [apply settles_await; intros [e|]; [apply fail_or_bounce_settles|apply delivered_settles]|].
    destruct (LookupMX _ _) as [[|mx mxes]|]; [apply fail_or_bounce_settles| |apply fail_or_bounce_settles].
    apply settles_bind; [intros w; by rewrite try_mxes_pure|]. intros [e|]; [apply fail_or_bounce_settles|apply delivered_settles].
Qed.
End settle.

(** * Servers that answer *)
(** Every conversation on this network comes to an end. *)
Definition responsive (net_ : Net) : Prop :=
  (∀ h s, answer (server_of net_ h) s ≠ Hangs) ∧ ∀ addr auth from to msg, SendMail net_ addr auth from to msg ≠ Hangs.

Lemma first_error_returns l : (∀ o, o ∈ l → o ≠ Hangs) → first_error l ≠ Hangs.
Proof.
  induction l as [|[[e|]|] l IH]; intros Hl; [done|done| |by destruct (Hl Hangs ltac:(left))].
  apply IH. intros o Ho. apply Hl. by right.
Qed.

Section responsive.
Context `{MR : MapRange} `{S : Store} (net_ : Net) (cfg : Config) (Hnet : responsive net_).

Lemma wrap_returns c o : o ≠ Hangs → wrap_opt c o ≠ Hangs.
Proof using. by destruct o. Qed.

Lemma client_Hello_returns h b l : client_Hello (server_of net_ h) b l ≠ Hangs.
Proof using Hnet. unfold client_Hello. destruct (validateLine l), b; try done. apply Hnet. Qed.

Lemma deliverToMX_returns h from rcpt v : deliverToMX net_ h from rcpt v ≠ Hangs.
Proof using Hnet.
  unfold deliverToMX. destruct (dialForIPVersion _ _ _ _); [done|].
  destruct Hnet as [Ha _]. pose proof (Ha h Greeting). destruct (answer _ Greeting) as [[e|]|]; [done| |done].
  destruct (strings.SplitN2 from "@") as [|l [|dom [|? ?]]]; try done.
  apply first_error_returns. intros o Ho. cbn [app] in Ho.
  assert (∀ c, client_Hello (server_of net_ h) c dom ≠ Hangs) as Hh by (intros c; apply client_Hello_returns).
  assert (∀ l s, first_error [Returns (validateLine l); answer (server_of net_ h) s] ≠ Hangs) as Hv.
  { intros x s. apply first_error_returns. intros y [->|Hy%list_elem_of_singleton]%elem_of_cons; [done|by subst]. }
  destruct (offers_starttls _); cbn [app] in Ho; repeat (apply elem_of_cons in Ho as [->|Ho]; [try apply wrap_returns; auto|]);
    by apply elem_of_nil in Ho.
Qed.

Lemma try_mxes_prompt mxes from rcpt last : prompt (try_mxes net_ cfg mxes from rcpt last).
Proof using Hnet.
  revert last. induction mxes as [|h mxes IH]; intros last; [constructor|]. cbn [try_mxes].
  pose proof (deliverToMX_returns h from rcpt (ipVersion cfg)) as Hr. destruct (deliverToMX _ _ _ _ _) as [e|]; [|done].
  apply prompt_wait. cbn [pbind]. destruct e; [apply IH|constructor].
Qed.

Lemma deliverItem_prompt item : prompt (deliverItem net_ cfg item).
Proof using Hnet.
  assert (prompt (fail_item cfg item)) as Hfi by (unfold fail_item; prompt_walk).
  assert (prompt (fail_quietly cfg item)) as Hfq by (unfold fail_quietly; prompt_walk).
  assert (prompt (delivered item)) as Hd by (unfold delivered; prompt_walk).
  assert (∀ m r, prompt (fail_or_bounce net_ cfg m item r)) as Hfb by (intros; unfold fail_or_bounce, BounceMessage; prompt_walk).
  assert (∀ m raw, prompt (deliverLocal m item raw)) as Hl by (intros; unfold deliverLocal; prompt_walk).
  pose proof try_mxes_prompt. unfold deliverItem. prompt_walk.
  pose proof (proj2 Hnet) as Hs. unfold deliverViaRelay. cbn zeta.
  match goal with |- prompt (await ?o) => destruct o eqn:E end; [apply prompt_wait; constructor|by apply Hs in E].
Qed.

Lemma deliverNext_prompt : prompt (deliverNext net_ cfg).
Proof using Hnet. pose proof deliverItem_prompt. unfold deliverNext. prompt_walk. Qed.
End responsive.

(** * Well-formedness *)
Lemma Manager_Enqueue_wf m r : pres wf (Manager_Enqueue m r).
Proof. unfold Manager_Enqueue, queue_metrics. pres_walk. Qed.
#[export] Hint Resolve Manager_Enqueue_wf : pres.

Section worker_wf.
Context `{MR : MapRange} `{S : Store} (digest : string → string) `{!StoreSpec S digest} (net_ : Net) (cfg : Config).

Lemma Bounce_wf a b c e : pres wf (exec (BounceMessage net_ a b c e)).
Proof using StoreSpec0. pose proof (Put_store_wf (S := S) (digest := digest)). unfold BounceMessage, queue_metrics. proc_walk. Qed.

Lemma fail_item_wf item : pres wf (exec (fail_item cfg item)).
Proof using. unfold fail_item, nextAttempt. proc_walk. Qed.

Lemma deliverLocal_wf m i raw : pres wf (exec (deliverLocal m i raw)).
Proof using StoreSpec0.
  pose proof (Put_store_wf (S := S) (digest := digest)). pose proof (Delete_store_wf (S := S) (digest := digest)).
  unfold deliverLocal. proc_walk.
Qed.

Lemma try_mxes_wf mxes from rcpt last : pres wf (exec (try_mxes net_ cfg mxes from rcpt last)).
Proof using. intros w Hw. by rewrite try_mxes_pure. Qed.

Lemma deliverNext_wf : pres wf (exec (deliverNext net_ cfg)).
Proof using StoreSpec0.
  pose proof (Get_store_wf (S := S) (digest := digest)). pose proof Bounce_wf. pose proof fail_item_wf. pose proof deliverLocal_wf.
  pose proof try_mxes_wf. unfold deliverNext, deliverItem, fail_quietly, fail_or_bounce, delivered, queue_metrics. proc_walk.
Qed.
End worker_wf.

(** * Properties *)
Lemma retry_delay_range a : 0 ≤ a → minute ≤ retry_delay a ≤ 24 * hour.
Proof.
  intros Ha. unfold retry_delay. destruct (Z.leb_spec (Z.of_nat (length delays)) a) as [|Hlt]; [vm_compute; split; discriminate|].
  assert (nth (Z.to_nat a) delays 0 ∈ delays) as Hin.
  { apply list_elem_of_In, nth_In. cbn in *. lia. }
  assert (Forall (λ d, minute ≤ d ≤ 24 * hour) delays) as Hall by (repeat constructor; vm_compute; discriminate).
  by eapply Forall_forall in Hall.
Qed.

Lemma next_attempt_range now a :
  0 ≤ a → now / second + 60 ≤ (now + retry_delay a) / second ≤ now / second + 86400.
Proof.
  intros Ha. pose proof (retry_delay_range a Ha) as [H1 H2].
  assert (minute = 60 * second) as E1 by done. assert (24 * hour = 86400 * second) as E2 by done.
  assert (0 < second) as Hs by done. rewrite E1 in H1. rewrite E2 in H2. clear E1 E2. split.
  - rewrite <- Z.div_add by lia. apply Z.div_le_mono; lia.
  - rewrite <- Z.div_add by lia. apply Z.div_le_mono; lia.
Qed.

(** One round on a well-formed database with nothing failing: nothing was due, or
    the earliest due item was claimed and its delivery reached a verdict. *)
Lemma deliverNext_round `{MR : MapRange} `{S : Store} (digest : string → string) `{!StoreSpec S digest}
    (net_ : Net) (cfg : Config) (w : World) :
  wf w → w_faults w = [] →
  let '(o, w') := exec (deliverNext net_ cfg) w in
  let Q := queue (w_db w) in
  let now := w_now w / second in
  ((∀ q, q ∈ rows Q → ¬ due now q) ∧ o = Returns tt ∧ w' = w) ∨
  ∃ q, q ∈ rows Q ∧ due now q ∧ (∀ x, x ∈ rows Q → due now x → qi_NextAttempt q ≤ qi_NextAttempt x) ∧
    settled cfg (update_rows (claimable (qi_ID q)) (with_status "active") Q)
      (w_now w) (MessagesDelivered (w_queueMetrics w)) q o w' ∧ (o = Hangs → ¬ responsive net_).
Proof.
  intros Hw Hf. pose proof (λ H, prompt_returns (deliverNext net_ cfg) w (deliverNext_prompt net_ cfg H)) as Hp.
  pose proof (ClaimNext_wf w Hw) as Hw1. pose proof (sql_next_due_spec (w_now w / second) (w_db w)) as Hs.
  revert Hp. unfold deliverNext. rewrite exec_act. unfold sbind. rewrite ClaimNext_run in * by done.
  destruct (sql_next_due (w_now w / second) (w_db w)) as [q|e]; intros Hp; [|left; destruct Hs; done].
  destruct Hs as (Hq & Hd & Hle). cbn [snd] in Hw1. set (w1 := set_db _ w) in *.
  pose proof (deliverItem_settles digest net_ cfg (update_rows (claimable (qi_ID q)) (with_status "active") (queue (w_db w)))
    (w_now w) (MessagesDelivered (w_queueMetrics w)) q (with_status "active" q)) as Hset.
  specialize (λ H, Hset H eq_refl eq_refl w1). destruct (exec (deliverItem net_ cfg q) w1) as [o w']. cbn [fst snd] in *.
  right. exists q. split; [done|]. split; [done|]. split; [done|]. split.
  - apply Hset; [|done]. apply elem_of_update. exists q. split; [done|]. rewrite decide_True; [done|]. split; [done|apply Hd].
  - intros -> H. by destruct (Hp H).
Qed.

(** The rows of the others, before and after a claim and its verdict. *)
Lemma claimed_others (Q : table QueueItem) q x :
  qi_ID x ≠ qi_ID q → x ∈ rows (update_rows (claimable (qi_ID q)) (with_status "active") Q) ↔ x ∈ rows Q.
Proof.
  intros Hx. rewrite elem_of_update. split.
  - intros (r & Hr & ->). case_decide as Hc; [|done]. by destruct Hx, Hc.
  - intros Hin. exists x. split; [done|]. rewrite decide_False; [done|]. by intros [].
Qed.
Lemma claimed_row (Q : table QueueItem) now q :
  q ∈ rows Q → due now q → with_status "active" q ∈ rows (update_rows (claimable (qi_ID q)) (with_status "active") Q).
Proof. intros Hq Hd. apply elem_of_update. exists q. split; [done|]. rewrite decide_True; [done|]. split; [done|apply Hd]. Qed.
Lemma put_back_others id t (Q : table QueueItem) x : qi_ID x ≠ id → x ∈ rows (put_back id t Q) ↔ x ∈ rows Q.
Proof.
  intros Hx. unfold put_back. rewrite elem_of_update. split.
  - intros (r & Hr & ->). by case_decide as E.
  - intros Hin. exists x. split; [done|]. by rewrite decide_False.
Qed.

(** C2.  A worker round settles the item it claims: on a well-formed database
    with nothing failing, either no item was due and nothing happens, or the due
    item with the earliest attempt time is taken and no other item is touched.  If
    the round returns, the item is either removed (and then it was counted as
    delivered, or its retries were used up) or pending again with one more
    attempt and a next attempt one minute to 24 hours away.  If it never returns,
    which takes a server that accepts the connection and then stops answering,
    the item stays active.  The database stays well-formed.  This holds for
    every store that meets the contract and whatever the network does. *)
Theorem deliverNext_settles `{MR : MapRange} `{S : Store} (digest : string → string) `{!StoreSpec S digest}
    (net_ : Net) (cfg : Config) (w : World) :
  wf w → w_faults w = [] →
  let o := (exec (deliverNext net_ cfg) w).1 in
  let w' := (exec (deliverNext net_ cfg) w).2 in
  let Q := rows (queue (w_db w)) in
  let Q' := rows (queue (w_db w')) in
  let now := w_now w / second in
  let count w := MessagesDelivered (w_queueMetrics w) in
  wf w' ∧
  (((∀ q, q ∈ Q → ¬ due now q) ∧ o = Returns tt ∧ w' = w) ∨
   ∃ q, q ∈ Q ∧ due now q ∧ (∀ x, x ∈ Q → due now x → qi_NextAttempt q ≤ qi_NextAttempt x) ∧
     (∀ x, qi_ID x ≠ qi_ID q → x ∈ Q' ↔ x ∈ Q) ∧
     match o with
     | Returns _ =>
         (∀ x, x ∈ Q' → qi_ID x ≠ qi_ID q) ∧
           (count w' = count w + 1 ∨ maxRetries cfg ≤ qi_AttemptCount q ∧ count w' = count w) ∨
         qi_AttemptCount q < maxRetries cfg ∧ count w' = count w ∧
           ∃ t, now + 60 ≤ t ≤ now + 86400 ∧
             mkQueueItem (qi_ID q) (qi_MessageID q) (qi_RcptTo q) t (qi_AttemptCount q + 1) "pending" ∈ Q'
     | Hangs => ¬ responsive net_ ∧ with_status "active" q ∈ Q' ∧ count w' = count w
     end).
Proof.
  intros Hw Hf o w' Q Q' now count. split; [by apply (deliverNext_wf digest)|].
  pose proof (deliverNext_round digest net_ cfg w Hw Hf) as Hr. subst Q' o w' count.
  destruct (exec (deliverNext net_ cfg) w) as [o1 w1]. cbn [fst snd] in *.
  destruct Hr as [Hr|(q & Hq & Hd & Hle & Hv & Hh)]; [by left|right].
  exists q. split; [done|]. split; [done|]. split; [done|].
  assert (0 ≤ qi_AttemptCount q) as Hpos.
  { pose proof (wf_queue_rows _ Hw) as Hr. eapply Forall_forall in Hr; [|exact Hq]. apply Hr. }
  destruct o1 as [[]|]; [destruct Hv as [(_ & _ & EQ & _ & ED)|[(Hm & _ & _ & EQ & _ & ED)|(Hm & _ & _ & EQ & _ & ED)]]|].
  4: { destruct Hv as (_ & _ & EQ & _ & ED). rewrite EQ. split; [intros x; apply claimed_others|].
       split; [by apply Hh|]. split; [by eapply claimed_row|done]. }
  1, 2: rewrite EQ; split; [intros x Hx; unfold without; rewrite elem_of_delete, claimed_others by done; tauto|];
    left; split; [by intros x [Hx _]%elem_of_delete|auto].
  rewrite EQ. split; [intros x Hx; by rewrite put_back_others, claimed_others|].
  right. split; [done|]. split; [done|]. eexists. split; [by apply next_attempt_range|].
  apply elem_of_update. exists (with_status "active" q). split; [by eapply claimed_row|]. by rewrite decide_True.
Qed.

(** A network on which nothing answers. *)
Definition dead_net : Net :=
  mkNet (λ _, Ok ["mx.y"]) (λ _, Ok []) (λ _ _, Some (ErrorNew "unreachable")) (λ _, mkServer (λ _, Returns None) false)
    (λ _ _ _ _ _, Returns None) (λ _ raw, Ok raw) (λ _, "").
Definition demo_config : Config := mkConfig 5 second None "any" (mkRelayConfig "" 0 "" "").

Lemma deliverNext_settles_witness :
  let w' := (exec (deliverNext (S := SQLiteStore toy_digest) dead_net demo_config) demo_queue_world).2 in
  wf w' ∧ queue (w_db w') =
    mkTable [mkQueueItem 1 1 "a@y" 900 0 "pending"; mkQueueItem 2 1 "b@y" 1300 2 "pending";
             mkQueueItem 3 1 "c@y" 100 0 "active"; mkQueueItem 4 1 "d@y" 2000 0 "pending"] 4.
Proof.
  intros w'. destruct (deliverNext_settles (S := SQLiteStore toy_digest) toy_digest dead_net demo_config demo_queue_world
    demo_queue_wf eq_refl) as [Hw _].
  split; [exact Hw|vm_compute; reflexivity].
Defined.

(** Direct delivery to a mail server: [deliverToMX] succeeds exactly when the
    connection and greeting succeed, the sender has an [@], the server does not
    offer STARTTLS, and every SMTP step up to QUIT is accepted.  With a server
    that offers STARTTLS it always fails, because the second [Hello] comes after
    other methods, which [net/smtp] refuses. *)
Theorem deliverToMX_success (net_ : Net) (mxHost mailFrom rcptTo ipVersion : string) :
  let srv := server_of net_ mxHost in
  deliverToMX net_ mxHost mailFrom rcptTo ipVersion = Returns None ↔
  dialForIPVersion net_ mxHost "25" ipVersion = None ∧
  offers_starttls srv = false ∧
  (∃ local domain, strings.SplitN2 mailFrom "@" = [local; domain] ∧ validateLine domain = None) ∧
  validateLine mailFrom = None ∧ validateLine rcptTo = None ∧
  Forall (λ s, answer srv s = Returns None) [Greeting; HelloCmd; MailCmd; RcptCmd; DataCmd; BodyCopy; BodyClose; QuitCmd].
Proof.
  intros srv. assert (∀ l, first_error l = Returns None ↔ Forall (λ x, x = Returns None) l) as Hfe.
  { induction l as [|[[e|]|] l IH]; simpl; [done|..].
    - split; [done|]. by intros [Hx _]%Forall_cons.
    - rewrite IH, Forall_cons. tauto.
    - split; [done|]. by intros [Hx _]%Forall_cons. }
  assert (∀ c x, wrap_opt c x = Returns None ↔ x = Returns None) as Hw by (by intros c [[x|]|]).
  assert (∀ x : option error, Returns x = Returns None ↔ x = None) as Hret by naive_solver.
  assert (∀ l, client_Hello srv false l = Returns None ↔ validateLine l = None ∧ answer srv HelloCmd = Returns None) as Hh.
  { intros l. unfold client_Hello. destruct (validateLine l); naive_solver. }
  assert (∀ l, client_Hello srv true l ≠ Returns None) as Hh2.
  { intros l. unfold client_Hello. by destruct (validateLine l). }
  unfold deliverToMX. fold srv. destruct (dialForIPVersion _ _ _ _); [naive_solver|].
  rewrite !Forall_cons, Forall_nil. destruct (answer srv Greeting) as [[e|]|]; [naive_solver| |naive_solver].
  destruct (strings.SplitN2 mailFrom "@") as [|l [|dom [|? ?]]] eqn:Es; [naive_solver..| |naive_solver].
  rewrite Hfe, !Forall_app, !Forall_cons, !Forall_nil, !Hw, !Hfe, !Forall_cons, !Forall_nil, Hh, !Hret.
  destruct (offers_starttls srv).
  - rewrite !Forall_cons, !Hw. naive_solver.
  - naive_solver.
Qed.

(** A network on which every dial succeeds and no server ever says a word. *)
Definition silent_net : Net :=
  mkNet (λ _, Ok ["mx.y"]) (λ _, Ok []) (λ _ _, None) (λ _, mkServer (λ _, Hangs) false)
    (λ _ _ _ _ _, Hangs) (λ _ raw, Ok raw) (λ _, "").

(** A round on it never returns. *)
Lemma silent_round : (exec (deliverNext (S := SQLiteStore toy_digest) silent_net demo_config)
  (set_db (set_blobs (mkTable [mkBlobRow "k" "Subject: hi" 11 100 1] 0) demo_queue) demo_world)).1 = Hangs.
Proof. vm_compute. reflexivity. Qed.
