(* ===== verification/QueueLiveness.v ===== *)
(** The delivery loop of a worker (src/pkg/queue/worker.go, [worker]) run for as
    long as its ticker fires, and its liveness: every pending item is settled,
    unless a server that never answers keeps the worker for ever. *)
From S2P Require Import Prelude Proc GoLib Cache Sql Schema World StoreUsers StoreMail StoreQueue Blob Worker.

Section run.
Context `{MR : MapRange} `{S : Store} (cfg : Config) (tick : nat → Z) (nets : nat → Net).

(** The worker after [n] ticks: the [n]th finds the clock at [tick n] and the
    network in the state [nets n].  A round that never returns is the last. *)
Fixpoint worker (n : nat) (w : World) : returning unit * World :=
  match n with
  | O => (Returns tt, w)
  | Datatypes.S n =>
      match worker n w with
      | (Returns _, w') => exec (deliverNext (nets n) cfg) (set_now (tick n) w')
      | (Hangs, w') => (Hangs, w')
      end
  end.
End run.

(** * The load of a queue *)
Definition pending (q : QueueItem) : Prop := qi_Status q = "pending".
#[export] Instance pending_dec q : Decision (pending q).
Proof. unfold pending. apply _. Defined.

(** The rounds an item can still take. *)
Definition rounds_left (max : Z) (q : QueueItem) : Z :=
  if decide (pending q) then 1 + Z.max 0 (max - qi_AttemptCount q) else 0.
Definition load (max : Z) (l : list QueueItem) : Z := sumZ (rounds_left max <$> l).

Section load.
Context (max : Z).

Lemma rounds_left_nonneg q : 0 ≤ rounds_left max q.
Proof. unfold rounds_left. case_decide; lia. Qed.

Lemma load_nonneg l : 0 ≤ load max l.
Proof.
  induction l as [|x l IH]; [done|]. unfold load in *. rewrite fmap_cons. cbn [sumZ foldr] in *. fold (sumZ (rounds_left max <$> l)).
  pose proof (rounds_left_nonneg x). lia.
Qed.

Lemma load_filter_le (P : QueueItem → Prop) `{∀ x, Decision (P x)} l : load max (filter P l) ≤ load max l.
Proof.
  induction l as [|x l IH]; [done|]. rewrite filter_cons. unfold load in *. rewrite fmap_cons.
  pose proof (rounds_left_nonneg x). case_decide; rewrite ?fmap_cons; cbn [sumZ foldr] in *; unfold sumZ in *; lia.
Qed.

Lemma load_filter_lt (P : QueueItem → Prop) `{∀ x, Decision (P x)} l q :
  q ∈ l → ¬ P q → pending q → load max (filter P l) < load max l.
Proof.
  intros Hq Hn Hp. induction Hq as [q l|q x l Hq IH]; rewrite filter_cons; unfold load in *; rewrite fmap_cons.
  - rewrite decide_False by done. pose proof (load_filter_le P l) as Hle. unfold load in Hle.
    cbn [sumZ foldr] in *. unfold sumZ in *. unfold rounds_left at 2. rewrite decide_True by done. lia.
  - specialize (IH Hn Hp). pose proof (rounds_left_nonneg x).
    case_decide; rewrite ?fmap_cons; cbn [sumZ foldr] in *; unfold sumZ in *; lia.
Qed.

Lemma load_map_le (f : QueueItem → QueueItem) l :
  (∀ x, x ∈ l → rounds_left max (f x) ≤ rounds_left max x) → load max (f <$> l) ≤ load max l.
Proof.
  induction l as [|x l IH]; intros Hf; [done|]. unfold load in *. rewrite !fmap_cons. cbn [sumZ foldr] in *.
  pose proof (Hf x ltac:(left)). specialize (IH (λ y Hy, Hf y ltac:(by right))). unfold sumZ in *. lia.
Qed.

Lemma load_map_lt (f : QueueItem → QueueItem) l q :
  (∀ x, x ∈ l → rounds_left max (f x) ≤ rounds_left max x) →
  q ∈ l → rounds_left max (f q) < rounds_left max q → load max (f <$> l) < load max l.
Proof.
  intros Hf Hq Hlt. induction Hq as [q l|q x l Hq IH]; unfold load in *; rewrite !fmap_cons; cbn [sumZ foldr] in *.
  - pose proof (load_map_le f l (λ y Hy, Hf y ltac:(by right))) as Hle. unfold load in Hle.
    unfold sumZ in *. lia.
  - specialize (IH (λ y Hy, Hf y ltac:(by right)) Hlt). pose proof (Hf x ltac:(left)). unfold sumZ in *. lia.
Qed.
End load.

(** The rows no round touches. *)
Definition settled_part (l : list QueueItem) : list QueueItem := filter (λ q, ¬ pending q) l.

Lemma settled_part_filter id l :
  (∀ x, x ∈ l → qi_ID x = id → pending x) → settled_part (filter (λ x, qi_ID x ≠ id) l) = settled_part l.
Proof.
  intros Hp. unfold settled_part. rewrite list_filter_filter. apply filter_ext_in. intros x Hx. split; [by intros []|].
  intros Hn. split; [done|]. intros E. by apply Hn, Hp.
Qed.

Lemma settled_part_map (f : QueueItem → QueueItem) l :
  (∀ x, x ∈ l → pending x → pending (f x)) → (∀ x, x ∈ l → ¬ pending x → f x = x) →
  settled_part (f <$> l) = settled_part l.
Proof.
  induction l as [|x l IH]; intros Hp Hn; [done|]. unfold settled_part in *. rewrite fmap_cons, !filter_cons.
  rewrite IH by (intros y Hy; auto using list_elem_of_further).
  destruct (decide (pending x)) as [Hx|Hx].
  - rewrite !decide_False; [done|intros []; done|]. intros []. apply Hp; [left|done].
  - rewrite (Hn x) by (done || left). by rewrite decide_True.
Qed.

(** A claimed item that was settled has left the queue, or is pending again. *)
Lemma claim_without q t :
  rows (without (qi_ID q) (update_rows (claimable (qi_ID q)) (with_status "active") t)) =
  filter (λ x, qi_ID x ≠ qi_ID q) (rows t).
Proof.
  unfold without, delete_rows, update_rows. cbn [rows]. induction (rows t) as [|x l IH]; [done|].
  rewrite fmap_cons, !filter_cons, IH. destruct (decide (claimable (qi_ID q) x)) as [Hc|Hc].
  - cbn [with_status qi_ID]. destruct Hc as [Hc _]. by rewrite !decide_False by naive_solver.
  - done.
Qed.

Definition retried (id t : Z) (x : QueueItem) : QueueItem := if decide (qi_ID x = id) then rescheduled t x else x.

Lemma claim_put_back q tm t :
  rows (put_back (qi_ID q) tm (update_rows (claimable (qi_ID q)) (with_status "active") t)) =
  retried (qi_ID q) tm <$> rows t.
Proof.
  unfold put_back, update_rows. cbn [rows]. rewrite <- list_fmap_compose. apply list_fmap_ext. intros _ x _.
  unfold retried, compose. destruct (decide (claimable (qi_ID q) x)) as [[E _]|]; [|done].
  cbn [with_status qi_ID]. rewrite !decide_True by done. done.
Qed.

(** * One tick *)
Section tick.
Context `{MR : MapRange} `{S : Store} (digest : string → string) `{!StoreSpec S digest} (cfg : Config).
Notation qrows w := (rows (queue (w_db w))).

(** What a tick does to a queue: nothing, when nothing is due; otherwise the load
    shrinks.  The rows that are not pending stay.  If the round does not return,
    a pending item has become active and a server is silent. *)
Lemma tick_progress net_ t w :
  wf w → w_faults w = [] →
  let '(o, w') := exec (deliverNext net_ cfg) (set_now t w) in
  wf w' ∧ w_faults w' = [] ∧
  match o with
  | Returns _ =>
      settled_part (qrows w') = settled_part (qrows w) ∧
      ((∀ q, q ∈ qrows w → ¬ due (t / second) q) ∧ qrows w' = qrows w ∨
       load (maxRetries cfg) (qrows w') < load (maxRetries cfg) (qrows w))
  | Hangs => ¬ responsive net_ ∧ ∃ q, q ∈ qrows w ∧ pending q ∧ with_status "active" q ∈ qrows w'
  end.
Proof.
  intros Hw Hf. assert (wf (set_now t w)) as Hw0 by exact Hw.
  pose proof (deliverNext_round digest net_ cfg (set_now t w) Hw0 Hf) as Hr.
  destruct (exec (deliverNext net_ cfg) (set_now t w)) as [o w'].
  cbn [set_now w_db w_now] in Hr. destruct Hr as [(Hn & -> & ->)|(q & Hq & [Hp Hd] & _ & Hv & Hh)].
  { split; [done|]. split; [done|]. split; [done|]. by left. }
  assert (∀ x, x ∈ qrows w → qi_ID x = qi_ID q → x = q) as Hinj.
  { intros x Hx E. apply (unique_inj qi_ID (queue (w_db w))); [apply Hw|done..]. }
  assert (∀ x, x ∈ qrows w → qi_ID x = qi_ID q → pending x) as Hpend by (intros x Hx E; by rewrite (Hinj x Hx E)).
  destruct o as [[]|].
  2: { destruct Hv as (H1 & H2 & EQ & _). split; [done|]. split; [done|]. split; [by apply Hh|]. exists q. split; [done|].
       split; [done|]. rewrite EQ. by eapply claimed_row. }
  destruct Hv as [(H1 & H2 & EQ & _)|[(_ & H1 & H2 & EQ & _)|(Hm & H1 & H2 & EQ & _)]]; rewrite EQ;
    (split; [done|]); (split; [done|]).
  1, 2: rewrite claim_without; split; [by apply settled_part_filter|right]; apply (load_filter_lt _ _ _ q); naive_solver.
  rewrite claim_put_back. unfold retried. split.
  - apply settled_part_map; intros x Hx Hpx; case_decide as E; try done. destruct Hpx. by apply Hpend.
  - right. apply (load_map_lt _ _ _ q); [|done|].
    + intros x Hx. case_decide as E; [|done]. rewrite (Hinj x Hx E). unfold rounds_left.
      rewrite !decide_True by done. cbn. lia.
    + rewrite decide_True by done. unfold rounds_left. rewrite !decide_True by done. cbn. lia.
Qed.
End tick.

(** * Every tick *)
Section run_spec.
Context `{MR : MapRange} `{S : Store} (digest : string → string) `{!StoreSpec S digest}
  (cfg : Config) (tick : nat → Z) (nets : nat → Net).
Notation state n w := (worker cfg tick nets n w).
Notation world n w := (state n w).2.
Notation running n w := ((state n w).1 = Returns tt).
Notation hung n w := ((state n w).1 = Hangs).
Notation qrows w := (rows (queue (w_db w))).

Lemma running_or_hung n w : running n w ∨ hung n w.
Proof using. destruct (state n w) as [[[]|] w']; [by left|by right]. Qed.

Lemma state_next n w :
  running n w → state (Datatypes.S n) w = exec (deliverNext (nets n) cfg) (set_now (tick n) (world n w)).
Proof using. cbn [worker]. destruct (state n w) as [[[]|] w']; [done|]. intros [=]. Qed.

Lemma hung_forever k n w : hung n w → state (n + k) w = state n w.
Proof using.
  intros Hh. induction k as [|k IH]; [by rewrite Nat.add_0_r|]. rewrite Nat.add_succ_r. cbn [worker]. rewrite IH.
  destruct (state n w) as [[[]|] w']; [by cbn in Hh|done].
Qed.

(** The round in which a worker got stuck. *)
Lemma last_round n w : hung n w → ∃ i, (i < n)%nat ∧ running i w ∧ hung (Datatypes.S i) w.
Proof using.
  induction n as [|n IH]; intros Hh; [by cbn in Hh|]. destruct (running_or_hung n w) as [Hr|Hr].
  - exists n. split; [lia|done].
  - destruct (IH Hr) as (i & Hi & H). exists i. split; [lia|done].
Qed.

Lemma worker_inv n w :
  wf w → w_faults w = [] → running n w →
  wf (world n w) ∧ w_faults (world n w) = [] ∧ settled_part (qrows (world n w)) = settled_part (qrows w).
Proof using StoreSpec0.
  intros Hw Hf. induction n as [|n IH]; [done|]. intros Hr. destruct (running_or_hung n w) as [Hn|Hn].
  - destruct (IH Hn) as (IHw & IHf & IHs). rewrite state_next in * by done.
    pose proof (tick_progress digest cfg (nets n) (tick n) (world n w) IHw IHf) as Ht.
    destruct (exec _ _) as [o w']. cbn [fst snd] in *. subst o. destruct Ht as (H1 & H2 & H3 & _). by rewrite H3, IHs.
  - pose proof (hung_forever 1 n w Hn) as E. rewrite Nat.add_1_r in E. rewrite E in Hr. by rewrite Hn in Hr.
Qed.

(** From tick [n] to tick [n + k] the worker got stuck, or the load shrank, or
    nothing happened. *)
Lemma worker_stalls k n w :
  wf w → w_faults w = [] → running n w →
  (∃ m, hung m w) ∨
  (∃ m, running m w ∧ (n < m ≤ n + k)%nat ∧ load (maxRetries cfg) (qrows (world m w)) < load (maxRetries cfg) (qrows (world n w))) ∨
  running (n + k) w ∧ qrows (world (n + k) w) = qrows (world n w) ∧
    ∀ i q, (i < k)%nat → q ∈ qrows (world n w) → ¬ due (tick (n + i)%nat / second) q.
Proof using StoreSpec0.
  intros Hw Hf Hn. induction k as [|k [Hh|[(m & Hr & Hm & Hl)|(Hr & E & Hd)]]]; [|by left|..].
  - right; right. rewrite Nat.add_0_r. split; [done|]. split; [done|]. intros i q Hi. lia.
  - right; left. exists m. split; [done|]. split; [lia|done].
  - rewrite Nat.add_succ_r. destruct (worker_inv (n + k) w Hw Hf Hr) as (Hwk & Hfk & _).
    pose proof (tick_progress digest cfg (nets (n + k)%nat) (tick (n + k)%nat) _ Hwk Hfk) as Ht.
    rewrite <- state_next in Ht by done. destruct (state (Datatypes.S (n + k)) w) as [[[]|] w'] eqn:Es.
    2: { left. exists (Datatypes.S (n + k)). by rewrite Es. }
    destruct Ht as (_ & _ & _ & [[Hi E']|Hlt]); right; [right|left].
    + cbn [fst snd]. split; [done|]. rewrite E', E. split; [done|]. intros i q Hik Hq.
      destruct (decide (i = k)) as [->|]; [apply Hi; by rewrite E|apply Hd; [lia|done]].
    + exists (Datatypes.S (n + k)). rewrite Es. cbn [fst snd]. split; [done|]. split; [lia|]. by rewrite <- E.
Qed.

Context (Hpos : 0 < interval cfg) (Htick : ∀ n, tick 0%nat + Z.of_nat n * interval cfg ≤ tick n).

(** The ticker reaches every instant. *)
Lemma tick_reaches T n : ∃ k, T ≤ tick (n + k)%nat.
Proof using Hpos Htick.
  exists (Z.to_nat (Z.max 0 (T - tick 0%nat))). etransitivity; [|apply Htick]. nia.
Qed.

Lemma worker_progress n w q :
  wf w → w_faults w = [] → running n w → q ∈ qrows (world n w) → pending q →
  (∃ m, hung m w) ∨
  ∃ m, (n < m)%nat ∧ running m w ∧ load (maxRetries cfg) (qrows (world m w)) < load (maxRetries cfg) (qrows (world n w)).
Proof using StoreSpec0 Hpos Htick.
  intros Hw Hf Hn Hq Hp. destruct (tick_reaches (qi_NextAttempt q * second) n) as [k Hk].
  destruct (worker_stalls (Datatypes.S k) n w Hw Hf Hn) as [Hh|[(m & Hr & Hm & Hl)|(_ & _ & Hd)]]; [by left|right|].
  - exists m. split; [lia|done].
  - destruct (Hd k q ltac:(lia) Hq). split; [done|]. apply Z.div_le_lower_bound; [done|lia].
Qed.

Lemma worker_reaches n w :
  wf w → w_faults w = [] → running n w →
  (∃ m, hung m w) ∨ ∃ m, (n ≤ m)%nat ∧ running m w ∧ ∀ q, q ∈ qrows (world m w) → ¬ pending q.
Proof using StoreSpec0 Hpos Htick.
  intros Hw Hf. remember (Z.to_nat (load (maxRetries cfg) (qrows (world n w)))) as k eqn:Ek.
  revert n Ek. induction (lt_wf k) as [k _ IH]. intros n -> Hn.
  destruct (decide (List.Exists pending (qrows (world n w)))) as [(q & Hq & Hp)%Exists_exists|Hno].
  - destruct (worker_progress n w q Hw Hf Hn Hq Hp) as [Hh|(m & Hm & Hr & Hl)]; [by left|].
    pose proof (load_nonneg (maxRetries cfg) (qrows (world m w))).
    destruct (IH (Z.to_nat (load (maxRetries cfg) (qrows (world m w)))) ltac:(apply Z2Nat.inj_lt; lia) m eq_refl Hr)
      as [Hh|(m' & Hm' & Hd)]; [by left|right]. exists m'. split; [lia|done].
  - right. exists n. split; [lia|]. split; [done|]. intros q Hq Hp. apply Hno, Exists_exists. eauto.
Qed.

(** Nothing is left to do, for good. *)
Lemma worker_stable k n w :
  wf w → w_faults w = [] → running n w → (∀ q, q ∈ qrows (world n w) → ¬ pending q) →
  running (n + k) w ∧ qrows (world (n + k) w) = qrows (world n w).
Proof using StoreSpec0.
  intros Hw Hf Hn Hd. induction k as [|k [Hr E]]; [by rewrite Nat.add_0_r|]. rewrite Nat.add_succ_r.
  destruct (worker_inv (n + k) w Hw Hf Hr) as (Hwk & Hfk & _).
  pose proof (deliverNext_round digest (nets (n + k)%nat) cfg (set_now (tick (n + k)%nat) (world (n + k) w)) Hwk Hfk) as Ht.
  rewrite <- state_next in Ht by done. destruct (state (Datatypes.S (n + k)) w) as [o w']. cbn [w_db set_now] in Ht.
  destruct Ht as [(_ & -> & ->)|(q & Hq & [Hp _] & _)]; [by cbn|]. rewrite E in Hq. by destruct (Hd q Hq).
Qed.

(** The worker stuck in its round [n], with the item it holds. *)
Definition blocked_at (n : nat) (q : QueueItem) (w : World) : Prop :=
  running n w ∧ ¬ responsive (nets n) ∧ q ∈ qrows (world n w) ∧ pending q ∧
  with_status "active" q ∈ qrows (world (Datatypes.S n) w) ∧
  ∀ m, (n < m)%nat → state m w = (Hangs, world (Datatypes.S n) w).

Lemma hung_blocked m w : wf w → w_faults w = [] → hung m w → ∃ n q, blocked_at n q w.
Proof using StoreSpec0.
  intros Hw Hf (n & _ & Hr & Hh)%last_round. destruct (worker_inv n w Hw Hf Hr) as (Hwn & Hfn & _).
  pose proof (tick_progress digest cfg (nets n) (tick n) _ Hwn Hfn) as Ht. rewrite <- state_next in Ht by done.
  pose proof (λ k, hung_forever k _ _ Hh) as Hforever.
  destruct (state (Datatypes.S n) w) as [[[]|] w'] eqn:Es; [done|]. destruct Ht as (_ & _ & Hnet & q & Hq & Hp & Ha).
  exists n, q. unfold blocked_at. rewrite Es. split_and!; try done. intros k Hk.
  replace k with (Datatypes.S n + (k - Datatypes.S n))%nat by lia. apply Hforever.
Qed.
End run_spec.

(** C12.  Delivery is live, as far as the network lets it be: start from a well-formed
    database, with no statement and no file operation failing, and let a worker's
    ticker fire every [interval].  Then, whatever DNS and the servers do, either the worker
    empties the queue of its pending items in finitely many ticks, and from then
    on the queue holds exactly the rows that were not pending at the start; or
    there is a round from which it never returns, because some server accepted a
    connection and stopped answering (no time limit applies to the conversation):
    the item of that round stays active and nothing else is ever delivered by this
    worker.  On a network whose servers always answer it is the first.
    Rows that are not pending are never touched: an item left active by a worker
    that died is not retried. *)
Theorem queue_drains `{MR : MapRange} `{S : Store} (digest : string → string) `{!StoreSpec S digest}
    (cfg : Config) (tick : nat → Z) (nets : nat → Net) (w : World) :
  wf w → w_faults w = [] → 0 < interval cfg →
  (∀ n, tick 0%nat + Z.of_nat n * interval cfg ≤ tick n) →
  let drained := ∃ n, ∀ m, (n ≤ m)%nat → (worker cfg tick nets m w).1 = Returns tt ∧
    rows (queue (w_db (worker cfg tick nets m w).2)) = filter (λ q, qi_Status q ≠ "pending") (rows (queue (w_db w))) in
  (drained ∨ ∃ n q, blocked_at cfg tick nets n q w) ∧
  ((∀ n, responsive (nets n)) → drained).
Proof.
  intros Hw Hf Hi Ht drained. assert (drained ∨ ∃ n q, blocked_at cfg tick nets n q w) as H.
  { destruct (worker_reaches digest cfg tick nets Hi Ht 0 w Hw Hf eq_refl) as [[m Hm]|(n & _ & Hr & Hn)]; [right|left].
    - by eapply (hung_blocked digest).
    - exists n. intros m Hm. replace m with (n + (m - n))%nat by lia.
      destruct (worker_stable digest cfg tick nets (m - n) n w Hw Hf Hr Hn) as [H1 ->]. split; [done|].
      destruct (worker_inv digest cfg tick nets n w Hw Hf Hr) as (_ & _ & Hs).
      change (filter _ _) with (settled_part (rows (queue (w_db w)))). rewrite <- Hs. symmetry. by apply filter_all_in. }
  split; [exact H|]. intros Hnet. destruct H as [H|(n & q & _ & Hb & _)]; [done|]. by destruct (Hb (Hnet n)).
Qed.

Lemma dead_net_responsive : responsive dead_net.
Proof. done. Qed.

Lemma queue_drains_witness :
  ∃ n, ∀ m, (n ≤ m)%nat →
    (worker (S := SQLiteStore toy_digest) demo_config (λ n, Z.of_nat n * second) (λ _, dead_net) m demo_queue_world).1 = Returns tt ∧
    rows (queue (w_db (worker (S := SQLiteStore toy_digest) demo_config (λ n, Z.of_nat n * second) (λ _, dead_net) m demo_queue_world).2)) =
    [mkQueueItem 3 1 "c@y" 100 0 "active"].
Proof.
  destruct (queue_drains (S := SQLiteStore toy_digest) toy_digest demo_config (λ n, Z.of_nat n * second) (λ _, dead_net)
    demo_queue_world demo_queue_wf eq_refl) as [_ H]; [done| |by apply H].
  intros n. cbn [interval demo_config]. lia.
Defined.
