(* ===== verification/WorkerPool.v ===== *)
(** The delivery workers of one queue manager (src/pkg/queue/manager.go, [Start]
    and [Stop]; src/pkg/queue/worker.go, [worker]) as goroutines that interleave:
    a worker whose ticker fires claims an item in one transaction and then takes
    the steps of [Worker.deliverItem] one by one, each a call of the storage layer,
    of the blob store or of the network; in between the others run, mail is enqueued
    and time passes.  A worker that waits for a silent server has no step.
    The context of the workers is cancelled only when the process ends, so
    [ctx.Done] is left out. *)
From S2P Require Import Prelude Proc GoLib Cache Sql Schema World StoreUsers StoreMail StoreQueue Blob Worker QueueLiveness.

(** Where a worker is: at the [select]; in [deliverNext] with the item it claimed
    and the rest of its program; past the call of [Complete] or [Fail], with the
    rest of its program; or returned. *)
Inductive worker_state :=
  | Selecting
  | Delivering (item : QueueItem) (rest : proc World unit)
  | Settled (rest : proc World unit)
  | Exited.

(** The process, the workers started so far, whether [stopCh] is closed, and
    whether [Stop] has returned from [wg.Wait]. *)
Record Pool := mkPool { pl_world : World; pl_workers : list worker_state; pl_stopCh : bool; pl_stopped : bool }.

Definition with_world (w : World) (p : Pool) : Pool := mkPool w (pl_workers p) (pl_stopCh p) (pl_stopped p).
Definition with_worker (i : nat) (s : worker_state) (p : Pool) : Pool :=
  mkPool (pl_world p) (<[i := s]> (pl_workers p)) (pl_stopCh p) (pl_stopped p).

(** [Start]: [workers] goroutines. *)
Definition Start (workers : nat) (p : Pool) : Pool :=
  mkPool (pl_world p) (pl_workers p ++ replicate workers Selecting) (pl_stopCh p) (pl_stopped p).

(** [close(m.stopCh)]: closing it twice panics. *)
Definition Stop_close (p : Pool) : option Pool :=
  if pl_stopCh p then None else Some (mkPool (pl_world p) (pl_workers p) true (pl_stopped p)).

(** [m.wg.Wait()] returns once every goroutine has called [Done]. *)
Definition exited (s : worker_state) : bool := match s with Exited => true | _ => false end.
Definition Stop_wait (p : Pool) : option Pool :=
  if pl_stopCh p && forallb exited (pl_workers p) then Some (mkPool (pl_world p) (pl_workers p) true true) else None.

Section pool.
Context `{MR : MapRange} `{S : Store} (cfg : Config).

(** [case <-ticker.C]: the claim in [deliverNext]; what follows finds the network
    as [net_]. *)
Definition claim (net_ : Net) (i : nat) (p : Pool) : Pool :=
  let '(r, w) := ClaimNext (pl_world p) in
  with_worker i (match r with Ok (Some item) => Delivering item (deliverItem net_ cfg item) | _ => Selecting end)
    (with_world w p).

(** The next step of a worker in [deliverNext], if it has one. *)
Definition advance (s : worker_state) (w : World) : option (worker_state * World) :=
  match s with
  | Delivering item (Act mark m k) => let '(x, w') := m w in Some (if mark : bool then Settled (k x) else Delivering item (k x), w')
  | Delivering item (Wait (Returns x) k) => Some (Delivering item (k x), w)
  | Settled (Act _ m k) => let '(x, w') := m w in Some (Settled (k x), w')
  | Settled (Wait (Returns x) k) => Some (Settled (k x), w)
  | Delivering _ (Done _) | Settled (Done _) => Some (Selecting, w)
  | _ => None
  end.

(** What the workers do on their own: go on with a delivery, or return once the
    channel is closed. *)
Inductive work : Pool → Pool → Prop :=
  | wk_advance i s s' w p :
      pl_workers p !! i = Some s → advance s (pl_world p) = Some (s', w) → work p (with_worker i s' (with_world w p))
  | wk_exit i p : pl_workers p !! i = Some Selecting → pl_stopCh p = true → work p (with_worker i Exited p).

(** [select] picks any case that is ready: with the channel closed, a worker may
    still take a tick.  The manager is not started again after [Stop]. *)
Inductive pool_step : Pool → Pool → Prop :=
  | ps_start n p : pl_stopCh p = false → pool_step p (Start n p)
  | ps_claim net_ i p : pl_workers p !! i = Some Selecting → pool_step p (claim net_ i p)
  | ps_work p p' : work p p' → pool_step p p'
  | ps_close p p' : Stop_close p = Some p' → pool_step p p'
  | ps_wait p p' : Stop_wait p = Some p' → pool_step p p'
  | ps_enqueue m r p : pool_step p (with_world (Manager_Enqueue m r (pl_world p)).2 p)
  | ps_tick d p : pool_step p (with_world (set_now (w_now (pl_world p) + Z.of_N d) (pl_world p)) p).

(** What a manager that was just made ([NewManager]) on the world [w] can reach. *)
Inductive pool_reachable (w : World) : Pool → Prop :=
  | pr_new : pool_reachable w (mkPool w [] false false)
  | pr_step p p' : pool_reachable w p → pool_step p p' → pool_reachable w p'.
End pool.

(** * The items in the workers' hands *)
Definition holds (s : worker_state) : list Z := match s with Delivering item _ => [qi_ID item] | _ => [] end.
Definition in_hands (ws : list worker_state) : list Z := concat (holds <$> ws).

Lemma in_hands_at ws i s : ws !! i = Some s → in_hands ws ≡ₚ holds s ++ in_hands (delete i ws).
Proof.
  intros Hi. unfold in_hands. rewrite (delete_take_drop ws i), <- (take_drop_middle ws i s Hi) at 1.
  rewrite !fmap_app, !concat_app, fmap_cons. cbn [concat].
  rewrite app_assoc, (Permutation_app_comm _ (holds s)), <- app_assoc. done.
Qed.

Lemma in_hands_insert ws i s s' :
  ws !! i = Some s → in_hands (<[i := s']> ws) ≡ₚ holds s' ++ in_hands (delete i ws).
Proof.
  intros Hi. assert (i < length ws)%nat as Hl by by eapply lookup_lt_Some.
  rewrite (in_hands_at _ i s') by by apply list_lookup_insert_eq.
  rewrite !delete_take_drop, take_insert_ge, drop_insert_lt by lia. done.
Qed.

Lemma in_hands_start ws n : in_hands (ws ++ replicate n Selecting) = in_hands ws.
Proof.
  unfold in_hands. rewrite fmap_app, concat_app.
  assert (concat (holds <$> replicate n Selecting) = []) as -> by by induction n. apply app_nil_r.
Qed.

Lemma in_hands_exited ws : forallb exited ws = true → in_hands ws = [].
Proof. by induction ws as [|[|item rest|rest|] ws IH]. Qed.

Lemma elem_of_in_hands item rest ws : Delivering item rest ∈ ws → qi_ID item ∈ in_hands ws.
Proof.
  intros H. unfold in_hands. apply list_elem_of_In, in_concat. exists [qi_ID item]. split; [|by left].
  apply list_elem_of_In, list_elem_of_fmap. by exists (Delivering item rest).
Qed.

Definition active_id (t : table QueueItem) (id : Z) : Prop :=
  ∃ q, q ∈ rows t ∧ qi_ID q = id ∧ qi_Status q = "active".

(** The item a worker holds is a row of the queue, up to its status. *)
Definition row_of (t : table QueueItem) (item : QueueItem) : Prop :=
  ∃ q, q ∈ rows t ∧ qi_ID q = qi_ID item ∧ qi_AttemptCount q = qi_AttemptCount item.

(** ** Programs that settle their item once *)
(** A step that leaves the queue alone, and one that takes [item] off or puts it back. *)
Definition keeps {A} (m : state World A) : Prop :=
  ∀ t, pres (λ w, wf w ∧ w_faults w = [] ∧ queue (w_db w) = t) m.
Definition settling (item : QueueItem) {A} (m : state World A) : Prop :=
  ∀ w, wf w → w_faults w = [] → row_of (queue (w_db w)) item →
    let w' := (m w).2 in
    wf w' ∧ w_faults w' = [] ∧
    (queue (w_db w') = without (qi_ID item) (queue (w_db w)) ∨ ∃ tm, queue (w_db w') = put_back (qi_ID item) tm (queue (w_db w))).

Fixpoint harmless {A} (p : proc World A) : Prop :=
  match p with
  | Done _ => True
  | Act mark m k => mark = false ∧ keeps m ∧ ∀ x, harmless (k x)
  | Wait _ k => ∀ x, harmless (k x)
  end.
Fixpoint owes {A} (item : QueueItem) (p : proc World A) : Prop :=
  match p with
  | Done _ => False
  | Act true m k => settling item m ∧ ∀ x, harmless (k x)
  | Act false m k => keeps m ∧ ∀ x, owes item (k x)
  | Wait _ k => ∀ x, owes item (k x)
  end.

Lemma calm_keeps {A} (m : state World A) : (∀ t now D, pres (calm t now D) m) → keeps m.
Proof. intros Hm t w (Hw & Hf & HQ). destruct (Hm t (w_now w) (MessagesDelivered (w_queueMetrics w)) w) as (H1 & H2 & H3 & _); [done|done]. Qed.

Lemma keeps_metrics f : keeps (queue_metrics f).
Proof. intros t w H. exact H. Qed.

Lemma harmless_bind {A B} (p : proc World A) (k : A → proc World B) : harmless p → (∀ a, harmless (k a)) → harmless (pbind p k).
Proof.
  intros Hp Hk. induction p as [a|[] X m f IH|X o f IH]; cbn in *; [done|by destruct Hp| |auto].
  destruct Hp as (_ & Hm & Hf). split; [done|]. split; [done|]. intros x. by apply IH.
Qed.
Lemma owes_bind {A B} item (p : proc World A) (k : A → proc World B) : harmless p → (∀ a, owes item (k a)) → owes item (pbind p k).
Proof.
  intros Hp Hk. induction p as [a|[] X m f IH|X o f IH]; cbn in *; [done|by destruct Hp| |auto].
  destruct Hp as (_ & Hm & Hf). split; [done|]. intros x. by apply IH.
Qed.
Lemma harmless_act {A} (m : state World A) : keeps m → harmless (act m).
Proof. done. Qed.
Lemma harmless_await {A} (o : returning A) : harmless (await o).
Proof. done. Qed.
Lemma owes_marked {A B} item (m : state World A) (k : A → proc World B) : settling item m → (∀ a, harmless (k a)) → owes item (pbind (marked m) k).
Proof. done. Qed.

(** Walking through a program. *)
Ltac keeps_walk := apply calm_keeps; intros; first [ solve [auto with pres] | by eapply calm_Put | by eapply calm_Delete | by eapply calm_Get ].
Ltac harmless_walk :=
  repeat first [ assumption |
    lazymatch goal with
    | |- harmless (pbind _ _) => apply harmless_bind; [|intros]
    | |- harmless (act (queue_metrics _)) => apply harmless_act, keeps_metrics
    | |- harmless (act _) => apply harmless_act; keeps_walk
    | |- harmless (await _) => apply harmless_await
    | |- harmless (Done _) => exact I
    | |- harmless (match ?x with _ => _ end) => destruct x
    end ].

Section owes.
Context `{MR : MapRange} `{S : Store} (digest : string → string) `{!StoreSpec S digest} (net_ : Net) (cfg : Config) (item : QueueItem).

Lemma settling_Fail tm n : settling item (Fail_ (qi_ID item) tm n).
Proof using.
  intros w Hw Hf (q & Hq & Eid & Ea). cbn zeta. pose proof (Fail_wf (qi_ID item) tm n w Hw) as Hw'.
  rewrite (Fail_run (qi_ID item) tm n w q) in * by done.
  destruct (n <=? qi_AttemptCount q); cbn [snd] in *; (split; [done|]); (split; [done|]); [by left|right; by eexists].
Qed.

Lemma settling_Complete : settling item (Complete (qi_ID item)).
Proof using.
  intros w Hw Hf _. cbn zeta. pose proof (Complete_wf (qi_ID item) w Hw) as Hw'. revert Hw'. unfold Complete, sbind.
  rewrite stmt_ok_run by done. cbn [sql_delete_queue fst snd]. destruct (affected _ _ =? 0); cbn [sret snd]; intros Hw';
    (split; [done|]); (split; [done|]); by left.
Qed.

Lemma keeps_nextAttempt n : keeps (nextAttempt n).
Proof using. intros t w H. exact H. Qed.

Lemma fail_item_owes {B} (k : res unit → proc World B) : (∀ r, harmless (k r)) → owes item (pbind (fail_item cfg item) k).
Proof using. intros Hk. split; [apply keeps_nextAttempt|]. intros tm. split; [apply settling_Fail|exact Hk]. Qed.

Lemma fail_quietly_owes : owes item (fail_quietly cfg item).
Proof using. by apply fail_item_owes. Qed.

Lemma BounceMessage_harmless a b c d : harmless (BounceMessage net_ a b c d).
Proof using StoreSpec0. unfold BounceMessage. harmless_walk. Qed.

Lemma fail_or_bounce_owes msg reason : owes item (fail_or_bounce net_ cfg msg item reason).
Proof using StoreSpec0. apply fail_item_owes. intros r. pose proof BounceMessage_harmless. destruct r; harmless_walk; auto. Qed.

Lemma delivered_owes : owes item (delivered item).
Proof using. apply owes_marked; [apply settling_Complete|]. intros r. harmless_walk. Qed.

Lemma deliverLocal_harmless msg raw : harmless (deliverLocal msg item raw).
Proof using StoreSpec0. unfold deliverLocal. harmless_walk. Qed.

Lemma try_mxes_harmless mxes from rcpt last : harmless (try_mxes net_ cfg mxes from rcpt last).
Proof using. revert last. induction mxes as [|h mxes IH]; intros last; [exact I|]. intros []; [apply IH|exact I]. Qed.

Lemma deliverItem_owes : owes item (deliverItem net_ cfg item).
Proof using StoreSpec0.
  pose proof fail_quietly_owes. pose proof fail_or_bounce_owes. pose proof delivered_owes.
  unfold deliverItem. apply owes_bind; [harmless_walk|]. intros [msg|]; [|done].
  apply owes_bind; [harmless_walk|]. intros [raw|]; [|done].
  destruct (strings.SplitN2 _ _) as [|lp [|domain [|? ?]]]; try done.
  apply owes_bind; [harmless_walk|]. intros [[]|]; [| |done].
  - apply owes_bind; [apply deliverLocal_harmless|]. by intros [e|].
  - destruct (negb _); [apply owes_bind; [done|by intros [e|]]|].
    destruct (LookupMX _ _) as [[|mx mxes]|]; [done| |done]. apply owes_bind; [apply try_mxes_harmless|]. by intros [e|].
Qed.
End owes.

Definition worker_ok (t : table QueueItem) (s : worker_state) : Prop :=
  match s with
  | Delivering item rest => row_of t item ∧ owes item rest
  | Settled rest => harmless rest
  | _ => True
  end.

(** The rows that are active are those in the workers' hands, and those that were
    active when the manager was made. *)
Record pool_inv (A0 : list Z) (p : Pool) : Prop := mk_pool_inv {
  pi_wf : wf (pl_world p);
  pi_quiet : w_faults (pl_world p) = [];
  pi_nodup : NoDup (in_hands (pl_workers p) ++ A0);
  pi_active id : id ∈ in_hands (pl_workers p) ++ A0 ↔ active_id (queue (w_db (pl_world p))) id;
  pi_workers s : s ∈ pl_workers p → worker_ok (queue (w_db (pl_world p))) s;
}.

Section tables.
Context (t : table QueueItem) (Hu : unique qi_ID t).

Lemma active_claim q id :
  q ∈ rows t → qi_Status q = "pending" →
  active_id (update_rows (claimable (qi_ID q)) (with_status "active") t) id ↔ id = qi_ID q ∨ active_id t id.
Proof using Hu.
  intros Hq Hp. split.
  - intros (x & (r & Hr & ->)%elem_of_update & <- & Ex). case_decide as Hc; [left; apply Hc|right]. by exists r.
  - intros [->|(x & Hx & <- & Ex)].
    + exists (with_status "active" q). split_and!; try done. apply elem_of_update. exists q. split; [done|].
      by rewrite decide_True.
    + exists x. split_and!; try done. apply elem_of_update. exists x. split; [done|]. rewrite decide_False; [done|].
      intros [_ E]. by rewrite Ex in E.
Qed.

Lemma active_without k id : active_id (without k t) id ↔ id ≠ k ∧ active_id t id.
Proof using.
  unfold active_id, without. setoid_rewrite elem_of_delete. naive_solver.
Qed.

Lemma active_put_back k tm id : active_id (put_back k tm t) id ↔ id ≠ k ∧ active_id t id.
Proof using.
  unfold put_back. split.
  - intros (x & (r & Hr & ->)%elem_of_update & <- & Ex). case_decide as Hc; [done|]. split; [done|]. by exists r.
  - intros (Hn & x & Hx & <- & Ex). exists x. split_and!; try done. apply elem_of_update. exists x. split; [done|].
    by rewrite decide_False.
Qed.

Lemma row_of_claim k st item : row_of t item → row_of (update_rows (claimable k) (with_status st) t) item.
Proof using.
  intros (q & Hq & E1 & E2). exists (if decide (claimable k q) then with_status st q else q).
  split; [apply elem_of_update; by exists q|]. by case_decide.
Qed.
Lemma row_of_without k item : qi_ID item ≠ k → row_of t item → row_of (without k t) item.
Proof using. intros Hk (q & Hq & E1 & E2). exists q. split_and!; try done. apply elem_of_delete. split; congruence. Qed.
Lemma row_of_put_back k tm item : qi_ID item ≠ k → row_of t item → row_of (put_back k tm t) item.
Proof using.
  intros Hk (q & Hq & E1 & E2). exists q. split_and!; try done. apply elem_of_update. exists q.
  split; [done|]. rewrite decide_False; congruence.
Qed.
End tables.

Lemma elem_of_with_worker (i : nat) (s s' : worker_state) (ws : list worker_state) : s' ∈ <[i := s]> ws → s' = s ∨ s' ∈ ws.
Proof.
  intros (j & Hj)%list_elem_of_lookup. apply list_lookup_insert_Some in Hj as [(_ & -> & _)|[_ Hj]]; [by left|right].
  by eapply list_elem_of_lookup_2.
Qed.

(** * Every step keeps the invariant *)
Section inv.
Context `{MR : MapRange} `{S : Store} (digest : string → string) `{!StoreSpec S digest} (cfg : Config) (A0 : list Z).
#[local] Notation tbl p := (queue (w_db (pl_world p))).

Lemma worker_ok_mono t t' s :
  (∀ item, row_of t item → holds s = [qi_ID item] → row_of t' item) → worker_ok t s → worker_ok t' s.
Proof using. intros H. destruct s as [|item rest|rest|]; [done| |done..]. intros [H1 H2]. split; [by apply H|done]. Qed.

(** A worker moves to a state in which it holds what it held, and the queue stays. *)
Lemma same_hands_inv i s s' w p :
  pl_workers p !! i = Some s → holds s' = holds s → worker_ok (tbl p) s' → wf w → w_faults w = [] →
  queue (w_db w) = tbl p → pool_inv A0 p → pool_inv A0 (with_worker i s' (with_world w p)).
Proof using.
  intros Hi Eh Hok Hw Hf EQ [_ _ Hn Ha Hr].
  assert (in_hands (<[i:=s']> (pl_workers p)) ≡ₚ in_hands (pl_workers p)) as Hp.
  { by rewrite (in_hands_insert _ i s s' Hi), Eh, (in_hands_at _ i s Hi). }
  constructor; cbn [pl_world pl_workers with_worker with_world]; try done.
  - by rewrite Hp.
  - intros id. rewrite Hp, EQ. apply Ha.
  - intros x Hx. rewrite EQ. apply elem_of_with_worker in Hx as [->|Hx]; [done|by apply Hr].
Qed.

Lemma claim_inv net_ i p : pl_workers p !! i = Some Selecting → pool_inv A0 p → pool_inv A0 (claim cfg net_ i p).
Proof using StoreSpec0.
  intros Hi Hp. pose proof Hp as [Hw Hf Hn Ha Hr]. pose proof (ClaimNext_wf _ Hw) as Hw'. revert Hw'. unfold claim.
  rewrite ClaimNext_run by done. pose proof (sql_next_due_spec (w_now (pl_world p) / second) (w_db (pl_world p))) as Hd.
  destruct (sql_next_due _ _) as [q|e]; cbn [fst snd]; intros Hw'; [|by apply (same_hands_inv i Selecting)].
  destruct Hd as (Hq & [Hpd _] & _). unfold claimed in *. assert (unique qi_ID (tbl p)) as Hu by apply Hw.
  set (s := Delivering q _).
  assert (in_hands (<[i:=s]> (pl_workers p)) ≡ₚ qi_ID q :: in_hands (pl_workers p)) as Hperm.
  { by rewrite (in_hands_insert _ i Selecting _ Hi), (in_hands_at _ i Selecting Hi). }
  constructor; try done; cbn [pl_world pl_workers with_worker with_world w_db set_db queue set_queue].
  - rewrite Hperm. cbn. apply NoDup_cons. split; [|done]. intros (x & Hx & E & Ex)%Ha.
    replace x with q in Ex by (symmetry; by apply (unique_inj qi_ID (tbl p))). by rewrite Hpd in Ex.
  - intros id. rewrite Hperm, active_claim, <- Ha by done. cbn. by rewrite elem_of_cons.
  - intros x [->|Hin]%elem_of_with_worker.
    + split; [apply row_of_claim; by exists q|by eapply deliverItem_owes].
    + eapply worker_ok_mono; [|by apply Hr]. intros item Hrow _. by apply row_of_claim.
Qed.

(** The marked step: the item leaves the worker's hands and stops being active. *)
Lemma settle_inv i item rest X (m : state World X) k p :
  pl_workers p !! i = Some (Delivering item (Act true m k)) → rest = k (m (pl_world p)).1 → pool_inv A0 p →
  pool_inv A0 (with_worker i (Settled rest) (with_world (m (pl_world p)).2 p)).
Proof using.
  intros Hi -> [Hw Hf Hn Ha Hr]. destruct (Hr _ (list_elem_of_lookup_2 _ _ _ Hi)) as [Hrow [Hset Hrest]].
  destruct (Hset (pl_world p) Hw Hf Hrow) as (Hw' & Hf' & EQ). generalize dependent (m (pl_world p)). intros [x w'] Hw' Hf' EQ. cbn [fst snd] in *.
  assert (in_hands (<[i:=Settled (k x)]> (pl_workers p)) ≡ₚ in_hands (delete i (pl_workers p))) as Hp1 by exact (in_hands_insert _ i _ (Settled (k x)) Hi).
  pose proof (in_hands_at _ i _ Hi) as Hp2. cbn [holds app] in Hp2. rewrite Hp2 in Hn. cbn in Hn. apply NoDup_cons in Hn as [Hni Hn].
  assert ((∀ id, active_id (queue (w_db w')) id ↔ id ≠ qi_ID item ∧ active_id (tbl p) id) ∧
    (∀ y, qi_ID y ≠ qi_ID item → row_of (tbl p) y → row_of (queue (w_db w')) y)) as [Hact Hrow'].
  { destruct EQ as [->|[tm ->]]; (split; intros y; [apply active_without || apply active_put_back|apply row_of_without || apply row_of_put_back]). }
  constructor; cbn [pl_world pl_workers with_worker with_world]; try done.
  - by rewrite Hp1.
  - intros id. rewrite Hp1, Hact, <- Ha, Hp2. cbn. rewrite elem_of_cons. split; [|naive_solver].
    intros Hid. split; [|by right]. intros ->. done.
  - intros s Hs. apply elem_of_with_worker in Hs as Hs'. destruct Hs' as [->|Hs']; [apply Hrest|].
    eapply worker_ok_mono; [|by apply Hr]. intros y Hy Eh. apply Hrow'; [|done]. intros E. apply Hni, elem_of_app. left.
    rewrite <- Hp1. destruct s as [|y' r|r|]; try done. injection Eh as Eh. rewrite <- E, <- Eh. by eapply elem_of_in_hands.
Qed.

Lemma advance_inv i s s' w p :
  pl_workers p !! i = Some s → advance s (pl_world p) = Some (s', w) → pool_inv A0 p →
  pool_inv A0 (with_worker i s' (with_world w p)).
Proof using.
  intros Hi Hs Hp. pose proof Hp as [Hw Hf _ _ Hr]. pose proof (Hr s (list_elem_of_lookup_2 _ _ _ Hi)) as Hok.
  assert (∀ X (m : state World X), keeps m → wf (m (pl_world p)).2 ∧ w_faults (m (pl_world p)).2 = [] ∧ queue (w_db (m (pl_world p)).2) = tbl p) as Hkeep.
  { intros X m Hm. by apply (Hm (tbl p)). }
  destruct s as [|item rest|rest|]; [done| | |done].
  - destruct Hok as [Hrow How]. destruct rest as [a|[] X m k|X [x|] k]; cbn [advance] in Hs.
    + done.
    + pose proof (settle_inv i item _ X m k p Hi eq_refl Hp) as H. destruct (m (pl_world p)) as [x w']. by injection Hs as <- <-.
    + destruct How as [Hm Hk]. destruct (Hkeep X m Hm) as (H1 & H2 & H3). destruct (m (pl_world p)) as [x w']. injection Hs as <- <-.
      apply (same_hands_inv i (Delivering item (Act false m k))); done.
    + injection Hs as <- <-. apply (same_hands_inv i (Delivering item (Wait (Returns x) k))); done.
    + done.
  - destruct rest as [a|b X m k|X [x|] k]; cbn [advance] in Hs; cbn [worker_ok harmless] in Hok.
    + injection Hs as <- <-. by apply (same_hands_inv i (Settled (Done a))).
    + destruct Hok as (-> & Hm & Hk). destruct (Hkeep X m Hm) as (H1 & H2 & H3). destruct (m (pl_world p)) as [x w']. injection Hs as <- <-.
      apply (same_hands_inv i (Settled (Act false m k))); try done; exact (Hk x).
    + injection Hs as <- <-. apply (same_hands_inv i (Settled (Wait (Returns x) k))); try done; exact (Hok x).
    + done.
Qed.

(** Nothing in the worker's hands changes, and nothing in the queue. *)
Lemma pool_inv_same p p' :
  pl_world p' = pl_world p → in_hands (pl_workers p') ≡ₚ in_hands (pl_workers p) →
  (∀ s, s ∈ pl_workers p' → s = Selecting ∨ s ∈ pl_workers p) → pool_inv A0 p → pool_inv A0 p'.
Proof using.
  intros Ew Eh Hd [Hw Hf Hn Ha Hr]. constructor; rewrite ?Ew; try done.
  - by rewrite Eh.
  - intros id. by rewrite Eh.
  - intros s Hin. destruct (Hd s Hin) as [->|Hin']; [done|by apply Hr].
Qed.

Lemma work_inv p p' : work p p' → pool_inv A0 p → pool_inv A0 p'.
Proof using.
  intros [i s s' w p0 Hi Hs|i p0 Hi Hst] Hp; [by eapply advance_inv|].
  destruct Hp as [Hw Hf Hn Ha Hr]. apply (same_hands_inv i Selecting Exited (pl_world p0) p0); done.
Qed.

Lemma Manager_Enqueue_quiet m r w :
  w_faults w = [] → let w' := (Manager_Enqueue m r w).2 in
  w_faults w' = [] ∧ (queue (w_db w') = queue (w_db w) ∨
    queue (w_db w') = insert_row (λ id, mkQueueItem id m r (w_now w / second) 0 "pending") (queue (w_db w))).
Proof using.
  intros Hf. unfold Manager_Enqueue, Enqueue, sbind, time_now_unix, queue_metrics, smodify. rewrite stmt_ok_run by done.
  unfold sql_enqueue. case_decide; cbn; (split; [done|]); [by right|by left].
Qed.

Lemma pool_step_inv p p' : pool_step cfg p p' → pool_inv A0 p → pool_inv A0 p'.
Proof using StoreSpec0.
  intros [n p0 Hs|net_ i p0 Hi|p0 p1 Hw|p0 p1 Hc|p0 p1 Hc|m r p0|d p0] Hp.
  - apply (pool_inv_same p0); try done; [cbn [Start pl_workers]; by rewrite in_hands_start|].
    intros s. cbn. intros [|[-> _]%elem_of_replicate]%elem_of_app; [by right|by left].
  - by apply claim_inv.
  - by eapply work_inv.
  - unfold Stop_close in Hc. destruct (pl_stopCh p0); [done|]. injection Hc as <-. apply (pool_inv_same p0); auto.
  - unfold Stop_wait in Hc. destruct (_ && _); [|done]. injection Hc as <-. apply (pool_inv_same p0); auto.
  - destruct Hp as [Hw Hf Hn Ha Hr]. pose proof (Manager_Enqueue_wf m r _ Hw) as Hw'.
    destruct (Manager_Enqueue_quiet m r _ Hf) as [Hf' EQ]. constructor; cbn [pl_world pl_workers with_world]; try done.
    + intros id. rewrite Ha. destruct EQ as [->|EQ]; [done|]. rewrite EQ. unfold active_id. setoid_rewrite elem_of_insert.
      split; [naive_solver|]. intros (q & [Hq| ->] & E & Ex); [by exists q|done].
    + intros s Hin. eapply worker_ok_mono; [|by apply Hr]. intros item (q & Hq & E1 & E2) _. exists q. split; [|done].
      destruct EQ as [->|EQ]; [done|]. rewrite EQ, elem_of_insert. by left.
  - by destruct Hp.
Qed.

Lemma pool_reachable_inv w p :
  wf w → w_faults w = [] → NoDup A0 → (∀ id, id ∈ A0 ↔ active_id (queue (w_db w)) id) →
  pool_reachable cfg w p → pool_inv A0 p.
Proof using StoreSpec0.
  intros Hw Hf Hn Ha. induction 1 as [|p p' _ IH Hs]; [|by eapply pool_step_inv].
  constructor; try done. intros item Hin. by apply elem_of_nil in Hin.
Qed.
End inv.

(** * Stopping *)
Lemma exited_at ws i s : forallb exited ws = true → ws !! i = Some s → s = Exited.
Proof.
  intros H Hi%list_elem_of_lookup_2. rewrite forallb_forall in H. apply list_elem_of_In, H in Hi. by destruct s.
Qed.

Lemma stopped_exited `{MR : MapRange} `{S : Store} cfg w p :
  pool_reachable cfg w p → pl_stopped p = true → pl_stopCh p = true ∧ forallb exited (pl_workers p) = true.
Proof.
  induction 1 as [|p p' _ IH Hs]; [done|]. destruct Hs as [n p0 Hs|net_ i p0 Hi|p0 p1 Hw|p0 p1 Hc|p0 p1 Hc|m r p0|d p0]; try exact IH.
  - cbn. intros H. destruct (IH H). congruence.
  - unfold claim. destruct (ClaimNext _) as [r w']. cbn. intros H. destruct (IH H) as [_ He].
    by apply (exited_at _ i _ He) in Hi.
  - intros H. destruct Hw as [i s s' w' p0 Hi Ha|i p0 Hi Hst]; cbn in *; destruct (IH H) as [_ He];
      apply (exited_at _ i _ He) in Hi; by subst.
  - unfold Stop_close in Hc. destruct (pl_stopCh p0); [done|]. injection Hc as <-. cbn. intros H. by destruct (IH H).
  - unfold Stop_wait in Hc. destruct (pl_stopCh p0 && _) eqn:E; [|done]. injection Hc as <-. cbn.
    apply andb_true_iff in E as [E1 E2]. done.
Qed.

(** ** What a worker still does *)
(** [next s' s]: a worker goes from [s] to [s'] without a tick, whatever the world. *)
Definition next (s' s : worker_state) : Prop :=
  (∃ w w', advance s w = Some (s', w')) ∨ s = Selecting ∧ s' = Exited.

Lemma next_acc s : Acc next s.
Proof.
  assert (Acc next Exited) as He by (constructor; intros s' [(w & w' & [=])|[[=] _]]).
  assert (Acc next Selecting) as Hsel by (constructor; intros s' [(w & w' & [=])|[_ ->]]; exact He).
  assert (∀ p, Acc next (Settled p)) as Hset.
  { induction p as [a|b X m k IH|X [x|] k IH]; constructor; intros s' [(w & w' & Hs)|[[=] _]]; cbn [advance] in Hs;
      [by injection Hs as <- _| |injection Hs as <- _; apply IH|done].
    destruct (m w) as [x w1]. injection Hs as <- _. apply IH. }
  destruct s as [|item p|p|]; [done| |done..].
  induction p as [a|b X m k IH|X [x|] k IH]; constructor; intros s' [(w & w' & Hs)|[[=] _]]; cbn [advance] in Hs;
    [by injection Hs as <- _| |injection Hs as <- _; apply IH|done].
  destruct (m w) as [x w1]. destruct b; injection Hs as <- _; [apply Hset|apply IH].
Qed.

(** One of the workers goes on. *)
Definition nexts (ws' ws : list worker_state) : Prop :=
  ∃ i s s', ws !! i = Some s ∧ next s' s ∧ ws' = <[i := s']> ws.

Lemma nexts_acc ws : Acc nexts ws.
Proof.
  induction ws as [|s ws IH]; [constructor; by intros ? (i & s & s' & Hi & _)|].
  revert s. induction IH as [ws _ IHws]. intros s. induction (next_acc s) as [s Hs IHs].
  constructor. intros ws' (i & x & x' & Hi & Hx & ->). destruct i as [|i].
  - cbn in Hi. injection Hi as ->. by apply IHs.
  - apply (IHws (<[i := x']> ws)). by exists i, x, x'.
Qed.

Section stopping.
Context `{MR : MapRange} `{S : Store} (cfg : Config).

(** The run of the workers while [Stop] waits, with at most [n] ticks still to be
    taken by the [select]s; the rest of the process may change the world in
    between in any way. *)
Inductive closing : nat * Pool → nat * Pool → Prop :=
  | cl_work n w p p' : work (with_world w p) p' → closing (n, p) (n, p')
  | cl_tick n net_ w i p :
      pl_workers p !! i = Some Selecting → closing (Datatypes.S n, p) (n, claim cfg net_ i (with_world w p)).

Lemma work_nexts p p' : work p p' → nexts (pl_workers p') (pl_workers p) ∧ pl_stopCh p' = pl_stopCh p.
Proof using.
  intros [i s s' w p0 Hi Hs|i p0 Hi Hst]; (split; [|done]).
  - exists i, s, s'. split; [done|]. split; [|done]. left. by exists (pl_world p0), w.
  - exists i, Selecting, Exited. split; [done|]. split; [by right|done].
Qed.

Lemma closing_acc n p : Acc (flip closing) (n, p).
Proof using.
  remember (pl_workers p) as ws eqn:E. revert ws p E. induction n as [|n IHn]; intros ws p E;
    revert p E; induction (nexts_acc ws) as [ws _ IHws]; intros p E; constructor; intros [n' p'] Hc; inversion Hc; subst.
  - eapply IHws; [|done]. by eapply (work_nexts (with_world _ p)).
  - eapply IHws; [|done]. by eapply (work_nexts (with_world _ p)).
  - by eapply IHn.
Qed.

Definition stuck (s : worker_state) : bool :=
  match s with Delivering _ (Wait Hangs _) | Settled (Wait Hangs _) => true | _ => false end.

Lemma advance_or_stuck s w : s = Selecting ∨ s = Exited ∨ stuck s = true ∨ is_Some (advance s w).
Proof using.
  destruct s as [|item p|p|]; [by left| | |by right; left]; right; right;
    (destruct p as [a|b X m k|X [x|] k]; cbn [advance stuck]; [right; by eexists| |right; by eexists|by left]);
    right; destruct (m w); by eexists.
Qed.

Lemma closing_progress p :
  pl_stopCh p = true → is_Some (Stop_wait p) ∨ (∃ i s, pl_workers p !! i = Some s ∧ stuck s = true) ∨ ∃ p', work p p'.
Proof using.
  intros Hst. unfold Stop_wait. rewrite Hst. cbn [andb]. destruct (forallb exited (pl_workers p)) eqn:E; [left; by eexists|right].
  assert (∃ i s, pl_workers p !! i = Some s ∧ s ≠ Exited) as (i & s & Hi & Hs).
  { revert E. induction (pl_workers p) as [|s ws IH]; [done|]. cbn [forallb].
    destruct s; try (by exists 0%nat; eexists); intros E; destruct (IH E) as (i & s & Hi & Hs); by exists (Datatypes.S i), s. }
  destruct (advance_or_stuck s (pl_world p)) as [->|[?|[Hk|[[s' w'] Ha]]]]; [right|done|left; by exists i, s|right].
  - eexists. by apply (wk_exit i).
  - eexists. by apply (wk_advance i s s' w').
Qed.

(** A worker that waits for ever is always there. *)
Lemma stuck_step i s p p' :
  stuck s = true → pl_workers p !! i = Some s → pool_step cfg p p' → pl_workers p' !! i = Some s.
Proof using.
  intros Hk Hi Hs.
  assert (∀ j x y, x ≠ s → pl_workers p !! j = Some x → <[j := y]> (pl_workers p) !! i = Some s) as Hother.
  { intros j x y Hx Hj. rewrite list_lookup_insert_ne; [done|]. intros ->. congruence. }
  destruct Hs as [n p0 Hs|net_ j p0 Hj|p0 p1 Hw|p0 p1 Hc|p0 p1 Hc|m r p0|d p0]; try done.
  - cbn. by rewrite lookup_app_l by (by eapply lookup_lt_Some).
  - unfold claim. destruct (ClaimNext _) as [r w]. cbn. apply (Hother j Selecting); [|done]. by intros <-.
  - destruct Hw as [j x y w p0 Hj Ha|j p0 Hj Hst]; cbn.
    + apply (Hother j x); [|done]. intros ->. by destruct s as [|? []|[]|]; try done; destruct o.
    + apply (Hother j Selecting); [|done]. by intros <-.
  - unfold Stop_close in Hc. destruct (pl_stopCh p0); [done|]. by injection Hc as <-.
  - unfold Stop_wait in Hc. destruct (_ && _); [|done]. by injection Hc as <-.
Qed.

Lemma stuck_no_wait i s p : stuck s = true → pl_workers p !! i = Some s → Stop_wait p = None.
Proof using.
  intros Hk Hi. unfold Stop_wait. destruct (forallb exited (pl_workers p)) eqn:E; [|by rewrite andb_false_r].
  apply (exited_at _ i _ E) in Hi. by subst.
Qed.
End stopping.

(** C13.  What [Stop] is for.  Start from any well-formed database on which nothing
    fails; let the workers of one manager interleave in any way with each other,
    with new mail, with time and with a [Stop].  The active rows of the queue are
    at all times those some worker is delivering, no two workers the same, and
    those that were active before, which no worker of this manager ever touches.
    When [Stop] has returned every worker has, and no item of this manager is
    left active; a process that ends otherwise, as [Run] does, leaves the items
    in its workers' hands active, and the next manager never delivers them. *)
Theorem stop_leaves_nothing_active `{MR : MapRange} `{S : Store} (digest : string → string) `{!StoreSpec S digest}
    (cfg : Config) (w : World) (p : Pool) :
  wf w → w_faults w = [] → pool_reachable cfg w p →
  let before := active_id (queue (w_db w)) in
  let now := active_id (queue (w_db (pl_world p))) in
  wf (pl_world p) ∧ NoDup (in_hands (pl_workers p)) ∧
  (∀ id, now id ↔ id ∈ in_hands (pl_workers p) ∨ before id) ∧
  (∀ id, id ∈ in_hands (pl_workers p) → ¬ before id) ∧
  (pl_stopped p = true → Forall (λ s, s = Exited) (pl_workers p) ∧ ∀ id, now id ↔ before id).
Proof.
  intros Hw Hf Hp before now.
  set (A0 := qi_ID <$> filter (λ q, qi_Status q = "active") (rows (queue (w_db w)))).
  assert (∀ id, id ∈ A0 ↔ before id) as HA.
  { intros id. unfold A0, before, active_id. rewrite list_elem_of_fmap. setoid_rewrite list_elem_of_filter. naive_solver. }
  assert (NoDup A0) as Hnd.
  { eapply sublist_NoDup; [apply (wf_queue _ Hw)|]. apply fmap_sublist, sublist_filter. }
  destruct (pool_reachable_inv digest cfg A0 w p Hw Hf Hnd HA Hp) as [Hw' _ Hn Ha _].
  apply NoDup_app in Hn as (Hn1 & Hdis & _).
  assert (∀ id, now id ↔ id ∈ in_hands (pl_workers p) ∨ before id) as Hnow.
  { intros id. unfold now. rewrite <- Ha, elem_of_app, HA. done. }
  split_and!; [done|done|done|intros id Hid Hb; by apply (Hdis id Hid), HA|].
  intros Hs. destruct (stopped_exited _ _ _ Hp Hs) as [_ He]. split.
  - rewrite forallb_forall in He. apply Forall_forall. intros s Hin. apply list_elem_of_In, He in Hin. by destruct s.
  - intros id. rewrite Hnow, in_hands_exited by done. rewrite elem_of_nil. tauto.
Qed.

(** C14.  When [Stop] returns.  [select] chooses among the cases that are ready, so a
    worker may take ticks after [stopCh] was closed; but with any bound on how many
    it takes, the workers can only go on for finitely many steps, however they
    interleave and whatever the rest of the process does to the database.  And
    when none of them can go on, either all have returned and [wg.Wait] lets [Stop]
    return, or one of them waits for a server that never answers.  Such a worker is there for good,
    so [Stop] never returns: a delivery has no time limit and does not watch
    [stopCh].  A second [Stop] would panic. *)
Theorem stop_returns `{MR : MapRange} `{S : Store} (cfg : Config) (p : Pool) :
  pl_stopCh p = true →
  (∀ ticks, Acc (flip (closing cfg)) (ticks, p)) ∧
  ((∀ p', ¬ work p p') → is_Some (Stop_wait p) ∨ ∃ i s, pl_workers p !! i = Some s ∧ stuck s = true) ∧
  (∀ i s, pl_workers p !! i = Some s → stuck s = true → ∀ p', rtc (pool_step cfg) p p' → Stop_wait p' = None) ∧
  Stop_close p = None.
Proof.
  intros Hst. split; [intros n; apply closing_acc|]. split; [|split].
  - intros Hno. destruct (closing_progress p Hst) as [H|[H|[p' H]]]; [by left|by right|by destruct (Hno p')].
  - intros i s Hi Hk p' Hs. apply (stuck_no_wait i s); [done|]. clear Hst. induction Hs as [p|p p1 p' H _ IH]; [done|].
    apply IH. by eapply stuck_step.
  - unfold Stop_close. by rewrite Hst.
Qed.

(** ** Runs *)
Section perform.
Context `{MR : MapRange} `{S : Store} (cfg : Config).

Inductive event := EStart (n : nat) | EClaim (net_ : Net) (i : nat) | EAdvance (i : nat) | EExit (i : nat) | EClose | EWait.

Definition selecting (s : option worker_state) : bool := match s with Some Selecting => true | _ => false end.

Definition perform (e : event) (p : Pool) : option Pool :=
  match e with
  | EStart n => if pl_stopCh p then None else Some (Start n p)
  | EClaim net_ i => if selecting (pl_workers p !! i) then Some (claim cfg net_ i p) else None
  | EAdvance i => s ← pl_workers p !! i; '(s', w) ← advance s (pl_world p); Some (with_worker i s' (with_world w p))
  | EExit i => if selecting (pl_workers p !! i) && pl_stopCh p then Some (with_worker i Exited p) else None
  | EClose => Stop_close p
  | EWait => Stop_wait p
  end.

Fixpoint perform_all (es : list event) (p : Pool) : option Pool :=
  match es with [] => Some p | e :: es => p' ← perform e p; perform_all es p' end.

Lemma selecting_at s : selecting s = true → s = Some Selecting.
Proof using. by destruct s as [[]|]. Qed.

Lemma perform_step e p p' : perform e p = Some p' → pool_step cfg p p'.
Proof using.
  destruct e as [n|net_ i|i|i| |]; cbn [perform]; intros H.
  - destruct (pl_stopCh p) eqn:E; [done|]. injection H as <-. by constructor.
  - destruct (selecting _) eqn:E; [|done]. injection H as <-. constructor. by apply selecting_at.
  - destruct (pl_workers p !! i) as [s|] eqn:Ei; [|done]. cbn in H.
    destruct (advance s (pl_world p)) as [[s' w]|] eqn:Ea; [|done]. injection H as <-. by eapply ps_work, wk_advance.
  - destruct (selecting _) eqn:E; [|done]. destruct (pl_stopCh p) eqn:Es; [|done]. injection H as <-.
    apply ps_work, wk_exit; [by apply selecting_at|done].
  - by apply ps_close.
  - by apply ps_wait.
Qed.

Lemma perform_all_reachable w es p p' : pool_reachable cfg w p → perform_all es p = Some p' → pool_reachable cfg w p'.
Proof using.
  revert p. induction es as [|e es IH]; intros p Hp H; cbn in H; [by injection H as <-|].
  destruct (perform e p) as [p1|] eqn:E; [|done]. apply (IH p1); [|done]. eapply pr_step; [done|]. by eapply perform_step.
Qed.
End perform.

(** Two workers; one claims an item, [Stop] closes the channel, the other takes one
    more tick, both settle what they hold in turns and return. *)
Definition demo_events : list event :=
  [EStart 2; EClaim dead_net 0; EAdvance 0; EClose; EClaim dead_net 1; EAdvance 1; EAdvance 0; EAdvance 1;
   EAdvance 1; EAdvance 0; EAdvance 1; EAdvance 0; EAdvance 0; EExit 0; EAdvance 1; EExit 1; EWait].

(** The only worker waits for a server that says nothing when [Stop] comes. *)
Definition silent_events : list event := [EStart 1; EClaim silent_net 0; EAdvance 0; EAdvance 0; EAdvance 0; EClose].

Definition demo_run (w : World) (es : list event) : option Pool :=
  perform_all (S := SQLiteStore toy_digest) demo_config es (mkPool w [] false false).
Definition demo_pool (w : World) (es : list event) : Pool := default (mkPool w [] false false) (demo_run w es).

Definition silent_world : World :=
  set_db (set_blobs (mkTable [mkBlobRow "k" "Subject: hi" 11 100 1] 0) demo_queue) demo_world.

Definition is_some {A} (o : option A) : bool := match o with Some _ => true | None => false end.

Lemma demo_pool_reachable w es :
  is_some (demo_run w es) = true → pool_reachable (S := SQLiteStore toy_digest) demo_config w (demo_pool w es).
Proof.
  unfold demo_pool. destruct (demo_run w es) as [p|] eqn:E; [|done]. intros _.
  eapply perform_all_reachable; [apply pr_new|exact E].
Qed.

Lemma demo_reachable :
  pool_reachable (S := SQLiteStore toy_digest) demo_config demo_queue_world (demo_pool demo_queue_world demo_events).
Proof. apply demo_pool_reachable. vm_compute. reflexivity. Qed.

Lemma stop_leaves_nothing_active_witness :
  pl_workers (demo_pool demo_queue_world demo_events) = [Exited; Exited] ∧
  ∀ id, active_id (queue (w_db (pl_world (demo_pool demo_queue_world demo_events)))) id ↔ active_id (queue (w_db demo_queue_world)) id.
Proof.
  split; [vm_compute; reflexivity|].
  destruct (stop_leaves_nothing_active (S := SQLiteStore toy_digest) toy_digest demo_config demo_queue_world
    (demo_pool demo_queue_world demo_events) demo_queue_wf eq_refl demo_reachable) as (_ & _ & _ & _ & H).
  apply H. vm_compute. reflexivity.
Defined.

Lemma silent_pool_stuck : ∃ s, pl_workers (demo_pool silent_world silent_events) !! 0%nat = Some s ∧ stuck s = true.
Proof.
  assert (match pl_workers (demo_pool silent_world silent_events) !! 0%nat with Some s => stuck s | None => false end = true)
    as H by (vm_compute; reflexivity).
  destruct (pl_workers _ !! _) as [s|]; [by exists s|done].
Qed.

(** The last state before [wg.Wait] returns. *)
Definition demo_before_wait : Pool := demo_pool demo_queue_world (removelast demo_events).
Lemma demo_before_wait_at : pl_workers demo_before_wait = [Exited; Exited] ∧ pl_stopCh demo_before_wait = true.
Proof. split; vm_compute; reflexivity. Qed.
Lemma silent_pool_closed : pl_stopCh (demo_pool silent_world silent_events) = true.
Proof. vm_compute. reflexivity. Qed.

Lemma both_exited i s : [Exited; Exited] !! i = Some s → s = Exited.
Proof. intros H%list_elem_of_lookup_2. by apply elem_of_cons in H as [->|[->|[]%elem_of_nil]%elem_of_cons]. Qed.
Lemma no_work p p' : pl_workers p = [Exited; Exited] → ¬ work p p'.
Proof. intros E Hw. destruct Hw as [i s s' w p Hi Ha|i p Hi Hst]; rewrite E in Hi; apply both_exited in Hi; by subst. Qed.

Lemma stop_returns_witness :
  is_Some (Stop_wait demo_before_wait) ∧
  ∀ p', rtc (pool_step (S := SQLiteStore toy_digest) demo_config) (demo_pool silent_world silent_events) p' → Stop_wait p' = None.
Proof.
  destruct demo_before_wait_at as [Ew Ec]. destruct silent_pool_stuck as (s & Hi & Hs). split.
  - destruct (stop_returns (S := SQLiteStore toy_digest) demo_config demo_before_wait Ec) as (_ & H & _).
    destruct H as [H|(i & x & Hx & Hk)]; [intros p'; by apply no_work|exact H|].
    rewrite Ew in Hx. apply both_exited in Hx as ->. discriminate Hk.
  - destruct (stop_returns (S := SQLiteStore toy_digest) demo_config (demo_pool silent_world silent_events) silent_pool_closed)
      as (_ & _ & H & _). exact (H 0%nat s Hi Hs).
Defined.
