(* ===== verification/Report.v ===== *)
(** DMARC aggregate reports (src/pkg/dmarc/report.go): the feedback document, its
    XML text as [encoding/xml] writes it, the report e-mail, and a run of the
    generator over the domains with unreported results.  [dmarc.Lookup] queries
    DNS, [gzip] compresses; both are arguments, and so are the random draws. *)
From S2P Require Import Prelude GoLib Cache Sql Schema World StoreUsers StoreMail StoreQueue Search Blob Worker Dmarc.

(** * The feedback document *)
Record DateRange := mkDateRange { Begin : Z; End_ : Z }.
Record ReportMetadata := mkReportMetadata {
  OrgName : string; Email : string; ExtraContactInfo : string; ReportID : string; Range : DateRange }.
(** [Percent] 0, like an empty string, is omitted. *)
Record PolicyPublished := mkPolicyPublished {
  pp_Domain : string; ADKIM : string; ASPF : string; pp_Policy : string; SPolicy : string; Percent : Z }.
Record PolicyOverride := mkPolicyOverride { po_Type : string; po_Comment : string }.
Record PolicyEvaluated := mkPolicyEvaluated {
  Disposition : string; pe_DKIM : string; pe_SPF : string; Override : option PolicyOverride }.
Record Row := mkRow { SourceIP : string; Count : Z; Evaluated : PolicyEvaluated }.
Record AuthResult := mkAuthResult { ar_Domain : string; ar_Result : string }.
Record AuthResults := mkAuthResults { ars_DKIM : list AuthResult; ars_SPF : list AuthResult }.
Record ReportRecord := mkRecord { rec_Row : Row; HeaderFrom : string; rec_Auth : AuthResults }.
Record Feedback := mkFeedback {
  Version : string; Metadata : ReportMetadata; Published : PolicyPublished; Records : list ReportRecord }.

(** * encoding/xml *)
Inductive xml := Leaf (name text : string) | Node (name : string) (children : list xml).

(** [xml.EscapeText], rune by rune. *)
Definition escape_rune (r : string) : string :=
  if String.eqb r dquote then "&#34;"
  else if String.eqb r "'" then "&#39;"
  else if String.eqb r "&" then "&amp;"
  else if String.eqb r "<" then "&lt;"
  else if String.eqb r ">" then "&gt;"
  else if String.eqb r (String (chr 9) "") then "&#x9;"
  else if String.eqb r (String (chr 10) "") then "&#xA;"
  else if String.eqb r (String (chr 13) "") then "&#xD;"
  else match r with
       | String c EmptyString => if ord c <? 32 then replacement else r
       | String a (String b (String c EmptyString)) =>
           if (ord a =? 239) && (ord b =? 191) && (190 <=? ord c) then replacement else r
       | _ => r
       end.
Definition EscapeText (s : string) : string := String.concat "" (escape_rune <$> runes s).

Fixpoint spaces (n : nat) : string := match n with O => "" | S n => "  " +:+ spaces n end.
Definition nl : string := String (chr 10) "".

(** [MarshalIndent] with two blanks per level; [depth] is that of the element. *)
Fixpoint marshal (depth : nat) (x : xml) : string :=
  match x with
  | Leaf n t => spaces depth +:+ "<" +:+ n +:+ ">" +:+ EscapeText t +:+ "</" +:+ n +:+ ">"
  | Node n [] => spaces depth +:+ "<" +:+ n +:+ "></" +:+ n +:+ ">"
  | Node n cs =>
      spaces depth +:+ "<" +:+ n +:+ ">" +:+ nl +:+
      String.concat nl (marshal (S depth) <$> cs) +:+ nl +:+
      spaces depth +:+ "</" +:+ n +:+ ">"
  end.

Definition omitempty (n t : string) : list xml := if String.eqb t "" then [] else [Leaf n t].

Definition date_range_xml (r : DateRange) : xml :=
  Node "date_range" [Leaf "begin" (strconv.Itoa (Begin r)); Leaf "end" (strconv.Itoa (End_ r))].
Definition metadata_xml (m : ReportMetadata) : xml :=
  Node "report_metadata" ([Leaf "org_name" (OrgName m); Leaf "email" (Email m)] ++
    omitempty "extra_contact_info" (ExtraContactInfo m) ++
    [Leaf "report_id" (ReportID m); date_range_xml (Range m)]).
Definition published_xml (p : PolicyPublished) : xml :=
  Node "policy_published" ([Leaf "domain" (pp_Domain p)] ++ omitempty "adkim" (ADKIM p) ++
    omitempty "aspf" (ASPF p) ++ [Leaf "p" (pp_Policy p)] ++ omitempty "sp" (SPolicy p) ++
    (if Percent p =? 0 then [] else [Leaf "pct" (strconv.Itoa (Percent p))])).
Definition override_xml (o : PolicyOverride) : xml :=
  Node "policy_override" (Leaf "type" (po_Type o) :: omitempty "comment" (po_Comment o)).
Definition evaluated_xml (e : PolicyEvaluated) : xml :=
  Node "policy_evaluated" ([Leaf "disposition" (Disposition e); Leaf "dkim" (pe_DKIM e); Leaf "spf" (pe_SPF e)] ++
    match Override e with Some o => [override_xml o] | None => [] end).
Definition row_xml (r : Row) : xml :=
  Node "row" [Leaf "source_ip" (SourceIP r); Leaf "count" (strconv.Itoa (Count r)); evaluated_xml (Evaluated r)].
Definition auth_xml (n : string) (a : AuthResult) : xml :=
  Node n [Leaf "domain" (ar_Domain a); Leaf "result" (ar_Result a)].
Definition record_xml (r : ReportRecord) : xml :=
  Node "record" [row_xml (rec_Row r); Node "identifiers" [Leaf "header_from" (HeaderFrom r)];
    Node "auth_results" ((auth_xml "dkim" <$> ars_DKIM (rec_Auth r)) ++ (auth_xml "spf" <$> ars_SPF (rec_Auth r)))].
Definition feedback_xml (f : Feedback) : xml :=
  Node "feedback" (omitempty "version" (Version f) ++ [metadata_xml (Metadata f); published_xml (Published f)] ++
    (record_xml <$> Records f)).

(** The document; marshalling these types cannot fail. *)
Definition MarshalIndent (f : Feedback) : res string := Ok (marshal 0 (feedback_xml f)).
Definition xml_Header : string :=
  "<?xml version=" +:+ dquote +:+ "1.0" +:+ dquote +:+ " encoding=" +:+ dquote +:+ "UTF-8" +:+ dquote +:+ "?>" +:+ nl.

(** * Building the report *)
Definition alignment_text (a : AlignmentMode) : string :=
  match a with AlignmentStrict => "s" | AlignmentRelaxed => "r" end.
Definition policy_text (p : Policy) : string :=
  match p with PolicyNone => "none" | PolicyQuarantine => "quarantine" | PolicyReject => "reject" end.

(** [spfEval] and [dkimEval]: some passed. *)
Definition evaluation (pass fail : Z) : string :=
  if (0 <? pass) && (fail =? 0) then "pass" else if (0 <? pass) && (0 <? fail) then "pass" else "fail".

Definition report_record (domain : string) (r : AggregatedDMARCResult) : ReportRecord :=
  let disposition := if String.eqb (ag_Disposition r) "" then "none" else ag_Disposition r in
  let spfResult := if 0 <? ag_SPFPass r then "pass" else "fail" in
  let dkimResult := if 0 <? ag_DKIMPass r then "pass" else "fail" in
  mkRecord
    (mkRow (ag_SourceIP r) (ag_Count r)
       (mkPolicyEvaluated disposition (evaluation (ag_DKIMPass r) (ag_DKIMFail r))
          (evaluation (ag_SPFPass r) (ag_SPFFail r)) None))
    domain
    (mkAuthResults [mkAuthResult domain dkimResult] [mkAuthResult domain spfResult]).

(** [ReportGenerator], less its handles. *)
Record ReportGenerator := mkGenerator { orgName : string; reportEmail : string; rg_interval : Z }.
Definition NewReportGenerator (orgName reportEmail : string) (interval : Z) : ReportGenerator :=
  mkGenerator orgName reportEmail (if interval <=? 0 then 24 * hour else interval).

Definition build_feedback (g : ReportGenerator) (now : Z) (domain reportID : string) (record : DmarcRecord)
    (results : list AggregatedDMARCResult) : Feedback :=
  mkFeedback ""
    (mkReportMetadata (orgName g) (reportEmail g) "" reportID
       (mkDateRange ((now - rg_interval g) / second) (now / second)))
    (mkPolicyPublished domain (alignment_text (dr_DKIMAlignment record)) (alignment_text (dr_SPFAlignment record))
       (policy_text (dr_Policy record))
       (match dr_SubdomainPolicy record with Some p => policy_text p | None => "" end) 100)
    (report_record domain <$> results).

(** [randomBoundary], from what [rand.Int] draws for each of the 32 characters. *)
Definition charset : string := "abcdefghijklmnopqrstuvwxyz0123456789".
Definition boundary_char (n : option Z) : ascii :=
  match n with Some n => default "x"%char (String.get (Z.to_nat n) charset) | None => "x"%char end.
Definition randomBoundary (draw : nat → option Z) : string :=
  string_of_list_ascii ((λ i, boundary_char (draw i)) <$> seq 0 32).

Definition report_email (date fromAddr email subject boundary reportID domain filename : string)
    (compressedReport : string) : string :=
  String.concat "" (
    ["From: "; fromAddr; crlf; "To: "; email; crlf; "Subject: "; subject; crlf; "Date: "; date; crlf;
     "MIME-Version: 1.0"; crlf; "Content-Type: multipart/mixed; boundary="; boundary; crlf; crlf;
     "This is a multi-part message in MIME format."; crlf;
     "--"; boundary; crlf; "Content-Type: text/plain; charset=utf-8"; crlf;
     "Content-Transfer-Encoding: 7bit"; crlf; crlf;
     "This is an aggregate DMARC report generated by the Marco mail server."; crlf;
     "Report-ID: "; reportID; crlf; "Domain: "; domain; crlf; crlf;
     "--"; boundary; crlf; "Content-Type: application/gzip; name="; filename; crlf;
     "Content-Transfer-Encoding: base64"; crlf;
     "Content-Disposition: attachment; filename="; filename; crlf;
     "Content-Description: <"; reportID; "@"; domain; ">"; crlf; crlf;
     string_of_list_ascii (base64Encode (ord <$> list_ascii_of_string compressedReport)); crlf;
     "--"; boundary; "--"; crlf]).

(** * A run of the generator *)
Section generator.
Context `{MR : MapRange} `{S : Store} (g : ReportGenerator).
Context (Lookup : string → lookup_answer) (gzip : string → res string) (format_date : Z → string).
(** The draws for the report on a domain to an address. *)
Context (draws : string → string → nat → option Z).

Definition sendReport (ruaURI compressedReport domain reportID : string) : state World (res unit) :=
  let email := report_address ruaURI in
  let fromAddr := "dmarc-report@" +:+ domain in
  let subject := "Report Domain: " +:+ domain +:+ "; Report-ID: " +:+ reportID in
  let! now := time_now in
  let filename := domain +:+ "!" +:+ orgName g +:+ "!" +:+ strconv.Itoa (now / second) +:+ ".xml.gz" in
  let reportBytes := report_email (format_date now) fromAddr email subject (randomBoundary (draws domain ruaURI))
                       reportID domain filename compressedReport in
  let! r := Put (Ok reportBytes) in
  match r with
  | Err err => sret (Err (wrap "store report blob: " err))
  | Ok (blobKey, _) =>
      let! r := GetMailbox 0 "OUTBOUND" in
      match r with
      | Err err => sret (Err (wrap "get outbound mailbox: " err))
      | Ok mbox =>
          let! r := InsertMessage (mbox_ID mbox) blobKey (slen reportBytes) fromAddr email subject 0 in
          match r with
          | Err err => sret (Err (wrap "insert report message: " err))
          | Ok (msgID, _) =>
              let! r := Manager_Enqueue msgID email in
              match r with
              | Err err => sret (Err (wrap "enqueue report: " err))
              | Ok _ => sret (Ok tt)
              end
          end
      end
  end.

(** The errors of the single reports are logged only. *)
Fixpoint send_all (uris : list string) (compressed domain reportID : string) : state World unit :=
  match uris with
  | [] => sret tt
  | u :: uris => let! _ := sendReport u compressed domain reportID in send_all uris compressed domain reportID
  end.

Definition generateDomainReport (domain : string) : state World (res unit) :=
  match Lookup domain with
  | NoPolicy => sret (Ok tt)
  | LookupFailed err => sret (Err (wrap ("dmarc lookup " +:+ domain +:+ ": ") err))
  | Found record =>
      match dr_ReportURIAggregate record with
      | [] => sret (Ok tt)
      | uris =>
          let! r := GetUnsentDMARCResults in
          match r with
          | Err err => sret (Err (wrap "get results: " err))
          | Ok results =>
              match filter (λ r, ag_FromDomain r = domain) results with
              | [] => sret (Ok tt)
              | domainResults =>
                  let! now := time_now in
                  let reportID := orgName g +:+ "-" +:+ domain +:+ "-" +:+ strconv.Itoa (now / second) in
                  match MarshalIndent (build_feedback g now domain reportID record domainResults) with
                  | Err err => sret (Err (wrap "xml marshal: " err))
                  | Ok xmlData =>
                      match gzip (xml_Header +:+ xmlData) with
                      | Err err => sret (Err (wrap "gzip write: " err))
                      | Ok compressed =>
                          do! send_all uris compressed domain reportID in sret (Ok tt)
                      end
                  end
              end
          end
      end
  end.

(** The loop over the domains: those whose report did not fail. *)
Fixpoint report_domains (domains : list string) : state World (list string) :=
  match domains with
  | [] => sret []
  | domain :: domains =>
      let! r := generateDomainReport domain in
      let! rest := report_domains domains in
      sret (match r with Ok _ => domain :: rest | Err _ => rest end)
  end.

Definition generateReports : state World (res unit) :=
  let! r := GetDMARCDomains in
  match r with
  | Err err => sret (Err (wrap "dmarc report: get domains: " err))
  | Ok [] => sret (Ok tt)
  | Ok domains =>
      let! reportedDomains := report_domains domains in
      match reportedDomains with
      | [] => sret (Ok tt)
      | _ =>
          let! r := MarkDMARCResultsSent reportedDomains in
          match r with
          | Err err => sret (Err (wrap "dmarc report: mark sent: " err))
          | Ok _ => sret (Ok tt)
          end
      end
  end.

(** What the [select] of the loop can see: the context done, [stopCh] closed by
    [Stop], or the ticker at some time. *)
Inductive loop_event := CtxDone | StopClosed | Ticked (now : Z).

(** [loop] on the events in the order in which it receives them; errors are logged. *)
Fixpoint loop (events : list loop_event) : state World unit :=
  match events with
  | [] | CtxDone :: _ | StopClosed :: _ => sret tt
  | Ticked now :: events => do! smodify (set_now now) in let! _ := generateReports in loop events
  end.

(** [Start] runs once at once and leaves the rest to the loop. *)
Definition Start (events : list loop_event) : state World unit :=
  let! _ := generateReports in loop events.

(** Nothing is reported after the loop was told to stop. *)
Lemma loop_ends events e later w :
  e = CtxDone ∨ e = StopClosed → loop (events ++ e :: later) w = loop (events ++ [e]) w.
Proof using.
  intros He. revert w. induction events as [|[| |now] events IH]; intros w; [by destruct He as [->| ->]|done..|].
  cbn [app loop]. unfold sbind, smodify. destruct (generateReports _) as [r w']. apply IH.
Qed.
End generator.

(** * What a run leaves in the log *)

(** Nothing is failing, and the log of DMARC results is [T]. *)
Definition log_is (T : table DMARCResult) (w : World) : Prop := w_faults w = [] ∧ dmarc_results (w_db w) = T.

Section log.
Context (T : table DMARCResult).

Lemma log_stmt {A} (f : DB → res A * DB) :
  (∀ d, dmarc_results (f d).2 = dmarc_results d) → pres (log_is T) (stmt f).
Proof. intros Hf w [Hq HT]. rewrite stmt_ok_run by done. split; [done|]. cbn. by rewrite Hf. Qed.
Lemma log_query {A} (f : DB → res A) : pres (log_is T) (query f).
Proof. by apply log_stmt. Qed.
Lemma log_withTx {A} (m : state World (res A)) : pres (log_is T) m → pres (log_is T) (withTx m).
Proof.
  intros Hm w Hw. pose proof (Hm w Hw) as Hw2. rewrite withTx_run; [|apply Hw|apply Hw2].
  destruct (m w) as [[a|e] w2]; [done|]. split; [apply Hw2|apply Hw].
Qed.
Lemma log_same {A} (m : state World A) :
  (∀ w, w_faults (m w).2 = w_faults w ∧ w_db (m w).2 = w_db w) → pres (log_is T) m.
Proof. intros Hm w [Hq HT]. destruct (Hm w) as [E1 E2]. split; [by rewrite E1|by rewrite E2]. Qed.
Lemma log_mboxCache k : pres (log_is T) (mailboxCache_Get k).
Proof. apply log_same. intros w. unfold mailboxCache_Get. by destruct (Cache.Get _ _ _). Qed.
Lemma log_Put `{S : Store} (digest : string → string) `{!StoreSpec S digest} r : pres (log_is T) (Put r).
Proof.
  intros w [Hq HT]. pose proof (Put_quiet r w Hq) as Hq'. split; [exact Hq'|].
  destruct (Put_frame r w) as (b & f & fs & ->). exact HT.
Qed.
End log.
#[export] Hint Resolve log_query log_withTx log_mboxCache : pres.
#[export] Hint Extern 1 (pres (log_is _) (smodify _)) => (apply log_same; intros; split; reflexivity) : pres.
#[export] Hint Extern 1 (pres (log_is _) time_now) => (apply log_same; intros; split; reflexivity) : pres.
#[export] Hint Extern 1 (pres (log_is _) time_now_unix) => (apply log_same; intros; split; reflexivity) : pres.
#[export] Hint Extern 1 (pres (log_is _) (stmt _)) =>
  (apply log_stmt; intros; unfold sql_insert_message, sql_enqueue; repeat case_decide; reflexivity) : pres.

Section run.
Context `{MR : MapRange} `{S : Store} (digest : string → string) `{!StoreSpec S digest} (g : ReportGenerator).
Context (Lookup : string → lookup_answer) (gzip : string → res string) (format_date : Z → string).
Context (draws : string → string → nat → option Z) (Hgzip : ∀ x, is_ok (gzip x) = true).
Context (T : table DMARCResult).

Lemma log_InsertMessage m k z a b s f : pres (log_is T) (InsertMessage m k z a b s f).
Proof using. unfold InsertMessage. apply log_withTx. pres_walk. Qed.

Lemma log_sendReport u c d i : pres (log_is T) (sendReport g format_date draws u c d i).
Proof using StoreSpec0.
  pose proof (log_Put T digest). pose proof log_InsertMessage. unfold sendReport, GetMailbox, Manager_Enqueue, Enqueue, queue_metrics. pres_walk.
Qed.

Lemma log_send_all us c d i : pres (log_is T) (send_all g format_date draws us c d i).
Proof using StoreSpec0.
  pose proof log_sendReport. induction us as [|u us IH]; cbn [send_all]; pres_walk.
Qed.

Lemma log_domain_report d : pres (log_is T) (generateDomainReport g Lookup gzip format_date draws d).
Proof using StoreSpec0.
  pose proof log_send_all. unfold generateDomainReport, GetUnsentDMARCResults.
  destruct (Lookup d) as [rec| |e]; [|pres_walk..]. destruct (dr_ReportURIAggregate rec); [pres_walk|].
  apply pres_bind; [pres_walk|]. intros [results|]; [|pres_walk]. destruct (filter _ results); [pres_walk|].
  apply pres_bind; [pres_walk|]. intros now. cbn [MarshalIndent]. destruct (gzip _); pres_walk.
Qed.

(** A domain is reported unless its DMARC record could not be looked up. *)
Lemma domain_report_ok d w :
  log_is T w →
  is_ok (generateDomainReport g Lookup gzip format_date draws d w).1 =
  match Lookup d with LookupFailed _ => false | _ => true end.
Proof using Hgzip.
  intros [Hq _]. unfold generateDomainReport. destruct (Lookup d) as [rec| |e]; [|done..].
  destruct (dr_ReportURIAggregate rec) as [|u us]; [done|]. unfold sbind at 1. rewrite GetUnsent_run by done.
  destruct (filter _ _); [done|]. unfold sbind, time_now. cbn [MarshalIndent].
  match goal with |- context [gzip ?x] => specialize (Hgzip x); destruct (gzip x) end; [|done].
  by destruct (send_all _ _ _ _ _ _ _ _).
Qed.

Definition lookup_failed (d : string) : bool := match Lookup d with LookupFailed _ => true | _ => false end.

Lemma report_domains_spec ds w :
  log_is T w →
  log_is T (report_domains g Lookup gzip format_date draws ds w).2 ∧
  (report_domains g Lookup gzip format_date draws ds w).1 = filter (λ d, lookup_failed d = false) ds.
Proof using StoreSpec0 Hgzip.
  revert w. induction ds as [|d ds IH]; intros w Hw; [done|]. cbn [report_domains]. unfold sbind.
  pose proof (domain_report_ok d w Hw) as Hok. pose proof (log_domain_report d w Hw) as Hw1.
  destruct (generateDomainReport _ _ _ _ _ d w) as [r w1]. cbn [fst snd] in *.
  destruct (IH w1 Hw1) as [Hw2 E]. destruct (report_domains _ _ _ _ _ ds w1) as [l w2]. cbn [fst snd sret] in *.
  split; [exact Hw2|]. subst l. rewrite filter_cons. case_decide as Hx; unfold lookup_failed in Hx;
    destruct (Lookup d), r; try discriminate; done.
Qed.
End run.

Lemma all_marked_log domains d d' :
  dmarc_results d = dmarc_results d' → dmarc_results (all_marked domains d) = dmarc_results (all_marked domains d').
Proof.
  revert d d'. induction domains as [|x l IH]; intros d d' E; [exact E|]. apply IH. cbn. by rewrite E.
Qed.

(** Marking leaves exactly the unsent results of the other domains. *)
Lemma all_marked_unsent domains d r :
  r ∈ rows (dmarc_results (all_marked domains d)) ∧ unsent r ↔
  r ∈ rows (dmarc_results d) ∧ unsent r ∧ dm_FromDomain r ∉ domains.
Proof.
  split.
  - intros [Hr Hu]. destruct (all_marked_rows _ _ _ Hr Hu). done.
  - intros (Hr & Hu & Hn). split; [|done]. revert d Hr. induction domains as [|x l IH]; intros d Hr; [done|].
    rewrite not_elem_of_cons in Hn. destruct Hn as [Hx Hn]. apply IH; [done|]. cbn. apply list_elem_of_fmap.
    exists r. split; [|done]. rewrite decide_False; [done|]. intros [E _]. by apply Hx.
Qed.

(** C39.  A run of the report generator, with the database and the compressor
    working, marks every unreported result as reported except those of domains
    whose DMARC record could not be looked up.  This holds whatever becomes of
    the reports themselves: a domain without a policy or a report address gets
    none, and when an e-mail cannot be stored or queued the error is only
    logged, so its results are never reported. *)
Theorem generateReports_marks `{MR : MapRange} `{S : Store} (digest : string → string) `{!StoreSpec S digest}
    (g : ReportGenerator) (Lookup : string → lookup_answer) (gzip : string → res string)
    (format_date : Z → string) (draws : string → string → nat → option Z) (w : World) :
  w_faults w = [] → (∀ x, is_ok (gzip x) = true) →
  let out := generateReports g Lookup gzip format_date draws w in
  out.1 = Ok tt ∧
  ∀ r, r ∈ rows (dmarc_results (w_db out.2)) ∧ unsent r ↔
       r ∈ rows (dmarc_results (w_db w)) ∧ unsent r ∧ ∃ e, Lookup (dm_FromDomain r) = LookupFailed e.
Proof.
  intros Hf Hz out. remember (remove_dups (dm_FromDomain <$> select unsent (dmarc_results (w_db w)))) as ds eqn:Eds.
  assert (∀ r, r ∈ rows (dmarc_results (w_db w)) → unsent r → dm_FromDomain r ∈ ds) as Hds.
  { intros r Hr Hu. subst ds. apply elem_of_remove_dups, list_elem_of_fmap_2. by apply elem_of_select. }
  set (reported := filter (λ d, lookup_failed Lookup d = false) ds).
  assert (∃ w', out = (Ok tt, w') ∧ dmarc_results (w_db w') = dmarc_results (all_marked reported (w_db w))) as (w' & E1 & E2).
  { unfold out, generateReports, GetDMARCDomains, sbind at 1 2. rewrite query_run by done. cbn [sret].
    rewrite <- Eds. clear Eds Hds. destruct ds as [|d0 l0]; [by exists w|]. remember (d0 :: l0) as ds eqn:Ed. unfold sbind at 1.
    destruct (report_domains_spec digest g Lookup gzip format_date draws Hz (dmarc_results (w_db w)) ds w) as [[Hq HT] Er];
      [done|]. fold reported in Er. destruct (report_domains _ _ _ _ _ _ _) as [l w1]. cbn [fst snd] in *. subst l.
    destruct reported as [|x l]; [by exists w1|]. unfold sbind. rewrite MarkSent_run by done.
    cbn [sret]. eexists. split; [done|]. by apply all_marked_log. }
  rewrite E1. split; [done|]. intros r. cbn [fst snd]. rewrite E2, all_marked_unsent. unfold reported. rewrite list_elem_of_filter. split.
  - intros (Hr & Hu & Hn). split; [done|]. split; [done|]. unfold lookup_failed in Hn.
    destruct (Lookup (dm_FromDomain r)) as [rec| |e] eqn:E; [destruct Hn..|by exists e]; auto.
  - intros (Hr & Hu & e & E). split; [done|]. split; [done|]. unfold lookup_failed. rewrite E. by intros [].
Qed.

(** * What a report says *)
Lemma sum_case_nonneg P l : 0 ≤ sum_case P l.
Proof. induction l as [|x l IH]; [done|]. unfold sum_case in *. cbn. destruct (P x); lia. Qed.

Lemma sum_case_pos P l : 0 < sum_case P l ↔ ∃ r, r ∈ l ∧ P r = true.
Proof.
  induction l as [|r l IH]; [split; [done|intros (x & Hx & _); by apply elem_of_nil in Hx]|].
  pose proof (sum_case_nonneg P l) as Hn. cbn [sum_case foldr]. fold (sum_case P l).
  destruct (P r) eqn:E.
  - split; [|lia]. intros _. exists r. split; [left|done].
  - rewrite Z.add_0_l, IH. split.
    + intros (x & Hx & Ex). exists x. split; [by right|done].
    + intros (x & [->|Hx]%elem_of_cons & Ex); [congruence|by exists x].
Qed.

Lemma evaluation_pass pass fail : 0 ≤ fail → evaluation pass fail = "pass" ↔ 0 < pass.
Proof.
  intros Hf. unfold evaluation. destruct (Z.ltb_spec 0 pass); cbn [andb]; [|split; [discriminate|lia]].
  destruct (Z.eqb_spec fail 0); [done|]. destruct (Z.ltb_spec 0 fail); [done|lia].
Qed.

(** The unreported results of a domain. *)
Definition unsent_of (domain : string) (d : DB) : list DMARCResult :=
  filter (λ r, dm_FromDomain r = domain) (select unsent (dmarc_results d)).

(** The results a record stands for. *)
Definition group_of (domain ip disposition : string) (d : DB) : list DMARCResult :=
  filter (λ r, dm_SourceIP r = ip ∧ dm_Disposition r = disposition) (unsent_of domain d).

Lemma filter_group k domain (l : list DMARCResult) :
  k.1.1 = domain →
  filter (λ r, dm_group r = k) l = filter (λ r, dm_SourceIP r = k.1.2 ∧ dm_Disposition r = k.2) (filter (λ r, dm_FromDomain r = domain) l).
Proof.
  intros <-. rewrite list_filter_filter. apply list_filter_iff. intros r. unfold dm_group.
  destruct k as [[a b] c]. cbn. naive_solver.
Qed.

Lemma domain_groups domain d :
  filter (λ r, ag_FromDomain r = domain) (sql_unsent_dmarc d) ≡ₚ
  let l := select unsent (dmarc_results d) in
  aggregate l <$> filter (λ k, k.1.1 = domain) (remove_dups (dm_group <$> l)).
Proof.
  cbv zeta. unfold sql_unsent_dmarc. rewrite order_by_perm. set (l := select _ _). 
  induction (remove_dups (dm_group <$> l)) as [|k ks IH]; [done|]. rewrite fmap_cons, !filter_cons.
  cbn [aggregate ag_FromDomain]. case_decide; [|done]. by rewrite fmap_cons, IH.
Qed.

(** C38.  An aggregate report accounts for every unreported result of its domain
    exactly once: the counts of its records add up to the number of those
    results, and each record stands for the results of one source address and
    disposition, counts them, and calls SPF and DKIM passed exactly when one of
    them passed. *)
Theorem report_accounts (g : ReportGenerator) (now : Z) (domain reportID : string) (record : DmarcRecord) (d : DB) :
  let f := build_feedback g now domain reportID record (filter (λ r, ag_FromDomain r = domain) (sql_unsent_dmarc d)) in
  sumZ ((λ r, Count (rec_Row r)) <$> Records f) = Z.of_nat (length (unsent_of domain d)) ∧
  ∀ r, r ∈ Records f → HeaderFrom r = domain ∧ ∃ disposition,
    let row := rec_Row r in
    let group := group_of domain (SourceIP row) disposition d in
    Count row = Z.of_nat (length group) ∧ 0 < Count row ∧
    Disposition (Evaluated row) = (if String.eqb disposition "" then "none" else disposition) ∧
    (pe_SPF (Evaluated row) = "pass" ↔ ∃ x, x ∈ group ∧ dm_SPFResult x = "pass") ∧
    (pe_DKIM (Evaluated row) = "pass" ↔ ∃ x, x ∈ group ∧ dm_DKIMResult x = "pass").
Proof.
  intros f. unfold f, build_feedback. cbn [Records]. rewrite <- list_fmap_compose. unfold compose.
  pose proof (domain_groups domain d) as Hp. cbv zeta in Hp. set (l := select unsent (dmarc_results d)) in Hp. split.
  - rewrite (sumZ_perm _ _ (fmap_Permutation _ _ _ Hp)), <- list_fmap_compose. unfold compose. cbn [rec_Row Count report_record].
    rewrite <- (group_sizes dm_group (filter (λ k, k.1.1 = domain) (remove_dups (dm_group <$> l))) (unsent_of domain d)).
    + f_equal. apply list_fmap_ext. intros _ k Hk%list_elem_of_lookup_2. apply list_elem_of_filter in Hk as [Hk _].
      cbn [aggregate ag_Count]. f_equal. f_equal. rewrite (filter_group k domain) by done. unfold unsent_of. fold l.
      rewrite (filter_group k domain (filter _ l)) by done. rewrite (list_filter_filter _ _ (filter _ l)), list_filter_filter, !list_filter_filter.
      apply list_filter_iff. naive_solver.
    + apply NoDup_filter, NoDup_remove_dups.
    + intros x [Hx Hl]%list_elem_of_filter. apply list_elem_of_filter. split; [done|].
      apply elem_of_remove_dups. by apply list_elem_of_fmap_2.
  - intros r Hr. apply list_elem_of_fmap in Hr as (a & -> & Ha). rewrite Hp in Ha.
    apply list_elem_of_fmap in Ha as (k & -> & [Hk Hin]%list_elem_of_filter). split; [done|]. exists k.2.
    apply elem_of_remove_dups, list_elem_of_fmap in Hin as (x & -> & Hx).
    cbn [report_record rec_Row SourceIP Count aggregate ag_SourceIP ag_Count Evaluated Disposition ag_Disposition pe_SPF pe_DKIM
         ag_SPFPass ag_SPFFail ag_DKIMPass ag_DKIMFail].
    assert (filter (λ r, dm_group r = dm_group x) l = group_of domain (dm_group x).1.2 (dm_group x).2 d) as Eg
      by by apply filter_group.
    rewrite Eg. set (grp := group_of _ _ _ _).
    split; [done|]. split.
    { assert (x ∈ grp) as Hx'; [|enough (length grp ≠ 0%nat) by lia; intros E%nil_length_inv; rewrite E in Hx'; by apply elem_of_nil in Hx'].
      apply list_elem_of_filter. split; [done|]. by apply list_elem_of_filter. }
    split; [done|]. split; rewrite evaluation_pass, sum_case_pos by apply sum_case_nonneg; by setoid_rewrite String.eqb_eq.
Qed.

(** * Examples *)
Definition demo_log : table DMARCResult :=
  mkTable [mkDMARCResult 1 "1.2.3.4" "x.org" "pass" "fail" "none" 5 false;
           mkDMARCResult 2 "1.2.3.4" "x.org" "fail" "fail" "none" 9 false;
           mkDMARCResult 3 "1.2.3.5" "y.org" "pass" "pass" "none" 9 false] 3.
Definition demo_policy : DmarcRecord :=
  mkDmarcRecord PolicyReject AlignmentRelaxed AlignmentStrict None (Some 100) ["mailto:dmarc@x.org"].
Definition demo_generator : ReportGenerator := NewReportGenerator "mx.example" "postmaster@mx.example" 0.
Definition demo_lookup (d : string) : lookup_answer :=
  if String.eqb d "x.org" then Found demo_policy else LookupFailed (ErrorNew "SERVFAIL").

(** There is no OUTBOUND mailbox, so the report for x.org is lost; its results
    are marked as reported all the same. *)
Lemma generateReports_marks_witness :
  let w := set_db (set_dmarc_results demo_log empty_db) (init_world 0) in
  let out := generateReports (S := SQLiteStore toy_digest) demo_generator demo_lookup Ok (λ _, "") (λ _ _ _, None) w in
  out.1 = Ok tt ∧ rows (queue (w_db out.2)) = [] ∧
  ∀ r, r ∈ rows (dmarc_results (w_db out.2)) ∧ unsent r → dm_FromDomain r = "y.org".
Proof.
  intros w out.
  destruct (generateReports_marks (S := SQLiteStore toy_digest) toy_digest demo_generator demo_lookup Ok (λ _, "")
    (λ _ _ _, None) w eq_refl (λ _, eq_refl)) as [H1 H2].
  split; [exact H1|]. split; [vm_compute; reflexivity|]. intros r Hr. apply H2 in Hr as (Hr & _ & e & He).
  cbn in Hr. rewrite !elem_of_cons in Hr. destruct Hr as [->|[->|[->|Hr%elem_of_nil]]]; done.
Defined.

Example demo_report :
  marshal 1 (record_xml (report_record "x.org" (mkAggregated "1.2.3.4" "x.org" 1 1 0 2 "" 2 9))) =
  String.concat nl
    ["  <record>"; "    <row>"; "      <source_ip>1.2.3.4</source_ip>"; "      <count>2</count>";
     "      <policy_evaluated>"; "        <disposition>none</disposition>"; "        <dkim>fail</dkim>";
     "        <spf>pass</spf>"; "      </policy_evaluated>"; "    </row>"; "    <identifiers>";
     "      <header_from>x.org</header_from>"; "    </identifiers>"; "    <auth_results>"; "      <dkim>";
     "        <domain>x.org</domain>"; "        <result>fail</result>"; "      </dkim>"; "      <spf>";
     "        <domain>x.org</domain>"; "        <result>pass</result>"; "      </spf>"; "    </auth_results>";
     "  </record>"].
Proof. vm_compute. reflexivity. Qed.
