(* ===== verification/Mime.v ===== *)
(** The bodies of a message (src/pkg/storage/mime.go).  The parsers of Go's
    [mime], [mime/multipart], [mime/quotedprintable] and [encoding/base64] are
    the class [MimeLib]; a message header is read by [mail.ReadMessage] of GoLib. *)
From S2P Require Import Prelude GoLib Schema.

(** A media type with its parameters. *)
Definition MediaType : Type := string * gmap string string.
(** A part that [multipart.Reader.NextPart] returns: header fields and body. *)
Record Part := mkPart { part_header : list (string * string); part_body : string }.

Class MimeLib := mkMimeLib {
  ParseMediaType : string → option MediaType;
  (** [NextPart] of a reader for this boundary until it reports an error. *)
  NextParts : string → string → list Part;
  (** What [io.ReadAll] of the decoder returns: the data, and an error if any. *)
  ReadQuotedPrintable : string → string * bool;
  ReadBase64 : string → string * bool }.

Record ParsedMessage := mkParsed { pm_Message : Message; pm_TextBody : string; pm_HTMLBody : string }.

Section mime.
Context `{ML : MimeLib}.

(** The data and whether it was read without an error. *)
Definition decodeBody (r encoding : string) : string * bool :=
  let e := strings.ToLower (strings.TrimSpace encoding) in
  if String.eqb e "quoted-printable" then ReadQuotedPrintable r
  else if String.eqb e "base64" then ReadBase64 r
  else (r, true).

Definition param (params : gmap string string) (key : string) : string := default "" (params !! key).

(** The loop over the parts; the texts found so far come first. *)
Fixpoint extract_loop (extract : string → string → string * string) (ps : list Part) (textBody htmlBody : string)
    : string * string :=
  match ps with
  | [] => (textBody, htmlBody)
  | p :: ps =>
      match ParseMediaType (mail.Get (part_header p) "Content-Type") with
      | None => extract_loop extract ps textBody htmlBody
      | Some (mediaType, params) =>
          if strings.HasPrefix mediaType "multipart/" then
            let '(nt, nh) := extract (part_body p) (param params "boundary") in
            extract_loop extract ps (if String.eqb textBody "" then nt else textBody)
              (if String.eqb htmlBody "" then nh else htmlBody)
          else
            match decodeBody (part_body p) (mail.Get (part_header p) "Content-Transfer-Encoding") with
            | (_, false) => extract_loop extract ps textBody htmlBody
            | (slurp, true) =>
                if String.eqb mediaType "text/plain"
                then extract_loop extract ps (if String.eqb textBody "" then slurp else textBody) htmlBody
                else if String.eqb mediaType "text/html"
                then extract_loop extract ps textBody (if String.eqb htmlBody "" then slurp else htmlBody)
                else extract_loop extract ps textBody htmlBody
            end
      end
  end.

(** The recursion is on nested parts; the fuel bounds the nesting. *)
Fixpoint extractParts (fuel : nat) (r boundary : string) : string * string :=
  if String.eqb boundary "" then (r, "") else
  match fuel with
  | O => ("", "")
  | S fuel => extract_loop (extractParts fuel) (NextParts r boundary) "" ""
  end.

(** The argument is what reading the stream gives; a part is shorter than the
    message it is a part of, so its length is fuel enough. *)
Definition ParseMessageBody (msg : Message) (r : res string) : res ParsedMessage :=
  match r with
  | Err err => Err err
  | Ok data =>
      match mail.ReadMessage data with
      | None => Err (ErrorNew "mail: malformed message")
      | Some (header, body) =>
          match ParseMediaType (mail.Get header "Content-Type") with
          | None => Ok (mkParsed msg (decodeBody body (mail.Get header "Content-Transfer-Encoding")).1 "")
          | Some (mediaType, params) =>
              if strings.HasPrefix mediaType "multipart/" then
                let '(t, h) := extractParts (S (String.length body)) body (param params "boundary") in
                Ok (mkParsed msg t h)
              else
                let body := (decodeBody body (mail.Get header "Content-Transfer-Encoding")).1 in
                if String.eqb mediaType "text/html" then Ok (mkParsed msg "" body) else Ok (mkParsed msg body "")
          end
      end
  end.
End mime.

(** * What a reader of the message sees *)
(** The text leaves of a message in document order: whether a leaf is HTML, and
    its decoded content.  A multipart type without a boundary makes the whole
    body one plain leaf; parts without a readable type or content are skipped. *)
Section leaves.
Context `{ML : MimeLib}.

Definition content_type (p : Part) : option MediaType := ParseMediaType (mail.Get (part_header p) "Content-Type").
Definition content (p : Part) : string * bool :=
  decodeBody (part_body p) (mail.Get (part_header p) "Content-Transfer-Encoding").

Inductive leaves : string → string → list (bool * string) → Prop :=
  | leaves_unbounded r : leaves r "" [(false, r)]
  | leaves_parts r b ls : b ≠ "" → part_leaves (NextParts r b) ls → leaves r b ls
with part_leaves : list Part → list (bool * string) → Prop :=
  | pl_nil : part_leaves [] []
  | pl_untyped p ps ls : content_type p = None → part_leaves ps ls → part_leaves (p :: ps) ls
  | pl_nested p ps t params l1 l2 : content_type p = Some (t, params) → strings.HasPrefix t "multipart/" = true →
      leaves (part_body p) (param params "boundary") l1 → part_leaves ps l2 → part_leaves (p :: ps) (l1 ++ l2)
  | pl_broken p ps t params ls : content_type p = Some (t, params) → strings.HasPrefix t "multipart/" = false →
      (content p).2 = false → part_leaves ps ls → part_leaves (p :: ps) ls
  | pl_other p ps t params ls : content_type p = Some (t, params) → strings.HasPrefix t "multipart/" = false →
      t ≠ "text/plain" → t ≠ "text/html" → part_leaves ps ls → part_leaves (p :: ps) ls
  | pl_plain p ps params ls : content_type p = Some ("text/plain", params) → (content p).2 = true →
      part_leaves ps ls → part_leaves (p :: ps) ((false, (content p).1) :: ls)
  | pl_html p ps params ls : content_type p = Some ("text/html", params) → (content p).2 = true →
      part_leaves ps ls → part_leaves (p :: ps) ((true, (content p).1) :: ls).

(** The first leaf of a kind that is not empty. *)
Definition first_body (html : bool) (ls : list (bool * string)) : string :=
  default "" (snd <$> List.find (λ l, Bool.eqb l.1 html && negb (String.eqb l.2 "")) ls).

Lemma first_body_app html l1 l2 :
  first_body html (l1 ++ l2) = if String.eqb (first_body html l1) "" then first_body html l2 else first_body html l1.
Proof.
  unfold first_body. induction l1 as [|[b x] l1 IH]; [done|]. simpl.
  destruct (Bool.eqb b html); [|exact IH]. simpl. destruct (String.eqb_spec x "") as [->|Hx]; [exact IH|].
  simpl. by rewrite (proj2 (String.eqb_neq x "") Hx).
Qed.

Lemma first_body_cons html b x ls :
  first_body html ((b, x) :: ls) =
  if Bool.eqb b html then (if String.eqb x "" then first_body html ls else x) else first_body html ls.
Proof. unfold first_body. simpl. destruct (Bool.eqb b html); [|done]. by destruct (String.eqb x ""). Qed.

Definition pick (found x : string) : string := if String.eqb found "" then x else found.

Lemma pick_assoc a b c : pick (pick a b) c = pick a (pick b c).
Proof. unfold pick. destruct (String.eqb a "") eqn:E; [done|]. by rewrite E. Qed.

(** The loop keeps what it has found and takes the rest from the leaves. *)
Lemma extract_loop_spec extract ps t h :
  (∀ p params ty, p ∈ ps → content_type p = Some (ty, params) →
     ∃ ls, leaves (part_body p) (param params "boundary") ls ∧
           extract (part_body p) (param params "boundary") = (first_body false ls, first_body true ls)) →
  ∃ ls, part_leaves ps ls ∧
    extract_loop extract ps t h = (pick t (first_body false ls), pick h (first_body true ls)).
Proof.
  revert t h. induction ps as [|p ps IH]; intros t h Hx.
  - exists []. split; [constructor|]. simpl. unfold first_body, pick. simpl.
    destruct (String.eqb_spec t ""), (String.eqb_spec h ""); by subst.
  - assert (∀ t h, ∃ ls, part_leaves ps ls ∧
      extract_loop extract ps t h = (pick t (first_body false ls), pick h (first_body true ls))) as IH'
      by (intros t' h'; apply IH; intros; eapply Hx; [by right|done]).
    cbn [extract_loop]. fold (content_type p). destruct (content_type p) as [[ty params]|] eqn:Ety.
    2: { destruct (IH' t h) as (ls & H1 & H2). exists ls. split; [by constructor|exact H2]. }
    destruct (strings.HasPrefix ty "multipart/") eqn:Em.
    + destruct (Hx p params ty ltac:(left) Ety) as (l1 & Hl1 & ->). fold (pick t (first_body false l1)) (pick h (first_body true l1)).
      destruct (IH' (pick t (first_body false l1)) (pick h (first_body true l1))) as (l2 & H1 & ->).
      exists (l1 ++ l2). split; [by econstructor|]. rewrite !first_body_app, !pick_assoc. done.
    + fold (content p). destruct (content p) as [slurp ok] eqn:Ec. destruct ok.
      * destruct (String.eqb_spec ty "text/plain") as [->|Hp]; [|destruct (String.eqb_spec ty "text/html") as [->|Hh]].
        -- destruct (IH' (pick t slurp) h) as (ls & H1 & H2). exists ((false, slurp) :: ls). fold (pick t slurp). rewrite H2. split.
           ++ pose proof (pl_plain p ps params ls Ety) as H. rewrite Ec in H. by apply H.
           ++ rewrite !first_body_cons. simpl. by rewrite pick_assoc.
        -- destruct (IH' t (pick h slurp)) as (ls & H1 & H2). exists ((true, slurp) :: ls). fold (pick h slurp). rewrite H2. split.
           ++ pose proof (pl_html p ps params ls Ety) as H. rewrite Ec in H. by apply H.
           ++ rewrite !first_body_cons. simpl. by rewrite pick_assoc.
        -- destruct (IH' t h) as (ls & H1 & H2). exists ls. split; [by eapply pl_other|exact H2].
      * destruct (IH' t h) as (ls & H1 & H2). exists ls. split; [|exact H2]. eapply pl_broken; [done..| |done]. by rewrite Ec.
Qed.

(** For a library whose parts are shorter than the message they come from,
    the recursion over nested parts ends, and the bodies shown to the user are
    the first non-empty plain leaf and the first non-empty HTML leaf in document
    order, at whatever depth they are. *)
Theorem extractParts_first_leaves (fuel : nat) (r boundary : string) :
  (∀ r b p, p ∈ NextParts r b → (String.length (part_body p) < String.length r)%nat) →
  (String.length r < fuel)%nat →
  ∃ ls, leaves r boundary ls ∧ extractParts fuel r boundary = (first_body false ls, first_body true ls).
Proof.
  intros Hshort. revert r boundary. induction fuel as [|fuel IH]; intros r boundary Hf; [lia|]. cbn [extractParts].
  destruct (String.eqb_spec boundary "") as [->|Hb].
  - exists [(false, r)]. split; [constructor|]. rewrite !first_body_cons. simpl. by destruct (String.eqb_spec r "") as [->|].
  - destruct (extract_loop_spec (extractParts fuel) (NextParts r boundary) "" "") as (ls & H1 & H2).
    + intros p params ty Hp _. apply IH. specialize (Hshort r boundary p Hp). lia.
    + exists ls. split; [by constructor|]. rewrite H2. done.
Qed.
End leaves.

(** A small format: parts end in a bar and start with a letter for their type. *)
Definition toy_type (c : ascii) : string :=
  if Ascii.eqb c "t" then "text/plain" else if Ascii.eqb c "h" then "text/html" else "multipart/mixed".
Definition toy_parts (r _b : string) : list Part :=
  omap (λ s, match s with String c s => Some (mkPart [("Content-Type", toy_type c)] s) | EmptyString => None end) (strings.Split r "|").
Definition toy_mime : MimeLib :=
  mkMimeLib (λ s, Some (s, {["boundary" := "b"]})) toy_parts (λ s, (s, true)) (λ s, (s, true)).

Lemma Split_length s c x : x ∈ strings.Split s c → (String.length x ≤ String.length s)%nat.
Proof.
  revert x. induction s as [|d s IH]; intros x; simpl.
  - by intros ->%list_elem_of_singleton.
  - destruct (Ascii.eqb d c).
    + intros [->|Hx]%elem_of_cons; simpl; [lia|]. specialize (IH x Hx). lia.
    + destruct (strings.Split s c) as [|t ts]; [intros ->%list_elem_of_singleton; simpl; lia|].
      intros [->|Hx]%elem_of_cons; simpl; [specialize (IH t ltac:(left)); lia|]. specialize (IH x ltac:(by right)). lia.
Qed.

Lemma extractParts_first_leaves_witness :
  ∃ ls, leaves (ML := toy_mime) "xplain|h<p>|t|tone" "b" ls ∧ first_body false ls = "one" ∧ first_body true ls = "<p>".
Proof.
  destruct (extractParts_first_leaves (ML := toy_mime) 30 "xplain|h<p>|t|tone" "b") as (ls & H & E).
  - intros r b p Hp. apply list_elem_of_omap in Hp as ([|c s] & Hs & Ep); [done|]. injection Ep as <-.
    apply Split_length in Hs. simpl in *. lia.
  - vm_compute. lia.
  - exists ls. split; [exact H|]. assert ((first_body false ls, first_body true ls) = ("one", "<p>")) as [= -> ->]; [|done].
    rewrite <- E. vm_compute. reflexivity.
Defined.
