(* ===== verification/Smtp.v ===== *)
(** The SMTP service (src/pkg/smtp/{backend,session}.go and
    [ensureOutboundMailbox] of src/pkg/marco/marco.go): the callbacks the
    go-smtp library makes for one connection.  The state is the process together
    with the session.  What the connection reads after DATA is an argument: the
    bytes, and the error that ended them if it was not the end of the message. *)
From Stdlib Require Import QArith_base.
#[local] Open Scope Z_scope.
From S2P Require Import Prelude GoLib Spf Cache Sql Schema World Ratelimit StoreUsers StoreMail StoreQueue Auth Blob Worker.

Record SMTPConfig := mkSMTPConfig {
  ListenAddr : string; SubmissionAddr : string; SubmissionsAddr : string;
  MaxMessageSize : Z; MaxRecipients : Z; Hostname : string;
  RateLimit : Q; RateLimitBurst : Z; GreylistingDelay : Z }.

(** [Backend], less the handles to what [World] holds. *)
Record Backend := mkBackend {
  be_cfg : SMTPConfig; be_limiter : option Limiter; be_localDomains : gset string }.

(** A connection: the text of its remote address, and the IP if it is TCP. *)
Record Conn := mkConn { RemoteAddr : string; conn_ip : option net.IP }.

Record Session := mkSession {
  s_conn : option Conn; s_from : string; s_recipients : list string;
  s_authed : bool; s_authedUser : string; s_userID : Z }.

Definition set_from (f : string) (s : Session) : Session :=
  mkSession (s_conn s) f (s_recipients s) (s_authed s) (s_authedUser s) (s_userID s).
Definition set_recipients (l : list string) (s : Session) : Session :=
  mkSession (s_conn s) (s_from s) l (s_authed s) (s_authedUser s) (s_userID s).
Definition set_authed (user : string) (id : Z) (s : Session) : Session :=
  mkSession (s_conn s) (s_from s) (s_recipients s) true user id.

(** What a callback answers: success, an [smtp.SMTPError], another error, or a
    run-time panic. *)
Inductive reply :=
  | Accepted
  | SMTPError (Code : Z) (Message : string)
  | Failed (err : error)
  | Panic.

(** * backend.go *)
Definition NewBackend (cfg : SMTPConfig) : Backend :=
  mkBackend cfg
    (if negb (Qle_bool (RateLimit cfg) 0) then Some (Ratelimit.New (RateLimit cfg) (RateLimitBurst cfg)) else None)
    (if String.eqb (Hostname cfg) "" then ∅ else {[Hostname cfg]}).

Definition ReloadDomains (domains : list string) (b : Backend) : Backend :=
  let m := if String.eqb (Hostname (be_cfg b)) "" then ∅ else {[Hostname (be_cfg b)]} in
  mkBackend (be_cfg b) (be_limiter b) (foldl (λ m d, {[d]} ∪ m) m domains).

Definition SMTPConnections_inc (m : Metrics) : Metrics :=
  mkMetrics (SMTPConnections m + 1) (MessagesReceived m) (MessagesDelivered m) (MessagesBounced m) (QueuePending m) (ActiveConnections m).
Definition ActiveConnections_add (n : Z) (m : Metrics) : Metrics :=
  mkMetrics (SMTPConnections m) (MessagesReceived m) (MessagesDelivered m) (MessagesBounced m) (QueuePending m) (ActiveConnections m + n).
Definition MessagesReceived_inc (m : Metrics) : Metrics :=
  mkMetrics (SMTPConnections m) (MessagesReceived m + 1) (MessagesDelivered m) (MessagesBounced m) (QueuePending m) (ActiveConnections m).

Definition metric (f : Metrics → Metrics) : state World unit := smodify (λ w, set_metrics (f (w_metrics w)) w).

(** The client's IP, or the whole address if it has no port. *)
Definition host_of (addr : string) : string := default addr (net.SplitHostPort addr).

Section smtp.
Context `{MR : MapRange} `{S : Store} (R : Resolver)
  (IDKey : string → list Z → Z → Z → Z → Z → list Z) (format_date : Z → string).

(** [NewSession]: [None] drops the connection. *)
Definition NewSession (b : Backend) (conn : Conn) : state World (option Session * Backend) :=
  let! now := time_now in
  let '(allowed, limiter) :=
    match be_limiter b with
    | Some l => let '(ok, l') := Allow l now (host_of (RemoteAddr conn)) in (ok, Some l')
    | None => (true, None)
    end in
  let b' := mkBackend (be_cfg b) limiter (be_localDomains b) in
  if negb allowed then
    do! metric SMTPConnections_inc in sret (None, b')
  else
    do! metric SMTPConnections_inc in
    do! metric (ActiveConnections_add 1) in
    sret (Some (mkSession (Some conn) "" [] false "" 0), b').

(** * session.go *)
Definition ST : Type := World * Session.
Definition sess : state ST Session := λ s, (s.2, s).
Definition upd (f : Session → Session) : state ST unit := λ s, (tt, (s.1, f s.2)).

Context (be : Backend).

Definition isLocalDomain (domain : string) : bool :=
  if decide (domain ∈ be_localDomains be) then true
  else String.eqb (Hostname (be_cfg be)) domain.

Definition Mail (from : string) : state ST reply :=
  if negb (strings.Contains from "@") then sret (SMTPError 553 "Invalid from address")
  else do! upd (set_from from) in sret Accepted.

Definition AuthMechanisms : list string := ["PLAIN"].

(** The callback [Auth] gives to the PLAIN mechanism. *)
Definition Auth_PLAIN (username password : string) : state ST reply :=
  let! r := lift (Authenticate IDKey username password) in
  match r with
  | Err err => sret (Failed (wrap "auth failed: " err))
  | Ok userID => do! upd (set_authed username userID) in sret Accepted
  end.

Definition sql_first_seen (ip from to : string) (d : DB) : res Z :=
  match query_row (select (λ g, gl_key g = (ip, from, to)) (greylist d)) with
  | Ok g => Ok (gl_first_seen g)
  | Err e => Err e
  end.

(** [int(d.Seconds())] *)
Definition seconds (d : Z) : Z := Z.quot d second.

Definition checkGreylist (conn : Conn) (from to : string) : state World (option reply) :=
  let ip := match conn_ip conn with Some a => net.String_ a | None => "" end in
  if String.eqb ip "" then sret None else
  let! r := IsWhitelisted ip from to in
  match r with
  | Err _ => sret None
  | Ok true => sret None
  | Ok false =>
      let! r := RecordAttempt ip from to in
      match r with
      | Err _ => sret None
      | Ok _ =>
          let! r := query (sql_first_seen ip from to) in
          match r with
          | Err _ => sret None
          | Ok firstSeen =>
              let delay := seconds (GreylistingDelay (be_cfg be)) in
              let! now := time_now_unix in
              if now - firstSeen <? delay then sret (Some (SMTPError 451 "Greylisted, try again later"))
              else let! _ := MarkPassed ip from to in sret None
          end
      end
  end.

(** The check of the recipient's domain, for a client that has not logged in. *)
Definition relay_check (to : string) : option reply :=
  match strings.Split to "@" with
  | [_; domain] => if isLocalDomain domain then None else Some (SMTPError 550 "Relay not permitted")
  | _ => Some (SMTPError 553 "Invalid recipient address")
  end.

Definition Rcpt (to : string) : state ST reply :=
  let! s := sess in
  if MaxRecipients (be_cfg be) <=? Z.of_nat (length (s_recipients s)) then
    sret (SMTPError 552 ("Too many recipients (max " +:+ strconv.Itoa (MaxRecipients (be_cfg be)) +:+ ")"))
  else
    match (if s_authed s then None else relay_check to) with
    | Some refusal => sret refusal
    | None =>
        let! grey :=
          match s_conn s with
          | Some conn =>
              if negb (s_authed s) && negb (String.eqb (s_from s) "") && (0 <? GreylistingDelay (be_cfg be))
              then lift (checkGreylist conn (s_from s) to)
              else sret None
          | None => sret None
          end in
        match grey with
        | Some refusal => sret refusal
        | None => do! upd (λ s, set_recipients (s_recipients s ++ [to]) s) in sret Accepted
        end
    end.

(** [readHeaders]: the header bytes, and what is left in the reader.  Each round
    takes at least one byte, so the length of the input is enough fuel. *)
Fixpoint readHeaders (fuel : nat) (data : string) (err : option error) (buf : string) : res (string * string) :=
  match fuel with
  | O => Ok (buf, data)
  | Datatypes.S fuel =>
      if slen buf <? 65536 then
        match mail.ReadBytes data with
        | None => match err with
                  | None => Ok (buf +:+ data, EmptyString)
                  | Some e => Err e
                  end
        | Some (line, rest) =>
            if String.eqb line (String (chr 13) (String (chr 10) "")) then Ok (buf +:+ line, rest)
            else readHeaders fuel rest err (buf +:+ line)
        end
      else Ok (buf, data)
  end.

Definition parseMessageHeaders (data : string) : string * string * string :=
  match mail.ReadMessage data with
  | None => ("", "", "")
  | Some (h, _) => (mail.Get h "From", mail.Get h "To", mail.Get h "Subject")
  end.

Definition generateNDR (date hostname originalFrom originalTo : string) : string :=
  String.concat "" [
    "From: MAILER-DAEMON@"; hostname; crlf; "To: "; originalFrom; crlf;
    "Subject: Undelivered Mail Returned to Sender"; crlf; "Date: "; date; crlf;
    "Content-Type: text/plain; charset=utf-8"; crlf; crlf;
    "Your message to "; originalTo; " could not be delivered."; crlf; crlf;
    "The recipient mailbox does not exist on this server."; crlf].

Definition enqueueOutbound (blobKey from rcpt subject : string) (size : Z) : state World (res (Z * Z)) :=
  let! r := GetMailbox 0 "OUTBOUND" in
  match r with
  | Err err => sret (Err err)
  | Ok mbox => InsertMessage (mbox_ID mbox) blobKey size from rcpt subject 0
  end.

(** The first loop of [Data]: a row in the INBOX of each local recipient. *)
Definition deliver_local (localUsers : gmap string User) (blobKey : string) (size : Z) (fromAddr subject rcpt : string)
    : state World unit :=
  match localUsers !! rcpt with
  | None => sret tt
  | Some user =>
      let! r := GetMailbox (user_ID user) "INBOX" in
      match r with
      | Err _ => sret tt
      | Ok mbox => let! _ := InsertMessage (mbox_ID mbox) blobKey size fromAddr rcpt subject 0 in sret tt
      end
  end.

(** The second loop: a bounce for an unknown local address, the queue for others. *)
Definition deliver_other (localUsers : gmap string User) (blobKey : string) (size : Z)
    (envelopeFrom fromAddr subject rcpt : string) : state World unit :=
  match localUsers !! rcpt with
  | Some _ => sret tt
  | None =>
      match strings.SplitN2 rcpt "@" with
      | [_; domain] =>
          if isLocalDomain domain then
            let! now := time_now in
            let ndr := generateNDR (format_date now) (Hostname (be_cfg be)) envelopeFrom rcpt in
            let! r := Put (Ok ndr) in
            match r with
            | Err _ => sret tt
            | Ok (ndrKey, ndrSize) =>
                let! r := enqueueOutbound ndrKey "" envelopeFrom "Undelivered Mail Returned to Sender" ndrSize in
                match r with
                | Err _ => sret tt
                | Ok (ndrMsgID, _) =>
                    let! r := Manager_Enqueue ndrMsgID envelopeFrom in
                    match r with
                    | Err _ => sret tt
                    | Ok _ => metric MessagesBounced_inc
                    end
                end
            end
          else
            let! r := enqueueOutbound blobKey fromAddr rcpt subject size in
            match r with
            | Err _ => sret tt
            | Ok (msgID, _) => let! _ := Manager_Enqueue msgID rcpt in sret tt
            end
      | _ => sret tt
      end
  end.

(** A Go loop whose body only continues. *)
Definition each (l : list string) (body : string → state World unit) : state World unit :=
  let! _ := sfor l (λ x, do! body x in sret (None : option unit)) in sret tt.

(** The SPF check: its verdict is only logged, but it can panic. *)
Definition spf_panics (s : Session) : bool :=
  match s_conn s with
  | None => false
  | Some conn =>
      if String.eqb (s_from s) "" then false
      else match strings.SplitN2 (s_from s) "@" with
           | [_; domain] =>
               if String.eqb domain "" then false
               else match Spf.Check R (default [] (conn_ip conn)) domain "" with Returned _ => false | _ => true end
           | _ => false
           end
  end.

Definition store_and_deliver (s : Session) (headers rest : string) (err : option error) : state World reply :=
  let '(fromAddr, _, subject) := parseMessageHeaders headers in
  let! r := Put (match err with None => Ok (headers +:+ rest) | Some e => Err e end) in
  match r with
  | Err _ => sret (SMTPError 554 "Transaction failed")
  | Ok (blobKey, _) =>
      let size := slen (headers +:+ rest) in
      if MaxMessageSize (be_cfg be) <? size then
        let! _ := Delete blobKey in
        sret (SMTPError 552 ("Message too large (max " +:+ strconv.Itoa (MaxMessageSize (be_cfg be)) +:+ " bytes)"))
      else
        let! r := GetUsersByEmail (s_recipients s) in
        let localUsers := match r with Ok m => m | Err _ => ∅ end in
        do! each (s_recipients s) (deliver_local localUsers blobKey size fromAddr subject) in
        do! each (s_recipients s) (deliver_other localUsers blobKey size (s_from s) fromAddr subject) in
        do! metric MessagesReceived_inc in
        sret Accepted
  end.

Definition Data (r : string * option error) : state ST reply :=
  let! s := sess in
  match readHeaders (Datatypes.S (String.length r.1)) r.1 r.2 "" with
  | Err _ => sret (SMTPError 552 "Error reading message data")
  | Ok (headers, rest) =>
      if spf_panics s then sret Panic
      else lift (store_and_deliver s headers rest r.2)
  end.

Definition Reset : state ST unit := upd (λ s, set_recipients [] (set_from "" s)).

Definition Logout : state ST unit := lift (metric (ActiveConnections_add (-1))).

(** * A connection *)
Inductive command :=
  | CmdMail (from : string) | CmdRcpt (to : string) | CmdAuth (username password : string)
  | CmdData (r : string * option error) | CmdReset.

Definition run_command (c : command) : state ST unit :=
  match c with
  | CmdMail f => let! _ := Mail f in sret tt
  | CmdRcpt t => let! _ := Rcpt t in sret tt
  | CmdAuth u p => let! _ := Auth_PLAIN u p in sret tt
  | CmdData r => let! _ := Data r in sret tt
  | CmdReset => Reset
  end.

Definition run_commands (cs : list command) : state ST unit :=
  let! _ := sfor cs (λ c, do! run_command c in sret (None : option unit)) in sret tt.
End smtp.

(** * marco.go: the system user and its OUTBOUND mailbox *)
Definition sql_system_user (now : Z) (d : DB) : res unit * DB :=
  let u := mkUser 0 "system@outbound.local" "" false now true in
  if decide (0 ∈ user_ids d ∨ user_Email u ∈ user_Email <$> rows (users d)) then (Ok tt, d)
  else (Ok tt, set_users (mkTable (u :: rows (users d)) (Z.max 0 (seq_ (users d)))) d).

Definition ensureOutboundMailbox : state World (res unit) :=
  let! now := time_now_unix in
  let! r := stmt (sql_system_user now) in
  match r with
  | Err err => sret (Err (wrap "create system user: " err))
  | Ok _ =>
      let! r := CreateMailbox 0 "OUTBOUND" in
      match r with
      | Err err => if errors_is err ErrAlreadyExists then sret (Ok tt)
                   else sret (Err (wrap "create outbound mailbox: " err))
      | Ok _ => sret (Ok tt)
      end
  end.

(** * Preservation of well-formedness *)
Lemma unique_cons {T K} (key : T → K) (r : T) (t : table T) n :
  key r ∉ key <$> rows t → unique key t → unique key (mkTable (r :: rows t) n).
Proof. intros Hn Hu. unfold unique. cbn. by apply NoDup_cons. Qed.

Lemma references_cons {T C} (fk : C → Z) (id : T → Z) (cs : list C) (r : T) (t : table T) n :
  references fk id cs t → references fk id cs (mkTable (r :: rows t) n).
Proof. unfold references. intros H. eapply Forall_impl; [exact H|]. cbn. intros c Hc. by right. Qed.

Lemma sql_system_user_ok now : stmt_ok (sql_system_user now).
Proof.
  intros d H. unfold sql_system_user. case_decide as Hn; [done|]. apply Decidable.not_or in Hn as [H0 He].
  unfold snd. wf_split H; try by apply references_cons.
  - destruct wf_users as [Hu Hs]. split; [by apply unique_cons|]. constructor; [cbn; lia|].
    eapply Forall_impl; [exact Hs|]. cbn. lia.
  - by apply unique_cons.
Qed.
#[export] Hint Resolve sql_system_user_ok : stmts.

Lemma ensureOutboundMailbox_wf : pres wf ensureOutboundMailbox.
Proof. unfold ensureOutboundMailbox. pres_walk. Qed.

Section smtp_wf.
Context `{MR : MapRange} `{S : Store} (digest : string → string) `{!StoreSpec S digest} (R : Resolver)
  (IDKey : string → list Z → Z → Z → Z → Z → list Z) (format_date : Z → string).

Lemma metric_wf f : pres wf (metric f).
Proof. by intros w Hw. Qed.
#[local] Hint Resolve metric_wf : pres.

Lemma NewSession_wf b conn : pres wf (NewSession b conn).
Proof. unfold NewSession. apply pres_bind; [by intros w Hw|]. intros now. pres_walk. Qed.

Definition st_wf (p : ST) : Prop := wf p.1.

Lemma st_wf_lift {A} (m : state World A) : pres wf m → pres st_wf (lift m).
Proof. apply pres_lift. Qed.
Lemma st_wf_upd f : pres st_wf (upd f).
Proof. by intros p Hp. Qed.
Lemma st_wf_sess : pres st_wf sess.
Proof. by intros p Hp. Qed.

Lemma checkGreylist_wf be conn from to : pres wf (checkGreylist be conn from to).
Proof. unfold checkGreylist. pres_walk. Qed.

Lemma each_pres (I : World → Prop) l body : (∀ x, x ∈ l → pres I (body x)) → pres I (each l body).
Proof.
  intros Hb. unfold each. apply pres_bind; [|intros; apply pres_ret]. apply pres_for. intros x Hx.
  apply pres_bind; [by apply Hb|intros; apply pres_ret].
Qed.

Lemma store_and_deliver_wf be s h r err : pres wf (store_and_deliver format_date be s h r err).
Proof using StoreSpec0.
  pose proof (Put_store_wf (S := S) (digest := digest)). pose proof (Delete_store_wf (S := S) (digest := digest)).
  unfold store_and_deliver. destruct (parseMessageHeaders h) as [[f t] sub]. pres_walk;
    apply each_pres; intros x _; unfold deliver_local, deliver_other, enqueueOutbound, Manager_Enqueue, queue_metrics; pres_walk.
Qed.

#[local] Hint Resolve st_wf_upd st_wf_sess : pres.
#[local] Hint Extern 1 (pres st_wf (lift _)) => (apply st_wf_lift; solve [eauto using checkGreylist_wf, store_and_deliver_wf with pres nocore]) : pres.

Lemma run_command_wf be c : pres st_wf (run_command R IDKey format_date be c).
Proof using StoreSpec0.
  destruct c; cbn [run_command]; unfold Mail, Rcpt, Auth_PLAIN, Data, Reset; pres_walk.
Qed.

Lemma run_commands_wf be cs : pres st_wf (run_commands R IDKey format_date be cs).
Proof using StoreSpec0.
  unfold run_commands. apply pres_bind; [|intros; apply pres_ret]. apply pres_for. intros c _.
  apply pres_bind; [apply run_command_wf|intros; apply pres_ret].
Qed.
End smtp_wf.

(** * Relaying *)
Lemma on_db_each P l body : (∀ x, x ∈ l → pres (on_db P) (body x)) → pres (on_db P) (each l body).
Proof. apply each_pres. Qed.

(** A string with one separator is split the same way by both functions. *)
Lemma Split_single s c b : strings.Split s c = [b] → s = b.
Proof.
  revert b. induction s as [|x s IH]; intros b; cbn; [by intros [= <-]|].
  destruct (Ascii.eqb x c).
  - destruct s as [|y s]; cbn; [done|]. destruct (Ascii.eqb y c); [done|]. by destruct (strings.Split s c).
  - destruct (strings.Split s c) as [|t ts] eqn:E; [intros [= <-]|intros [= <- ->]; f_equal; by apply IH].
    destruct s as [|y s]; [done|]. cbn in E. destruct (Ascii.eqb y c); [done|]. by destruct (strings.Split s c).
Qed.

Lemma Split_SplitN2 s c a b : strings.Split s c = [a; b] → strings.SplitN2 s c = [a; b].
Proof.
  revert a. induction s as [|x s IH]; intros a; cbn; [done|].
  unfold strings.SplitN2, strings.IndexByte in *. cbn. rewrite (Ascii.eqb_sym c x).
  destruct (Ascii.eqb x c) eqn:Ex.
  - apply Ascii.eqb_eq in Ex as ->. intros [= <- E]. apply Split_single in E as ->. by destruct b.
  - destruct (strings.Split s c) as [|t ts] eqn:E; [done|]. intros [= <- ->].
    specialize (IH t eq_refl). destruct (strings.Index s (String c "")); [|done]. injection IH as <- <-. done.
Qed.

(** The senders a sequence of commands names. *)
Definition mail_from (c : command) : list string := match c with CmdMail f => [f] | _ => [] end.
Definition mail_froms (cs : list command) : list string := concat (mail_from <$> cs).

Section relay.
Context `{MR : MapRange} `{S : Store} (digest : string → string) `{!StoreSpec S digest}
  (format_date : Z → string) (be : Backend)
  (Q : list QueueItem) (F : list string).

(** Every queued delivery was there before or goes to a sender in [F]. *)
Definition only_bounces (d : DB) : Prop :=
  ∀ q, q ∈ rows (queue d) → q ∈ Q ∨ qi_RcptTo q ∈ F.

Lemma bounces_queue {A} (f : DB → res A * DB) :
  (∀ d, queue (f d).2 = queue d) → pres (on_db only_bounces) (stmt f).
Proof. intros Hq. apply on_db_stmt. intros d Hd q. rewrite Hq. apply Hd. Qed.

Lemma bounces_Put r : pres (on_db only_bounces) (Put r).
Proof using StoreSpec0. intros w Hw. destruct (Put_frame r w) as (b & f & fs & ->). done. Qed.
Lemma bounces_Delete k : pres (on_db only_bounces) (Blob.Delete k).
Proof using StoreSpec0. intros w Hw. destruct (Delete_frame k w) as (b & f & fs & ->). done. Qed.

Lemma bounces_InsertMessage m k z a b s f : pres (on_db only_bounces) (InsertMessage m k z a b s f).
Proof.
  unfold InsertMessage. apply on_db_withTx.
  pose proof (λ u n, bounces_queue (sql_insert_message m u k z f n a b s)
                (sql_insert_message_queue m u k z f n a b s)).
  pres_walk.
Qed.

Lemma bounces_Enqueue m to : to ∈ F → pres (on_db only_bounces) (Manager_Enqueue m to).
Proof.
  intros Hto. unfold Manager_Enqueue, Enqueue, queue_metrics.
  assert (∀ now, pres (on_db only_bounces) (stmt (sql_enqueue m to now))) as Hq.
  { intros now. apply on_db_stmt. intros d Hd q. unfold sql_enqueue. case_decide; [|apply Hd].
    intros [Hq| ->]%elem_of_insert; [by apply Hd|]. by right. }
  pres_walk.
Qed.

Lemma bounces_checkGreylist conn from to : pres (on_db only_bounces) (checkGreylist be conn from to).
Proof.
  unfold checkGreylist, IsWhitelisted, RecordAttempt, MarkPassed.
  assert (∀ i a b n, pres (on_db only_bounces) (stmt (sql_upsert_greylist i a b n))) as H1.
  { intros i a b n. apply bounces_queue. intros d. unfold sql_upsert_greylist. by case_decide. }
  assert (∀ i a b, pres (on_db only_bounces) (stmt (sql_mark_passed i a b))) as H2 by (intros; by apply bounces_queue).
  pres_walk.
Qed.

(** A recipient [Rcpt] accepts without a login has a local domain, also the way
    [Data] takes the domain. *)
Lemma relay_check_local to l d :
  relay_check be to = None → strings.SplitN2 to "@" = [l; d] → isLocalDomain be d = true.
Proof.
  unfold relay_check. destruct (strings.Split to "@") as [|a [|b [|]]] eqn:E; try done.
  rewrite (Split_SplitN2 _ _ _ _ E). intros Hb [= -> ->]. by destruct (isLocalDomain be d).
Qed.

Lemma bounces_other users k z from fa sub rcpt :
  from ∈ F → relay_check be rcpt = None →
  pres (on_db only_bounces) (deliver_other format_date be users k z from fa sub rcpt).
Proof using StoreSpec0.
  intros HF Hl. unfold deliver_other. destruct (users !! rcpt); [apply pres_ret|].
  destruct (strings.SplitN2 rcpt "@") as [|l [|dom [|]]] eqn:E; try apply pres_ret.
  rewrite (relay_check_local _ _ _ Hl E).
  pose proof bounces_Put. pose proof bounces_InsertMessage.
  pose proof (λ m, bounces_Enqueue m from HF). unfold enqueueOutbound, metric. pres_walk.
Qed.

Lemma bounces_store_and_deliver s h r err :
  s_from s ∈ F → Forall (λ to, relay_check be to = None) (s_recipients s) →
  pres (on_db only_bounces) (store_and_deliver format_date be s h r err).
Proof using StoreSpec0.
  intros HF Hl. rewrite Forall_forall in Hl.
  pose proof bounces_Put. pose proof bounces_Delete. pose proof bounces_InsertMessage.
  unfold store_and_deliver, metric, GetUsersByEmail. destruct (parseMessageHeaders h) as [[f t] sub]. pres_walk;
    apply on_db_each; intros x Hx; [unfold deliver_local; pres_walk|apply bounces_other; auto].
Qed.

(** The invariant of a connection. *)
Definition relay_inv (p : ST) : Prop :=
  s_authed p.2 = true ∨
  on_db only_bounces p.1 ∧ s_from p.2 ∈ F ∧
  Forall (λ to, relay_check be to = None) (s_recipients p.2).

Lemma relay_upd f :
  (∀ s, s_authed s = true → s_authed (f s) = true) →
  (∀ s, s_from s ∈ F → s_from (f s) ∈ F) →
  (∀ s, Forall (λ to, relay_check be to = None) (s_recipients s) →
        Forall (λ to, relay_check be to = None) (s_recipients (f s))) →
  pres relay_inv (upd f).
Proof. intros H1 H2 H3 [w s] [Ha|(Hq & Hf & Hr)]; [left; by apply H1|right; split_and!; [done|by apply H2|by apply H3]]. Qed.

Lemma relay_lift {A} (m : state World A) : pres (on_db only_bounces) m → pres relay_inv (lift m).
Proof.
  intros Hm [w s] Hi. unfold lift, relay_inv in *. specialize (Hm w). cbn [fst snd] in *.
  destruct (m w) as [a w']. cbn [fst snd] in *. destruct Hi as [Ha|(Hq & Hf & Hr)]; [by left|right; auto].
Qed.

Lemma relay_sess : pres relay_inv sess.
Proof. by intros p Hp. Qed.

Lemma relay_Rcpt to : pres relay_inv (Rcpt be to).
Proof.
  intros [w s] Hi. unfold Rcpt, sbind at 1, sess. cbn [fst snd].
  case_match; [done|]. destruct (if s_authed s then None else relay_check be to) as [refusal|] eqn:Er; [done|].
  unfold sbind at 1.
  match goal with |- context [let '(_, _) := ?g (w, s) in _] => assert (pres relay_inv g ∧ (g (w, s)).2.2 = s) as [Hg Hs] end.
  { destruct (s_conn s); [|by split; [apply pres_ret|]]. destruct (_ && _ && _); [|by split; [apply pres_ret|]].
    split; [apply relay_lift, bounces_checkGreylist|]. unfold lift. cbn [fst]. by destruct (checkGreylist _ _ _ _ _). }
  specialize (Hg (w, s) Hi). match goal with |- context [let '(_, _) := ?g (w, s) in _] => destruct (g (w, s)) as [[r|] [w' s']] end;
    cbn [fst snd] in *; [done|]. subst s'. unfold sbind, upd, sret. cbn.
  destruct Hg as [Ha|(Hq & Hf & Hr)]; [by left|]. cbn [fst snd] in *. destruct (s_authed s) eqn:Ea; [by left|right].
  split_and!; [done|done|]. cbn. apply Forall_app. split; [done|]. by constructor.
Qed.

Lemma relay_Data R r : pres relay_inv (Data R format_date be r).
Proof using StoreSpec0.
  intros [w s] Hi. unfold Data, sbind at 1, sess. cbn [fst snd]. destruct (readHeaders _ _ _ _) as [[h rest]|]; [|done].
  destruct (spf_panics R s); [done|]. destruct Hi as [Ha|(Hq & Hf & Hr)].
  - left. unfold lift. cbn [fst snd]. by destruct (store_and_deliver _ _ _ _ _ _ _).
  - apply relay_lift; [by apply bounces_store_and_deliver|]. by right.
Qed.

Lemma relay_run_command R IDKey c :
  mail_from c ⊆ F → "" ∈ F → pres relay_inv (run_command R IDKey format_date be c).
Proof using StoreSpec0.
  intros Hc He. destruct c as [f|to|u p|r|]; cbn [run_command].
  - apply pres_bind; [|intros; apply pres_ret]. unfold Mail. destruct (negb _); [apply pres_ret|].
    apply pres_bind; [|intros; apply pres_ret]. apply relay_upd; [done| |done]. intros s _. apply Hc. left.
  - apply pres_bind; [apply relay_Rcpt|intros; apply pres_ret].
  - apply pres_bind; [|intros; apply pres_ret]. unfold Auth_PLAIN.
    apply pres_bind; [apply relay_lift, on_db_Authenticate|]. intros [id|e]; [|apply pres_ret].
    apply pres_bind; [|intros; apply pres_ret]. intros p' _. by left.
  - apply pres_bind; [apply relay_Data|intros; apply pres_ret].
  - apply relay_upd; [done|done|]. intros s _. constructor.
Qed.

Lemma relay_run_commands R IDKey cs :
  mail_froms cs ⊆ F → "" ∈ F → pres relay_inv (run_commands R IDKey format_date be cs).
Proof using StoreSpec0.
  intros Hc He. unfold run_commands. apply pres_bind; [|intros; apply pres_ret]. apply pres_for. intros c Hin.
  apply pres_bind; [|intros; apply pres_ret]. apply relay_run_command; [|done].
  intros x Hx. apply Hc. unfold mail_froms. apply list_elem_of_In, in_concat. exists (mail_from c).
  split; apply list_elem_of_In; [by apply list_elem_of_fmap_2|done].
Qed.
End relay.

(** The limit on recipients. *)
Definition rcpt_bound (be : Backend) (p : ST) : Prop :=
  Z.of_nat (length (s_recipients p.2)) ≤ Z.max 0 (MaxRecipients (be_cfg be)).

Section bound.
Context `{MR : MapRange} `{S : Store} (be : Backend).

Lemma bound_lift {A} (m : state World A) : pres (rcpt_bound be) (lift m).
Proof. intros [w s] Hi. unfold lift. cbn [fst snd]. by destruct (m w). Qed.
Lemma bound_upd f : (∀ s, s_recipients (f s) = s_recipients s) → pres (rcpt_bound be) (upd f).
Proof. intros Hf [w s] Hi. unfold rcpt_bound, upd in *. cbn in *. by rewrite Hf. Qed.
Lemma bound_sess : pres (rcpt_bound be) sess.
Proof. by intros p Hp. Qed.

Lemma bound_Rcpt to : pres (rcpt_bound be) (Rcpt be to).
Proof.
  intros [w s] Hi. unfold Rcpt, sbind at 1, sess. cbn [fst snd].
  destruct (Z.leb_spec (MaxRecipients (be_cfg be)) (Z.of_nat (length (s_recipients s)))) as [|Hlt]; [done|].
  destruct (if s_authed s then _ else _); [done|]. unfold sbind at 1.
  match goal with |- context [let '(_, _) := ?g (w, s) in _] => assert ((g (w, s)).2.2 = s) as Hs; [|destruct (g (w, s)) as [[r|] [w' s']]] end.
  - destruct (s_conn s); [|done]. destruct (_ && _ && _); [|done].
    unfold lift. cbn [fst]. by destruct (checkGreylist _ _ _ _ _).
  - cbn in Hs. by subst.
  - cbn in Hs. subst. unfold rcpt_bound, sbind, upd, sret. cbn. rewrite length_app. cbn. lia.
Qed.

Lemma bound_run_commands R IDKey format_date cs : pres (rcpt_bound be) (run_commands R IDKey format_date be cs).
Proof.
  pose proof bound_sess. pose proof bound_Rcpt. pose proof (@bound_lift).
  assert (∀ f, pres (rcpt_bound be) (upd (set_from f))) by (intros; by apply bound_upd).
  assert (∀ u i, pres (rcpt_bound be) (upd (set_authed u i))) by (intros; by apply bound_upd).
  unfold run_commands. apply pres_bind; [|intros; apply pres_ret]. apply pres_for. intros c _.
  apply pres_bind; [|intros; apply pres_ret].
  destruct c; cbn [run_command]; unfold Mail, Auth_PLAIN, Data; try by pres_walk.
  intros p Hp. unfold rcpt_bound. cbn. lia.
Qed.
End bound.

(** C4.  No open relay: as long as a connection has not logged in, whatever it
    sends, for whatever failures of the database and the blob store, every
    delivery it causes to be queued goes to an address it gave as the sender (the
    bounce for an unknown local address), never to another recipient; and all its
    recipients are in local domains and no more than [MaxRecipients]. *)
Theorem smtp_no_open_relay `{MR : MapRange} `{S : Store} (digest : string → string) `{!StoreSpec S digest}
    (R : Resolver) (IDKey : string → list Z → Z → Z → Z → Z → list Z) (format_date : Z → string)
    (be : Backend) (conn : Conn) (cs : list command) (w : World) :
  let p := (run_commands R IDKey format_date be cs (w, mkSession (Some conn) "" [] false "" 0)).2 in
  s_authed p.2 = false →
  (∀ q, q ∈ rows (queue (w_db p.1)) → q ∈ rows (queue (w_db w)) ∨ qi_RcptTo q ∈ "" :: mail_froms cs) ∧
  (∀ to, to ∈ s_recipients p.2 → ∃ l domain, strings.SplitN2 to "@" = [l; domain] ∧ isLocalDomain be domain = true) ∧
  Z.of_nat (length (s_recipients p.2)) ≤ Z.max 0 (MaxRecipients (be_cfg be)).
Proof.
  intros p Hp. set (s0 := mkSession (Some conn) "" [] false "" 0) in p.
  assert (relay_inv be (rows (queue (w_db w))) ("" :: mail_froms cs) p) as [Ha|(Hq & _ & Hr)].
  { apply (relay_run_commands digest); [by intros x Hx; right|by left|]. right.
    split_and!; [by intros q Hq; left|by left|constructor]. }
  { congruence. }
  split_and!.
  - exact Hq.
  - intros to Hto. rewrite Forall_forall in Hr. specialize (Hr to Hto). unfold relay_check in Hr.
    destruct (strings.Split to "@") as [|l [|d [|]]] eqn:E; try done. exists l, d. rewrite (Split_SplitN2 _ _ _ _ E).
    split; [done|]. by destruct (isLocalDomain be d).
  - assert (rcpt_bound be (w, s0)) as Hb by (unfold rcpt_bound; cbn; lia).
    exact (bound_run_commands be R IDKey format_date cs (w, s0) Hb).
Qed.

Definition demo_smtp_config : SMTPConfig := mkSMTPConfig ":25" ":587" ":465" 1000 10 "mx.example.com" 0 0 (300 * second).
Definition demo_backend : Backend := ReloadDomains ["example.com"] (NewBackend demo_smtp_config).
Definition demo_conn : Conn := mkConn "192.0.2.1:4711" (Some [192; 0; 2; 1]).
Definition no_dns : Resolver := mkResolver (λ _, Err (ErrorNew "no such host")) (λ _, Err (ErrorNew "no such host")) (λ _, Err (ErrorNew "no such host")).

Lemma smtp_no_open_relay_witness :
  let cs := [CmdMail "a@b.org"; CmdRcpt "victim@other.org"; CmdRcpt "nobody@example.com"; CmdData ("hello", None)] in
  let p := (run_commands (S := SQLiteStore toy_digest) no_dns toy_key (λ _, "") demo_backend cs
              (demo_world, mkSession (Some demo_conn) "" [] false "" 0)).2 in
  s_authed p.2 = false ∧ Z.of_nat (length (s_recipients p.2)) ≤ Z.max 0 (MaxRecipients (be_cfg demo_backend)).
Proof.
  intros cs p. assert (s_authed p.2 = false) as Hp by (vm_compute; reflexivity). split; [exact Hp|].
  exact (proj2 (proj2 (smtp_no_open_relay (S := SQLiteStore toy_digest) toy_digest no_dns toy_key (λ _, "") demo_backend
    demo_conn cs demo_world Hp))).
Defined.
