(* ===== verification/SmtpDelivery.v ===== *)
(** What a successful DATA command leaves behind: the delivery loops of
    [Session.Data] (src/pkg/smtp/session.go), run when nothing fails. *)
From S2P Require Import Prelude GoLib Spf Cache Sql Schema World StoreUsers StoreMail StoreQueue Auth Blob Worker Smtp.

(** A mailbox cache that agrees with the table. *)
Definition cache_true (w : World) : Prop :=
  ∀ key e, entries (w_mboxCache w) !! key = Some e → val e ∈ rows (mailboxes (w_db w)) ∧ mbox_key (val e) = key.

(** Room for [k] more messages before the UIDs of some mailbox run out. *)
Definition roomy (k : Z) (w : World) : Prop :=
  0 ≤ k < 2 ^ 31 ∧ ∀ m, m ∈ rows (messages (w_db w)) → msg_UID m < 2 ^ 32 - 1 - k.

Record ready (k : Z) (w : World) : Prop := mk_ready {
  rd_wf : wf w; rd_quiet : w_faults w = []; rd_cache : cache_true w; rd_room : roomy k w }.

(** Users and mailboxes stay, messages and queue only grow. *)
Record grows (w w' : World) : Prop := mk_grows {
  gr_users : users (w_db w') = users (w_db w);
  gr_mailboxes : mailboxes (w_db w') = mailboxes (w_db w);
  gr_messages m : m ∈ rows (messages (w_db w)) → m ∈ rows (messages (w_db w'));
  gr_queue q : q ∈ rows (queue (w_db w)) → q ∈ rows (queue (w_db w'));
}.

#[export] Instance grows_preorder : PreOrder grows.
Proof. split; [by constructor|]. intros w1 w2 w3 [] []. constructor; try congruence; auto. Qed.

Record same_blobs (w w' : World) : Prop := mk_same_blobs {
  sb_blobs : blobs (w_db w') = blobs (w_db w); sb_files : w_files w' = w_files w }.
#[export] Instance same_blobs_preorder : PreOrder same_blobs.
Proof. split; [done|]. intros w1 w2 w3 [] []. split; congruence. Qed.

(** A relation that is only promised under a condition. *)
Definition provided (P : Prop) (K : relation World) : relation World := λ w w', P → K w w'.
#[export] Instance provided_preorder P K `{!PreOrder K} : PreOrder (provided P K).
Proof. split; [by intros w _|]. intros w1 w2 w3 H1 H2 HP. etrans; [by apply H1|by apply H2]. Qed.

Lemma grows_mboxCache c w : grows w (set_mboxCache c w).
Proof. by constructor. Qed.
Lemma same_blobs_mboxCache c w : same_blobs w (set_mboxCache c w).
Proof. done. Qed.
#[export] Hint Resolve grows_mboxCache same_blobs_mboxCache : core.

Lemma ready_weaken k k' w : 0 ≤ k' ≤ k → ready k w → ready k' w.
Proof. intros Hk [Hw Hf Hc [Hr Hm]]. split; [exact Hw|exact Hf|exact Hc|split; [lia|]]. intros m H. specialize (Hm m H). lia. Qed.

Section steps.
Context `{MR : MapRange}.

Lemma GetMailbox_true u n k w :
  ready k w → ∃ r c,
    GetMailbox u n w = (r, set_mboxCache c w) ∧ ready k (set_mboxCache c w) ∧
    (∀ b, b ∈ rows (mailboxes (w_db w)) → mbox_key b = (u, n) → r = Ok b) ∧
    (∀ b, r = Ok b → b ∈ rows (mailboxes (w_db w)) ∧ mbox_key b = (u, n)).
Proof.
  intros [Hw Hf Hc Hr]. pose proof (GetMailbox_wf u n w Hw) as Hw'. revert Hw'. unfold GetMailbox, sbind, mailboxCache_Get.
  pose proof (Get_sub (w_mboxCache w) (w_now w) (u, n)) as Hsub.
  pose proof (Get_hit (w_mboxCache w) (w_now w) (u, n)) as Hhit.
  assert (unique mbox_key (mailboxes (w_db w))) as Hu by apply Hw.
  destruct (Cache.Get (w_mboxCache w) (w_now w) (u, n)) as [[b|] c]; cbn [fst snd sret] in *.
  - intros Hw'. destruct (Hhit b eq_refl) as (e & He & <- & _). destruct (Hc _ _ He) as [Hb Hk]. exists (Ok (val e)), c.
    split_and!; [done|(split; [exact Hw'|exact Hf| |exact Hr])|..].
    + intros key e' He'. apply (Hc key). by eapply lookup_weaken.
    + intros b Hb' Hk'. f_equal. apply (unique_inj mbox_key (mailboxes (w_db w))); [done..|]. by rewrite Hk.
    + by intros b [= <-].
  - rewrite query_run by done. cbn [w_db set_mboxCache].
    destruct (select (λ m, mbox_key m = (u, n)) (mailboxes (w_db w))) as [|b l] eqn:E; cbn [query_row fst snd sret smodify]; intros Hw'.
    + exists (Err (wrap "storage: mailbox not found: " (Sentinel ErrNotFound))), c.
      split_and!; [done|(split; [exact Hw'|exact Hf| |exact Hr]); intros key e' He'; apply (Hc key); by eapply lookup_weaken| |done].
      intros b Hb Hk. assert (b ∈ select (λ m, mbox_key m = (u, n)) (mailboxes (w_db w))) as Hin by by apply elem_of_select.
      rewrite E in Hin. by apply elem_of_nil in Hin.
    + assert (b ∈ select (λ m, mbox_key m = (u, n)) (mailboxes (w_db w))) as [Hk Hb]%elem_of_select by (rewrite E; left).
      eexists (Ok b), _. split_and!; [reflexivity|(split; [exact Hw'|exact Hf| |exact Hr])|..].
      * intros key x He. cbn in He. destruct (decide ((u, n) = key)) as [<-|Hne].
        -- rewrite Set_lookup in He. by injection He as <-.
        -- apply Set_lookup_ne in He; [|done]. apply (Hc key). by eapply lookup_weaken.
      * intros b' Hb' Hk'. f_equal. apply (unique_inj mbox_key (mailboxes (w_db w))); [done..|]. by rewrite Hk.
      * by intros b' [= <-].
Qed.

Lemma InsertMessage_ready mb key z a b s f k w :
  0 ≤ k → ready (k + 1) w → mb ∈ mailbox_ids (w_db w) → ∃ id uid w',
    InsertMessage mb key z a b s f w = (Ok (id, uid), w') ∧ ready k w' ∧ grows w w' ∧ same_blobs w w' ∧
    mkMessage id mb uid key z f (w_now w / second) a b s ∈ rows (messages (w_db w')).
Proof.
  intros Hk [Hw Hf Hc [Hr Hm]] Hmb.
  destruct (InsertMessage_ok mb key z a b s f w Hw Hf Hmb) as (id & uid & E & Hid & Hu & Hn).
  { intros m Hin _. specialize (Hm m Hin). lia. }
  assert (uid ≤ 2 ^ 32 - 1 - (k + 1)) as Hle by (apply Hn; [lia|]; auto).
  eexists id, uid, _. split; [exact E|]. pose proof (InsertMessage_wf mb key z a b s f w Hw) as Hw'. rewrite E in Hw'.
  split_and!; [split; [exact Hw'|exact Hf|exact Hc|split; [lia|]]|constructor; try done|done|].
  - cbn. intros m [Hin| ->%list_elem_of_singleton]%elem_of_app; [specialize (Hm m Hin); lia|cbn; lia].
  - cbn. intros m Hin. apply elem_of_app. by left.
  - cbn. apply elem_of_app. right. left.
Qed.

Lemma Manager_Enqueue_ready id to k w :
  ready k w → id ∈ message_ids (w_db w) → ∃ w' qid,
    Manager_Enqueue id to w = (Ok tt, w') ∧ ready k w' ∧ grows w w' ∧ same_blobs w w' ∧
    mkQueueItem qid id to (w_now w / second) 0 "pending" ∈ rows (queue (w_db w')).
Proof.
  intros [Hw Hf Hc Hr] Hid.
  assert (mbox_ok (sql_enqueue id to (w_now w / second))) as Hm by same_mailboxes.
  pose proof (pres_stmt (sql_enqueue id to (w_now w / second)) (sql_enqueue_ok _ _ _) Hm w Hw) as Hw'.
  unfold Manager_Enqueue, Enqueue, sbind, time_now_unix, queue_metrics, smodify, sret in *.
  rewrite stmt_ok_run in * by done. unfold sql_enqueue in *. rewrite decide_True in * by done. cbn [fst snd] in *.
  eexists _, (seq_ (queue (w_db w)) + 1). split; [reflexivity|]. split_and!; [split; [exact Hw'|exact Hf|exact Hc|exact Hr]|constructor; try done|done|].
  - cbn. intros q Hq. apply elem_of_app. by left.
  - cbn. apply elem_of_app. right. left.
Qed.
End steps.

(** * The two loops of [Data] *)
(** A message for [rcpt] in mailbox [mb] with the given content. *)
Definition stored (mb : Z) (key : string) (z : Z) (rcpt : string) (w : World) : Prop :=
  ∃ m, m ∈ rows (messages (w_db w)) ∧ msg_MailboxID m = mb ∧ msg_BlobKey m = key ∧ msg_Size m = z ∧
       msg_ToAddr m = rcpt ∧ msg_Flags m = 0.

(** A pending delivery of that content to [rcpt]. *)
Definition outbound (key : string) (z : Z) (rcpt : string) (w : World) : Prop :=
  ∃ q m, q ∈ rows (queue (w_db w)) ∧ qi_RcptTo q = rcpt ∧ qi_Status q = "pending" ∧ qi_AttemptCount q = 0 ∧
         m ∈ rows (messages (w_db w)) ∧ msg_ID m = qi_MessageID q ∧ msg_BlobKey m = key ∧ msg_Size m = z ∧ msg_ToAddr m = rcpt.

Lemma stored_grows mb key z rcpt w w' : grows w w' → stored mb key z rcpt w → stored mb key z rcpt w'.
Proof. intros [] (m & Hm & ?). exists m. auto. Qed.
Lemma outbound_grows key z rcpt w w' : grows w w' → outbound key z rcpt w → outbound key z rcpt w'.
Proof. intros [] (q & m & Hq & H1 & H2 & H3 & Hm & ?). exists q, m. split_and!; naive_solver. Qed.

(** A loop whose body establishes something lasting for each element. *)
Lemma each_ready l body (post : string → World → Prop) (keep : relation World) `{!PreOrder keep} k :
  (∀ x w w', grows w w' → post x w → post x w') →
  (∀ x w k', x ∈ l → 0 ≤ k' → ready (k' + 1) w →
     let w' := (body x w).2 in ready k' w' ∧ grows w w' ∧ keep w w' ∧ post x w') →
  ∀ w, 0 ≤ k → ready (k + Z.of_nat (length l)) w →
  let w' := (each l body w).2 in ready k w' ∧ grows w w' ∧ keep w w' ∧ ∀ x, x ∈ l → post x w'.
Proof.
  intros Hmono Hbody w Hk Hw. unfold each, sbind. cbn zeta.
  assert (∀ l', (∀ x, x ∈ l' → x ∈ l) → ∀ w, ready (k + Z.of_nat (length l')) w →
    let w' := (sfor l' (λ x, do! body x in sret (None : option unit)) w).2 in
    ready k w' ∧ grows w w' ∧ keep w w' ∧ ∀ x, x ∈ l' → post x w') as H.
  { clear w Hw. induction l' as [|x l' IH]; intros Hsub w Hw.
    - cbn [length Nat.add] in Hw. rewrite Z.add_0_r in Hw. split_and!; [exact Hw|reflexivity|reflexivity|]. intros x Hx. by apply elem_of_nil in Hx.
    - cbn [sfor length]. unfold sbind.
      destruct (Hbody x w (k + Z.of_nat (length l')) ltac:(apply Hsub; left) ltac:(lia)) as (H1 & H2 & H3 & H4).
      { eapply ready_weaken; [|exact Hw]. cbn [length]. lia. }
      destruct (body x w) as [[] w1]. cbn [fst snd sret] in *.
      destruct (IH ltac:(intros y Hy; apply Hsub; by right) w1 H1) as (I1 & I2 & I3 & I4).
      split_and!; [done|by etrans; [exact H2|exact I2]|by etrans; [exact H3|exact I3]|]. intros y [->|Hy]%elem_of_cons; [|by apply I4]. by eapply Hmono. }
  specialize (H l ltac:(done) w Hw). destruct (sfor l _ w) as [o w']. exact H.
Qed.

Section loops.
Context `{MR : MapRange} `{S : Store} (digest : string → string) `{!StoreSpec S digest}
  (format_date : Z → string) (be : Backend) (users_ : gmap string User) (key : string) (z : Z) (fromAddr subject : string).

Lemma deliver_local_ready rcpt w k :
  0 ≤ k → ready (k + 1) w →
  let w' := (deliver_local users_ key z fromAddr subject rcpt w).2 in
  ready k w' ∧ grows w w' ∧ same_blobs w w' ∧
  (∀ u b, users_ !! rcpt = Some u → b ∈ rows (mailboxes (w_db w')) → mbox_key b = (user_ID u, "INBOX") →
     stored (mbox_ID b) key z rcpt w').
Proof.
  intros Hk Hw. destruct (deliver_local users_ key z fromAddr subject rcpt w) as [[] w'] eqn:Ed. cbn [snd].
  assert (ready k w) as Hw0 by (eapply ready_weaken; [|exact Hw]; lia).
  revert Ed. unfold deliver_local. destruct (users_ !! rcpt) as [u|]; [|intros [= <-]; by split_and!].
  destruct (GetMailbox_true (user_ID u) "INBOX" _ w Hw) as (r & c & E & Hw1 & Hin & Hout).
  unfold sbind at 1. rewrite E. destruct r as [b|e].
  - destruct (Hout b eq_refl) as [Hb Hkey].
    destruct (InsertMessage_ready (mbox_ID b) key z fromAddr rcpt subject 0 k (set_mboxCache c w) Hk Hw1)
      as (id & uid & w2 & E' & H1 & H2 & H3 & H4).
    { cbn. by apply list_elem_of_fmap_2. }
    unfold sbind. rewrite E'. intros [= <-]. split_and!; [done|by etrans; [|exact H2]|by etrans; [|exact H3]|].
    intros u' b' [= <-] Hb' Hk'. destruct H2 as [_ H2 _ _]. rewrite H2 in Hb'.
    specialize (Hin b' Hb' Hk'). injection Hin as ->. eexists. by split; [exact H4|].
  - intros [= <-]. split_and!; [eapply ready_weaken; [|exact Hw1]; lia|done|done|].
    intros u' b' [= <-] Hb' Hk'. by specialize (Hin b' Hb' Hk').
Qed.

Lemma enqueueOutbound_ready k' z' from to sub k w :
  0 ≤ k → ready (k + 1) w →
  let '(r, w') := enqueueOutbound k' from to sub z' w in
  ready k w' ∧ grows w w' ∧ same_blobs w w' ∧
  match r with
  | Err _ => ∀ b, b ∈ rows (mailboxes (w_db w)) → mbox_key b ≠ (0, "OUTBOUND")
  | Ok (id, uid) => ∃ m, m ∈ rows (messages (w_db w')) ∧ msg_ID m = id ∧ msg_BlobKey m = k' ∧ msg_Size m = z' ∧ msg_ToAddr m = to
  end.
Proof.
  intros Hk Hw. unfold enqueueOutbound.
  destruct (GetMailbox_true 0 "OUTBOUND" _ w Hw) as (r & c & E & Hw1 & Hin & Hout).
  unfold sbind at 1. rewrite E. destruct r as [b|e].
  - destruct (Hout b eq_refl) as [Hb Hkey].
    destruct (InsertMessage_ready (mbox_ID b) k' z' from to sub 0 k (set_mboxCache c w) Hk Hw1)
      as (id & uid & w' & E' & H1 & H2 & H3 & H4).
    { cbn. by apply list_elem_of_fmap_2. }
    rewrite E'. split_and!; [done|by etrans; [|exact H2]|by etrans; [|exact H3]|]. eexists. by split; [exact H4|].
  - split_and!; [eapply ready_weaken; [|exact Hw1]; lia|done|done|].
    intros b Hb Hk'. by specialize (Hin b Hb Hk').
Qed.

(** What the second loop keeps: the blobs, unless it has to bounce. *)
Definition needs_bounce (rcpt : string) : bool :=
  match users_ !! rcpt, strings.SplitN2 rcpt "@" with
  | None, [_; domain] => isLocalDomain be domain
  | _, _ => false
  end.

Lemma Put_ready r k w : ready k w → ready k (Put r w).2 ∧ grows w (Put r w).2.
Proof using StoreSpec0.
  intros [Hw Hf Hc Hr]. pose proof (Put_store_wf r w Hw) as Hw'. pose proof (Put_quiet r w Hf) as Hf'.
  destruct (Put_frame r w) as (b & f & fs & E). rewrite E in *. split; [|by constructor].
  split; [exact Hw'|exact Hf'|exact Hc|exact Hr].
Qed.

Lemma ready_metric f k w : ready k w → ready k (metric f w).2.
Proof. by intros []. Qed.

Lemma deliver_other_ready env rcpt w k :
  0 ≤ k → ready (k + 1) w →
  let w' := (deliver_other format_date be users_ key z env fromAddr subject rcpt w).2 in
  ready k w' ∧ grows w w' ∧ (needs_bounce rcpt = false → same_blobs w w') ∧
  (∀ l d b, users_ !! rcpt = None → strings.SplitN2 rcpt "@" = [l; d] → isLocalDomain be d = false →
     b ∈ rows (mailboxes (w_db w')) → mbox_key b = (0, "OUTBOUND") → outbound key z rcpt w').
Proof using StoreSpec0.
  intros Hk Hw. destruct (deliver_other format_date be users_ key z env fromAddr subject rcpt w) as [[] w'] eqn:Ed. cbn [snd].
  assert (ready k w) as Hw0 by (eapply ready_weaken; [|exact Hw]; lia).
  revert Ed. unfold deliver_other, needs_bounce. destruct (users_ !! rcpt); [intros [= <-]; by split_and!|].
  destruct (strings.SplitN2 rcpt "@") as [|l [|d [|]]]; try (intros [= <-]; by split_and!).
  destruct (isLocalDomain be d) eqn:El.
  - unfold sbind at 1, time_now. unfold sbind at 1.
    match goal with |- context [Put ?r w] => destruct (Put_ready r (k + 1) w Hw) as [H1 H2]; destruct (Put r w) as [[[nk nz]|e] w1] end;
      cbn [fst snd] in *; [|intros [= <-]; split_and!; try done; [eapply ready_weaken; [|exact H1]; lia|intros ??? _ [= <- <-]; congruence]].
    unfold sbind at 1.
    pose proof (enqueueOutbound_ready nk nz "" env "Undelivered Mail Returned to Sender" k w1 Hk H1) as He.
    destruct (enqueueOutbound _ _ _ _ _ w1) as [[[id uid]|e] w2]; destruct He as (I1 & I2 & I3 & I4).
    + destruct I4 as (m & Hm & <- & _).
      destruct (Manager_Enqueue_ready (msg_ID m) env k w2 I1) as (w3 & qid & E & J1 & J2 & J3 & _).
      { by apply list_elem_of_fmap_2. }
      unfold sbind. rewrite E. intros [= <-]. split_and!; [by apply ready_metric| |done|intros ??? _ [= <- <-]; congruence].
      etrans; [exact H2|]. etrans; [exact I2|]. etrans; [exact J2|]. by constructor.
    + intros [= <-]. split_and!; [done|by etrans|done|intros ??? _ [= <- <-]; congruence].
  - unfold sbind at 1. pose proof (enqueueOutbound_ready key z fromAddr rcpt subject k w Hk Hw) as He.
    destruct (enqueueOutbound _ _ _ _ _ w) as [[[id uid]|e] w2]; destruct He as (I1 & I2 & I3 & I4).
    + destruct I4 as (m & Hm & <- & Hmk & Hmz & Hmt).
      destruct (Manager_Enqueue_ready (msg_ID m) rcpt k w2 I1) as (w3 & qid & E & J1 & J2 & J3 & J4).
      { by apply list_elem_of_fmap_2. }
      unfold sbind. rewrite E. intros [= <-]. split_and!; [done|by etrans|intros _; by etrans|].
      intros ??? _ _ _ _ _. eexists _, m. split; [exact J4|]. split_and!; try done. by apply J2.
    + intros [= <-]. split_and!; [done|done|done|]. intros ? ? b _ _ _ Hb Hb'. destruct (I4 b); [|done].
      by rewrite <- (gr_mailboxes _ _ I2).
Qed.
End loops.

(** * The whole command *)
(** The header scan splits the message without losing a byte. *)
Lemma readHeaders_lossless fuel data buf :
  ∃ h rest, readHeaders fuel data None buf = Ok (h, rest) ∧ h +:+ rest = buf +:+ data.
Proof.
  assert (∀ s l r, mail.ReadBytes s = Some (l, r) → s = l +:+ r) as Hrb.
  { induction s as [|c s IH]; [done|]. cbn [mail.ReadBytes]. intros l r. destruct (Ascii.eqb c (chr 10)); [by intros [= <- <-]|].
    destruct (mail.ReadBytes s) as [[l' r']|]; [|done]. intros [= <- <-]. rewrite string_app_cons. f_equal. by apply IH. }
  revert data buf. induction fuel as [|fuel IH]; intros data buf; cbn; [by exists buf, data|].
  destruct (slen buf <? 65536); [|by exists buf, data].
  destruct (mail.ReadBytes data) as [[l r]|] eqn:E; [|exists (buf +:+ data), ""; by rewrite string_app_nil_r].
  apply Hrb in E as ->. destruct (String.eqb l _); [exists (buf +:+ l), r; by rewrite string_app_assoc|].
  destruct (IH r (buf +:+ l)) as (h & rest & -> & E). exists h, rest. by rewrite E, string_app_assoc.
Qed.

(** The map [GetUsersByEmail] builds. *)
Lemma users_map_lookup (us : list User) (m0 : gmap string User) (r : string) (u : User) :
  NoDup (user_Email <$> us) → m0 !! r = None →
  foldl (λ m u, <[user_Email u := u]> m) m0 us !! r = Some u ↔ u ∈ us ∧ user_Email u = r.
Proof.
  revert m0. induction us as [|v us IH]; intros m0; cbn [fmap list_fmap foldl].
  - intros _ ->. split; [done|]. by intros [Hu%elem_of_nil _].
  - intros [Hn Hd]%NoDup_cons H0. destruct (decide (user_Email v = r)) as [<-|Hne].
    + assert (∀ us (m : gmap string User), user_Email v ∉ user_Email <$> us → m !! user_Email v = Some v →
        foldl (λ m u, <[user_Email u := u]> m) m us !! user_Email v = Some v) as Hkeep.
      { clear. induction us as [|x us IH]; intros m Hn Hm; [done|]. cbn in *. apply not_elem_of_cons in Hn as [Hx Hn].
        apply IH; [done|]. by rewrite lookup_insert_ne. }
      rewrite Hkeep by (try done; by rewrite lookup_insert_eq). split.
      * intros [= <-]. split; [left|done].
      * intros [[->|Hu]%elem_of_cons Ee]; [done|]. destruct Hn. rewrite <- Ee. by apply list_elem_of_fmap_2.
    + rewrite IH; [|done|by rewrite lookup_insert_ne]. rewrite elem_of_cons. naive_solver.
Qed.

Lemma GetUsersByEmail_run emails w :
  wf w → w_faults w = [] → ∃ m, GetUsersByEmail emails w = (Ok m, w) ∧
  ∀ r u, m !! r = Some u ↔ u ∈ rows (users (w_db w)) ∧ user_Email u = r ∧ r ∈ emails.
Proof.
  intros Hw Hf. destruct emails as [|e emails].
  - exists ∅. split; [done|]. intros r u. rewrite lookup_empty. split; [done|]. by intros (_ & _ & ?%elem_of_nil).
  - unfold GetUsersByEmail, sbind. rewrite query_run by done. eexists. split; [reflexivity|]. intros r u.
    rewrite users_map_lookup; [|apply (NoDup_fmap_2_strong user_Email)|done].
    + rewrite elem_of_select. naive_solver.
    + intros x y [_ Hx]%elem_of_select [_ Hy]%elem_of_select. by apply (unique_inj user_Email (users (w_db w))); [apply Hw|..].
    + apply NoDup_filter. destruct (wf_users _ Hw) as [Hu _]. by apply NoDup_fmap_1 in Hu.
Qed.

(** Both loops, one after the other. *)
Lemma deliver_all_ready `{MR : MapRange} `{S : Store} (digest : string → string) `{!StoreSpec S digest}
    format_date be us key z env fa sub rcpts w :
  ready (2 * Z.of_nat (length rcpts)) w →
  let w' := ((do! each rcpts (deliver_local us key z fa sub) in
              each rcpts (deliver_other format_date be us key z env fa sub)) w).2 in
  ready 0 w' ∧ grows w w' ∧ provided (∀ r, r ∈ rcpts → needs_bounce be us r = false) same_blobs w w' ∧
  (∀ r u b, r ∈ rcpts → us !! r = Some u → b ∈ rows (mailboxes (w_db w)) → mbox_key b = (user_ID u, "INBOX") →
     stored (mbox_ID b) key z r w') ∧
  (∀ r l d b, r ∈ rcpts → us !! r = None → strings.SplitN2 r "@" = [l; d] → isLocalDomain be d = false →
     b ∈ rows (mailboxes (w_db w)) → mbox_key b = (0, "OUTBOUND") → outbound key z r w').
Proof.
  intros Hw. set (n := Z.of_nat (length rcpts)) in *.
  destruct (each_ready rcpts (deliver_local us key z fa sub)
    (λ r w, ∀ u b, us !! r = Some u → b ∈ rows (mailboxes (w_db w)) → mbox_key b = (user_ID u, "INBOX") →
       stored (mbox_ID b) key z r w) same_blobs n) with (w := w) as (L1 & L2 & L3 & L4).
  { intros x v v' Hg Hp u b Hu Hb Hk. rewrite (gr_mailboxes _ _ Hg) in Hb. eapply stored_grows; [done|]. by eapply Hp. }
  { intros x v k _ Hk Hv. by apply deliver_local_ready. }
  { lia. }
  { fold n. replace (n + n) with (2 * n) by lia. exact Hw. }
  unfold sbind at 1. destruct (each _ (deliver_local _ _ _ _ _) w) as [[] w2]. cbn [snd] in *.
  destruct (each_ready rcpts (deliver_other format_date be us key z env fa sub)
    (λ r w, ∀ l d b, us !! r = None → strings.SplitN2 r "@" = [l; d] → isLocalDomain be d = false →
       b ∈ rows (mailboxes (w_db w)) → mbox_key b = (0, "OUTBOUND") → outbound key z r w)
    (provided (∀ r, r ∈ rcpts → needs_bounce be us r = false) same_blobs) 0) with (w := w2) as (M1 & M2 & M3 & M4).
  { intros x v v' Hg Hp l d b Hu Hs Hl Hb Hk. rewrite (gr_mailboxes _ _ Hg) in Hb. eapply outbound_grows; [done|]. by eapply Hp. }
  { intros x v k Hx Hk Hv. destruct (deliver_other_ready digest format_date be us key z fa sub env x v k Hk Hv)
      as (J1 & J2 & J3 & J4). split_and!; [done|done|intros Hn; apply J3; by apply Hn|exact J4]. }
  { lia. }
  { fold n. rewrite Z.add_0_l. exact L1. }
  destruct (each _ (deliver_other _ _ _ _ _ _ _ _) w2) as [[] w3]. cbn [snd] in *.
  assert (grows w w3) as Hg by (etrans; [exact L2|exact M2]).
  split_and!; [exact M1|exact Hg|intros Hn; etrans; [exact L3|by apply M3]|..].
  - intros r u b Hr Hu Hb Hk. apply (stored_grows _ _ _ _ w2); [exact M2|].
    apply (L4 _ Hr u b); [done|by rewrite (gr_mailboxes _ _ L2)|done].
  - intros r l d b Hr Hu Hs Hl Hb Hk. apply (M4 r Hr l d b); [done..|by rewrite (gr_mailboxes _ _ Hg)|done].
Qed.

Lemma store_and_deliver_ok `{MR : MapRange} `{S : Store} (digest : string → string) `{!StoreSpec S digest}
    format_date be s h rest data w :
  h +:+ rest = data → ready (2 * Z.of_nat (length (s_recipients s))) w → slen data ≤ MaxMessageSize (be_cfg be) →
  (∀ d, view w (digest data) = Some d → d = data) →
  ∃ us w1 w3, store_and_deliver format_date be s h rest None w = (Accepted, set_metrics (MessagesReceived_inc (w_metrics w3)) w3) ∧
    (∀ r u, us !! r = Some u ↔ u ∈ rows (users (w_db w)) ∧ user_Email u = r ∧ r ∈ s_recipients s) ∧
    view w1 (digest data) = Some data ∧ grows w w1 ∧
    ready 0 w3 ∧ grows w1 w3 ∧ provided (∀ r, r ∈ s_recipients s → needs_bounce be us r = false) same_blobs w1 w3 ∧
    (∀ r u b, r ∈ s_recipients s → us !! r = Some u → b ∈ rows (mailboxes (w_db w1)) → mbox_key b = (user_ID u, "INBOX") →
       stored (mbox_ID b) (digest data) (slen data) r w3) ∧
    (∀ r l d b, r ∈ s_recipients s → us !! r = None → strings.SplitN2 r "@" = [l; d] → isLocalDomain be d = false →
       b ∈ rows (mailboxes (w_db w1)) → mbox_key b = (0, "OUTBOUND") → outbound (digest data) (slen data) r w3).
Proof.
  intros Ehr Hw Hsize Hcol. unfold store_and_deliver. destruct (parseMessageHeaders h) as [[fa to_] sub].
  unfold sbind at 1. rewrite Ehr. destruct (view_put data w (rd_quiet _ _ Hw) Hcol) as (E1 & _ & E3).
  destruct (Put_ready digest (Ok data) _ w Hw) as [Hw1 Hg1].
  destruct (Put (Ok data) w) as [r w1]. cbn [fst snd] in *. subst r.
  destruct (Z.ltb_spec (MaxMessageSize (be_cfg be)) (slen data)); [lia|].
  destruct (GetUsersByEmail_run (s_recipients s) w1 (rd_wf _ _ Hw1) (rd_quiet _ _ Hw1)) as (us & Eu & Hus).
  unfold sbind at 1. rewrite Eu.
  pose proof (deliver_all_ready digest format_date be us (digest data) (slen data) (s_from s) fa sub _ w1 Hw1) as Hall.
  unfold sbind in Hall. unfold sbind at 1 2.
  destruct (each _ (deliver_local _ _ _ _ _) w1) as [[] w2].
  destruct (each _ (deliver_other _ _ _ _ _ _ _ _) w2) as [[] w3].
  exists us, w1, w3. rewrite E3, decide_True by done. rewrite (gr_users _ _ Hg1) in Hus.
  split; [done|]. split; [exact Hus|]. split; [done|]. split; [done|]. exact Hall.
Qed.

(** What the command leaves behind, and that nothing is pending to fail. *)
Lemma Data_delivers `{MR : MapRange} `{S : Store} (digest : string → string) `{!StoreSpec S digest}
    (R : Resolver) (format_date : Z → string) (be : Backend) (data : string) (w : World) (s : Session) :
  ready (2 * Z.of_nat (length (s_recipients s))) w → spf_panics R s = false →
  slen data ≤ MaxMessageSize (be_cfg be) → (∀ d, view w (digest data) = Some d → d = data) →
  let out := Data R format_date be (data, None) (w, s) in
  let w' := out.2.1 in
  let emails := user_Email <$> rows (users (w_db w)) in
  out.1 = Accepted ∧ out.2.2 = s ∧ ready 0 w' ∧ grows w w' ∧
  (∀ u b, u ∈ rows (users (w_db w)) → user_Email u ∈ s_recipients s → b ∈ rows (mailboxes (w_db w)) →
     mbox_key b = (user_ID u, "INBOX") → stored (mbox_ID b) (digest data) (slen data) (user_Email u) w') ∧
  (∀ rcpt l d b, rcpt ∈ s_recipients s → rcpt ∉ emails → strings.SplitN2 rcpt "@" = [l; d] →
     isLocalDomain be d = false → b ∈ rows (mailboxes (w_db w)) → mbox_key b = (0, "OUTBOUND") →
     outbound (digest data) (slen data) rcpt w') ∧
  ((∀ rcpt l d, rcpt ∈ s_recipients s → rcpt ∉ emails → strings.SplitN2 rcpt "@" = [l; d] → isLocalDomain be d = false) →
   view w' (digest data) = Some data).
Proof.
  intros Hw Hspf Hsize Hcol.
  destruct (readHeaders_lossless (Datatypes.S (String.length data)) data "") as (h & rest & Er & Ehr).
  destruct (store_and_deliver_ok digest format_date be s h rest data w Ehr Hw Hsize Hcol)
    as (us & w1 & w3 & E & Hus & Hv & Hg1 & Hr3 & Hg3 & Hb & Hl & Ho).
  assert (Data R format_date be (data, None) (w, s) =
    (Accepted, (set_metrics (MessagesReceived_inc (w_metrics w3)) w3, s))) as ->.
  { unfold Data, sbind, sess. cbn [fst snd]. rewrite Er, Hspf. unfold lift. cbn [fst snd]. by rewrite E. }
  cbn [fst snd]. assert (grows w w3) as Hg by (etrans; [exact Hg1|exact Hg3]).
  assert (∀ rcpt, rcpt ∉ user_Email <$> rows (users (w_db w)) → us !! rcpt = None) as Hnone.
  { intros rcpt Hn. destruct (us !! rcpt) as [u|] eqn:Eu; [|done]. apply Hus in Eu as (Hu & <- & _).
    destruct Hn. by apply list_elem_of_fmap_2. }
  split; [done|]. split; [done|]. split; [by destruct Hr3|]. split; [destruct Hg; by constructor|]. split_and!.
  - intros u b Hu Hr Hbx Hk. apply (Hl _ u b Hr); [by apply Hus|by rewrite (gr_mailboxes _ _ Hg1)|done].
  - intros rcpt l d b Hr Hn Hs Hd Hbx Hk.
    apply (Ho rcpt l d b Hr); [by apply Hnone|done|done|by rewrite (gr_mailboxes _ _ Hg1)|done].
  - intros Hnb. destruct Hb as [Hb1 Hb2].
    { intros rcpt Hr. unfold needs_bounce. destruct (us !! rcpt) as [u|] eqn:Eu; [done|].
      destruct (strings.SplitN2 rcpt "@") as [|l [|d [|]]] eqn:Es; try done. apply (Hnb rcpt l d Hr); [|done].
      intros (u & -> & Hu)%list_elem_of_fmap. assert (us !! user_Email u = Some u) as Hsome by (by apply Hus). congruence. }
    rewrite (view_ext _ w1); [done|exact Hb1|exact Hb2].
Qed.

(** C15.  What [Data] does when nothing goes wrong.  Assume that no statement and no
    file operation fails during the transaction, that the mailbox cache tells the
    truth and every mailbox has room for two more UIDs per recipient, that the SPF
    evaluator does not panic, and that the message was read whole, is within the size
    limit and shares its digest with no other stored content.  Then it is accepted,
    stored once under its digest, a copy is in the INBOX of every recipient with an
    account, and a pending delivery of the same content is queued for every
    recipient in another domain (if the mailbox OUTBOUND is there, which every start
    of the server sees to); nothing that was there is lost.  If no recipient
    needs a bounce the content reads back byte for byte.  When an insertion or the
    queue fails [Data] answers success all the same, so without the first condition
    the claim is false. *)
Theorem smtp_data_delivers `{MR : MapRange} `{S : Store} (digest : string → string) `{!StoreSpec S digest}
    (R : Resolver) (format_date : Z → string) (be : Backend) (data : string) (w : World) (s : Session) :
  ready (2 * Z.of_nat (length (s_recipients s))) w → spf_panics R s = false →
  slen data ≤ MaxMessageSize (be_cfg be) → (∀ d, view w (digest data) = Some d → d = data) →
  let out := Data R format_date be (data, None) (w, s) in
  let w' := out.2.1 in
  let emails := user_Email <$> rows (users (w_db w)) in
  out.1 = Accepted ∧ out.2.2 = s ∧ grows w w' ∧
  (∀ u b, u ∈ rows (users (w_db w)) → user_Email u ∈ s_recipients s → b ∈ rows (mailboxes (w_db w)) →
     mbox_key b = (user_ID u, "INBOX") → stored (mbox_ID b) (digest data) (slen data) (user_Email u) w') ∧
  (∀ rcpt l d b, rcpt ∈ s_recipients s → rcpt ∉ emails → strings.SplitN2 rcpt "@" = [l; d] →
     isLocalDomain be d = false → b ∈ rows (mailboxes (w_db w)) → mbox_key b = (0, "OUTBOUND") →
     outbound (digest data) (slen data) rcpt w') ∧
  ((∀ rcpt l d, rcpt ∈ s_recipients s → rcpt ∉ emails → strings.SplitN2 rcpt "@" = [l; d] → isLocalDomain be d = false) →
   (Get (digest data) w').1 = Ok data).
Proof.
  intros Hw Hspf Hsize Hcol.
  destruct (Data_delivers digest R format_date be data w s Hw Hspf Hsize Hcol) as (H1 & H2 & Hr & H3 & H4 & H5 & H6).
  split_and!; [exact H1|exact H2|exact H3|exact H4|exact H5|]. intros Hn.
  by rewrite (view_get (S := S) (digest data) _ data (rd_quiet _ _ Hr) (H6 Hn)).
Qed.

Lemma smtp_data_delivers_witness :
  let s := mkSession (Some demo_conn) "a@b.org" ["u@example.com"] false "" 0 in
  let out := Data (S := SQLiteStore toy_digest) no_dns (λ _, "") demo_backend ("Subject: hi", None) (demo_world, s) in
  out.1 = Accepted ∧ stored 1 (toy_digest "Subject: hi") 11 "u@example.com" out.2.1.
Proof.
  intros s out.
  destruct (smtp_data_delivers (S := SQLiteStore toy_digest) toy_digest no_dns (λ _, "") demo_backend "Subject: hi" demo_world s)
    as (H1 & _ & _ & H2 & _).
  - split; [apply demo_wf|done|intros key e He; by vm_compute in He|split; [done|]].
    intros m Hm. vm_compute in Hm. repeat (apply elem_of_cons in Hm as [->|Hm]; [done|]). by apply elem_of_nil in Hm.
  - vm_compute; reflexivity.
  - done.
  - intros d Hd. vm_compute in Hd. discriminate.
  - split; [exact H1|]. apply (H2 (mkUser 1 "u@example.com" "h" false 50 true) (mkMailbox 1 1 "INBOX")); vm_compute; try done; left.
Defined.
