(* ===== verification/MailFate.v ===== *)
(** What becomes of a queued message: delivered, or returned to its sender.  The
    worker loop of QueueLiveness is followed for one item of the queue, with the
    content it refers to, through the rounds of all others (src/pkg/queue/worker.go,
    src/pkg/queue/ndr.go). *)
From S2P Require Import Prelude Proc GoLib Cache Sql Schema World StoreUsers StoreMail StoreQueue Blob S3 Worker QueueLiveness SmtpDelivery.

(** * Contents that stay *)
(** What a worker needs of a store beyond the contract: content that is [held] can
    be read, and putting any content leaves it so.  A store that [counts] how often
    a content was put also keeps it when such a content is put and deleted again,
    as a local delivery does that fails; a store that shares equal contents
    without counting does not. *)
Class KeepingStore (S : Store) (digest : string → string) `{!StoreSpec S digest} := {
  counts : bool;
  held : string → string → World → Prop;
  held_view k d w : held k d w → view w k = Some d;
  held_ext k d w w' : blobs (w_db w') = blobs (w_db w) → w_files w' = w_files w → held k d w → held k d w';
  put_answers data w : w_faults w = [] →
    (Put (Ok data) w).1 = Ok (digest data, slen data) ∧ is_Some (view (Put (Ok data) w).2 (digest data));
  held_put data k d w : w_faults w = [] → held k d w → held k d (Put (Ok data) w).2;
  held_put_delete data k d w w2 : counts = true → w_faults w = [] → w_faults w2 = [] →
    same_blobs (Put (Ok data) w).2 w2 → held k d w → held k d (Delete (digest data) w2).2;
}.

Section sqlite.
Context (digest : string → string).

Definition count_of (k : string) (l : list BlobRow) : Z :=
  default 0 (blob_refcount <$> head (filter (λ b, blob_key b = k) l)).
Definition sqlite_refs (w : World) (k : string) : Z := count_of k (rows (blobs (w_db w))).

Lemma filter_bump k key n (l : list BlobRow) :
  filter (λ b, blob_key b = k) ((λ b, if decide (blob_key b = key) then bump n b else b) <$> l) =
  (λ b, if decide (k = key) then bump n b else b) <$> filter (λ b, blob_key b = k) l.
Proof.
  induction l as [|b l IH]; [done|]. rewrite fmap_cons, !filter_cons, IH.
  destruct (decide (blob_key b = key)) as [Ek|Ek]; cbn [bump blob_key]; destruct (decide (blob_key b = k)) as [E|E]; [|done| |done];
    rewrite fmap_cons; f_equal.
  - by rewrite decide_True by congruence.
  - by rewrite decide_False by congruence.
Qed.

Lemma lookup_blob_head k (l : list BlobRow) d : lookup_blob k l = Some d ↔ ∃ b l', filter (λ b, blob_key b = k) l = b :: l' ∧ blob_data b = d.
Proof. unfold lookup_blob. destruct (filter _ l) as [|b l']; cbn; naive_solver. Qed.

Lemma sqlite_put_answers data w :
  w_faults w = [] → let w' := (SQLiteStore_Put digest (Ok data) w) in
  w'.1 = Ok (digest data, slen data) ∧ is_Some (lookup_blob (digest data) (rows (blobs (w_db w'.2)))).
Proof.
  intros Hf. cbn zeta. rewrite sqlite_put_run by done. split; [done|].
  change (is_Some (lookup_blob (digest data) (rows (blobs (sql_upsert_blob (digest data) data (w_now w / second) (w_db w)).2)))).
  unfold sql_upsert_blob. case_decide as Hk; cbn [snd blobs set_blobs rows update_rows insert_row].
  - rewrite lookup_blob_bump. apply list_elem_of_fmap in Hk as (b & Eb & Hb). unfold lookup_blob.
    assert (b ∈ filter (λ b, blob_key b = digest data) (rows (blobs (w_db w)))) as Hin by by apply list_elem_of_filter.
    destruct (filter _ _); [by apply elem_of_nil in Hin|]. by eexists.
  - unfold lookup_blob. rewrite filter_app, filter_cons, filter_nil. cbn [blob_key]. rewrite decide_True by done.
    destruct (filter _ _); by eexists.
Qed.

Lemma sqlite_put_counts data w k d :
  w_faults w = [] → lookup_blob k (rows (blobs (w_db w))) = Some d →
  let w' := (SQLiteStore_Put digest (Ok data) w).2 in
  lookup_blob k (rows (blobs (w_db w'))) = Some d ∧
  sqlite_refs w' k = sqlite_refs w k + (if decide (k = digest data) then 1 else 0).
Proof.
  intros Hf Hv.
  cbn zeta. rewrite sqlite_put_run by done. cbn [snd].
  apply lookup_blob_head in Hv as (b & l' & E & Hd).
  change (lookup_blob k (rows (blobs (sql_upsert_blob (digest data) data (w_now w / second) (w_db w)).2)) = Some d ∧
    count_of k (rows (blobs (sql_upsert_blob (digest data) data (w_now w / second) (w_db w)).2)) =
    count_of k (rows (blobs (w_db w))) + (if decide (k = digest data) then 1 else 0)).
  unfold sql_upsert_blob. case_decide as Hk; cbn [snd blobs set_blobs rows update_rows insert_row]; unfold lookup_blob, count_of.
  - rewrite filter_bump, E. cbn. case_decide; cbn; (split; [by rewrite Hd|lia]).
  - rewrite filter_app, E. cbn [app head fmap option_fmap option_map default]. split; [by rewrite <- Hd|].
    rewrite decide_False; [lia|]. intros ->. apply Hk.
    assert (b ∈ filter (λ b, blob_key b = digest data) (rows (blobs (w_db w)))) as [<- Hb]%list_elem_of_filter by (rewrite E; left).
    by apply list_elem_of_fmap_2.
Qed.

Lemma sqlite_delete_counts key w k d :
  w_faults w = [] → lookup_blob k (rows (blobs (w_db w))) = Some d → (if decide (k = key) then 1 else 0) < sqlite_refs w k →
  let w' := (SQLiteStore_Delete key w).2 in
  lookup_blob k (rows (blobs (w_db w'))) = Some d ∧
  sqlite_refs w' k = sqlite_refs w k - (if decide (k = key) then 1 else 0).
Proof.
  intros Hf Hv Hr.
  cbn zeta. rewrite sqlite_delete_run by done. cbn [snd].
  apply lookup_blob_head in Hv as (b & l' & E & Hd).
  change ((if decide (k = key) then 1 else 0) < count_of k (rows (blobs (w_db w)))) in Hr.
  change (lookup_blob k (deleted_rows key (rows (blobs (w_db w)))) = Some d ∧
    count_of k (deleted_rows key (rows (blobs (w_db w)))) = count_of k (rows (blobs (w_db w))) - (if decide (k = key) then 1 else 0)).
  unfold deleted_rows, lookup_blob, count_of in *. rewrite list_filter_filter.
  assert (∀ l : list BlobRow, filter (λ x, blob_key x = k ∧ ¬ (blob_key x = key ∧ blob_refcount x ≤ 0)) l =
    filter (λ x, ¬ (blob_key x = key ∧ blob_refcount x ≤ 0)) (filter (λ x, blob_key x = k) l)) as Hsw.
  { intros l. rewrite list_filter_filter. apply list_filter_iff. tauto. }
  rewrite Hsw, filter_bump, E in *. cbn [fmap list_fmap head option_fmap option_map default] in *. rewrite filter_cons.
  assert (blob_key b = k) as Hbk.
  { assert (b ∈ filter (λ b, blob_key b = k) (rows (blobs (w_db w)))) as [Hk _]%list_elem_of_filter by (rewrite E; left). exact Hk. }
  revert Hr. destruct (decide (k = key)) as [Ek|Ek]; cbn; intros Hr.
  - rewrite decide_True by (cbn; intros [_ H]; lia). cbn. split; [by rewrite Hd|lia].
  - rewrite decide_True by (intros [H _]; congruence). cbn. split; [by rewrite Hd|lia].
Qed.

Definition sqlite_held (k d : string) (w : World) : Prop :=
  lookup_blob k (rows (blobs (w_db w))) = Some d ∧ 1 ≤ sqlite_refs w k.

#[export, refine] Instance SQLite_keeps : KeepingStore (SQLiteStore digest) digest := {
  counts := true; held := sqlite_held }.
Proof.
  - by intros k d w [Hv _].
  - intros k d w w' E _. unfold sqlite_held, sqlite_refs. by rewrite E.
  - exact sqlite_put_answers.
  - intros data k d w Hf [Hv Hn]. destruct (sqlite_put_counts data w k d Hf Hv) as [Hv' Hn']. split; [exact Hv'|].
    change (1 ≤ sqlite_refs (SQLiteStore_Put digest (Ok data) w).2 k). rewrite Hn'. case_decide; lia.
  - intros data k d w w2 _ Hf Hf2 [Eb _] [Hv Hn]. destruct (sqlite_put_counts data w k d Hf Hv) as [Hv' Hn'].
    change (blobs (w_db w2) = blobs (w_db (SQLiteStore_Put digest (Ok data) w).2)) in Eb.
    assert (sqlite_refs w2 k = sqlite_refs (SQLiteStore_Put digest (Ok data) w).2 k) as Er by (unfold sqlite_refs; by rewrite Eb).
    rewrite <- Eb in Hv'. destruct (sqlite_delete_counts (digest data) w2 k d Hf2 Hv') as [Hd Hd']; [case_decide; lia|].
    split; [exact Hd|]. change (1 ≤ sqlite_refs (SQLiteStore_Delete (digest data) w2).2 k). rewrite Hd'. case_decide; lia.
Defined.
End sqlite.

(** The filesystem store: a file that is not empty is never written again. *)
Section fs.
Context (digest : string → string) (root : string) (Hlen : ∀ x, slen (digest x) = 64).

Definition fs_held (k d : string) (w : World) : Prop := fs_view root w k = Some d ∧ d ≠ "".

Lemma fs_put_held data k d w : w_faults w = [] → fs_held k d w → fs_held k d (FSStore_Put digest root (Ok data) w).2.
Proof using Hlen.
  intros Hf [Hv Hd]. split; [|done]. rewrite fs_put_run by done. cbn [snd]. unfold fs_view in *.
  destruct (slen k <? 4) eqn:Hk; [done|]. assert (slen (digest data) <? 4 = false) as Hl by by rewrite Hlen.
  destruct (decide (k = digest data)) as [->|Hne].
  - rewrite Hv, (slen_pos d Hd). exact Hv.
  - assert (∀ m, m = <[blob_path root (digest data) := data]> (w_files w) → m !! blob_path root k = Some d) as Hins.
    { intros m ->. rewrite lookup_insert_ne; [done|]. intros E. by apply Hne, (blob_path_inj root). }
    destruct (w_files w !! blob_path root (digest data)) as [x|]; [destruct (0 <? slen x); [done|]|]; by apply Hins.
Qed.

Definition FS_keeps : KeepingStore (FSStore digest root) digest (StoreSpec0 := FSStore_spec digest root Hlen).
Proof.
  refine (Build_KeepingStore (FSStore digest root) digest (FSStore_spec digest root Hlen) false fs_held _ _ _ _ _).
  - by intros k d w [Hv _].
  - intros k d w w' _ Em. unfold fs_held, fs_view. by rewrite Em.
  - intros data w Hf. change (Put (Ok data) w) with (FSStore_Put digest root (Ok data) w). rewrite fs_put_run by done. split; [done|].
    cbn [snd]. unfold view, FSStore_spec, fs_view. rewrite Hlen. cbn [Z.ltb Z.compare Pos.compare Pos.compare_cont].
    destruct (w_files w !! blob_path root (digest data)) as [x|] eqn:E; [destruct (0 <? slen x)|]; cbn [set_files w_files];
      rewrite ?E, ?lookup_insert_eq; by eexists.
  - exact fs_put_held.
  - by intros.
Defined.
End fs.

(** The S3 store: an object that exists is never written again. *)
Section s3.
Context (digest : string → string) `{C : S3Client} `{!S3ClientSpec C} (bucket prefix : string).

Lemma s3_put_any data w :
  w_faults w = [] → let '(r, w') := S3Store_Put digest bucket prefix (Ok data) w in
  r = Ok (digest data, slen data) ∧ is_Some (s3_view bucket prefix w' (digest data)) ∧
  ∀ k d, s3_view bucket prefix w k = Some d → s3_view bucket prefix w' k = Some d.
Proof.
  intros Hf. unfold S3Store_Put, sha256Key, sbind at 1. rewrite s3_exists_run by done.
  case_bool_decide as Hx; [by split_and!|]. unfold sbind.
  destruct (put_object bucket (objectKey prefix (digest data)) data w Hf) as (w' & -> & Ho). cbn [sret]. split; [done|].
  unfold s3_view in *. split; [rewrite Ho, decide_True by done; by eexists|].
  intros k d Hk. rewrite Ho. rewrite decide_False; [done|]. intros [= E]. apply Hx. rewrite <- E. by eexists.
Qed.

#[export, refine] Instance S3_keeps : KeepingStore (S3Store digest bucket prefix) digest := {
  counts := false; held k d w := s3_view bucket prefix w k = Some d }.
Proof.
  - done.
  - intros k d w w' _ Em. unfold s3_view. by rewrite (objects_ext w' w Em).
  - intros data w Hf. pose proof (s3_put_any data w Hf) as H. change (Put (Ok data) w) with (S3Store_Put digest bucket prefix (Ok data) w).
    destruct (S3Store_Put _ _ _ _ w) as [r w']. by destruct H as (H1 & H2 & _).
  - intros data k d w Hf Hk. pose proof (s3_put_any data w Hf) as H. change (Put (Ok data) w) with (S3Store_Put digest bucket prefix (Ok data) w).
    destruct (S3Store_Put _ _ _ _ w) as [r w']. destruct H as (_ & _ & H). by apply H.
  - by intros.
Defined.
End s3.

(** * What the rounds of a worker keep *)
(** A user cache that agrees with the table. *)
Definition users_true (w : World) : Prop :=
  ∀ key e, entries (w_userCache w) !! key = Some e → val e ∈ rows (users (w_db w)) ∧ user_Email (val e) = key.

Definition fit (k : Z) (w : World) : Prop := ready k w ∧ users_true w.

Lemma fit_weaken k k' w : 0 ≤ k' ≤ k → fit k w → fit k' w.
Proof. intros Hk [H1 H2]. split; [by eapply ready_weaken|done]. Qed.

(** The same tables of users, mailboxes, domains and aliases. *)
Record same_accounts (w w' : World) : Prop := mk_same_accounts {
  sa_users : users (w_db w') = users (w_db w);
  sa_mailboxes : mailboxes (w_db w') = mailboxes (w_db w);
  sa_aliases : aliases (w_db w') = aliases (w_db w);
  sa_domains : domains (w_db w') = domains (w_db w);
}.
#[export] Instance same_accounts_preorder : PreOrder same_accounts.
Proof. split; [done|]. intros w1 w2 w3 [] []. constructor; congruence. Qed.

Section fate.
Context `{MR : MapRange} `{S : Store} (digest : string → string) `{!StoreSpec S digest} `{!KeepingStore S digest}.

Record kept (w w' : World) : Prop := mk_kept {
  kp_accounts : same_accounts w w';
  kp_messages m : m ∈ rows (messages (w_db w)) → m ∈ rows (messages (w_db w'));
  kp_held k d : held k d w → held k d w';
}.
#[export] Instance kept_preorder : PreOrder kept.
Proof.
  split; [by constructor|]. intros w1 w2 w3 [] []. constructor; [by etrans|auto|auto].
Qed.

Lemma held_same w w' k d : same_blobs w w' → held k d w → held k d w'.
Proof using. intros [Hb Hf]. by apply held_ext. Qed.

Lemma kept_same w w' :
  same_accounts w w' → same_blobs w w' → (∀ m, m ∈ rows (messages (w_db w)) → m ∈ rows (messages (w_db w'))) → kept w w'.
Proof using. intros Ha Hb Hm. constructor; [done|done|]. intros k d. by apply held_same. Qed.

(** ** The reads *)
Lemma GetUserByEmail_true e k w :
  fit k w → ∃ r c,
    GetUserByEmail e w = (r, set_userCache c w) ∧ fit k (set_userCache c w) ∧
    (∀ u, u ∈ rows (users (w_db w)) → user_Email u = e → r = Ok u) ∧
    (∀ u, r = Ok u → u ∈ rows (users (w_db w)) ∧ user_Email u = e).
Proof using.
  intros [[Hw Hf Hc Hr] Ht]. pose proof (GetUserByEmail_wf e w Hw) as Hw'. revert Hw'.
  unfold GetUserByEmail, sbind, userByEmailCache_Get.
  pose proof (Get_sub (w_userCache w) (w_now w) e) as Hsub. pose proof (Get_hit (w_userCache w) (w_now w) e) as Hhit.
  assert (unique user_Email (users (w_db w))) as Hu by apply Hw.
  assert (∀ c, wf (set_userCache c w) → users_true (set_userCache c w) → fit k (set_userCache c w)) as Hfit by (intros c H1 H2; by split).
  destruct (Cache.Get (w_userCache w) (w_now w) e) as [[u|] c]; cbn [fst snd sret] in *.
  - intros Hw'. destruct (Hhit u eq_refl) as (x & Hx & <- & _). destruct (Ht _ _ Hx) as [Hin He]. exists (Ok (val x)), c.
    split_and!; [done|apply Hfit; [done|]; intros key y Hy; apply (Ht key); by eapply lookup_weaken|..].
    + intros u Hu' Eu. f_equal. apply (unique_inj user_Email (users (w_db w))); [done..|]. by rewrite He.
    + by intros u [= <-].
  - rewrite query_run by done. cbn [w_db set_userCache].
    destruct (select (λ u, user_Email u = e) (users (w_db w))) as [|u l] eqn:E; cbn [query_row fst snd sret smodify]; intros Hw'.
    + exists (Err (wrap "storage: user not found: " (Sentinel ErrNotFound))), c.
      split_and!; [done|apply Hfit; [done|]; intros key y Hy; apply (Ht key); by eapply lookup_weaken| |done].
      intros u Hu' Eu. assert (u ∈ select (λ u, user_Email u = e) (users (w_db w))) as Hin by by apply elem_of_select.
      rewrite E in Hin. by apply elem_of_nil in Hin.
    + assert (u ∈ select (λ u, user_Email u = e) (users (w_db w))) as [Ee Hin]%elem_of_select by (rewrite E; left).
      eexists (Ok u), _. split_and!; [reflexivity|apply Hfit; [done|]|..].
      * intros key y Hy. cbn in Hy. destruct (decide (e = key)) as [<-|Hne].
        -- rewrite Set_lookup in Hy. by injection Hy as <-.
        -- apply Set_lookup_ne in Hy; [|done]. apply (Ht key). by eapply lookup_weaken.
      * intros u' Hu' Eu'. f_equal. apply (unique_inj user_Email (users (w_db w))); [done..|]. by rewrite Ee.
      * by intros u' [= <-].
Qed.

Lemma GetMailbox_fit u n k w :
  fit k w → ∃ r c,
    GetMailbox u n w = (r, set_mboxCache c w) ∧ fit k (set_mboxCache c w) ∧
    (∀ b, b ∈ rows (mailboxes (w_db w)) → mbox_key b = (u, n) → r = Ok b) ∧
    (∀ b, r = Ok b → b ∈ rows (mailboxes (w_db w)) ∧ mbox_key b = (u, n)).
Proof using. intros [Hr Ht]. destruct (GetMailbox_true u n k w Hr) as (r & c & E & H1 & H2 & H3). exists r, c. by split_and!. Qed.

Lemma GetAlias_run l d k w :
  fit k w → ∃ r, GetAlias l d w = (r, w) ∧
    match r with
    | Ok a => a ∈ rows (aliases (w_db w)) ∧ alias_Source a = l ∧ alias_Domain a = d
    | Err _ => ∀ a, a ∈ rows (aliases (w_db w)) → ¬ (alias_Source a = l ∧ alias_Domain a = d)
    end.
Proof using.
  intros [[_ Hf _ _] _]. unfold GetAlias, sbind. rewrite query_run by done.
  destruct (select _ (aliases (w_db w))) as [|a t] eqn:E; cbn [query_row sret].
  - eexists. split; [reflexivity|]. cbn. intros a Ha Hp.
    assert (a ∈ select (λ a, alias_Source a = l ∧ alias_Domain a = d) (aliases (w_db w))) as Hin by by apply elem_of_select.
    rewrite E in Hin. by apply elem_of_nil in Hin.
  - eexists. split; [reflexivity|]. cbn.
    assert (a ∈ select (λ a, alias_Source a = l ∧ alias_Domain a = d) (aliases (w_db w))) as [H1 H2]%elem_of_select by (rewrite E; left).
    done.
Qed.

Lemma InsertMessage_fit mb key z a b s f k w :
  0 ≤ k → fit (k + 1) w → mb ∈ mailbox_ids (w_db w) → ∃ id uid w',
    InsertMessage mb key z a b s f w = (Ok (id, uid), w') ∧ fit k w' ∧ kept w w' ∧ same_blobs w w' ∧
    (∀ m, m ∈ rows (messages (w_db w)) → msg_ID m ≠ id) ∧
    mkMessage id mb uid key z f (w_now w / second) a b s ∈ rows (messages (w_db w')).
Proof using.
  intros Hk [Hr Ht] Hmb. destruct (InsertMessage_ready mb key z a b s f k w Hk Hr Hmb) as (id & uid & w' & E & Hr' & Hg & Hb & Hin).
  exists id, uid, w'. split; [done|]. pose proof Hr as [Hw Hf _ [_ Hm]].
  destruct (InsertMessage_ok mb key z a b s f w Hw Hf Hmb) as (id' & uid' & E' & Hid & _).
  { intros m Hx _. specialize (Hm m Hx). destruct Hr as [_ _ _ [Hk' _]]. lia. }
  rewrite E in E'. injection E' as -> -> ->. split_and!; [by split|apply kept_same; [done|done|apply Hg]|done| |done].
  intros m Hx. specialize (Hid m Hx). lia.
Qed.

Lemma GetMessageByID_run i k w :
  fit k w → ∃ r, GetMessageByID i w = (r, w) ∧ ∀ m, m ∈ rows (messages (w_db w)) → msg_ID m = i → r = Ok m.
Proof using.
  intros [[Hw Hf _ _] _]. unfold GetMessageByID, sbind. rewrite query_run by done.
  assert (∀ m, m ∈ rows (messages (w_db w)) → msg_ID m = i →
    query_row (select (λ m, msg_ID m = i) (messages (w_db w))) = Ok m) as Hm.
  { intros m Hm Hi. rewrite (select_unique msg_ID _ _ m); [done|apply Hw|done|]. intros r. by rewrite Hi. }
  destruct (query_row _) as [m|e].
  - by exists (Ok m).
  - destruct e as [sn| | |]; try destruct sn; (eexists; split; [reflexivity|]; intros m H1 H2; by specialize (Hm m H1 H2)).
Qed.

Lemma Get_run i k w : fit k w → ∃ r, Get i w = (r, w) ∧ ∀ d, view w i = Some d → r = Ok d.
Proof using.
  intros [[Hw Hf _ _] _]. destruct (view w i) as [d|] eqn:E.
  - exists (Ok d). split; [by apply view_get|]. by intros d' [= ->].
  - destruct (view_none i w Hf E) as [_ E2]. destruct (Get i w) as [r w'] eqn:E'. cbn [snd] in E2. subst w'. by exists r.
Qed.

Lemma IsLocalDomain_run d k w :
  fit k w → IsLocalDomain d w = (Ok (bool_decide (strings.ToLower d ∈ domain_name <$> rows (domains (w_db w)))), w).
Proof using.
  intros [[Hw Hf _ _] _]. unfold IsLocalDomain, sbind. rewrite query_run by done.
  destruct (select _ (domains (w_db w))) as [|x l] eqn:E; cbn [query_row sret].
  - rewrite bool_decide_eq_false_2; [done|]. intros (x & Hx & Hin)%list_elem_of_fmap.
    assert (x ∈ select (λ x, domain_name x = strings.ToLower d) (domains (w_db w))) as H by by apply elem_of_select.
    rewrite E in H. by apply elem_of_nil in H.
  - rewrite bool_decide_eq_true_2; [done|].
    assert (x ∈ select (λ x, domain_name x = strings.ToLower d) (domains (w_db w))) as [<- H]%elem_of_select by (rewrite E; left).
    by apply list_elem_of_fmap_2.
Qed.

(** ** Blobs *)
Lemma Put_fit data k w :
  fit k w → ∃ w', Put (Ok data) w = (Ok (digest data, slen data), w') ∧ fit k w' ∧ kept w w' ∧
    is_Some (view w' (digest data)) ∧ messages (w_db w') = messages (w_db w).
Proof using KeepingStore0.
  intros [Hr Ht]. pose proof (rd_quiet _ _ Hr) as Hf. destruct (put_answers data w Hf) as [E Hs].
  pose proof (Put_ready digest (Ok data) k w Hr) as [Hr' Hg]. pose proof (Put_frame (Ok data) w) as Hfr.
  pose proof (λ x d, held_put data x d w Hf) as Hc.
  destruct (Put (Ok data) w) as [r w']. cbn [fst snd] in *. exists w'. subst r.
  destruct Hfr as (b & f & fs & ->). split_and!; [done|by split| |done|done]. by constructor.
Qed.

(** Deleting leaves the accounts and the messages. *)
Lemma Delete_fit key k w :
  fit k w → let w' := (Delete key w).2 in fit k w' ∧ same_accounts w w' ∧ messages (w_db w') = messages (w_db w).
Proof using StoreSpec0.
  intros [[Hw Hf Hc Hr] Ht]. cbn zeta. pose proof (Delete_store_wf key w Hw) as Hw'. pose proof (Delete_quiet key w Hf) as Hf'.
  destruct (Delete_frame key w) as (b & f & fs & E). rewrite E in *. split_and!; [split; [split; done|done]|done|done].
Qed.

(** ** The outcomes *)
(** Where local mail for [rcpt] goes: to the destination of its alias, or itself. *)
Definition routed (w : World) (rcpt dest : string) : Prop :=
  ∃ l d, strings.SplitN2 rcpt "@" = [l; d] ∧
  ((∃ a, a ∈ rows (aliases (w_db w)) ∧ alias_Source a = l ∧ alias_Domain a = d ∧ dest = alias_Destination a) ∨
   (∀ a, a ∈ rows (aliases (w_db w)) → ¬ (alias_Source a = l ∧ alias_Domain a = d)) ∧ dest = rcpt).

(** A message that was not there before, with the content [raw] for [rcpt], in the INBOX of the user it is routed to. *)
Definition local_copy (raw rcpt : string) (old w : World) : Prop :=
  ∃ dest u b m, routed w rcpt dest ∧ u ∈ rows (users (w_db w)) ∧ user_Email u = dest ∧
    b ∈ rows (mailboxes (w_db w)) ∧ mbox_key b = (user_ID u, "INBOX") ∧
    m ∈ rows (messages (w_db w)) ∧ m ∉ rows (messages (w_db old)) ∧ msg_MailboxID m = mbox_ID b ∧ msg_BlobKey m = digest raw ∧ msg_Size m = slen raw ∧
    msg_ToAddr m = rcpt ∧ is_Some (view w (digest raw)).

(** The bytes sent out for a stored message: signed when a key is configured. *)
Definition outgoing (net_ : Net) (cfg : Config) (raw : string) : string :=
  match dkim cfg with
  | Some s => match Signer_Sign net_ s raw with Ok signed => signed | Err _ => raw end
  | None => raw
  end.

Definition local_domain (d : string) (w : World) : Prop := strings.ToLower d ∈ domain_name <$> rows (domains (w_db w)).

(** Somebody else is in charge of the message from now on: the recipient's mailbox
    for a local domain, the relay when there is one, or a mail server of the domain. *)
Definition accepted (net_ : Net) (cfg : Config) (from rcpt raw : string) (old w : World) : Prop :=
  ∃ l d, strings.SplitN2 rcpt "@" = [l; d] ∧
  (local_domain d w ∧ local_copy raw rcpt old w ∨
   ¬ local_domain d w ∧ Relay_Host (relayCfg cfg) ≠ "" ∧
     deliverViaRelay net_ (outgoing net_ cfg raw) (relayCfg cfg) from rcpt = Returns None ∨
   ¬ local_domain d w ∧ Relay_Host (relayCfg cfg) = "" ∧
     ∃ mxes h, LookupMX net_ d = Ok mxes ∧ h ∈ mxes ∧ deliverToMX net_ h from rcpt (ipVersion cfg) = Returns None).

(** A new report of the failure to reach [rcpt] in the INBOX [b] of the sender [from]. *)
Definition returned (from rcpt : string) (b : Mailbox) (old w : World) : Prop :=
  ∃ reason date m, let ndr := GenerateNDR date from rcpt reason "" in
    m ∈ rows (messages (w_db w)) ∧ m ∉ rows (messages (w_db old)) ∧ msg_MailboxID m = mbox_ID b ∧ msg_BlobKey m = digest ndr ∧ msg_Size m = slen ndr ∧
    msg_ToAddr m = from ∧ msg_Subject m = "Mail delivery failed: " +:+ reason ∧ is_Some (view w (digest ndr)).

Definition local_outcome (raw rcpt : string) (k : Z) (w : World) (r : option error) (w' : World) : Prop :=
  kept w w' ∧ fit k w' ∧ match r with Some _ => fit (k + 1) w' | None => local_copy raw rcpt w w' end.

(** Every failure after [Put] cleans up, in a store that counts. *)
Lemma cleanup_fate raw rcpt e k w w2 :
  counts = true → 0 ≤ k → fit (k + 1) w → let w1 := (Put (Ok raw) w).2 in
  kept w w1 → messages (w_db w1) = messages (w_db w) →
  fit (k + 1) w2 → kept w1 w2 → same_blobs w1 w2 → messages (w_db w2) = messages (w_db w1) →
  let '(r, w') := exec (do* act (Blob.Delete (digest raw)) in Done (Some e)) w2 in
  ∃ o, r = Returns o ∧ local_outcome raw rcpt k w o w'.
Proof using KeepingStore0.
  intros Hc Hk Hw w1 K1 Em Hw2 K2 HB Em2. rewrite exec_act. unfold sbind. pose proof (Delete_fit (digest raw) _ w2 Hw2) as (H1 & H2 & H3).
  assert (∀ x d, held x d w → held x d (Blob.Delete (digest raw) w2).2) as Hheld.
  { intros x d. apply held_put_delete; [done|apply (rd_quiet _ _ (proj1 Hw))|apply (rd_quiet _ _ (proj1 Hw2))|exact HB]. }
  destruct (Blob.Delete (digest raw) w2) as [r' w3]. cbn [fst snd exec sret] in *. exists (Some e). split; [done|]. split; [|split; [|done]].
  - constructor; [etrans; [apply K1|]; etrans; [apply K2|done]| |exact Hheld]. intros m Hm. by rewrite H3, Em2, Em.
  - eapply fit_weaken; [|exact H1]. lia.
Qed.

Lemma deliverLocal_fate msg item raw k w :
  counts = true → 0 ≤ k → fit (k + 1) w →
  let '(r, w') := exec (deliverLocal msg item raw) w in ∃ o, r = Returns o ∧ local_outcome raw (qi_RcptTo item) k w o w'.
Proof using KeepingStore0.
  intros Hcounts Hk Hw. unfold deliverLocal. rewrite exec_act. unfold sbind.
  pose proof (λ w2 e, cleanup_fate raw (qi_RcptTo item) e k w w2 Hcounts Hk Hw) as Hclean.
  destruct (Put_fit raw _ w Hw) as (w1 & E & Hw1 & K1 & Hs & Em). rewrite E in *. cbn [snd] in Hclean. clear E.
  specialize (λ w2 e, Hclean w2 e K1 Em).
  destruct (strings.SplitN2 (qi_RcptTo item) "@") as [|l [|d [|? ?]]] eqn:Esplit; try by apply (Hclean w1 _ Hw1).
  destruct (GetAlias_run l d _ w1 Hw1) as (ra & Ea & Hra). rewrite exec_act. unfold sbind. rewrite Ea. clear Ea.
  set (dest := match ra with Ok a => alias_Destination a | Err _ => qi_RcptTo item end).
  assert (routed w1 (qi_RcptTo item) dest) as Hroute.
  { exists l, d. split; [done|]. unfold dest. destruct ra as [a|]; [left; exists a; by destruct Hra as (? & ? & ?)|by right]. }
  destruct (GetUserByEmail_true dest _ w1 Hw1) as (ru & cu & Eu & Hw2 & _ & Hu). rewrite exec_act. unfold sbind. rewrite Eu. clear Eu.
  destruct ru as [u|e]; [|apply (Hclean _ _ Hw2); [by apply kept_same|done..]]. destruct (Hu u eq_refl) as [Hu1 Hu2].
  destruct (GetMailbox_fit (user_ID u) "INBOX" _ _ Hw2) as (rb & cb & Eb & Hw3 & _ & Hb). rewrite exec_act. unfold sbind. rewrite Eb. clear Eb.
  destruct rb as [b|e]; [|apply (Hclean _ _ Hw3); [by apply kept_same|done..]]. destruct (Hb b eq_refl) as [Hb1 Hb2].
  set (w3 := set_mboxCache cb _) in *. cbn zeta. rewrite exec_act. unfold sbind.
  match goal with |- context [InsertMessage ?mb ?key ?z ?a ?t ?s ?f] =>
    destruct (InsertMessage_fit mb key z a t s f k w3 Hk Hw3) as (id & uid & w4 & E4 & Hw4 & K4 & B4 & Hfresh & Hin) end.
  { cbn. by apply list_elem_of_fmap_2. }
  rewrite E4. cbn [exec sret]. exists None. split; [done|].
  assert (kept w1 w3) as K3 by (by apply kept_same).
  split; [etrans; [exact K1|]; etrans; [exact K3|exact K4]|]. split; [done|].
  destruct K4 as [[U4 M4 A4 _] _ _]. exists dest, u, b, (mkMessage id (mbox_ID b) uid (digest raw) (slen raw) 0 (w_now w3 / second)
    (if String.eqb (msg_FromAddr msg) "" then "postmaster@local" else msg_FromAddr msg) (qi_RcptTo item) (msg_Subject msg)).
  rewrite U4, M4. split_and!; try done.
  - destruct Hroute as (l' & d' & H1 & H2). exists l', d'. split; [done|]. rewrite A4. exact H2.
  - change (messages (w_db w3)) with (messages (w_db w1)) in Hfresh. rewrite Em in Hfresh. intros Hx. by apply (Hfresh _ Hx).
  - destruct B4 as [Bb Bf]. rewrite (view_ext w4 w1) by done. done.
Qed.

(** ** Failing and bouncing *)
(** What a step keeps, with room for [k] more messages after it. *)
Definition moves (k : Z) (w w' : World) : Prop := fit k w' ∧ kept w w'.

Lemma moves_trans k k' w w1 w2 : moves k' w w1 → moves k w1 w2 → moves k w w2.
Proof using. intros [_ K1] [H2 K2]. split; [done|by etrans]. Qed.
Lemma moves_weaken k k' w w' : 0 ≤ k' ≤ k → moves k w w' → moves k' w w'.
Proof using. intros Hk [H1 H2]. split; [by eapply fit_weaken|done]. Qed.
Lemma moves_refl k w : fit k w → moves k w w.
Proof using. by split. Qed.

(** Steps on the queue and the counters. *)
Lemma queue_moves Q f k w :
  wf (set_db (set_queue Q (w_db w)) w) → fit k w → moves k w (set_queueMetrics f (set_db (set_queue Q (w_db w)) w)).
Proof using. intros Hw [[_ Hf Hc Hr] Ht]. split; [by split|by apply kept_same]. Qed.

Lemma metrics_moves f k w : fit k w → moves k w (set_queueMetrics f w).
Proof using. intros [[Hw Hf Hc Hr] Ht]. split; [by split|by apply kept_same]. Qed.

Lemma BounceMessage_fate net_ from rcpt reason k w :
  0 ≤ k → fit (k + 1) w → let '(o, w') := exec (BounceMessage net_ from rcpt reason "") w in
  (∃ r, o = Returns r) ∧ moves k w w' ∧
  ∀ u b, u ∈ rows (users (w_db w)) → user_Email u = from → b ∈ rows (mailboxes (w_db w)) →
    mbox_key b = (user_ID u, "INBOX") → returned from rcpt b w w'.
Proof using KeepingStore0.
  intros Hk Hw. unfold BounceMessage. rewrite exec_act. unfold sbind, time_now. cbn beta iota zeta.
  set (ndr := GenerateNDR _ _ _ _ _). destruct (Put_fit ndr _ w Hw) as (w1 & E & Hw1 & K1 & Hs & Em).
  rewrite exec_act. unfold sbind. rewrite E. clear E. pose proof (kp_accounts _ _ K1) as [Eu Eb _ _].
  destruct (GetUserByEmail_true from _ w1 Hw1) as (ru & cu & E & Hw2 & Hu & Hu'). rewrite exec_act. unfold sbind. rewrite E. clear E.
  rewrite Eu in Hu, Hu'.
  assert (∀ w2, fit (k + 1) w2 → kept w1 w2 → moves k w w2) as Hquit.
  { intros w2 H2 K2. split; [eapply fit_weaken; [|exact H2]; lia|by etrans]. }
  destruct ru as [u|e].
  2: { split; [by eexists|]. split; [apply Hquit; [done|by apply kept_same]|]. intros u b H1 H2. by specialize (Hu u H1 H2). }
  destruct (GetMailbox_fit (user_ID u) "INBOX" _ _ Hw2) as (rb & cb & E & Hw3 & Hb & Hb'). rewrite exec_act. unfold sbind. rewrite E. clear E.
  cbn [w_db set_userCache] in Hb, Hb'. rewrite Eb in Hb, Hb'.
  destruct rb as [b|e].
  2: { split; [by eexists|]. split; [apply Hquit; [done|by apply kept_same]|]. intros u' b H1 H2 H3 H4.
       specialize (Hu u' H1 H2). injection Hu as ->. by specialize (Hb b H3 H4). }
  set (w3 := set_mboxCache cb _) in *. rewrite exec_act. unfold sbind.
  match goal with |- context [InsertMessage ?mb ?key ?z ?a ?t ?s ?f] =>
    destruct (InsertMessage_fit mb key z a t s f k w3 Hk Hw3) as (id & uid & w4 & E4 & Hw4 & K4 & B4 & Hfresh & Hin) end.
  { change (mailbox_ids (w_db w3)) with (mailbox_ids (w_db w1)). unfold mailbox_ids. rewrite Eb. apply list_elem_of_fmap_2. by apply Hb'. }
  rewrite E4, exec_act. unfold sbind, queue_metrics, smodify. cbn [exec sret]. split; [by eexists|]. split.
  { eapply moves_trans; [|by apply metrics_moves]. split; [done|]. etrans; [exact K1|]. etrans; [|exact K4]. by apply kept_same. }
  intros u' b' H1 H2 H3 H4. specialize (Hu u' H1 H2). injection Hu as Eu'. subst u'. specialize (Hb b' H3 H4). injection Hb as Eb'. subst b'.
  exists reason, (format_date net_ (w_now w)). cbn zeta. fold ndr. eexists. split; [exact Hin|]. cbn.
  split_and!; try done; [|destruct B4 as [Bb Bf]; by rewrite (view_ext _ w1)].
  change (messages (w_db w3)) with (messages (w_db w1)) in Hfresh. rewrite Em in Hfresh. intros Hx. by apply (Hfresh _ Hx).
Qed.

Section round.
Context (net_ : Net) (cfg : Config) (Q : table QueueItem) (now D : Z) (item q : QueueItem).
Context (Hq : q ∈ rows Q) (Hid : qi_ID q = qi_ID item) (Ha : qi_AttemptCount q = qi_AttemptCount item).

Lemma fail_item_moves k w : calm Q now D w → fit k w → moves k w (exec (fail_item cfg item) w).2.
Proof using Hq Hid Ha.
  intros (Hw & Hf & HQ & Hn & HD) Hk. unfold fail_item, nextAttempt. cbn [exec pbind act marked]. unfold sbind, time_now, sret.
  set (t := (w_now w + _) / second). pose proof (Fail_wf (qi_ID item) t (maxRetries cfg) w Hw) as Hw'.
  rewrite (Fail_run (qi_ID item) t (maxRetries cfg) w q) in * by (try rewrite HQ; done).
  destruct (maxRetries cfg <=? qi_AttemptCount q); cbn [snd] in *; by apply (queue_moves _ (w_queueMetrics w)).
Qed.

Lemma fail_quietly_moves k w : calm Q now D w → fit k w → moves k w (exec (fail_quietly cfg item) w).2.
Proof using Hq Hid Ha.
  intros Hc Hk. pose proof (fail_item_moves k w Hc Hk). unfold fail_quietly. rewrite exec_bind. unfold sbind.
  by destruct (exec (fail_item cfg item) w) as [[r|] w'].
Qed.

Lemma delivered_run w :
  w_faults w = [] → ∃ Q' f, (exec (delivered item) w).2 = set_queueMetrics f (set_db (set_queue Q' (w_db w)) w).
Proof using.
  intros Hf. unfold delivered, queue_metrics, smodify, Complete. cbn [exec pbind act marked]. unfold sbind. rewrite stmt_ok_run by done.
  cbn [sql_delete_queue fst snd]. destruct (affected _ _ =? 0); by eexists _, _.
Qed.

Lemma delivered_fate k from rcpt raw old w :
  fit k w → moves k w (exec (delivered item) w).2 ∧
  (accepted net_ cfg from rcpt raw old w → accepted net_ cfg from rcpt raw old (exec (delivered item) w).2).
Proof using.
  intros Hk. assert (wf (exec (delivered item) w).2) as Hw.
  { assert (pres wf (exec (delivered item))) as Hp by (unfold delivered, queue_metrics; proc_walk). apply Hp, Hk. }
  destruct (delivered_run w (rd_quiet _ _ (proj1 Hk))) as (Q' & f & E). rewrite E in *.
  split; [by apply queue_moves|]. intros (l & d & Hs & H). exists l, d. split; [done|].
  destruct H as [[Hl (dest & u & b & m & H)]|H]; [left|by right]. split; [done|]. exists dest, u, b, m.
  by rewrite (view_ext _ w).
Qed.

Lemma returned_since from rcpt b w w1 w' : kept w w1 → returned from rcpt b w1 w' → returned from rcpt b w w'.
Proof using.
  intros K (reason & date & m & Hm & Hn & H). exists reason, date, m. split; [done|]. split; [|done].
  intros Hx. by apply Hn, (kp_messages _ _ K).
Qed.

(** A round that fails: the item is back in the queue, or its sender was told. *)
Lemma fail_or_bounce_fate msg reason k w :
  0 ≤ k → calm Q now D w → fit (k + 1) w → let '(_, w') := exec (fail_or_bounce net_ cfg msg item reason) w in
  moves k w w' ∧
  (calm (put_back (qi_ID item) ((now + retry_delay (qi_AttemptCount item)) / second) Q) now D w' ∨
   ∀ u b, u ∈ rows (users (w_db w)) → user_Email u = msg_FromAddr msg → b ∈ rows (mailboxes (w_db w)) →
     mbox_key b = (user_ID u, "INBOX") → returned (msg_FromAddr msg) (qi_RcptTo item) b w w').
Proof using Hq Hid Ha KeepingStore0.
  intros Hk Hc Hw. pose proof (fail_item_run cfg Q now D item q Hq Hid Ha w Hc) as Hr. pose proof (fail_item_moves _ w Hc Hw) as Hm.
  unfold fail_or_bounce. rewrite exec_bind. unfold sbind. cbn zeta in Hr. destruct (exec (fail_item cfg item) w) as [r w1]. cbn [fst snd] in *.
  destruct (maxRetries cfg <=? qi_AttemptCount item); destruct Hr as [-> Hc']; cbn [after].
  - cbn [errors_is]. rewrite bool_decide_eq_true_2 by done. rewrite exec_bind. unfold sbind.
    pose proof (BounceMessage_fate net_ (msg_FromAddr msg) (qi_RcptTo item) reason k w1 Hk (proj1 Hm)) as Hb.
    destruct (exec (BounceMessage _ _ _ _ _) w1) as [r' w2]. destruct Hb as ([x ->] & H1 & H2). cbn. split; [by eapply moves_trans|right].
    destruct Hm as [_ K1]. destruct (kp_accounts _ _ K1) as [Eu Eb _ _]. rewrite Eu, Eb in H2.
    intros u b ????. eapply returned_since; [exact K1|]. by eapply H2.
  - split; [|by left]. eapply moves_weaken; [|done]. lia.
Qed.

Lemma try_mxes_none mxes from rcpt last w :
  (exec (try_mxes net_ cfg mxes from rcpt last) w).1 = Returns None →
  (∃ h, h ∈ mxes ∧ deliverToMX net_ h from rcpt (ipVersion cfg) = Returns None) ∨ mxes = [] ∧ last = None.
Proof using.
  revert last. induction mxes as [|h mxes IH]; intros last; cbn [try_mxes]; [intros [= ->]; by right|].
  destruct (deliverToMX net_ h from rcpt (ipVersion cfg)) as [[e|]|] eqn:E; cbn [await pbind exec sret]; [| |done].
  - intros [(h' & Hh & H)|[_ ?]]%IH; [left; exists h'; by split; [right|]|done].
  - intros _. left. exists h. by split; [left|].
Qed.

(** What the item's round comes to, if it returns. *)
Definition fate (msg : Message) (raw : string) (b : Mailbox) (w w' : World) : Prop :=
  accepted net_ cfg (msg_FromAddr msg) (qi_RcptTo item) raw w w' ∨
  calm (put_back (qi_ID item) ((now + retry_delay (qi_AttemptCount item)) / second) Q) now D w' ∨
  returned (msg_FromAddr msg) (qi_RcptTo item) b w w'.

Definition well_fated (k : Z) (w : World) (o : returning unit) (w' : World) : Prop :=
  o = Returns tt →
  moves k w w' ∧
  ∀ msg raw l d u b, msg ∈ rows (messages (w_db w)) → msg_ID msg = qi_MessageID item → held (msg_BlobKey msg) raw w →
    strings.SplitN2 (qi_RcptTo item) "@" = [l; d] → u ∈ rows (users (w_db w)) → user_Email u = msg_FromAddr msg →
    b ∈ rows (mailboxes (w_db w)) → mbox_key b = (user_ID u, "INBOX") → fate msg raw b w w'.

(** The message and the content that were read for the item. *)
Definition read_for (msg : Message) (raw : string) (w : World) : Prop :=
  ∀ m r, m ∈ rows (messages (w_db w)) → msg_ID m = qi_MessageID item → held (msg_BlobKey m) r w → msg = m ∧ raw = r.

Lemma fail_or_bounce_well msg raw reason k w w1 :
  0 ≤ k → read_for msg raw w → moves (k + 1) w w1 → calm Q now D w1 →
  let '(o, w') := exec (fail_or_bounce net_ cfg msg item reason) w1 in well_fated k w o w'.
Proof using Hq Hid Ha KeepingStore0.
  intros Hk Hread [H1 K1] Hc1. pose proof (fail_or_bounce_fate msg reason k w1 Hk Hc1 H1) as Hb.
  destruct (exec (fail_or_bounce _ _ _ _ _) w1) as [o w']. destruct Hb as [Hm Hb]. intros _. split; [by eapply moves_trans|].
  destruct (kp_accounts _ _ K1) as [Eu Eb _ _]. rewrite Eu, Eb in Hb.
  intros m raw' l' d' u b Hi1 Hi2 Hi3 _ Hu1 Hu2 Hb1 Hb2. destruct (Hread m raw' Hi1 Hi2 Hi3) as [<- _]. right.
  destruct Hb as [Hb|Hb]; [by left|right]. eapply returned_since; [exact K1|]. by eapply Hb.
Qed.

Lemma delivered_well msg raw k w w1 :
  read_for msg raw w → moves k w w1 → accepted net_ cfg (msg_FromAddr msg) (qi_RcptTo item) raw w w1 →
  let '(o, w') := exec (delivered item) w1 in well_fated k w o w'.
Proof using.
  intros Hread [H1 K1] Hacc. destruct (delivered_fate k (msg_FromAddr msg) (qi_RcptTo item) raw w w1 H1) as [Hm Ha'].
  destruct (exec (delivered item) w1) as [o w']. intros _. split; [by eapply moves_trans|].
  intros m raw' l' d' u b Hi1 Hi2 Hi3 _ _ _ _ _. destruct (Hread m raw' Hi1 Hi2 Hi3) as [<- <-]. left. by apply Ha'.
Qed.

(** The recipient is not local: a round of the item deletes no content. *)
Definition remote (it : QueueItem) (w : World) : Prop :=
  ∀ l d, strings.SplitN2 (qi_RcptTo it) "@" = [l; d] → ¬ local_domain d w.

Lemma deliverItem_fate k w :
  counts = true ∨ remote item w → 0 ≤ k → calm Q now D w → fit (k + 1) w →
  let '(o, w') := exec (deliverItem net_ cfg item) w in well_fated k w o w'.
Proof using Hq Hid Ha KeepingStore0.
  intros Hsafe Hk Hc Hw. unfold deliverItem.
  (* the ways out *)
  assert ((∀ msg raw l d, msg ∈ rows (messages (w_db w)) → msg_ID msg = qi_MessageID item →
             held (msg_BlobKey msg) raw w → strings.SplitN2 (qi_RcptTo item) "@" = [l; d] → False) →
          let '(o, w') := exec (fail_quietly cfg item) w in well_fated k w o w') as Hquiet.
  { intros Hno. pose proof (fail_quietly_moves _ w Hc Hw) as Hm. destruct (exec (fail_quietly cfg item) w). intros _.
    split; [|naive_solver]. eapply moves_weaken; [|done]. lia. }
  destruct (GetMessageByID_run (qi_MessageID item) _ w Hw) as (rm & E & Hmsg). rewrite exec_act. unfold sbind. rewrite E. clear E.
  destruct rm as [msg|e]; [|apply Hquiet; intros m ? ? ? H1 H2 _ _; by specialize (Hmsg m H1 H2)].
  destruct (Get_run (msg_BlobKey msg) _ w Hw) as (rr & E & Hraw). rewrite exec_act. unfold sbind. rewrite E. clear E.
  assert (∀ m raw, m ∈ rows (messages (w_db w)) → msg_ID m = qi_MessageID item → held (msg_BlobKey m) raw w → msg = m ∧ rr = Ok raw) as Hread.
  { intros m raw H1 H2 H3%held_view. specialize (Hmsg m H1 H2). injection Hmsg as ->. auto. }
  clear Hmsg Hraw. destruct rr as [raw|e]; [|apply Hquiet; intros m raw ? ? H1 H2 H3 _; by destruct (Hread m raw H1 H2 H3)].
  destruct (strings.SplitN2 (qi_RcptTo item) "@") as [|l [|d [|? ?]]] eqn:Esplit; try (apply Hquiet; naive_solver).
  assert (read_for msg raw w) as Hr by (intros m r H1 H2 H3; destruct (Hread m r H1 H2 H3) as [? [= ?]]; done).
  pose proof (λ w1 reason, fail_or_bounce_well msg raw reason k w w1 Hk Hr) as Hbounce.
  pose proof (λ w1, delivered_well msg raw k w w1 Hr) as Hdone.
  assert (moves k w w) as Hsame by (apply moves_refl; eapply fit_weaken; [|done]; lia).
  rewrite exec_act. unfold sbind. rewrite (IsLocalDomain_run d _ w Hw). case_bool_decide as Hlocal.
  - assert (counts = true) as Hcounts by (destruct Hsafe as [?|Hn]; [done|by destruct (Hn l d Esplit)]).
    pose proof (deliverLocal_fate msg item raw k w Hcounts Hk Hw) as Hl. pose proof (calm_deliverLocal digest Q now D msg item raw w Hc) as Hcl.
    rewrite exec_bind. unfold sbind. destruct (exec (deliverLocal msg item raw) w) as [o w1]. destruct Hl as (r & -> & K1 & H1 & Hl). cbn [after].
    destruct r as [e|]; [by apply Hbounce|].
    apply Hdone; [done|]. exists l, d. split; [done|]. left. split; [|done]. unfold local_domain.
    destruct (kp_accounts _ _ K1) as [_ _ _ Ed]. by rewrite Ed.
  - destruct (negb _) eqn:Er.
    + apply negb_true_iff, String.eqb_neq in Er. destruct (deliverViaRelay _ _ _ _ _) as [[e|]|] eqn:E; [by apply Hbounce| |done].
      apply Hdone; [done|]. exists l, d. split; [done|]. right; left. done.
    + apply negb_false_iff, String.eqb_eq in Er. destruct (LookupMX net_ d) as [[|mx mxes]|] eqn:E; [by apply Hbounce| |by apply Hbounce].
      rewrite exec_bind. unfold sbind. pose proof (try_mxes_none (mx :: mxes) (msg_FromAddr msg) (qi_RcptTo item) None w) as Ht.
      pose proof (try_mxes_pure net_ cfg (mx :: mxes) (msg_FromAddr msg) (qi_RcptTo item) None w) as Hp.
      destruct (exec (try_mxes _ _ _ _ _ _) w) as [[[e|]|] w1]; cbn [fst snd] in *; subst w1; [by apply Hbounce| |done].
      apply Hdone; [done|]. exists l, d. split; [done|].
      right; right. split_and!; [done..|]. destruct (Ht eq_refl) as [(h & Hh & Et)|[? _]]; [|done]. by exists (mx :: mxes), h.
Qed.
End round.

(** * A tick *)
Notation qrows w := (rows (queue (w_db w))).

(** The same delivery, whatever was tried since. *)
Definition same_mail (q q' : QueueItem) : Prop :=
  qi_ID q' = qi_ID q ∧ qi_MessageID q' = qi_MessageID q ∧ qi_RcptTo q' = qi_RcptTo q.

(** The mail of an item: its message [m] with the content [raw], a recipient that
    can be read, and the INBOX [b] of a local sender. *)
Record mail_of (q : QueueItem) (m : Message) (raw : string) (b : Mailbox) (w : World) : Prop := mk_mail_of {
  mo_message : m ∈ rows (messages (w_db w)) ∧ msg_ID m = qi_MessageID q;
  mo_content : held (msg_BlobKey m) raw w;
  mo_rcpt : ∃ l d, strings.SplitN2 (qi_RcptTo q) "@" = [l; d];
  mo_sender : ∃ u, u ∈ rows (users (w_db w)) ∧ user_Email u = msg_FromAddr m ∧
    b ∈ rows (mailboxes (w_db w)) ∧ mbox_key b = (user_ID u, "INBOX");
}.

Lemma mail_of_kept q q' m raw b w w' : kept w w' → same_mail q q' → mail_of q m raw b w → mail_of q' m raw b w'.
Proof using.
  intros [[Eu Eb _ _] Km Kh] (_ & E2 & E3) [[H1 H2] H3 H4 H5]. constructor; rewrite ?E2, ?E3, ?Eu, ?Eb; auto.
Qed.

Definition outlived (net_ : Net) (cfg : Config) (w w' : World) : Prop :=
  ∀ q m raw b, q ∈ qrows w → pending q → mail_of q m raw b w →
    (∃ q', q' ∈ qrows w' ∧ same_mail q q' ∧ pending q') ∨
    (∀ x, x ∈ qrows w' → qi_ID x ≠ qi_ID q) ∧
      (accepted net_ cfg (msg_FromAddr m) (qi_RcptTo q) raw w w' ∨ returned (msg_FromAddr m) (qi_RcptTo q) b w w').

(** Contents are safe from the worker: the store counts, or nobody in the queue is
    local. *)
Definition safe (w : World) : Prop := counts = true ∨ ∀ x, x ∈ qrows w → pending x → remote x w.

Lemma safe_kept w w' :
  kept w w' → (∀ x', x' ∈ qrows w' → pending x' → ∃ x, x ∈ qrows w ∧ pending x ∧ same_mail x x') → safe w → safe w'.
Proof using.
  intros K Hq [Hc|Hn]; [by left|right]. intros x' Hx' Hp'. destruct (Hq x' Hx' Hp') as (x & Hx & Hp & _ & _ & E).
  specialize (Hn x Hx Hp). unfold remote, local_domain in *. destruct (kp_accounts _ _ K) as [_ _ _ Ed]. by rewrite E, Ed.
Qed.

(** A round on the claimed item [q0], if it returns: the others stay, its own mail
    has its fate. *)
Lemma round_fate net_ cfg t k q0 w :
  let w1 := set_db (claimed q0 (w_db w)) (set_now t w) in
  0 ≤ k → fit (k + 1) w → safe w → wf w1 → q0 ∈ qrows w → pending q0 →
  let '(o, w') := exec (deliverItem net_ cfg q0) w1 in o = Returns tt → moves k w w' ∧ safe w' ∧ outlived net_ cfg w w'.
Proof using KeepingStore0.
  intros w1 Hk [[Hw Hf Hc Hr] Ht] Hsafe Hw1 Hq0 Hp0. set (Q := queue (w_db w1)). set (D := MessagesDelivered (w_queueMetrics w)).
  assert (with_status "active" q0 ∈ rows Q) as Hq1.
  { apply elem_of_update. exists q0. split; [done|]. by rewrite decide_True. }
  assert (calm Q t D w1) as Hcalm by done. assert (fit (k + 1) w1) as Hfit1 by (by split).
  assert (counts = true ∨ remote q0 w1) as Hs1 by (destruct Hsafe as [?|Hn]; [by left|right; exact (Hn q0 Hq0 Hp0)]).
  pose proof (deliverItem_settles digest net_ cfg Q t D q0 (with_status "active" q0) Hq1 eq_refl eq_refl w1 Hcalm) as Hv.
  pose proof (deliverItem_fate net_ cfg Q t D q0 (with_status "active" q0) Hq1 eq_refl eq_refl k w1 Hs1 Hk Hcalm Hfit1) as Hfate.
  destruct (exec (deliverItem net_ cfg q0) w1) as [o w']. cbn [fst snd] in Hv. intros ->. destruct (Hfate eq_refl) as [Hm Hft]. clear Hfate.
  assert (kept w w1) as K1 by (by apply kept_same). assert (kept w w') as K by (etrans; [exact K1|apply Hm]).
  assert (∀ tm, queue (w_db w') = put_back (qi_ID q0) tm Q → qrows w' = retried (qi_ID q0) tm <$> qrows w) as Hback.
  { intros tm E. rewrite E. unfold Q, w1, claimed. cbn [set_db w_db set_now]. db_cbn. by rewrite claim_put_back. }
  assert (queue (w_db w') = without (qi_ID q0) Q → ∀ x, x ∈ qrows w' ↔ x ∈ qrows w ∧ qi_ID x ≠ qi_ID q0) as Hgone.
  { intros E x. rewrite E. unfold Q, w1, claimed. cbn [set_db w_db set_now]. db_cbn. rewrite claim_without, list_elem_of_filter. tauto. }
  assert (queue (w_db w') = without (qi_ID q0) Q ∨ ∃ tm, queue (w_db w') = put_back (qi_ID q0) tm Q) as HQ.
  { destruct Hv as [(_ & _ & E & _)|[(_ & _ & _ & E & _)|(_ & _ & _ & E & _)]]; eauto. }
  assert (∀ tm q, q ∈ qrows w → pending q → same_mail q (retried (qi_ID q0) tm q) ∧ pending (retried (qi_ID q0) tm q)) as Hretry.
  { intros tm q Hq Hp. unfold retried. by case_decide. }
  assert (∀ q, q ∈ qrows w → qi_ID q = qi_ID q0 → q = q0) as Hinj.
  { intros q Hq E. apply (unique_inj qi_ID (queue (w_db w))); [apply Hw|done..]. }
  split; [split; [apply Hm|exact K]|]. split.
  - apply (safe_kept w); [exact K| |exact Hsafe]. intros x' Hx' Hp'. destruct HQ as [E|[tm E]].
    + apply (Hgone E) in Hx' as [Hx' _]. by exists x'.
    + rewrite (Hback tm E) in Hx'. apply list_elem_of_fmap in Hx' as (x & -> & Hx). exists x. split; [done|].
      assert (pending x) as Hpx; [|split; [done|by apply Hretry]]. unfold retried in Hp'. case_decide as Eid; [|done]. by rewrite (Hinj x Hx Eid).
  - intros q m raw b Hq Hp Hmail.
    assert (∀ tm, queue (w_db w') = put_back (qi_ID q0) tm Q → ∃ q', q' ∈ qrows w' ∧ same_mail q q' ∧ pending q') as Hq'.
    { intros tm E. rewrite (Hback tm E). exists (retried (qi_ID q0) tm q). split; [by apply list_elem_of_fmap_2|by apply Hretry]. }
    destruct HQ as [E|[tm E]]; [specialize (Hgone E)|left; by eapply Hq'].
    destruct (decide (qi_ID q = qi_ID q0)) as [Eid|Hne]; [|left; exists q; rewrite Hgone; by split_and!].
    rewrite (Hinj q Hq Eid) in *. apply (mail_of_kept q0 q0 m raw b w w1 K1) in Hmail; [|done].
    destruct Hmail as [[H1 H2] H3 (l & d & H4) (u & H5 & H6 & H7 & H8)].
    destruct (Hft m raw l d u b H1 H2 H3 H4 H5 H6 H7 H8) as [Ha|[(_ & _ & E' & _)|Hret]]; [|left; by eapply Hq'|].
    all: right; split; [intros x [_ Hx]%Hgone; done|by auto].
Qed.

Lemma tick_fate net_ cfg t w :
  let max := maxRetries cfg in
  fit (load max (qrows w)) w → safe w →
  let '(o, w') := exec (deliverNext net_ cfg) (set_now t w) in
  o = Returns tt → (fit (load max (qrows w')) w' ∧ safe w') ∧ kept w w' ∧ outlived net_ cfg w w'.
Proof using KeepingStore0.
  intros max Hfit Hsafe. pose proof Hfit as [[Hw Hf Hc Hr] Ht].
  pose proof (tick_progress digest cfg net_ t w Hw Hf) as Hprog. fold max in Hprog.
  assert (wf (set_now t w)) as Hw0 by exact Hw. pose proof (ClaimNext_wf _ Hw0) as Hw1. revert Hprog.
  unfold deliverNext. rewrite exec_act. unfold sbind. rewrite ClaimNext_run in * by done.
  cbn [w_now w_db set_now] in *. pose proof (sql_next_due_spec (t / second) (w_db w)) as Hs.
  destruct (sql_next_due (t / second) (w_db w)) as [q0|e].
  2: { cbn [sret exec]. intros _ _. split; [|split; [by apply kept_same|]]; [by split; [split; [split|]|]|].
       intros q m raw b Hq Hp _. left. by exists q. }
  destruct Hs as (Hq0 & Hd0 & _). cbn [snd] in Hw1.
  pose proof (round_fate net_ cfg t (load max (qrows w) - 1) q0 w) as Hround. cbn zeta in Hround.
  pose proof (λ w', load_nonneg max (qrows w')) as Hpos.
  destruct (exec (deliverItem _ _ _) _) as [o w']. specialize (Hpos w'). intros Hprog ->.
  destruct Hprog as (_ & _ & _ & [[Hn _]|Hlt]); [by destruct (Hn q0 Hq0)|].
  destruct Hround as ([Hm K] & Hs' & Ho); [lia|by rewrite Z.sub_add|done|done|done|apply Hd0|done|].
  split_and!; [eapply fit_weaken; [|exact Hm]; lia|done|done|done].
Qed.

(** * Every tick *)
Context (cfg : Config) (tick : nat → Z) (nets : nat → Net).
Notation state n w := (worker cfg tick nets n w).
Notation world n w := (state n w).2.
Notation running n w := ((state n w).1 = Returns tt).

Lemma run_fate n w q m raw b :
  fit (load (maxRetries cfg) (qrows w)) w → safe w → q ∈ qrows w → pending q → mail_of q m raw b w → running n w →
  ((fit (load (maxRetries cfg) (qrows (world n w))) (world n w) ∧ safe (world n w)) ∧ kept w (world n w)) ∧
  ((∃ q', q' ∈ qrows (world n w) ∧ same_mail q q' ∧ pending q') ∨
   ∃ i, (i < n)%nat ∧ (∃ q', q' ∈ qrows (world i w) ∧ same_mail q q') ∧
     let w' := world (Datatypes.S i) w in
     (∀ x, x ∈ qrows w' → qi_ID x ≠ qi_ID q) ∧
     (accepted (nets i) cfg (msg_FromAddr m) (qi_RcptTo q) raw (world i w) w' ∨
      returned (msg_FromAddr m) (qi_RcptTo q) b (world i w) w')).
Proof using KeepingStore0.
  intros Hfit Hsafe Hq Hp Hmail. induction n as [|n IH]; intros Hr.
  { split; [done|]. left. by exists q. }
  destruct (running_or_hung cfg tick nets n w) as [Hn|Hn].
  2: { pose proof (hung_forever cfg tick nets 1 n w Hn) as E. rewrite Nat.add_1_r in E. rewrite E in Hr. by rewrite Hn in Hr. }
  destruct (IH Hn) as [[[Hfn Hsn] Kn] IH']. clear IH.
  pose proof (tick_fate (nets n) cfg (tick n) (world n w) Hfn Hsn) as Ht. rewrite <- state_next in Ht by done.
  assert (∃ w', state (Datatypes.S n) w = (Returns tt, w')) as [w' E].
  { destruct (state (Datatypes.S n) w) as [o w']. cbn in Hr. subst o. by exists w'. }
  rewrite E in Ht |- *. destruct (Ht eq_refl) as (Hn' & Kn' & Ho). cbn [snd].
  split; [split; [done|by etrans]|]. destruct IH' as [(q' & Hq' & Hs & Hp')|(i & Hi & H)]; [|right; exists i; split; [lia|done]].
  destruct (Ho q' m raw b Hq' Hp') as [(q2 & H1 & (H2 & H3 & H4) & H5)|[H1 H2]]; [by eapply mail_of_kept| |].
  - destruct Hs as (S1 & S2 & S3). left. exists q2. split_and!; [done| |done]. split_and!; congruence.
  - right. exists n. split; [lia|]. split; [by exists q'|]. cbn zeta. rewrite E. cbn [snd]. destruct Hs as (S1 & S2 & S3).
    rewrite <- S1, <- S3. done.
Qed.
End fate.

(** C3.  No letter of a local sender vanishes, under these conditions: nothing fails
    in the database and the store, the caches agree with the tables and every
    mailbox has room for a report about each attempt still allowed ([fit]); the store
    is the one that counts references (SQLite), or no recipient in the queue is
    local ([safe]; a failed local delivery makes the other stores forget the
    content); and nobody else writes meanwhile.  Take a pending item
    whose message is there with its content, whose recipient address can be read
    and whose sender has an INBOX here.  Whatever DNS and the servers do and
    whatever else is in the queue, a worker whose ticker fires either gets stuck for
    ever with a server that stopped answering, or reaches a tick at which the item leaves
    the queue, and then either somebody has accepted it (a new message with that very
    content is in the INBOX of the local recipient, its alias followed, or the relay or
    a mail server of the domain answered every step with success), or a new report
    that names the recipient is in the sender's INBOX. *)
Theorem no_mail_vanishes `{MR : MapRange} `{S : Store} (digest : string → string) `{!StoreSpec S digest} `{!KeepingStore S digest}
    (cfg : Config) (tick : nat → Z) (nets : nat → Net) (w : World) (q : QueueItem) (m : Message) (raw : string) (b : Mailbox) :
  fit (load (maxRetries cfg) (rows (queue (w_db w)))) w → safe digest w → 0 < interval cfg →
  (∀ n, tick 0%nat + Z.of_nat n * interval cfg ≤ tick n) →
  q ∈ rows (queue (w_db w)) → pending q → mail_of digest q m raw b w →
  (∃ n x, blocked_at cfg tick nets n x w) ∨
  ∃ n, let before := (worker cfg tick nets n w).2 in let after := (worker cfg tick nets (Datatypes.S n) w).2 in
    (∃ q', q' ∈ rows (queue (w_db before)) ∧ same_mail q q') ∧
    (∀ x, x ∈ rows (queue (w_db after)) → qi_ID x ≠ qi_ID q) ∧
    (accepted digest (nets n) cfg (msg_FromAddr m) (qi_RcptTo q) raw before after ∨
     returned digest (msg_FromAddr m) (qi_RcptTo q) b before after).
Proof.
  intros Hfit Hsafe Hi Ht Hq Hp Hmail. pose proof Hfit as [[Hw Hf _ _] _].
  destruct (worker_reaches digest cfg tick nets Hi Ht 0 w Hw Hf eq_refl) as [[n Hn]|(n & _ & Hr & Hn)]; [left; by eapply (hung_blocked digest)|right].
  destruct (run_fate digest cfg tick nets n w q m raw b Hfit Hsafe Hq Hp Hmail Hr) as [_ [(q' & Hq' & _ & Hp')|(i & _ & H1 & H2)]].
  - by destruct (Hn q' Hq').
  - by exists i.
Qed.

(** A letter of the user of [demo_world] to an unreachable domain, and its file. *)
Definition letter : Message := mkMessage 1 1 1 (toy_digest "Subject: hi") 11 0 100 "u@example.com" "far@else.org" "hi".
Definition letter_item : QueueItem := mkQueueItem 1 1 "far@else.org" 900 0 "pending".
Definition posted : DB := set_queue (mkTable [letter_item] 1) (set_messages (mkTable [letter] 1) demo_db).
Definition posted_world : World :=
  set_files {[blob_path "/b" (toy_digest "Subject: hi") := "Subject: hi"]} (set_db posted demo_world).

Lemma posted_fit : fit 31 posted_world.
Proof.
  split; [split; [|done|intros key e He; by vm_compute in He|split; [done|]]|intros key e He; by vm_compute in He].
  - pose proof demo_wf as [H _]. destruct H. apply wf_cold; [done|]. constructor; cbn; try done; repeat split;
      try (apply (bool_decide_unpack _); vm_compute; exact I); repeat constructor; cbn; try tauto; lia.
  - intros m Hm. vm_compute in Hm. repeat (apply elem_of_cons in Hm as [->|Hm]; [done|]). by apply elem_of_nil in Hm.
Qed.

(** With the filesystem store and a network on which nothing can be reached. *)
Lemma no_mail_vanishes_witness :
  let run := worker (S := FSStore toy_digest "/b") demo_config (λ n, Z.of_nat n * second) (λ _, dead_net) in
  ∃ n, let before := (run n posted_world).2 in let after := (run (Datatypes.S n) posted_world).2 in
    (∃ q', q' ∈ rows (queue (w_db before)) ∧ same_mail letter_item q') ∧
    (∀ x, x ∈ rows (queue (w_db after)) → qi_ID x ≠ 1) ∧
    (accepted (StoreSpec0 := FSStore_spec toy_digest "/b" toy_digest_len) toy_digest dead_net demo_config "u@example.com" "far@else.org" "Subject: hi" before after ∨
     returned (StoreSpec0 := FSStore_spec toy_digest "/b" toy_digest_len) toy_digest "u@example.com" "far@else.org" (mkMailbox 1 1 "INBOX") before after).
Proof.
  intros run.
  destruct (no_mail_vanishes (S := FSStore toy_digest "/b") (StoreSpec0 := FSStore_spec toy_digest "/b" toy_digest_len)
    (KeepingStore0 := FS_keeps toy_digest "/b" toy_digest_len) toy_digest demo_config (λ n, Z.of_nat n * second) (λ _, dead_net)
    posted_world letter_item letter "Subject: hi" (mkMailbox 1 1 "INBOX")) as [(n & x & _ & Hb & _)|H].
  - eapply (fit_weaken 31); [|exact posted_fit]. split; vm_compute; discriminate.
  - right. intros x Hx _ l d E Hd. apply elem_of_nil in Hd. done.
  - done.
  - intros n. cbn [interval demo_config]. lia.
  - left.
  - done.
  - constructor.
    + split; [left|done].
    + split; [vm_compute; reflexivity|done].
    + exists "far", "else.org". vm_compute; reflexivity.
    + exists (mkUser 1 "u@example.com" "h" false 50 true). split_and!; [left|done|left|done].
  - by destruct (Hb dead_net_responsive).
  - exact H.
Defined.
