(* ===== verification/Greylist.v ===== *)
(** Greylisting ([checkGreylist] of src/pkg/smtp/session.go over the table of
    src/pkg/storage/greylist.go): what a client that retries sees. *)
From S2P Require Import Prelude GoLib Spf Cache Sql Schema World StoreUsers StoreMail Auth Blob Smtp.

(** The answer of the check: [None] lets the recipient through. *)
Definition passes (r : option reply) : bool := match r with None => true | Some _ => false end.
Definition greylisted : option reply := Some (SMTPError 451 "Greylisted, try again later").

Section greylist.
Context (be : Backend) (conn : Conn) (ip : net.IP) (from to : string).

Definition delay : Z := seconds (GreylistingDelay (be_cfg be)).

(** The row of the triple, if there is one. *)
Definition gl_row (w : World) : option GreylistRow := head (select (λ g, gl_key g = (net.String_ ip, from, to)) (greylist (w_db w))).

Definition attempt_row (first now : Z) (passed : Z) : GreylistRow := mkGreylistRow (net.String_ ip) from to first now passed.

Hypothesis (Hip : conn_ip conn = Some ip) (Hne : net.String_ ip ≠ "").

Lemma IsWhitelisted_run w :
  w_faults w = [] →
  IsWhitelisted (net.String_ ip) from to w = (Ok (match gl_row w with Some g => gl_passed g =? 1 | None => false end), w).
Proof.
  intros Hf. unfold IsWhitelisted, sbind. rewrite query_run by done. unfold gl_row.
  by destruct (select _ _).
Qed.

Lemma RecordAttempt_run w :
  w_faults w = [] → ∃ w',
    RecordAttempt (net.String_ ip) from to w = (Ok tt, w') ∧ w_faults w' = [] ∧ w_now w' = w_now w ∧
    gl_row w' = Some (match gl_row w with
                      | Some g => attempt_row (gl_first_seen g) (w_now w / second) (gl_passed g)
                      | None => attempt_row (w_now w / second) (w_now w / second) 0
                      end).
Proof.
  intros Hf. unfold RecordAttempt, sbind, time_now_unix. rewrite stmt_ok_run by done. unfold sql_upsert_greylist.
  destruct (decide (_ ∈ _)) as [Hin|Hout]; eexists; (split; [reflexivity|]); (split; [done|]); (split; [done|]);
    unfold gl_row; cbn -[select update_rows insert_row].
  - rewrite select_update by done. destruct (select _ (greylist (w_db w))) as [|g l] eqn:E.
    { exfalso. apply list_elem_of_fmap in Hin as (g & Hk & Hg).
      assert (g ∈ select (λ g, gl_key g = (net.String_ ip, from, to)) (greylist (w_db w))) as Hs by by apply elem_of_select.
      rewrite E in Hs. by apply elem_of_nil in Hs. }
    cbn. assert (g ∈ select (λ g, gl_key g = (net.String_ ip, from, to)) (greylist (w_db w))) as [Hk _]%elem_of_select by (rewrite E; left).
    unfold gl_key in Hk. injection Hk as -> -> ->. done.
  - rewrite select_insert. rewrite decide_True by done.
    destruct (select _ (greylist (w_db w))) as [|g l] eqn:E; [done|].
    assert (g ∈ select (λ g, gl_key g = (net.String_ ip, from, to)) (greylist (w_db w))) as [Hk Hg]%elem_of_select by (rewrite E; left).
    destruct Hout. rewrite <- Hk. by apply list_elem_of_fmap_2.
Qed.

Lemma first_seen_run w g :
  w_faults w = [] → gl_row w = Some g → query (sql_first_seen (net.String_ ip) from to) w = (Ok (gl_first_seen g), w).
Proof.
  intros Hf Hg. rewrite query_run by done. unfold sql_first_seen, gl_row in *.
  destruct (select _ _) as [|g' l]; [done|]. by injection Hg as ->.
Qed.

Lemma MarkPassed_run w first now p :
  w_faults w = [] → gl_row w = Some (attempt_row first now p) → ∃ w',
    MarkPassed (net.String_ ip) from to w = (Ok tt, w') ∧ w_faults w' = [] ∧ w_now w' = w_now w ∧
    gl_row w' = Some (attempt_row first now 1).
Proof.
  intros Hf Hg. unfold MarkPassed. rewrite stmt_ok_run by done. unfold sql_mark_passed.
  eexists. split; [reflexivity|]. split; [done|]. split; [done|]. unfold gl_row in *. cbn -[select update_rows].
  rewrite select_update by done.
  destruct (select _ _) as [|g' l]; [done|]. by injection Hg as ->.
Qed.

(** One attempt, when nothing fails. *)
Lemma checkGreylist_run w :
  w_faults w = [] →
  let now := w_now w / second in
  let out := checkGreylist be conn from to w in
  w_faults out.2 = [] ∧ w_now out.2 = w_now w ∧
  match gl_row w with
  | Some g =>
      if gl_passed g =? 1 then out = (None, w)
      else let ok := delay <=? now - gl_first_seen g in
           out.1 = (if ok then None else greylisted) ∧
           gl_row out.2 = Some (attempt_row (gl_first_seen g) now (if ok then 1 else gl_passed g))
  | None =>
      let ok := delay <=? 0 in
      out.1 = (if ok then None else greylisted) ∧ gl_row out.2 = Some (attempt_row now now (if ok then 1 else 0))
  end.
Proof using Hip Hne.
  intros Hf. destruct (checkGreylist be conn from to w) as [r w'] eqn:E. cbn [fst snd]. revert E.
  unfold checkGreylist. rewrite Hip. destruct (String.eqb_spec (net.String_ ip) ""); [done|].
  unfold sbind at 1. rewrite IsWhitelisted_run by done.
  destruct (RecordAttempt_run w Hf) as (w1 & E1 & Hf1 & Hn1 & Hg1).
  assert (∀ g, gl_row w1 = Some g → (let! r := RecordAttempt (net.String_ ip) from to in
      match r with
      | Ok _ => let! r0 := query (sql_first_seen (net.String_ ip) from to) in
          match r0 with
          | Ok firstSeen => let! now := time_now_unix in
              if now - firstSeen <? seconds (GreylistingDelay (be_cfg be)) then sret greylisted
              else let! _ := MarkPassed (net.String_ ip) from to in sret None
          | Err _ => sret None
          end
      | Err _ => sret None
      end) w = (r, w') →
      let ok := delay <=? w_now w / second - gl_first_seen g in
      w_faults w' = [] ∧ w_now w' = w_now w ∧ r = (if ok then None else greylisted) ∧
      (∀ first now p, g = attempt_row first now p → gl_row w' = Some (attempt_row first now (if ok then 1 else p)))) as Hmain.
  { intros g Hg. unfold sbind at 1. rewrite E1. unfold sbind at 1. rewrite (first_seen_run w1 g) by done.
    unfold sbind at 1, time_now_unix. rewrite Hn1. fold delay.
    rewrite Z.ltb_antisym. destruct (delay <=? _); cbn [negb].
    - destruct (MarkPassed_run w1 (gl_first_seen g) (gl_last_seen g) (gl_passed g) Hf1) as (w2 & E2 & Hf2 & Hn2 & Hg2);
        [|unfold sbind; rewrite E2; intros [= <- <-]; split_and!; [done|by rewrite Hn2|done|by intros ??? ->]].
      rewrite Hg1 in Hg. destruct (gl_row w); injection Hg as <-; by rewrite Hg1.
    - intros [= <- <-]. split_and!; [done..|]. by intros ??? ->. }
  unfold delay in *. destruct (gl_row w) as [g|].
  - destruct (gl_passed g =? 1); [by intros [= <- <-]|]. intros E. destruct (Hmain _ Hg1 E) as (H1 & H2 & H3 & H4).
    split_and!; [done..|]. by apply H4.
  - intros E. destruct (Hmain _ Hg1 E) as (H1 & H2 & H3 & H4). cbn [attempt_row gl_first_seen] in *. rewrite Z.sub_diag in *.
    split_and!; [done..|]. by apply H4.
Qed.
End greylist.

(** Greylisting: when nothing fails, the first attempt of a triple of client,
    sender and recipient is refused with 451; a retry [d] nanoseconds later is let
    through exactly when the configured delay (in seconds) has passed since the
    first attempt; and once it was let through, every later attempt is. *)
Theorem greylist_retry (be : Backend) (conn : Conn) (ip : net.IP) (from to : string) (w : World) (d d' : Z) :
  conn_ip conn = Some ip → net.String_ ip ≠ "" → w_faults w = [] → gl_row ip from to w = None → 0 < delay be →
  let check := checkGreylist be conn from to in
  let w1 := (check w).2 in
  let w2 := set_now (w_now w + d) w1 in
  let w3 := set_now (w_now w + d') (check w2).2 in
  (check w).1 = greylisted ∧
  ((check w2).1 = None ↔ delay be ≤ (w_now w + d) / second - w_now w / second) ∧
  ((check w2).1 = None ∨ (check w2).1 = greylisted) ∧
  ((check w2).1 = None → check w3 = (None, w3)).
Proof.
  intros Hip Hne Hf Hn Hd. cbn zeta.
  destruct (checkGreylist_run be conn ip from to Hip Hne w Hf) as (F1 & N1 & H1). rewrite Hn in H1.
  destruct (Z.leb_spec (delay be) 0); [lia|]. destruct H1 as [R1 G1].
  set (w1 := (checkGreylist be conn from to w).2) in *. set (w2 := set_now (w_now w + d) w1).
  destruct (checkGreylist_run be conn ip from to Hip Hne w2 F1) as (F2 & N2 & H2).
  change (gl_row ip from to w2) with (gl_row ip from to w1) in H2. rewrite G1 in H2. cbn [attempt_row gl_passed gl_first_seen] in H2.
  change (0 =? 1) with false in H2. cbv iota zeta in H2. change (w_now w2) with (w_now w + d) in H2.
  destruct H2 as [R2 G2]. rewrite R2.
  destruct (Z.leb_spec (delay be) ((w_now w + d) / second - w_now w / second)).
  - split_and!; [done|split; [intros _; lia|done]|by left|]. intros _.
    set (w3 := set_now _ _). destruct (checkGreylist_run be conn ip from to Hip Hne w3 F2) as (_ & _ & H3).
    change (gl_row ip from to w3) with (gl_row ip from to (checkGreylist be conn from to w2).2) in H3.
    rewrite G2 in H3. exact H3.
  - split_and!; [done|split; [done|lia]|by right|done].
Qed.

Lemma greylist_retry_witness :
  let check := checkGreylist demo_backend demo_conn "a@b.org" "u@example.com" in
  let w1 := (check demo_world).2 in
  (check demo_world).1 = greylisted ∧
  (check (set_now (w_now demo_world + 299 * second) w1)).1 = greylisted ∧
  (check (set_now (w_now demo_world + 300 * second) w1)).1 = None.
Proof.
  intros check w1.
  assert (∀ d, ((check (set_now (w_now demo_world + d) w1)).1 = None ↔ delay demo_backend ≤ (w_now demo_world + d) / second - w_now demo_world / second)) as H.
  { intros d. eapply (greylist_retry demo_backend demo_conn [192; 0; 2; 1] "a@b.org" "u@example.com" demo_world d d); done. }
  split; [vm_compute; reflexivity|]. split; [vm_compute; reflexivity|]. apply H. vm_compute. discriminate.
Defined.
