(* ===== verification/Notifier.v ===== *)
(** The IMAP change notifier (src/pkg/imap/notifier.go) and IDLE
    (src/pkg/imap/mailbox.go), the client that waits on it.  Channels are
    numbered in the order they are made; [closed] holds those that were closed. *)
From S2P Require Import Prelude.

Record MailboxNotifier := mkNotifier { subs : gmap Z (list nat); next_chan : nat; closed : gset nat }.

Definition NewMailboxNotifier : MailboxNotifier := mkNotifier ∅ 0 ∅.

Definition subscribers (n : MailboxNotifier) (mailboxID : Z) : list nat := default [] (subs n !! mailboxID).

Definition Subscribe (mailboxID : Z) (n : MailboxNotifier) : nat * MailboxNotifier :=
  let ch := next_chan n in
  (ch, mkNotifier (<[mailboxID := subscribers n mailboxID ++ [ch]]> (subs n)) (S ch) (closed n)).

Fixpoint remove_first (ch : nat) (l : list nat) : list nat :=
  match l with
  | [] => []
  | c :: l => if Nat.eqb c ch then l else c :: remove_first ch l
  end.

Definition Unsubscribe (mailboxID : Z) (ch : nat) (n : MailboxNotifier) : MailboxNotifier :=
  let l := subscribers n mailboxID in
  if decide (ch ∈ l) then mkNotifier (<[mailboxID := remove_first ch l]> (subs n)) (next_chan n) (closed n) else n.

(** [close(ch)] for each subscriber; [None] is the panic of closing twice. *)
Fixpoint close_all (l : list nat) (closed : gset nat) : option (gset nat) :=
  match l with
  | [] => Some closed
  | ch :: l => if decide (ch ∈ closed) then None else close_all l ({[ch]} ∪ closed)
  end.

Definition Notify (mailboxID : Z) (n : MailboxNotifier) : option MailboxNotifier :=
  match close_all (subscribers n mailboxID) (closed n) with
  | None => None
  | Some c => Some (mkNotifier (<[mailboxID := []]> (subs n)) (next_chan n) c)
  end.

(** [Mailbox.Idle]: subscribe, wait for the channel or for the client's DONE,
    unsubscribe on return.  The calls in flight are kept with the mailbox and the
    channel they wait on; [announced] counts what was sent to the server. *)
Record Idling := mkIdling { idle_mailbox : Z; idle_ch : nat }.

Record IdleState := mkIdleState { notifier : MailboxNotifier; idling : list Idling; announced : nat }.

Definition Idle_begin (mailboxID : Z) (s : IdleState) : IdleState :=
  let '(ch, n) := Subscribe mailboxID (notifier s) in
  mkIdleState n (idling s ++ [mkIdling mailboxID ch]) (announced s).

(** The deferred call when the select has chosen a case. *)
Definition Idle_return (i : nat) (changed : bool) (s : IdleState) : IdleState :=
  match idling s !! i with
  | None => s
  | Some c => mkIdleState (Unsubscribe (idle_mailbox c) (idle_ch c) (notifier s)) (delete i (idling s))
                (if changed then S (announced s) else announced s)
  end.

(** Calls of any number of connections, interleaved; the mutex of the notifier
    makes each one step.  [panicked] is the process after [close] of a closed
    channel. *)
Inductive idle_step : IdleState → option IdleState → Prop :=
  | step_begin mb s : idle_step s (Some (Idle_begin mb s))
  | step_change i c s : idling s !! i = Some c → idle_ch c ∈ closed (notifier s) →
      idle_step s (Some (Idle_return i true s))
  | step_done i c s : idling s !! i = Some c → idle_step s (Some (Idle_return i false s))
  | step_notify mb s n : Notify mb (notifier s) = Some n →
      idle_step s (Some (mkIdleState n (idling s) (announced s)))
  | step_panic mb s : Notify mb (notifier s) = None → idle_step s None.

Inductive idle_reachable : option IdleState → Prop :=
  | idle_init : idle_reachable (Some (mkIdleState NewMailboxNotifier [] 0))
  | idle_next s s' : idle_reachable (Some s) → idle_step s s' → idle_reachable s'.

(** The channels of the calls that wait for a change of the mailbox, less those
    that were closed already. *)
Definition waiting (mb : Z) (closed : gset nat) (l : list Idling) : list nat :=
  idle_ch <$> filter (λ c, idle_mailbox c = mb ∧ idle_ch c ∉ closed) l.

(** * Lemmas *)
Lemma close_all_ok l k : NoDup l → (∀ ch, ch ∈ l → ch ∉ k) → close_all l k = Some (list_to_set l ∪ k).
Proof.
  revert k. induction l as [|ch l IH]; intros k Hn Hk; simpl; [f_equal; set_solver|].
  apply NoDup_cons in Hn as [Hc Hn]. rewrite decide_False by (apply Hk; left).
  rewrite IH; [f_equal; set_solver|done|]. intros c Hin. specialize (Hk c). set_solver.
Qed.

Lemma elem_of_waiting mb k l ch :
  ch ∈ waiting mb k l ↔ ∃ c, c ∈ l ∧ idle_mailbox c = mb ∧ idle_ch c = ch ∧ ch ∉ k.
Proof. unfold waiting. rewrite list_elem_of_fmap. setoid_rewrite list_elem_of_filter. naive_solver. Qed.

Lemma waiting_NoDup mb k l : NoDup (idle_ch <$> l) → NoDup (waiting mb k l).
Proof. intros Hn. eapply sublist_NoDup; [exact Hn|]. apply fmap_sublist, sublist_filter. Qed.

Lemma remove_first_not ch l : ch ∉ l → remove_first ch l = l.
Proof.
  induction l as [|x l IH]; [done|]. intros [H1 H2]%not_elem_of_cons. simpl.
  rewrite (proj2 (Nat.eqb_neq x ch)) by done. by rewrite IH.
Qed.

Lemma waiting_delete mb k l i c :
  NoDup (idle_ch <$> l) → l !! i = Some c →
  waiting mb k (delete i l) =
  if decide (idle_mailbox c = mb) then remove_first (idle_ch c) (waiting mb k l) else waiting mb k l.
Proof.
  revert i. induction l as [|x l IH]; intros [|i] Hn Hc; try done; apply NoDup_cons in Hn as [Hx Hn].
  - injection Hc as ->. unfold waiting. simpl. rewrite filter_cons.
    assert (idle_ch c ∉ waiting mb k l) as Hnot by (intros (y & Hy & _ & E & _)%elem_of_waiting; apply Hx; rewrite <- E; by apply list_elem_of_fmap_2).
    destruct (decide (idle_mailbox c = mb)) as [E|E]; case_decide as D; try (by destruct D).
    + simpl. by rewrite Nat.eqb_refl.
    + by rewrite remove_first_not.
    + done.
  - simpl in *. specialize (IH i Hn Hc). unfold waiting in *. rewrite !filter_cons.
    assert (idle_ch x ≠ idle_ch c) as Hne by (intros E; apply Hx; rewrite E; apply list_elem_of_fmap_2; by eapply list_elem_of_lookup_2).
    destruct (decide (idle_mailbox x = mb ∧ idle_ch x ∉ k)); [|exact IH]. rewrite !fmap_cons, IH. destruct (decide (idle_mailbox c = mb)); [|done]. simpl.
    by rewrite (proj2 (Nat.eqb_neq _ _)).
Qed.

Lemma subscribers_insert n mb l k c mb' :
  subscribers (mkNotifier (<[mb := l]> (subs n)) k c) mb' = if decide (mb = mb') then l else subscribers n mb'.
Proof. unfold subscribers. cbn. case_decide; subst; by rewrite ?lookup_insert_eq, ?lookup_insert_ne. Qed.

(** * The invariant *)
Record idle_inv (s : IdleState) : Prop := {
  inv_distinct : NoDup (idle_ch <$> idling s);
  inv_fresh : ∀ ch, ch ∈ idle_ch <$> idling s → (ch < next_chan (notifier s))%nat;
  inv_closed : ∀ ch, ch ∈ closed (notifier s) → (ch < next_chan (notifier s))%nat;
  inv_subs : ∀ mb, subscribers (notifier s) mb = waiting mb (closed (notifier s)) (idling s) }.

Lemma Notify_inv mb s : idle_inv s →
  Notify mb (notifier s) = Some (mkNotifier (<[mb := []]> (subs (notifier s))) (next_chan (notifier s))
    (list_to_set (waiting mb (closed (notifier s)) (idling s)) ∪ closed (notifier s))).
Proof.
  intros [Hd _ _ Hs]. unfold Notify. rewrite Hs, close_all_ok; [done|by apply waiting_NoDup|].
  by intros ch (c & _ & _ & _ & Hn)%elem_of_waiting.
Qed.

Lemma begin_inv mb s : idle_inv s → idle_inv (Idle_begin mb s).
Proof.
  intros [Hd Hf Hc Hs]. unfold Idle_begin, Subscribe.
  constructor; cbn [notifier idling next_chan closed].
  - rewrite fmap_app. apply NoDup_app. split_and!; [done| |apply NoDup_singleton].
    intros x Hx%Hf ->%list_elem_of_singleton. simpl in Hx. lia.
  - intros ch. rewrite fmap_app, elem_of_app. intros [H%Hf|H]; [lia|]. cbn in H. apply list_elem_of_singleton in H as ->. lia.
  - intros ch H%Hc. lia.
  - intros mb'. rewrite subscribers_insert, !Hs. unfold waiting. rewrite filter_app, fmap_app, filter_cons, filter_nil. cbn.
    assert (next_chan (notifier s) ∉ closed (notifier s)) as Hn by (intros H%Hc; lia).
    case_decide as E.
    + subst. by rewrite decide_True.
    + rewrite decide_False by (intros [? _]; done). cbn. by rewrite app_nil_r.
Qed.

Lemma return_inv i b s : idle_inv s → idle_inv (Idle_return i b s).
Proof.
  intros [Hd Hf Hc Hs]. unfold Idle_return. destruct (idling s !! i) as [c|] eqn:Ei; [|done].
  assert (sublist (idle_ch <$> delete i (idling s)) (idle_ch <$> idling s)) as Hsub
    by apply fmap_sublist, sublist_delete.
  assert (∀ f, closed (Unsubscribe (idle_mailbox c) f (notifier s)) = closed (notifier s) ∧
               next_chan (Unsubscribe (idle_mailbox c) f (notifier s)) = next_chan (notifier s)) as Hu
    by (intros f; unfold Unsubscribe; by case_decide).
  constructor; cbn [notifier idling]; rewrite ?(proj1 (Hu _)), ?(proj2 (Hu _)).
  - by eapply sublist_NoDup.
  - intros ch Hch. apply Hf. by eapply elem_of_sublist.
  - done.
  - intros mb. rewrite (waiting_delete _ _ _ _ c) by done. unfold Unsubscribe.
    destruct (decide (idle_ch c ∈ _)) as [Hin|Hin].
    + rewrite subscribers_insert, !Hs. case_decide; [by subst|done].
    + rewrite Hs in *. case_decide; [|done]. subst. by rewrite remove_first_not.
Qed.

Lemma notify_inv mb s n : idle_inv s → Notify mb (notifier s) = Some n → idle_inv (mkIdleState n (idling s) (announced s)).
Proof.
  intros H. rewrite (Notify_inv mb s H). intros [= <-]. destruct H as [Hd Hf Hc Hs].
  constructor; cbn [notifier idling next_chan closed]; try done.
  - intros ch [Hch|Hch]%elem_of_union; [|auto]. apply elem_of_list_to_set, elem_of_waiting in Hch as (c & Hin & _ & <- & _).
    apply Hf. by apply list_elem_of_fmap_2.
  - intros mb'. rewrite subscribers_insert, Hs. case_decide as E.
    + subst. symmetry. unfold waiting at 1. destruct (filter _ (idling s)) as [|c l] eqn:El; [done|]. exfalso.
      assert (c ∈ c :: l) as Hin by left. rewrite <- El in Hin. apply list_elem_of_filter in Hin as [[E Hn] Hin]. apply Hn.
      destruct (decide (idle_ch c ∈ closed (notifier s))); [set_solver|]. apply elem_of_union_l, elem_of_list_to_set, elem_of_waiting. eauto.
    + unfold waiting. f_equal. apply filter_ext_in. intros c Hin. split; [|set_solver]. intros [Em Hn]. split; [exact Em|].
      intros [Hw|Hw]%elem_of_union; [|done]. apply elem_of_list_to_set, elem_of_waiting in Hw as (c' & Hin' & E' & Ec & _).
      apply list_elem_of_lookup in Hin as [i Hi]. apply list_elem_of_lookup in Hin' as [j Hj].
      assert (i = j) as <- by (eapply (NoDup_lookup (idle_ch <$> idling s)); [done|..]; rewrite list_lookup_fmap, ?Hi, ?Hj; simpl; by f_equal).
      congruence.
Qed.

Lemma reachable_inv o : idle_reachable o → ∃ s, o = Some s ∧ idle_inv s.
Proof.
  induction 1 as [|s o _ (s0 & [= <-] & IH) Hs].
  - eexists. split; [done|]. constructor; cbn; [constructor|set_solver|set_solver|done].
  - destruct Hs as [mb s|i c s Hi Hc|i c s Hi|mb s n En|mb s En]; [..|by rewrite Notify_inv in En].
    all: eexists; split; [done|].
    all: eauto using begin_inv, return_inv, notify_inv.
Qed.

(** * Properties *)

(** C34.  However IDLE commands, their ends and notifications of any mailboxes
    interleave: no channel is closed twice (the process does not panic); the
    subscriber lists hold exactly the channels of the calls still waiting, so
    that no subscription leaks; and a notification wakes every call that waits
    on its mailbox and no call that waits on another one. *)
Theorem idle_wakeups (o : option IdleState) :
  idle_reachable o →
  ∃ s, o = Some s ∧
    (∀ mb, subscribers (notifier s) mb = waiting mb (closed (notifier s)) (idling s)) ∧
    ∀ mb, ∃ n, Notify mb (notifier s) = Some n ∧ subscribers n mb = [] ∧
      ∀ i c, idling s !! i = Some c →
        (idle_mailbox c = mb → idle_step (mkIdleState n (idling s) (announced s))
                                 (Some (Idle_return i true (mkIdleState n (idling s) (announced s))))) ∧
        (idle_mailbox c ≠ mb → idle_ch c ∈ closed n ↔ idle_ch c ∈ closed (notifier s)).
Proof.
  intros (s & -> & Hi)%reachable_inv. exists s. split; [done|]. split; [apply Hi|]. intros mb.
  pose proof (Notify_inv mb s Hi) as En. eexists. split; [exact En|].
  pose proof (notify_inv mb s _ Hi En) as Hi'. set (n := mkNotifier _ _ _) in *.
  split; [unfold n; rewrite subscribers_insert; by rewrite decide_True|]. intros i c Hc.
  assert (c ∈ idling s) as Hin by by eapply list_elem_of_lookup_2.
  destruct Hi as [Hd _ _ Hs]. split.
  - intros Em. eapply step_change; [exact Hc|]. simpl. destruct (decide (idle_ch c ∈ closed (notifier s))); [set_solver|].
    apply elem_of_union_l, elem_of_list_to_set, elem_of_waiting. eauto.
  - intros Em. simpl. split; [|set_solver]. intros [Hw|Hw]%elem_of_union; [|done].
    destruct (decide (idle_ch c ∈ closed (notifier s))) as [|Hn]; [done|]. exfalso.
    assert (idle_ch c ∈ waiting (idle_mailbox c) (closed n) (idling s)) as Hk.
    { pose proof (inv_subs _ Hi' (idle_mailbox c)) as E. cbn [notifier idling] in E. rewrite <- E.
      unfold n. rewrite subscribers_insert, decide_False by done. rewrite Hs. apply elem_of_waiting. eauto. }
    apply elem_of_waiting in Hk as (_ & _ & _ & _ & Hk). apply Hk. simpl. by apply elem_of_union_l.
Qed.

Lemma idle_wakeups_witness :
  let s := Idle_begin 2 (Idle_begin 1 (mkIdleState NewMailboxNotifier [] 0)) in
  ∃ n, Notify 1 (notifier s) = Some n ∧
    ∃ s', idle_step (mkIdleState n (idling s) 0) (Some s') ∧ announced s' = 1%nat.
Proof.
  intros s. destruct (idle_wakeups (Some s)) as (s' & [= <-] & _ & H).
  - eapply idle_next; [eapply idle_next; [apply idle_init|]|]; constructor.
  - destruct (H 1) as (n & E & _ & Hw). exists n. split; [exact E|].
    destruct (Hw 0%nat (mkIdling 1 0) eq_refl) as [Hw' _]. eexists. split; [exact (Hw' eq_refl)|reflexivity].
Defined.
