(* ===== verification/Imap.v ===== *)
(** The IMAP service (src/pkg/imap/{backend,user,mailbox,notifier}.go): the
    callbacks the go-imap library makes for a logged-in user.  The state is the
    process together with the notifier.  A sequence set of the library is the
    predicate its [Contains] decides, and the names of the system flags are the
    library's constants; both are parameters.  A literal is its content and what
    its [Len] returns once the content has been read. *)
From S2P Require Import Prelude GoLib Cache Sql Schema World StoreUsers StoreMail Search Auth Blob Notifier.

(** * Flags *)
(** The names of the system flags in the go-imap library. *)
Class FlagNames := mkFlagNames {
  SeenFlag : string; AnsweredFlag : string; FlaggedFlag : string; DeletedFlag : string; DraftFlag : string }.

Definition flagSeen : Z := 1.
Definition flagAnswered : Z := 2.
Definition flagFlagged : Z := 4.
Definition flagDeleted : Z := 8.
Definition flagDraft : Z := 16.

Inductive FlagsOp := SetFlags | AddFlags | RemoveFlags | OtherOp.

Inductive FetchItem :=
  | FetchFlags | FetchEnvelope | FetchBody | FetchBodyStructure | FetchRFC822 | FetchInternalDate | FetchRFC822Size
  | FetchOther (item : string).

Record Envelope := mkEnvelope { env_Subject : string; env_From : string; env_To : string; env_Date : Z }.

(** [imap.Message], as far as the service fills it in. *)
Record ImapMessage := mkImapMessage {
  im_SeqNum : Z; im_Uid : Z; im_Flags : list string; im_Envelope : option Envelope; im_Body : list string;
  im_Size : Z; im_InternalDate : option Z }.

Record MailboxStatus := mkStatus {
  st_Name : string; st_Messages : Z; st_UidValidity : Z; st_UidNext : Z; st_Flags : list string }.

Record Literal := mkLiteral { lit_content : res string; lit_Len : Z }.

(** [User] and [Mailbox], less the handles to the shared state. *)
Record ImapUser := mkImapUser { iu_userID : Z; iu_email : string }.
Record ImapMailbox := mkImapMailbox { ib_user : ImapUser; ib_mailboxID : Z; ib_name : string }.

Section flags.
Context `{FN : FlagNames}.

Definition flag_bit (f : string) : Z :=
  if String.eqb f SeenFlag then flagSeen
  else if String.eqb f AnsweredFlag then flagAnswered
  else if String.eqb f FlaggedFlag then flagFlagged
  else if String.eqb f DeletedFlag then flagDeleted
  else if String.eqb f DraftFlag then flagDraft
  else 0.

Definition flagsToBits (flags : list string) : Z := foldl (λ bits f, Z.lor bits (flag_bit f)) 0 flags.

Definition flagsToIMAP (bits : Z) : list string :=
  let when bit name := if Z.land bits bit =? 0 then [] else [name] in
  when flagSeen SeenFlag ++ when flagAnswered AnsweredFlag ++ when flagFlagged FlaggedFlag ++
  when flagDeleted DeletedFlag ++ when flagDraft DraftFlag.
End flags.

(** * backend.go and user.go *)
Section imap.
Context `{MR : MapRange} `{S : Store} `{FN : FlagNames} (IDKey : string → list Z → Z → Z → Z → Z → list Z)
  (fts5_match : string → list Message → res (list Message)).

(** A new backend brings a notifier nobody has subscribed to; the rest are handles. *)
Definition NewBackend : MailboxNotifier := NewMailboxNotifier.

Definition Login (username password : string) : state World (res ImapUser) :=
  let! r := Authenticate IDKey username password in
  match r with
  | Err err => sret (Err err)
  | Ok userID => sret (Ok (mkImapUser userID username))
  end.

Definition User_ListMailboxes (u : ImapUser) : state World (res (list ImapMailbox)) :=
  let! r := ListMailboxes (iu_userID u) in
  match r with
  | Err err => sret (Err err)
  | Ok mboxes => sret (Ok ((λ m, mkImapMailbox u (mbox_ID m) (mbox_Name m)) <$> mboxes))
  end.

Definition User_GetMailbox (u : ImapUser) (name : string) : state World (res ImapMailbox) :=
  let! r := GetMailbox (iu_userID u) name in
  match r with
  | Err err => sret (Err err)
  | Ok m => sret (Ok (mkImapMailbox u (mbox_ID m) (mbox_Name m)))
  end.

Definition User_CreateMailbox (u : ImapUser) (name : string) : state World (res unit) :=
  let! r := CreateMailbox (iu_userID u) name in
  match r with Err err => sret (Err err) | Ok _ => sret (Ok tt) end.

Definition User_DeleteMailbox (u : ImapUser) (name : string) : state World (res unit) :=
  let! r := GetMailbox (iu_userID u) name in
  match r with
  | Err err => sret (Err err)
  | Ok m => DeleteMailbox (mbox_ID m)
  end.

Definition User_RenameMailbox (u : ImapUser) (existingName newName : string) : state World (res unit) :=
  let! r := GetMailbox (iu_userID u) existingName in
  match r with
  | Err err => sret (Err err)
  | Ok m => RenameMailbox (mbox_ID m) newName
  end.

(** * mailbox.go *)
Definition IM : Type := World * MailboxNotifier.

(** [m.notifier.Notify]; a double close would leave the notifier as it is. *)
Definition notify (mailboxID : Z) : state IM unit := λ s,
  (tt, (s.1, default s.2 (Notify mailboxID s.2))).

Definition SeqSet : Type := Z → bool.

Definition Status (m : ImapMailbox) : state World (res MailboxStatus) :=
  let! r := CountMessages (ib_mailboxID m) in
  match r with
  | Err err => sret (Err err)
  | Ok count =>
      let! r := ListMessages (ib_mailboxID m) 1 0 in
      match r with
      | Err err => sret (Err err)
      | Ok msgs =>
          let uidNext := match msgs with msg :: _ => uint32 (msg_UID msg + 1) | [] => 1 end in
          sret (Ok (mkStatus (ib_name m) (uint32 count) (uint32 (ib_mailboxID m)) uidNext
                      [SeenFlag; AnsweredFlag; FlaggedFlag; DeletedFlag; DraftFlag]))
      end
  end.

(** The messages of the mailbox in ascending UID order, with their sequence
    numbers, that a sequence set selects. *)
Definition numbered (msgs : list Message) : list (Z * Message) := imap (λ i m, (uint32 (Z.of_nat i + 1), m)) (reverse msgs).
Definition selected (uid : bool) (seqset : SeqSet) (p : Z * Message) : bool :=
  if uid then seqset (msg_UID p.2) else seqset p.1.

(** One item of a FETCH, on the message being built. *)
Definition fetch_item (msg : Message) (im : ImapMessage) (item : FetchItem) : state World ImapMessage :=
  match item with
  | FetchFlags => sret (mkImapMessage (im_SeqNum im) (im_Uid im) (flagsToIMAP (msg_Flags msg)) (im_Envelope im)
                    (im_Body im) (im_Size im) (im_InternalDate im))
  | FetchEnvelope => sret (mkImapMessage (im_SeqNum im) (im_Uid im) (im_Flags im)
                    (Some (mkEnvelope (msg_Subject msg) (msg_FromAddr msg) (msg_ToAddr msg) (msg_InternalDate msg)))
                    (im_Body im) (im_Size im) (im_InternalDate im))
  | FetchBody | FetchBodyStructure | FetchRFC822 =>
      let! r := Get (msg_BlobKey msg) in
      match r with
      | Err _ => sret im
      | Ok content => sret (mkImapMessage (im_SeqNum im) (im_Uid im) (im_Flags im) (im_Envelope im)
                    (im_Body im ++ [content]) (uint32 (msg_Size msg)) (im_InternalDate im))
      end
  | FetchInternalDate => sret (mkImapMessage (im_SeqNum im) (im_Uid im) (im_Flags im) (im_Envelope im)
                    (im_Body im) (im_Size im) (Some (msg_InternalDate msg)))
  | FetchRFC822Size => sret (mkImapMessage (im_SeqNum im) (im_Uid im) (im_Flags im) (im_Envelope im)
                    (im_Body im) (uint32 (msg_Size msg)) (im_InternalDate im))
  | FetchOther _ => sret im
  end.

Fixpoint fetch_items (msg : Message) (items : list FetchItem) (im : ImapMessage) : state World ImapMessage :=
  match items with
  | [] => sret im
  | item :: items => let! im := fetch_item msg im item in fetch_items msg items im
  end.

Fixpoint fetch_messages (items : list FetchItem) (msgs : list (Z * Message)) : state World (list ImapMessage) :=
  match msgs with
  | [] => sret []
  | (seq, msg) :: msgs =>
      let! im := fetch_items msg items (mkImapMessage seq (msg_UID msg) [] None [] 0 None) in
      let! rest := fetch_messages items msgs in
      sret (im :: rest)
  end.

(** [Mailbox.ListMessages]: what is sent on the channel before it is closed. *)
Definition Mailbox_ListMessages (m : ImapMailbox) (uid : bool) (seqset : SeqSet) (items : list FetchItem)
    : state World (list ImapMessage) :=
  let! r := ListMessages (ib_mailboxID m) 0 0 in
  match r with
  | Err _ => sret []
  | Ok allMsgs => fetch_messages items (List.filter (selected uid seqset) (numbered allMsgs))
  end.

(** The text criteria of a SEARCH, as a query of [storage.SearchMessages]. *)
Definition search_term (t : string) : string :=
  if strings.Contains t " " then dquote +:+ t +:+ dquote else t.

(** [uidToSeq]: the last index wins, and an absent UID reads as 0. *)
Definition uidToSeq (allUIDs : list Z) (u : Z) : Z :=
  default 0 ((foldl (λ m p, <[p.2 := uint32 (Z.of_nat p.1 + 1)]> m) (∅ : gmap Z Z) (imap pair allUIDs)) !! u).

Definition Mailbox_SearchMessages (m : ImapMailbox) (uid : bool) (text : list string) : state World (res (list Z)) :=
  match text with
  | _ :: _ =>
      let! r := SearchMessages fts5_match (ib_mailboxID m) (strings.Join (search_term <$> text) " ") 0 in
      match r with
      | Err err => sret (Err err)
      | Ok msgs =>
          let uids := msg_UID <$> msgs in
          if uid then sret (Ok uids)
          else
            let! r := ListMessageUIDs (ib_mailboxID m) in
            match r with
            | Err err => sret (Err err)
            | Ok allUIDs => sret (Ok (uidToSeq allUIDs <$> uids))
            end
      end
  | [] =>
      let! r := ListMessageUIDs (ib_mailboxID m) in
      match r with
      | Err err => sret (Err err)
      | Ok uids => sret (Ok (if uid then uids else imap (λ i _, uint32 (Z.of_nat i + 1)) uids))
      end
  end.

Definition Mailbox_CreateMessage (m : ImapMailbox) (flags : list string) (date : Z) (body : Literal) : state IM (res unit) :=
  let! r := lift (Put (lit_content body)) in
  match r with
  | Err err => sret (Err err)
  | Ok (blobKey, _) =>
      let! r := lift (InsertMessage (ib_mailboxID m) blobKey (lit_Len body) "" "" "" (flagsToBits flags)) in
      match r with
      | Err err => sret (Err err)
      | Ok _ => do! notify (ib_mailboxID m) in sret (Ok tt)
      end
  end.

Definition new_flags (operation : FlagsOp) (old flagBits : Z) : Z :=
  match operation with
  | SetFlags => flagBits
  | AddFlags => Z.lor old flagBits
  | RemoveFlags => Z.land old (Z.lnot flagBits)
  | OtherOp => 0
  end.

Definition UpdateMessagesFlags (m : ImapMailbox) (uid : bool) (seqset : SeqSet) (operation : FlagsOp) (flags : list string)
    : state IM (res unit) :=
  let! r := lift (ListMessages (ib_mailboxID m) 0 0) in
  match r with
  | Err err => sret (Err err)
  | Ok msgs =>
      let flagBits := flagsToBits flags in
      let! stop := lift (sfor (List.filter (selected uid seqset) (numbered msgs)) (λ p,
        let! r := UpdateFlags (msg_ID p.2) (new_flags operation (msg_Flags p.2) flagBits) (-1) in
        match r with Err err => sret (Some err) | Ok _ => sret None end)) in
      match stop with
      | Some err => sret (Err err)
      | None => do! notify (ib_mailboxID m) in sret (Ok tt)
      end
  end.

Definition CopyMessages (m : ImapMailbox) (uid : bool) (seqset : SeqSet) (dest : string) : state IM (res unit) :=
  let! r := lift (GetMailbox (iu_userID (ib_user m)) dest) in
  match r with
  | Err err => sret (Err err)
  | Ok destBox =>
      let! r := lift (ListMessages (ib_mailboxID m) 0 0) in
      match r with
      | Err err => sret (Err err)
      | Ok msgs =>
          let! stop := lift (sfor (List.filter (selected uid seqset) (numbered msgs)) (λ p,
            let msg := p.2 in
            let! r := InsertMessage (mbox_ID destBox) (msg_BlobKey msg) (msg_Size msg) (msg_FromAddr msg)
                        (msg_ToAddr msg) (msg_Subject msg) (msg_Flags msg) in
            match r with Err err => sret (Some err) | Ok _ => sret None end)) in
          match stop with
          | Some err => sret (Err err)
          | None =>
              do! notify (ib_mailboxID m) in
              if mbox_ID destBox =? ib_mailboxID m then sret (Ok tt)
              else do! notify (mbox_ID destBox) in sret (Ok tt)
          end
      end
  end.

Definition Expunge (m : ImapMailbox) : state IM (res unit) :=
  let! r := lift (ListMessages (ib_mailboxID m) 0 0) in
  match r with
  | Err err => sret (Err err)
  | Ok msgs =>
      let! stop := lift (sfor msgs (λ msg,
        if Z.land (msg_Flags msg) flagDeleted =? 0 then sret None
        else
          let! r := DeleteMessage (msg_ID msg) in
          match r with Err err => sret (Some err) | Ok _ => sret None end)) in
      match stop with
      | Some err => sret (Err err)
      | None => do! notify (ib_mailboxID m) in sret (Ok tt)
      end
  end.
End imap.

(** * Every command keeps the database well-formed *)
Section wf.
Context `{MR : MapRange} `{S : Store} `{FN : FlagNames} (digest : string → string) `{!StoreSpec S digest}.
Context (IDKey : string → list Z → Z → Z → Z → Z → list Z) (fts5_match : string → list Message → res (list Message)).

Definition im_wf (s : IM) : Prop := wf s.1.

Lemma im_lift {A} (m : state World A) : pres wf m → pres im_wf (lift m).
Proof using. apply pres_lift. Qed.
Lemma im_notify mb : pres im_wf (notify mb).
Proof using. by intros [w n] Hw. Qed.
Hint Resolve im_lift im_notify : pres.

Lemma Login_wf u p : pres wf (Login IDKey u p).
Proof using. unfold Login. pres_walk. Qed.
Lemma User_ListMailboxes_wf u : pres wf (User_ListMailboxes u).
Proof using. unfold User_ListMailboxes. pres_walk. Qed.
Lemma User_GetMailbox_wf u n : pres wf (User_GetMailbox u n).
Proof using. unfold User_GetMailbox. pres_walk. Qed.
Lemma User_CreateMailbox_wf u n : pres wf (User_CreateMailbox u n).
Proof using. unfold User_CreateMailbox. pres_walk. Qed.
Lemma User_DeleteMailbox_wf u n : pres wf (User_DeleteMailbox u n).
Proof using. unfold User_DeleteMailbox. pres_walk. Qed.
Lemma User_RenameMailbox_wf u a b : pres wf (User_RenameMailbox u a b).
Proof using. unfold User_RenameMailbox. pres_walk. Qed.
Lemma Status_wf m : pres wf (Status m).
Proof using. unfold Status. pres_walk. Qed.

Lemma fetch_items_wf msg items im : pres wf (fetch_items msg items im).
Proof using StoreSpec0.
  revert im. induction items as [|item items IH]; intros im; cbn [fetch_items]; [apply pres_ret|].
  apply pres_bind; [|intros; apply IH]. unfold fetch_item. destruct item; try apply pres_ret.
  all: apply pres_bind; [by eapply Get_store_wf|intros; pres_walk].
Qed.

Lemma fetch_messages_wf items msgs : pres wf (fetch_messages items msgs).
Proof using StoreSpec0.
  induction msgs as [|[seq msg] msgs IH]; cbn [fetch_messages]; [apply pres_ret|].
  apply pres_bind; [apply fetch_items_wf|intros]. apply pres_bind; [exact IH|intros; apply pres_ret].
Qed.
Hint Resolve fetch_messages_wf : pres.

Lemma Mailbox_ListMessages_wf m u s i : pres wf (Mailbox_ListMessages m u s i).
Proof using StoreSpec0. unfold Mailbox_ListMessages. pres_walk. Qed.
Lemma Mailbox_SearchMessages_wf m u t : pres wf (Mailbox_SearchMessages fts5_match m u t).
Proof using. unfold Mailbox_SearchMessages. pres_walk. Qed.
Lemma Mailbox_CreateMessage_wf m f d b : pres im_wf (Mailbox_CreateMessage m f d b).
Proof using StoreSpec0.
  unfold Mailbox_CreateMessage. apply pres_bind; [apply im_lift; by eapply Put_store_wf|intros]. pres_walk.
Qed.
Lemma UpdateMessagesFlags_wf m u s o f : pres im_wf (UpdateMessagesFlags m u s o f).
Proof using. unfold UpdateMessagesFlags. pres_walk. apply im_lift. pres_walk. Qed.
Lemma CopyMessages_wf m u s d : pres im_wf (CopyMessages m u s d).
Proof using. unfold CopyMessages. pres_walk. apply im_lift. pres_walk. Qed.
Lemma Expunge_wf m : pres im_wf (Expunge m).
Proof using. unfold Expunge. pres_walk. apply im_lift. pres_walk. Qed.
End wf.
#[export] Hint Resolve Login_wf User_ListMailboxes_wf User_GetMailbox_wf User_CreateMailbox_wf User_DeleteMailbox_wf
  User_RenameMailbox_wf Status_wf Mailbox_SearchMessages_wf UpdateMessagesFlags_wf CopyMessages_wf Expunge_wf : pres.
