(* ===== verification/ImapSpec.v ===== *)
(** What the IMAP commands of Imap guarantee: sequence numbers, STORE, EXPUNGE,
    STATUS with APPEND, and the flags of the protocol. *)
From S2P Require Import Prelude GoLib Cache Sql Schema World StoreUsers StoreMail Search Auth Blob Notifier Imap.

(** * Sequence numbers *)
(** What a sequence number counts: the messages of the mailbox up to this one. *)
Definition seqnum (d : DB) (x : Message) : Z :=
  uint32 (Z.of_nat (length (select (λ y, msg_MailboxID y = msg_MailboxID x ∧ msg_UID y < msg_UID x) (messages d))) + 1).

Lemma listing_all mb d :
  sql_list_messages mb 0 0 d = order_by uid_desc (select (λ m, msg_MailboxID m = mb) (messages d)).
Proof.
  unfold sql_list_messages. simpl. f_equal. apply list_filter_iff. intros m. split; [naive_solver|].
  intros E. split; [done|lia].
Qed.

Lemma ListMessages_all mb w :
  w_faults w = [] →
  ListMessages mb 0 0 w = (Ok (order_by uid_desc (select (λ m, msg_MailboxID m = mb) (messages (w_db w)))), w).
Proof. intros Hf. unfold ListMessages, sbind. rewrite query_run by done. by rewrite listing_all. Qed.

(** In a strictly sorted list an element's index counts the elements below it. *)
Lemma sorted_index {A} (f : A → Z) (l : list A) i x :
  StronglySorted (λ a b, f b < f a) l → reverse l !! i = Some x →
  length (filter (λ y, f y < f x) l) = i.
Proof.
  intros Hs. rewrite reverse_lookup_Some. intros [Hi Hl]. revert i x Hi Hl.
  induction Hs as [|a l Hs IH Hall]; intros i x Hi Hl; [done|]. simpl in Hi, Hl.
  destruct (decide (i = length l)) as [->|Hne].
  - rewrite Nat.sub_diag in Hi. injection Hi as <-.
    rewrite filter_cons_False by lia. rewrite Forall_forall in Hall. by rewrite filter_all_in.
  - replace (length l - i)%nat with (S (length l - S i)) in Hi by lia. cbn in Hi.
    assert (x ∈ l) as Hin by by eapply list_elem_of_lookup_2. rewrite Forall_forall in Hall. specialize (Hall x Hin).
    rewrite filter_cons_False by lia. apply IH; [done|lia].
Qed.

Lemma numbered_spec w mb s x :
  wf w →
  (s, x) ∈ numbered (order_by uid_desc (select (λ m, msg_MailboxID m = mb) (messages (w_db w)))) ↔
  x ∈ rows (messages (w_db w)) ∧ msg_MailboxID x = mb ∧ s = seqnum (w_db w) x.
Proof.
  intros Hw. set (l := order_by uid_desc _). pose proof (list_all_sorted w mb Hw) as Hs. fold l in Hs.
  assert (∀ y, y ∈ l ↔ msg_MailboxID y = mb ∧ y ∈ rows (messages (w_db w))) as Hin
    by (intros y; unfold l; by rewrite order_by_perm, elem_of_select).
  assert (∀ i y, reverse l !! i = Some y → seqnum (w_db w) y = uint32 (Z.of_nat i + 1)) as Hseq.
  { intros i y Hi. unfold seqnum. do 3 f_equal. rewrite <- (sorted_index msg_UID l i y Hs Hi). unfold l.
    assert (y ∈ l) as [Ey _]%Hin by (apply elem_of_reverse; by eapply list_elem_of_lookup_2).
    rewrite order_by_perm. unfold select. rewrite list_filter_filter. f_equal. apply list_filter_iff. intros z. rewrite Ey. tauto. }
  unfold numbered. split.
  - intros (i & Hi)%list_elem_of_lookup. rewrite list_lookup_imap in Hi.
    destruct (reverse l !! i) as [y|] eqn:Ey; [|done]. injection Hi as <- ->.
    assert (x ∈ l) as [H1 H2]%Hin by (apply elem_of_reverse; by eapply list_elem_of_lookup_2).
    split; [done|]. split; [done|]. by rewrite (Hseq i x).
  - intros (H1 & H2 & ->). assert (x ∈ reverse l) as (i & Hi)%list_elem_of_lookup by (apply elem_of_reverse, Hin; done).
    apply list_elem_of_lookup. exists i. rewrite list_lookup_imap, Hi. simpl. by rewrite (Hseq i x).
Qed.

(** * STORE *)
Lemma merge_flags_full old fl : merge_flags old fl (-1) = fl.
Proof. unfold merge_flags. rewrite Z.land_m1_r. change (Z.lnot (-1)) with 0. by rewrite Z.land_0_r. Qed.

Lemma UpdateFlags_run x fl w :
  unique msg_ID (messages (w_db w)) → w_faults w = [] → x ∈ rows (messages (w_db w)) →
  UpdateFlags (msg_ID x) fl (-1) w =
  (Ok tt, set_db (set_messages (update_rows (λ m, msg_ID m = msg_ID x) (with_flags fl) (messages (w_db w))) (w_db w)) w).
Proof.
  intros Hu Hf Hx. unfold UpdateFlags, sbind. rewrite stmt_ok_run by done. cbn [sql_update_flags fst snd].
  rewrite (affected_one msg_ID _ _ x) by done. cbn [Z.eqb sret]. do 3 f_equal. unfold update_rows. f_equal.
  apply list_fmap_ext. intros i r _. case_decide; [|done]. by rewrite merge_flags_full.
Qed.

Lemma set_messages_twice t t' d : set_messages t (set_messages t' d) = set_messages t d.
Proof. by destruct d. Qed.

(** The loop of [UpdateMessagesFlags]: each selected message is a row of its own. *)
Lemma store_loop (g : Message → Z) (ps : list (Z * Message)) w :
  unique msg_ID (messages (w_db w)) → w_faults w = [] →
  NoDup (msg_ID ∘ snd <$> ps) → (∀ p, p ∈ ps → p.2 ∈ rows (messages (w_db w))) →
  sfor ps (λ p, let! r := UpdateFlags (msg_ID p.2) (g p.2) (-1) in
                match r with Err err => sret (Some err) | Ok _ => sret (None : option error) end) w =
  (None, set_db (set_messages (mkTable
     ((λ x, if decide (x ∈ snd <$> ps) then with_flags (g x) x else x) <$> rows (messages (w_db w)))
     (seq_ (messages (w_db w)))) (w_db w)) w).
Proof.
  revert w. induction ps as [|p ps IH]; intros w Hu Hf Hnd Hin.
  - cbn [sfor sret]. f_equal. rewrite <- (set_db_same w) at 1. f_equal. destruct (w_db w) as [? ? ? ? [ms sq] ? ? ? ? ? ?].
    unfold set_messages. cbn. do 2 f_equal. rewrite <- (list_fmap_id ms) at 1. apply list_fmap_ext. intros i x _.
    by rewrite decide_False by apply not_elem_of_nil.
  - apply NoDup_cons in Hnd as [Hp Hnd]. pose proof (Hin p ltac:(left)) as Hpr. cbn [sfor]. unfold sbind at 1 2.
    rewrite UpdateFlags_run by done. cbn [sret]. set (t := update_rows _ _ _).
    assert (∀ x, x ∈ rows (messages (w_db w)) → msg_ID x = msg_ID p.2 → x = p.2) as Hid
      by (intros x Hx E; by apply (unique_inj msg_ID (messages (w_db w)))).
    rewrite IH; cbn [w_db set_db w_faults messages set_messages].
    + f_equal. rewrite set_db_set_db, set_messages_twice. do 3 f_equal. unfold t, update_rows. cbn [rows].
      rewrite <- list_fmap_compose. apply list_fmap_ext. intros i x Hx%list_elem_of_lookup_2. unfold compose.
      rewrite fmap_cons. destruct (decide (msg_ID x = msg_ID p.2)) as [E|E].
      * rewrite (Hid x Hx E) in *. rewrite (decide_True (P := p.2 ∈ p.2 :: _)) by left. rewrite decide_False; [done|].
        intros (q & Eq & Hq)%list_elem_of_fmap. apply Hp. apply list_elem_of_fmap. exists q. split; [|done].
        unfold compose. by rewrite <- Eq.
      * destruct (decide (x ∈ snd <$> ps)) as [Hx'|Hx']; [by rewrite decide_True by by right|].
        rewrite decide_False; [done|]. intros [->|?]%elem_of_cons; done.
    + by apply unique_update.
    + done.
    + done.
    + intros q Hq. unfold t. apply elem_of_update. exists q.2. split; [apply Hin; by right|].
      rewrite decide_False; [done|]. intros E. apply Hp. apply list_elem_of_fmap. by exists q.
Qed.

Definition store_hits (m : ImapMailbox) (uid : bool) (seqset : SeqSet) (d : DB) (x : Message) : Prop :=
  msg_MailboxID x = ib_mailboxID m ∧ seqset (if uid then msg_UID x else seqnum d x) = true.
#[export] Instance store_hits_dec m uid seqset d x : Decision (store_hits m uid seqset d x).
Proof. unfold store_hits. apply _. Defined.

Lemma selected_rows m uid seqset w x :
  wf w →
  x ∈ snd <$> List.filter (selected uid seqset)
    (numbered (order_by uid_desc (select (λ y, msg_MailboxID y = ib_mailboxID m) (messages (w_db w))))) ↔
  x ∈ rows (messages (w_db w)) ∧ store_hits m uid seqset (w_db w) x.
Proof.
  intros Hw. rewrite list_elem_of_fmap. unfold store_hits. split.
  - intros ([s y] & -> & Hin). apply list_elem_of_In, filter_In in Hin as [Hin Hs].
    apply list_elem_of_In, (numbered_spec w _ s y Hw) in Hin as (H1 & H2 & ->). cbn [snd]. split_and!; try done.
    unfold selected in Hs. by destruct uid.
  - intros (H1 & H2 & H3). exists (seqnum (w_db w) x, x). split; [done|].
    apply list_elem_of_In, filter_In. split; [by apply list_elem_of_In, numbered_spec|].
    unfold selected. by destruct uid.
Qed.

Lemma listing_ids_NoDup w mb :
  wf w → NoDup (msg_ID <$> order_by uid_desc (select (λ y, msg_MailboxID y = mb) (messages (w_db w)))).
Proof.
  intros Hw. rewrite order_by_perm. eapply sublist_NoDup; [|apply fmap_sublist, sublist_filter].
  destruct (wf_messages _ Hw) as [Hu _]. exact Hu.
Qed.

Lemma numbered_snd l : snd <$> numbered l = reverse l.
Proof.
  unfold numbered. apply list_eq. intros i. rewrite list_lookup_fmap, list_lookup_imap. by destruct (reverse l !! i).
Qed.

Lemma filter_sublist {A} (f : A → bool) l : sublist (List.filter f l) l.
Proof. induction l as [|x l IH]; simpl; [constructor|]. destruct (f x); by constructor. Qed.

Lemma selected_NoDup uid seqset w mb :
  wf w → NoDup (msg_ID ∘ snd <$> List.filter (selected uid seqset)
    (numbered (order_by uid_desc (select (λ y, msg_MailboxID y = mb) (messages (w_db w)))))).
Proof.
  intros Hw. eapply sublist_NoDup; [|apply fmap_sublist, filter_sublist].
  rewrite list_fmap_compose, numbered_snd. rewrite reverse_Permutation. by apply listing_ids_NoDup.
Qed.

(** * Properties *)

(** * EXPUNGE *)
Lemma delete_messages_ext (P Q : Message → Prop) `{∀ x, Decision (P x)} `{∀ x, Decision (Q x)} d :
  (∀ x, x ∈ rows (messages d) → P x ↔ Q x) → delete_messages P d = delete_messages Q d.
Proof.
  intros HPQ. unfold delete_messages, select, delete_rows.
  rewrite (filter_ext_in P Q (rows (messages d))) by done.
  by rewrite (filter_ext_in (λ x, ¬ P x) (λ x, ¬ Q x) (rows (messages d))) by (intros x Hx; by rewrite HPQ).
Qed.

Lemma delete_messages_twice (P Q : Message → Prop) `{∀ x, Decision (P x)} `{∀ x, Decision (Q x)} d :
  delete_messages Q (delete_messages P d) = delete_messages (λ x, P x ∨ Q x) d.
Proof.
  unfold delete_messages. destruct d as [? ? ? ? [ms k] [qs kq] ? ? ? ? ?]. unfold set_messages, set_queue, delete_rows, select. cbn.
  do 2 f_equal; rewrite list_filter_filter; apply list_filter_iff; [tauto|]. intros q.
  rewrite !list_elem_of_fmap. setoid_rewrite list_elem_of_filter. setoid_rewrite list_elem_of_filter. split.
  - intros [H1 H2] (x & E & [[HP|HQ] Hx]).
    + apply H2. by exists x.
    + destruct (decide (P x)); [apply H2|apply H1]; by exists x.
  - intros Hn. split; intros (x & E & Hx); apply Hn; exists x; tauto.
Qed.

Lemma delete_messages_none (P : Message → Prop) `{∀ x, Decision (P x)} d : (∀ x, ¬ P x) → delete_messages P d = d.
Proof.
  intros HP. unfold delete_messages, select, delete_rows. rewrite (filter_none_in P), (filter_all_in (λ x, ¬ P x)) by auto.
  rewrite filter_all_in by (intros q _ Hq; by apply not_elem_of_nil in Hq). by destruct d as [? ? ? ? [] [] ? ? ? ? ?].
Qed.

Lemma DeleteMessage_run x w :
  unique msg_ID (messages (w_db w)) → w_faults w = [] → x ∈ rows (messages (w_db w)) →
  DeleteMessage (msg_ID x) w = (Ok tt, set_db (delete_messages (λ y, y = x) (w_db w)) w).
Proof.
  intros Hu Hf Hx. unfold DeleteMessage, sbind. rewrite stmt_ok_run by done. cbn [sql_delete_message fst snd].
  rewrite (affected_one msg_ID _ _ x) by done. cbn [Z.eqb sret]. do 2 f_equal. apply delete_messages_ext.
  intros y Hy. split; [|by intros ->]. intros E. by apply (unique_inj msg_ID (messages (w_db w))).
Qed.

Lemma expunge_loop (l : list Message) w :
  unique msg_ID (messages (w_db w)) → w_faults w = [] → NoDup l → (∀ x, x ∈ l → x ∈ rows (messages (w_db w))) →
  sfor l (λ msg,
    if Z.land (msg_Flags msg) flagDeleted =? 0 then sret None
    else let! r := DeleteMessage (msg_ID msg) in
         match r with Err err => sret (Some err) | Ok _ => sret (None : option error) end) w =
  (None, set_db (delete_messages (λ x, x ∈ l ∧ Z.land (msg_Flags x) flagDeleted ≠ 0) (w_db w)) w).
Proof.
  revert w. induction l as [|x l IH]; intros w Hu Hf Hnd Hin.
  - cbn [sfor sret]. rewrite delete_messages_none; [by rewrite set_db_same|]. intros y [Hy _]. by apply not_elem_of_nil in Hy.
  - apply NoDup_cons in Hnd as [Hx Hnd]. cbn [sfor]. unfold sbind at 1. destruct (Z.eqb_spec (Z.land (msg_Flags x) flagDeleted) 0) as [E|E].
    + cbn [sret]. rewrite IH; [|done..|intros y Hy; apply Hin; by right]. do 2 f_equal. apply delete_messages_ext.
      intros y _. rewrite elem_of_cons. naive_solver.
    + unfold sbind at 1. rewrite DeleteMessage_run by (try done; apply Hin; left). cbn [sret].
      rewrite IH; cbn [w_db set_db w_faults]; [|by apply unique_delete|done|done|].
      * rewrite set_db_set_db, delete_messages_twice. do 2 f_equal. apply delete_messages_ext.
        intros y _. rewrite elem_of_cons. naive_solver.
      * intros y Hy. unfold delete_messages. db_cbn. apply elem_of_delete. split; [by intros ->|]. apply Hin. by right.
Qed.

(** C33.  The IMAP service expunges with one DELETE per message; on a well-formed
    database that is the same as the single statement of
    [storage.ExpungeMailbox]: the same rows go from every table, no error is
    reported, and the clients waiting on the mailbox are woken. *)
Theorem imap_expunge_equiv (m : ImapMailbox) (w : World) (n : MailboxNotifier) :
  wf w → w_faults w = [] →
  Expunge m (w, n) =
  (Ok tt, ((ExpungeMailbox (ib_mailboxID m) w).2, default n (Notify (ib_mailboxID m) n))).
Proof.
  intros Hw Hf. unfold Expunge. unfold sbind at 1.
  rewrite (lift_run _ w n _ _ (ListMessages_all (ib_mailboxID m) w Hf)). unfold sbind at 1. set (l := order_by _ _).
  assert (∀ x, x ∈ l ↔ msg_MailboxID x = ib_mailboxID m ∧ x ∈ rows (messages (w_db w))) as Hin
    by (intros y; unfold l; by rewrite order_by_perm, elem_of_select).
  rewrite (lift_run _ w n _ _ (expunge_loop l w (proj1 (wf_messages _ Hw)) Hf
    (NoDup_fmap_1 _ _ (listing_ids_NoDup w _ Hw)) (λ x Hx, proj2 (proj1 (Hin x) Hx)))).
  unfold notify, ExpungeMailbox, sbind, sret. rewrite stmt_ok_run by done. cbn [fst snd sql_expunge].
  do 4 f_equal. apply delete_messages_ext. intros x Hx. rewrite Hin. unfold expungeable. tauto.
Qed.

(** * STATUS and APPEND *)
Lemma sorted_head_max mb w x l :
  wf w → order_by uid_desc (select (λ m, msg_MailboxID m = mb) (messages (w_db w))) = x :: l →
  max_uid mb (w_db w) = Some (msg_UID x).
Proof.
  intros Hw E. assert (∀ y, y ∈ x :: l ↔ msg_MailboxID y = mb ∧ y ∈ rows (messages (w_db w))) as Hin
    by (intros y; by rewrite <- E, order_by_perm, elem_of_select).
  pose proof (list_all_sorted w mb Hw) as Hs. rewrite E in Hs. apply StronglySorted_inv in Hs as [_ Hs].
  rewrite Forall_forall in Hs. destruct (proj1 (Hin x) ltac:(left)) as [Ex Hx].
  pose proof (max_uid_spec mb (w_db w)) as Hm. destruct (max_uid mb (w_db w)) as [u|]; [|by destruct (Hm x Hx)].
  destruct Hm as [(y & Hy & Ey & <-) Hle]. specialize (Hle x Hx Ex). f_equal.
  assert (y ∈ x :: l) as Hyl by by apply Hin. apply elem_of_cons in Hyl as [->|Hyl]; [done|]. specialize (Hs y Hyl). lia.
Qed.

Lemma Status_run `{FN : FlagNames} m w :
  wf w → w_faults w = [] →
  Status m w = (Ok (mkStatus (ib_name m)
     (uint32 (affected (λ x, msg_MailboxID x = ib_mailboxID m) (messages (w_db w)))) (uint32 (ib_mailboxID m))
     (next_uid (max_uid (ib_mailboxID m) (w_db w))) [SeenFlag; AnsweredFlag; FlaggedFlag; DeletedFlag; DraftFlag]), w).
Proof.
  intros Hw Hf. unfold Status, CountMessages, ListMessages, sbind. rewrite query_run by done. cbn [sret].
  rewrite query_run by done. cbn [sret]. unfold sql_list_messages. cbn [Z.ltb Z.compare]. change (Z.to_nat 1) with 1%nat.
  pose proof (listing_all (ib_mailboxID m) (w_db w)) as El. unfold sql_list_messages in El. cbn [Z.ltb Z.compare] in El. rewrite El. clear El.
  destruct (order_by uid_desc (select (λ x, msg_MailboxID x = ib_mailboxID m) (messages (w_db w)))) as [|x l] eqn:E.
  - cbn [take]. destruct (max_uid (ib_mailboxID m) (w_db w)) as [u|] eqn:Em; [|reflexivity]. exfalso.
    pose proof (max_uid_spec (ib_mailboxID m) (w_db w)) as Hm. rewrite Em in Hm. destruct Hm as [(y & Hy & Ey & _) _].
    assert (y ∈ @nil Message) as Hn; [|by apply not_elem_of_nil in Hn]. rewrite <- E, order_by_perm. by apply elem_of_select.
  - cbn [take]. rewrite (sorted_head_max _ w x l) by done. do 3 f_equal. unfold next_uid, uint32. cbn [default from_option id].
    by rewrite Zplus_mod_idemp_l.
Qed.

(** STATUS and APPEND agree.  On a database that does not fail, the UIDNEXT
    that STATUS reports is the UID the message appended next gets; APPEND stores
    the literal so that it can be fetched, records the system flags of the
    command, counts the message in the next STATUS, moves UIDNEXT up by one and
    wakes the clients waiting on the mailbox. *)
Theorem imap_append_uidnext `{S : Store} `{FN : FlagNames} (digest : string → string) `{!StoreSpec S digest}
    (m : ImapMailbox) (flags : list string) (date len : Z) (content : string) (w : World) (n : MailboxNotifier) :
  wf w → w_faults w = [] → ib_mailboxID m ∈ mailbox_ids (w_db w) →
  (∀ x, x ∈ rows (messages (w_db w)) → msg_MailboxID x = ib_mailboxID m → msg_UID x < 2 ^ 32 - 2) →
  (∀ d, view w (digest content) = Some d → d = content) →
  let out := Mailbox_CreateMessage m flags date (mkLiteral (Ok content) len) (w, n) in
  ∃ st st' id, (Status m w).1 = Ok st ∧ out.1 = Ok tt ∧ (Status m out.2.1).1 = Ok st' ∧
    rows (messages (w_db out.2.1)) = rows (messages (w_db w)) ++
      [mkMessage id (ib_mailboxID m) (st_UidNext st) (digest content) len (flagsToBits flags) (w_now w / second) "" "" ""] ∧
    (Get (digest content) out.2.1).1 = Ok content ∧
    st_Messages st' = uint32 (st_Messages st + 1) ∧ st_UidNext st' = st_UidNext st + 1 ∧
    out.2.2 = default n (Notify (ib_mailboxID m) n).
Proof.
  intros Hw Hf Hmb Hlt Hc out. set (mb := ib_mailboxID m) in *.
  destruct (view_put content w Hf Hc) as (Ep & Hf1 & Hv). set (w1 := (Put (Ok content) w).2) in *.
  assert (wf w1) as Hw1 by by eapply Put_store_wf.
  assert (∃ b, w_db w1 = set_blobs b (w_db w)) as [b Edb].
  { destruct (Put_frame (Ok content) w) as (b & f & fs & E). exists b. unfold w1. by rewrite E. }
  assert (w_now w1 = w_now w) as Enow by (destruct (Put_frame (Ok content) w) as (? & ? & ? & E); unfold w1; by rewrite E).
  assert (messages (w_db w1) = messages (w_db w)) as Em by by rewrite Edb.
  destruct (InsertMessage_ok mb (digest content) len "" "" "" (flagsToBits flags) w1) as (id & uid & E & _ & Hu & Hle);
    [done|done|by rewrite Edb|rewrite Em; intros x Hx Ex; specialize (Hlt x Hx Ex); lia|].
  assert (uid = next_uid (max_uid mb (w_db w))) as Euid.
  { pose proof (InsertMessage_run mb (digest content) len "" "" "" (flagsToBits flags) w1 Hf1) as E'.
    rewrite E in E'. unfold max_uid in *. rewrite Em in E'. destruct (sql_insert_message _ _ _ _ _ _ _ _ _ _) as [[i|e] d]; [|done].
    by injection E' as _ -> _. }
  pose proof (next_uid_range (max_uid mb (w_db w))) as Hr. rewrite <- Euid in Hr.
  assert (uid ≤ 2 ^ 32 - 2) as Hub by (apply Hle; [lia|rewrite Em; exact Hlt]).
  rewrite Em, Enow in E. set (row := mkMessage _ _ _ _ _ _ _ _ _ _) in E. set (w2 := set_db _ w1) in E.
  assert (wf w2) as Hw2 by (pose proof (InsertMessage_wf mb (digest content) len "" "" "" (flagsToBits flags) w1 Hw1) as H; by rewrite E in H).
  assert (out = (Ok tt, (w2, default n (Notify mb n)))) as ->.
  { unfold out, Mailbox_CreateMessage. cbn [lit_content lit_Len]. fold mb. unfold sbind at 1. rewrite (lift_run _ w n _ w1 (injective_projections _ (_, _) Ep eq_refl)).
    unfold sbind at 1. rewrite (lift_run _ w1 n _ w2 E). done. }
  rewrite !Status_run by done. fold mb. do 3 eexists. split; [reflexivity|]. split; [reflexivity|]. split; [reflexivity|].
  cbn [fst snd st_UidNext st_Messages]. split_and!.
  - rewrite <- Euid. reflexivity.
  - rewrite (view_get (digest content) w2 content); [done|done|].
    rewrite (view_ext w2 w1) by (unfold w2; by rewrite Edb || done). rewrite Hv. by rewrite decide_True.
  - unfold affected. change (messages (w_db w2)) with (mkTable (rows (messages (w_db w)) ++ [row]) id).
    unfold select. cbn [rows]. rewrite filter_app, length_app, filter_cons_True by done. cbn. unfold uint32.
    rewrite Zplus_mod_idemp_l. f_equal. lia.
  - rewrite <- Euid, <- next_uid_succ by lia. f_equal.
    pose proof (max_uid_spec mb (w_db w2)) as Hm. change (messages (w_db w2)) with (mkTable (rows (messages (w_db w)) ++ [row]) id) in Hm.
    cbn [rows] in Hm. rewrite Em in Hu. destruct (max_uid mb (w_db w2)) as [u|].
    + f_equal. destruct Hm as [(x & Hx & Ex & <-) Hm]. specialize (Hm row ltac:(apply elem_of_app; right; left) eq_refl).
      apply elem_of_app in Hx as [Hx| ->%list_elem_of_singleton]; [|done]. specialize (Hu x Hx Ex). simpl in Hm. lia.
    + destruct (Hm row); [|done]. apply elem_of_app; right; left.
  - done.
Qed.

(** * Flags *)
Lemma land_pow2 b i : 0 ≤ i → (Z.land b (2 ^ i) =? 0) = negb (Z.testbit b i).
Proof.
  intros Hi. rewrite Z.land_comm. destruct (Z.testbit b i) eqn:E; simpl.
  - apply Z.eqb_neq. intros H. assert (Z.testbit (Z.land (2 ^ i) b) i = true) as Ht
      by (rewrite Z.land_spec, Z.pow2_bits_true, E by done; done). by rewrite H, Z.bits_0 in Ht.
  - apply Z.eqb_eq. apply Z.bits_inj'. intros k Hk. rewrite Z.land_spec, Z.bits_0, Z.pow2_bits_eqb by done.
    destruct (Z.eqb_spec i k) as [->|]; [by rewrite E|done].
Qed.

Definition system_flags `{FlagNames} : list string := [SeenFlag; AnsweredFlag; FlaggedFlag; DeletedFlag; DraftFlag].

Section flag_facts.
Context `{FN : FlagNames} (Hd : NoDup system_flags).

Lemma flag_bit_at j g : system_flags !! j = Some g → flag_bit g = 2 ^ Z.of_nat j.
Proof using Hd.
  unfold system_flags in *. intros Hj. pose proof Hd as H. rewrite !NoDup_cons, !not_elem_of_cons in H. unfold flag_bit.
  destruct j as [|[|[|[|[|j]]]]]; [..|done]; injection Hj as <-; rewrite ?String.eqb_refl; try done.
  all: repeat match goal with |- context [String.eqb ?a ?b] =>
    rewrite (proj2 (String.eqb_neq a b)) by (intros E; revert H; rewrite E; tauto) end; done.
Qed.

Lemma flag_bit_other g : g ∉ system_flags → flag_bit g = 0.
Proof using.
  unfold system_flags, flag_bit. rewrite !not_elem_of_cons. intros (H1 & H2 & H3 & H4 & H5 & _).
  rewrite (proj2 (String.eqb_neq _ _) H1), (proj2 (String.eqb_neq _ _) H2), (proj2 (String.eqb_neq _ _) H3),
    (proj2 (String.eqb_neq _ _) H4), (proj2 (String.eqb_neq _ _) H5). done.
Qed.

Lemma flag_bit_testbit g i : 0 ≤ i → Z.testbit (flag_bit g) i = true ↔ system_flags !! Z.to_nat i = Some g.
Proof using Hd.
  intros Hi. destruct (decide (g ∈ system_flags)) as [Hin|Hn].
  - apply list_elem_of_lookup in Hin as [j Hj]. rewrite (flag_bit_at j g Hj), Z.pow2_bits_eqb by lia. rewrite Z.eqb_eq. split.
    + intros <-. by rewrite Nat2Z.id.
    + intros Hk. rewrite (NoDup_lookup _ _ _ _ Hd Hj Hk). lia.
  - rewrite flag_bit_other, Z.bits_0 by done. split; [done|]. intros H. destruct Hn. by eapply list_elem_of_lookup_2.
Qed.

Lemma flagsToBits_testbit flags i : 0 ≤ i →
  Z.testbit (flagsToBits flags) i = true ↔ ∃ g, g ∈ flags ∧ system_flags !! Z.to_nat i = Some g.
Proof using Hd.
  intros Hi. unfold flagsToBits. assert (∀ acc, Z.testbit (foldl (λ bits f, Z.lor bits (flag_bit f)) acc flags) i = true ↔
    Z.testbit acc i = true ∨ ∃ g, g ∈ flags ∧ system_flags !! Z.to_nat i = Some g) as H.
  { induction flags as [|f l IH]; intros acc; cbn [foldl].
    - split; [by left|]. intros [?|(g & Hg & _)]; [done|by apply not_elem_of_nil in Hg].
    - rewrite IH, Z.lor_spec, orb_true_iff, flag_bit_testbit by done. setoid_rewrite elem_of_cons. naive_solver. }
  rewrite H, Z.bits_0. naive_solver.
Qed.

Lemma elem_of_flagsToIMAP bits f :
  f ∈ flagsToIMAP bits ↔ ∃ i, 0 ≤ i ∧ Z.testbit bits i = true ∧ system_flags !! Z.to_nat i = Some f.
Proof using.
  unfold flagsToIMAP. change flagSeen with (2 ^ 0). change flagAnswered with (2 ^ 1). change flagFlagged with (2 ^ 2).
  change flagDeleted with (2 ^ 3). change flagDraft with (2 ^ 4). rewrite !land_pow2 by done. split.
  - intros H. rewrite !elem_of_app in H.
    destruct H as [H|[H|[H|[H|H]]]]; [exists 0|exists 1|exists 2|exists 3|exists 4];
      (destruct (Z.testbit bits _); [|by apply not_elem_of_nil in H]); apply list_elem_of_singleton in H as ->; done.
  - intros (i & Hi & Hb & Hl). rewrite !elem_of_app. apply lookup_lt_Some in Hl as Hlt. cbn in Hlt.
    assert (i = 0 ∨ i = 1 ∨ i = 2 ∨ i = 3 ∨ i = 4) as Hc by lia.
    destruct Hc as [->|[->|[->|[->|Hi4]]]]; try subst i; injection Hl as ->; rewrite Hb; cbn [negb]; rewrite ?list_elem_of_singleton; tauto.
Qed.

Lemma flagsToIMAP_NoDup bits : NoDup (flagsToIMAP bits).
Proof using Hd.
  eapply sublist_NoDup; [exact Hd|]. unfold flagsToIMAP, system_flags. cbn [app].
  repeat match goal with |- context [if ?b then [] else _] => destruct b end; cbn [app]; repeat constructor.
Qed.
End flag_facts.

(** The flag words of the protocol and the bits of the database are two
    readings of the same set, when the library's five system flags are distinct:
    a message's flags are shown without repetitions, reading back what was shown
    gives the five low bits of the column, and a list of flags from a client
    comes back as the system flags in it, keywords of the client being dropped. *)
Theorem imap_flags_roundtrip `{FN : FlagNames} (bits : Z) (flags : list string) :
  NoDup system_flags →
  NoDup (flagsToIMAP bits) ∧
  flagsToBits (flagsToIMAP bits) = Z.land bits 31 ∧
  ∀ f, f ∈ flagsToIMAP (flagsToBits flags) ↔ f ∈ flags ∧ f ∈ system_flags.
Proof.
  intros Hd. split; [by apply flagsToIMAP_NoDup|]. split.
  - apply Z.bits_inj'. intros i Hi. apply Bool.eq_iff_eq_true. rewrite flagsToBits_testbit by done.
    rewrite Z.land_spec, andb_true_iff. change 31 with (Z.ones 5). rewrite Z.testbit_ones by done.
    setoid_rewrite elem_of_flagsToIMAP. split.
    + intros (g & (j & Hj & Hb & Hl) & Hl'). pose proof (NoDup_lookup _ _ _ _ Hd Hl Hl') as E.
      assert (j = i) as -> by lia. apply lookup_lt_Some in Hl. cbn in Hl. split; [done|]. lia.
    + intros [Hb Hlt]. destruct (lookup_lt_is_Some_2 system_flags (Z.to_nat i)) as [g Hg]; [cbn; lia|]. exists g. eauto.
  - intros f. rewrite elem_of_flagsToIMAP. split.
    + intros (i & Hi & Hb & Hl). apply flagsToBits_testbit in Hb as (g & Hg & Hl'); [|done..].
      rewrite Hl in Hl'. injection Hl' as <-. split; [done|]. by eapply list_elem_of_lookup_2.
    + intros [Hf [j Hj]%list_elem_of_lookup]. exists (Z.of_nat j). rewrite flagsToBits_testbit, Nat2Z.id by (done || lia).
      split; [lia|]. split; [|done]. by exists f.
Qed.

(** What a client sees of the flags after STORE: those of the command, added to or
    taken from those it saw before; an operation the protocol does not know
    clears them. *)
Definition stored_flags `{FN : FlagNames} (operation : FlagsOp) (flags shown : list string) (f : string) : Prop :=
  match operation with
  | SetFlags => f ∈ flags
  | AddFlags => f ∈ shown ∨ f ∈ flags
  | RemoveFlags => f ∈ shown ∧ f ∉ flags
  | OtherOp => False
  end.

Section store_facts.
Context `{FN : FlagNames} (Hd : NoDup system_flags).

Lemma shown_bit j f bits :
  system_flags !! j = Some f → f ∈ flagsToIMAP bits ↔ Z.testbit bits (Z.of_nat j) = true.
Proof using Hd.
  intros Hj. rewrite elem_of_flagsToIMAP. split.
  - intros (i & Hi & Hb & Hl). pose proof (NoDup_lookup _ _ _ _ Hd Hj Hl) as ->. by rewrite Z2Nat.id in * by done.
  - intros Hb. exists (Z.of_nat j). rewrite Nat2Z.id. split_and!; [lia|done|done].
Qed.

Lemma flagsToBits_bit j f flags :
  system_flags !! j = Some f → Z.testbit (flagsToBits flags) (Z.of_nat j) = true ↔ f ∈ flags.
Proof using Hd.
  intros Hj. rewrite flagsToBits_testbit, Nat2Z.id by (done || lia). rewrite Hj. naive_solver.
Qed.

Lemma new_flags_shown operation old flags f :
  f ∈ flagsToIMAP (new_flags operation old (flagsToBits flags)) ↔
  f ∈ system_flags ∧ stored_flags operation flags (flagsToIMAP old) f.
Proof using Hd.
  assert (∀ b, f ∈ flagsToIMAP b → f ∈ system_flags) as Hsys.
  { intros b (i & _ & _ & Hl)%elem_of_flagsToIMAP. by eapply list_elem_of_lookup_2. }
  assert (f ∈ system_flags → f ∈ flagsToIMAP (new_flags operation old (flagsToBits flags)) ↔
    stored_flags operation flags (flagsToIMAP old) f) as H; [|naive_solver].
  intros [j Hj]%list_elem_of_lookup. rewrite (shown_bit j f _ Hj).
  pose proof (shown_bit j f old Hj) as Ho. pose proof (flagsToBits_bit j f flags Hj) as Hb.
  destruct operation; cbn [new_flags stored_flags];
    rewrite ?Z.lor_spec, ?Z.land_spec, ?Z.lnot_spec, ?Z.bits_0, ?orb_true_iff, ?andb_true_iff, ?negb_true_iff by lia;
    rewrite <- ?not_true_iff_false; tauto || naive_solver.
Qed.
End store_facts.

(** C32.  STORE on a database that does not fail: exactly the messages of the
    selected mailbox whose UID (or sequence number, the count of the mailbox's
    messages up to it) the set contains get new flags, of which a client sees the
    system flags of the command, added to or taken from those it saw before as
    the operation says; every other row of every table stays, and the clients
    waiting on the mailbox are woken. *)
Theorem imap_store_spec `{FN : FlagNames} (m : ImapMailbox) (uid : bool) (seqset : SeqSet) (operation : FlagsOp)
    (flags : list string) (w : World) (n : MailboxNotifier) :
  NoDup system_flags → wf w → w_faults w = [] →
  ∃ stored : Message → Z,
  UpdateMessagesFlags m uid seqset operation flags (w, n) =
  (Ok tt, (set_db (set_messages (mkTable
     ((λ x, if decide (store_hits m uid seqset (w_db w) x) then with_flags (stored x) x else x) <$> rows (messages (w_db w)))
     (seq_ (messages (w_db w)))) (w_db w)) w,
   default n (Notify (ib_mailboxID m) n))) ∧
  ∀ x f, f ∈ flagsToIMAP (stored x) ↔ f ∈ system_flags ∧ stored_flags operation flags (flagsToIMAP (msg_Flags x)) f.
Proof.
  intros Hd Hw Hf. exists (λ x, new_flags operation (msg_Flags x) (flagsToBits flags)).
  split; [|intros x f; by apply new_flags_shown].
  unfold UpdateMessagesFlags. unfold sbind at 1.
  rewrite (lift_run _ w n _ _ (ListMessages_all (ib_mailboxID m) w Hf)). unfold sbind at 1.
  rewrite (lift_run _ w n _ _ (store_loop (λ x, new_flags operation (msg_Flags x) (flagsToBits flags)) _ w
    (proj1 (wf_messages _ Hw)) Hf (selected_NoDup uid seqset w (ib_mailboxID m) Hw)
    (λ p Hp, proj1 (proj1 (selected_rows m uid seqset w p.2 Hw) (list_elem_of_fmap_2 snd _ p Hp))))).
  unfold notify, sbind, sret. cbn [fst snd]. do 5 f_equal. apply list_fmap_ext.
  intros i x Hx%list_elem_of_lookup_2. pose proof (selected_rows m uid seqset w x Hw) as Hsel.
  apply decide_ext. rewrite Hsel. tauto.
Qed.

(** * Witnesses *)
Definition rfc_flags : FlagNames := mkFlagNames "\Seen" "\Answered" "\Flagged" "\Deleted" "\Draft".
#[local] Existing Instance rfc_flags.
Definition demo_inbox : ImapMailbox := mkImapMailbox (mkImapUser 1 "u@example.com") 1 "INBOX".

Lemma imap_flags_roundtrip_witness :
  flagsToBits (flagsToIMAP 108) = 12 ∧ flagsToIMAP (flagsToBits ["\Draft"; "$Junk"; "\Seen"]) = ["\Seen"; "\Draft"].
Proof.
  split; [|vm_compute; reflexivity].
  destruct (imap_flags_roundtrip 108 [] ltac:(apply (bool_decide_unpack _); vm_compute; exact I)) as (_ & E & _). exact E.
Defined.

(** Message 2 of the inbox, by its sequence number. *)
Lemma imap_store_spec_witness :
  let out := UpdateMessagesFlags demo_inbox false (Z.eqb 2) AddFlags ["\Seen"] (demo_world, NewMailboxNotifier) in
  out.1 = Ok tt ∧ msg_Flags <$> rows (messages (w_db out.2.1)) = [0; 9; 1] ∧
  ∃ fl, (∀ f, f ∈ flagsToIMAP fl ↔ f ∈ system_flags ∧ (f ∈ ["\Deleted"] ∨ f ∈ ["\Seen"])) ∧
    rows (messages (w_db out.2.1)) !! 1%nat = with_flags fl <$> rows (messages (w_db demo_world)) !! 1%nat.
Proof.
  intros out. destruct (imap_store_spec demo_inbox false (Z.eqb 2) AddFlags ["\Seen"] demo_world NewMailboxNotifier
    ltac:(apply (bool_decide_unpack _); vm_compute; exact I) demo_wf eq_refl) as (stored & E & H).
  split; [exact (f_equal fst E)|]. split; [vm_compute; reflexivity|].
  destruct (rows (messages (w_db demo_world)) !! 1%nat) as [x|] eqn:Ex; [|discriminate].
  exists (stored x). split.
  - intros f. rewrite (H x f). injection Ex as <-. reflexivity.
  - unfold out. rewrite E. injection Ex as <-. reflexivity.
Defined.

Lemma imap_expunge_equiv_witness :
  msg_ID <$> rows (messages (w_db (Expunge demo_inbox (demo_world, NewMailboxNotifier)).2.1)) = [1; 3].
Proof.
  rewrite (imap_expunge_equiv demo_inbox demo_world NewMailboxNotifier demo_wf eq_refl). vm_compute. reflexivity.
Defined.

Lemma imap_append_uidnext_witness :
  ∃ st, (Status demo_inbox demo_world).1 = Ok st ∧ st_UidNext st = 3 ∧ st_Messages st = 2 ∧
  (Mailbox_CreateMessage (S := SQLiteStore toy_digest) demo_inbox ["\Seen"] 0 (mkLiteral (Ok "hi") 0)
     (demo_world, NewMailboxNotifier)).1 = Ok tt.
Proof.
  destruct (imap_append_uidnext (S := SQLiteStore toy_digest) toy_digest demo_inbox ["\Seen"] 0 0 "hi" demo_world
    NewMailboxNotifier demo_wf eq_refl) as (st & st' & id & E1 & E2 & _).
  - vm_compute. left.
  - intros x Hx _. vm_compute in Hx. repeat (apply elem_of_cons in Hx as [->|Hx]; [vm_compute; reflexivity|]). by apply elem_of_nil in Hx.
  - intros d. vm_compute. discriminate.
  - exists st. split; [exact E1|]. revert E1. vm_compute. intros [= <-]. split; [reflexivity|]. split; [reflexivity|exact E2].
Defined.
