(* ===== verification/ImapIsolation.v ===== *)
(** The IMAP callbacks of one user leave everybody else's mail alone: the
    operations of Imap, called in any order on any mailbox the user was given. *)
From S2P Require Import Prelude GoLib Cache Sql Schema World StoreUsers StoreMail Ownership Search Auth Blob Notifier Imap ImapSpec.

Lemma mbox_mine_evolves u M M' id : mbox_evolves M M' → mbox_mine u M id → mbox_mine u M' id.
Proof.
  intros [Hs He] [Hi Hu]. split; [lia|]. intros b Hb E.
  destruct (He b Hb) as [(b0 & Hb0 & E1 & E2)|Hlt]; [|lia]. rewrite <- E2. apply Hu; [done|congruence].
Qed.

(** * Operations that leave the table of mailboxes alone *)
Section fixed.
Context `{MR : MapRange} (u : Z) (M : table Mailbox) (F : list Message).
#[local] Notation world_iso := (world_iso u M F).
#[local] Notation msg_mine := (msg_mine u M).

Lemma world_iso_reads {A} (m : state World A) : pres wf m → (∀ P, pres (on_db P) m) → pres world_iso m.
Proof.
  intros Hw Hm w (Hwf & HP). split; [by apply Hw|].
  apply (Hm (λ d, mailboxes d = M ∧ filter (λ m, ¬ mine u M m) (rows (messages d)) = F)), HP.
Qed.

Lemma world_iso_frame {A} (m : state World A) : pres wf m → (∀ w, store_frame w (m w).2) → pres world_iso m.
Proof.
  intros Hw Hf w (Hwf & HM & HF). split; [by apply Hw|]. destruct (Hf w) as (b & f & fs & ->). done.
Qed.

Lemma ListMessages_own mb l n w :
  world_iso w → mbox_mine u M mb →
  world_iso (ListMessages mb l n w).2 ∧
  ∀ msgs, (ListMessages mb l n w).1 = Ok msgs → ∀ m, m ∈ msgs → msg_mine (w_db (ListMessages mb l n w).2) (msg_ID m).
Proof.
  intros Hi Hb. unfold ListMessages, sbind.
  destruct (query_cases (λ d, Ok (sql_list_messages mb l n d)) w) as [[fs ->]|[fs ->]]; (split; [exact Hi|]); [done|].
  intros msgs [= <-] m Hm x Hx E. change (x ∈ rows (messages (w_db w))) in Hx.
  assert (m ∈ rows (messages (w_db w)) ∧ msg_MailboxID m = mb) as [Hin Emb].
  { unfold sql_list_messages in Hm.
    assert (m ∈ order_by uid_desc (select (λ m, msg_MailboxID m = mb ∧ (0 < n → n < msg_UID m)) (messages (w_db w)))) as H.
    { destruct (0 <? l); [|done]. by apply elem_of_take in Hm as (i & Hm%list_elem_of_lookup_2 & _). }
    unfold order_by in H. rewrite order_by_perm in H. by apply elem_of_select in H as [[]]. }
  assert (x = m) as ->. { apply (unique_inj msg_ID (messages (w_db w))); [apply (wf_messages _ (proj1 Hi))|done..]. }
  apply (fk_mine u M F w); [done..|]. by rewrite Emb.
Qed.

Lemma world_iso_DeleteMessage id w :
  world_iso w → msg_mine (w_db w) id →
  world_iso (DeleteMessage id w).2 ∧ ∀ i, msg_mine (w_db w) i → msg_mine (w_db (DeleteMessage id w).2) i.
Proof.
  intros (Hw & HM & HF) Hid. pose proof (DeleteMessage_wf id w Hw) as Hw'. revert Hw'. unfold DeleteMessage, sbind.
  destruct (stmt_cases (sql_delete_message id) w) as [[fs ->]|[fs ->]]; [done|]. cbn [sql_delete_message fst snd].
  assert (∀ w', w_db w' = delete_messages (λ m, msg_ID m = id) (w_db w) → wf w' →
    world_iso w' ∧ ∀ i, msg_mine (w_db w) i → msg_mine (w_db w') i) as Hgoal.
  { intros w' E Hwf. rewrite E. split; [split; [done|split; [by rewrite E|]]|].
    - rewrite E, <- HF. apply filter_delete_rows. intros m Hm Em Hn. by apply Hn, (Hid m).
    - intros i Hi m [_ Hm]%elem_of_delete. by apply Hi. }
  destruct (_ =? 0); intros Hw'; by apply Hgoal.
Qed.

(** A loop over messages of [u], each step of which keeps them messages of [u]. *)
Lemma world_iso_messages {A} (key : A → Z) (l : list A) (body : A → state World (option error)) :
  (∀ x w, world_iso w → msg_mine (w_db w) (key x) →
     world_iso (body x w).2 ∧ ∀ i, msg_mine (w_db w) i → msg_mine (w_db (body x w).2) i) →
  ∀ w, world_iso w → (∀ x, x ∈ l → msg_mine (w_db w) (key x)) → world_iso (sfor l body w).2.
Proof.
  intros Hb w Hi Hl.
  assert (pres (λ w, world_iso w ∧ ∀ x, x ∈ l → msg_mine (w_db w) (key x)) (sfor l body)) as H.
  { apply pres_for. intros x Hx w1 [Hi1 Hl1]. destruct (Hb x w1 Hi1 (Hl1 x Hx)) as [Hi2 Hk].
    split; [done|]. intros y Hy. by apply Hk, Hl1. }
  by apply H.
Qed.
End fixed.

(** * Operations on the mailboxes of [u] *)
Section owner.
Context `{MR : MapRange} (u : Z) (MO : list Mailbox) (F : list Message).

(** The mailboxes and messages of the other users are [MO] and [F], and the
    mailboxes in [ids] are not theirs. *)
Record others_kept (ids : list Z) (d : DB) : Prop := mk_others_kept {
  ok_wf : db_wf d;
  ok_mailboxes : filter (λ b, mbox_UserID b ≠ u) (rows (mailboxes d)) = MO;
  ok_messages : filter (λ m, ¬ mine u (mailboxes d) m) (rows (messages d)) = F;
  ok_ids id : id ∈ ids → mbox_mine u (mailboxes d) id }.

Lemma others_kept_stmt {A} (f : DB → res A * DB) ids d :
  stmt_ok f → mbox_ok f → others_kept ids d →
  filter (λ b, mbox_UserID b ≠ u) (rows (mailboxes (f d).2)) = filter (λ b, mbox_UserID b ≠ u) (rows (mailboxes d)) →
  filter (λ m, ¬ mine u (mailboxes (f d).2) m) (rows (messages (f d).2)) =
  filter (λ m, ¬ mine u (mailboxes d) m) (rows (messages d)) →
  others_kept ids (f d).2.
Proof.
  intros Hf Hm [H1 H2 H3 H4] E1 E2. constructor; [by apply Hf|congruence|congruence|].
  intros id Hid. eapply mbox_mine_evolves; [apply Hm|by apply H4].
Qed.

Lemma insert_mailbox_kept n ids d : others_kept ids d → others_kept ids (sql_insert_mailbox u n d).2.
Proof.
  intros Hd. apply others_kept_stmt; [auto with stmts..|done| |]; unfold sql_insert_mailbox;
    (case_decide; [done|]); (case_decide; [|done]); cbn.
  - rewrite filter_app, filter_cons_False, filter_nil, app_nil_r; [done|]. cbn. tauto.
  - apply filter_agree. intros m Hm. unfold mine. cbn. rewrite fmap_app, elem_of_app.
    assert (msg_MailboxID m ≤ seq_ (mailboxes d)) as Hle.
    { pose proof (wf_msg_fk _ (ok_wf _ _ Hd)) as Hfk. unfold references in Hfk. rewrite Forall_forall in Hfk.
      apply Hfk in Hm. apply list_elem_of_fmap in Hm as (b & -> & Hb).
      destruct (wf_mailboxes _ (ok_wf _ _ Hd)) as [_ Hs]. rewrite Forall_forall in Hs. by apply Hs. }
    cbn. rewrite list_elem_of_singleton. assert (msg_MailboxID m ≠ seq_ (mailboxes d) + 1) by lia. naive_solver.
Qed.

Lemma delete_mailbox_kept id ids d : id ∈ ids → others_kept ids d → others_kept ids (sql_delete_mailbox id d).2.
Proof.
  intros Hid Hd. destruct (ok_ids _ _ Hd id Hid) as [_ Hu]. apply others_kept_stmt; [auto with stmts..|done| |].
  - apply filter_delete_rows. intros b Hb E Hn. by apply Hn, Hu.
  - cbn. set (gone := mbox_ID <$> select (λ b, mbox_ID b = id) (mailboxes d)).
    assert (∀ m, msg_MailboxID m ∈ gone → mine u (mailboxes d) m) as Hgone.
    { intros m (b & E & [<- Hb]%elem_of_select)%list_elem_of_fmap. apply list_elem_of_fmap. exists b.
      split; [|done]. rewrite E. f_equal. symmetry. by apply Hu. }
    transitivity (filter (λ m, ¬ mine u (mailboxes d) m) (rows (delete_rows (λ m, msg_MailboxID m ∈ gone) (messages d)))).
    + apply filter_agree. intros m [Hm _]%elem_of_delete. apply not_iff_compat. unfold mine. rewrite !list_elem_of_fmap.
      split; intros (b & E & Hb); exists b; (split; [done|]); [by apply elem_of_delete in Hb as [_ Hb]|].
      apply elem_of_delete. split; [|done]. intros Eb. apply Hm. injection E as -> _.
      apply list_elem_of_fmap. exists b. split; [done|]. by apply elem_of_select.
    + apply filter_delete_rows. intros m _ Hm Hn. by apply Hn, Hgone.
Qed.

Lemma rename_mailbox_kept id n ids d : id ∈ ids → others_kept ids d → others_kept ids (sql_rename_mailbox id n d).2.
Proof.
  intros Hid Hd. destruct (ok_ids _ _ Hd id Hid) as [_ Hu].
  apply others_kept_stmt; [auto with stmts..|done| |]; unfold sql_rename_mailbox; (case_decide; [|done]); cbn.
  - apply filter_update_rows. intros b Hb E. specialize (Hu b Hb E). cbn. tauto.
  - apply filter_agree. intros m _. unfold mine. cbn. rewrite <- list_fmap_compose.
    rewrite (list_fmap_ext _ (λ b, (mbox_ID b, mbox_UserID b)) (rows (mailboxes d))); [done|].
    intros i b _. cbn. by case_decide.
Qed.

Lemma others_kept_cons id ids d : others_kept (id :: ids) d → others_kept ids d.
Proof. intros [H1 H2 H3 H4]. constructor; try done. intros i Hi. apply H4. by right. Qed.

(** The same of the process, and the operations of user.go. *)
Definition owner_inv (ids : list Z) (w : World) : Prop := wf w ∧ on_db (others_kept ids) w.

Lemma owner_inv_of {A} ids (m : state World A) : pres wf m → pres (on_db (others_kept ids)) m → pres (owner_inv ids) m.
Proof. intros H1 H2 w [Hw Hd]. split; [by apply H1|by apply H2]. Qed.

Lemma owner_inv_after ids w w' : owner_inv ids w → world_iso u (mailboxes (w_db w)) F w' → owner_inv ids w'.
Proof.
  intros [_ Hd] (Hw & HM & HF). split; [done|]. unfold on_db in *.
  constructor; [apply Hw|rewrite HM; apply (ok_mailboxes ids _ Hd)|by rewrite HM|].
  intros id Hid. rewrite HM. by apply (ok_ids ids _ Hd).
Qed.

Lemma owner_inv_iso ids w : owner_inv ids w → world_iso u (mailboxes (w_db w)) F w.
Proof. intros [Hw Hd]. split; [done|split; [done|apply (ok_messages ids _ Hd)]]. Qed.

Lemma owner_CreateMailbox n ids : pres (owner_inv ids) (CreateMailbox u n).
Proof.
  apply owner_inv_of; [auto with pres|]. unfold CreateMailbox. pres_walk. apply on_db_stmt. intros d. apply insert_mailbox_kept.
Qed.

Lemma owner_DeleteMailbox id ids : id ∈ ids → pres (owner_inv ids) (DeleteMailbox id).
Proof.
  intros Hid. apply owner_inv_of; [auto with pres|]. unfold DeleteMailbox, GetMailboxByID. pres_walk.
  apply on_db_stmt. intros d. by apply delete_mailbox_kept.
Qed.

Lemma owner_RenameMailbox id n ids : id ∈ ids → pres (owner_inv ids) (RenameMailbox id n).
Proof.
  intros Hid. apply owner_inv_of; [auto with pres|]. unfold RenameMailbox. pres_walk.
  apply on_db_stmt. intros d. by apply rename_mailbox_kept.
Qed.

Lemma owner_GetMailbox n ids :
  tri (owner_inv ids) (GetMailbox u n)
    (λ r, match r with Ok b => owner_inv (mbox_ID b :: ids) | Err _ => owner_inv ids end).
Proof.
  intros w Hi. pose proof (GetMailbox_iso u _ F n w (owner_inv_iso ids w Hi)) as (Hiso & _ & Hb).
  assert (owner_inv ids (GetMailbox u n w).2) as Hi'.
  { by apply (owner_inv_after ids w). }
  destruct (GetMailbox u n w) as [[b|e] w']; cbn [fst snd] in *; [|done].
  destruct Hi' as [Hw Hd]. split; [done|]. destruct Hd as [H1 H2 H3 H4]. constructor; try done.
  intros id [->|Hid]%elem_of_cons; [|by apply H4]. rewrite (proj1 (proj2 Hiso)). by apply Hb.
Qed.
End owner.

(** * The callbacks on a mailbox *)
Section callbacks.
Context `{MR : MapRange} `{S : Store} `{FN : FlagNames} (digest : string → string) `{!StoreSpec S digest}.
Context (fts5_match : string → list Message → res (list Message)).
Context (u : Z) (M : table Mailbox) (F : list Message).
#[local] Notation world_iso := (world_iso u M F).

Definition im_iso (s : IM) : Prop := world_iso s.1.

Lemma im_iso_lift {A} (m : state World A) : pres world_iso m → pres im_iso (lift m).
Proof using. apply pres_lift. Qed.
Lemma im_iso_notify mb : pres im_iso (notify mb).
Proof using. by intros [w n] Hw. Qed.
Lemma im_iso_reads {A} (m : state World A) : pres wf m → (∀ P, pres (on_db P) m) → pres im_iso (lift m).
Proof using. intros H1 H2. by apply im_iso_lift, world_iso_reads. Qed.

Lemma world_iso_blob_Get k : pres world_iso (Blob.Get k).
Proof using StoreSpec0. apply world_iso_frame; [by eapply Get_store_wf|apply Get_frame]. Qed.
Lemma world_iso_blob_Put r : pres world_iso (Put r).
Proof using StoreSpec0. apply world_iso_frame; [by eapply Put_store_wf|apply Put_frame]. Qed.
Hint Resolve im_iso_notify world_iso_blob_Get world_iso_blob_Put : pres.

Lemma im_iso_Status m : pres im_iso (lift (Status m)).
Proof using. apply im_iso_reads; [auto with pres|]. intros P. unfold Status, CountMessages, ListMessages. pres_walk. Qed.

Lemma im_iso_Search m uid text : pres im_iso (lift (Mailbox_SearchMessages fts5_match m uid text)).
Proof using.
  apply im_iso_reads; [auto with pres|]. intros P. unfold Mailbox_SearchMessages, SearchMessages, ListMessageUIDs. pres_walk.
Qed.

Lemma world_iso_ListMessages mb l n : pres world_iso (ListMessages mb l n).
Proof using. apply world_iso_reads; [auto with pres|]. intros P. unfold ListMessages. pres_walk. Qed.

Lemma world_iso_fetch_items msg items im : pres world_iso (fetch_items msg items im).
Proof using StoreSpec0.
  revert im. induction items as [|item items IH]; intros im; [apply pres_ret|]. cbn [fetch_items].
  apply pres_bind; [|intros; apply IH]. unfold fetch_item. destruct item; pres_walk.
Qed.

Lemma im_iso_Fetch m uid s items : pres im_iso (lift (Mailbox_ListMessages m uid s items)).
Proof using StoreSpec0.
  apply im_iso_lift. unfold Mailbox_ListMessages. apply pres_bind; [apply world_iso_ListMessages|].
  intros [l|e]; [|apply pres_ret]. induction (List.filter _ _) as [|[seq msg] ms IH]; cbn [fetch_messages]; [apply pres_ret|].
  apply pres_bind; [apply world_iso_fetch_items|intros; apply pres_bind; [exact IH|intros; apply pres_ret]].
Qed.

Lemma im_iso_CreateMessage m flags date body :
  mbox_mine u M (ib_mailboxID m) → pres im_iso (Mailbox_CreateMessage m flags date body).
Proof using StoreSpec0.
  intros Hm. unfold Mailbox_CreateMessage. apply pres_bind; [apply im_iso_lift, world_iso_blob_Put|].
  intros [[key n]|e]; [|apply pres_ret]. apply pres_bind; [by apply im_iso_lift, world_iso_InsertMessage|].
  intros [x|e]; [|apply pres_ret]. apply pres_bind; [apply im_iso_notify|intros; apply pres_ret].
Qed.

Lemma elem_of_selected uid s msgs p : p ∈ List.filter (selected uid s) (numbered msgs) → p.2 ∈ msgs.
Proof using.
  intros [H _]%list_elem_of_In%filter_In. apply list_elem_of_In in H. unfold numbered in H.
  apply elem_of_lookup_imap in H as (i & m & -> & H%list_elem_of_lookup_2). rewrite elem_of_reverse in H. exact H.
Qed.

(** What STORE and EXPUNGE have in common: read the mailbox, then change some of
    the messages read, one after the other. *)
Lemma im_iso_each {B A} (mb : Z) (key : A → Z) (sel : list Message → list A) (body : A → state World (option error))
    (k : option error → state IM B) (err : error → state IM B) :
  mbox_mine u M mb → (∀ msgs x, x ∈ sel msgs → ∃ m, m ∈ msgs ∧ key x = msg_ID m) →
  (∀ x w, world_iso w → msg_mine u M (w_db w) (key x) →
     world_iso (body x w).2 ∧ ∀ i, msg_mine u M (w_db w) i → msg_mine u M (w_db (body x w).2) i) →
  (∀ o, pres im_iso (k o)) → (∀ e, pres im_iso (err e)) →
  pres im_iso (let! r := lift (ListMessages mb 0 0) in
               match r with Err e => err e | Ok msgs => let! stop := lift (sfor (sel msgs) body) in k stop end).
Proof using.
  intros Hmb Hsel Hbody Hk He [w n] Hi. unfold sbind at 1, lift at 1. cbn [fst snd].
  destruct (ListMessages_own u M F mb 0 0 w Hi Hmb) as [Hi' Hown].
  destruct (ListMessages mb 0 0 w) as [[msgs|e] w']; cbn [fst snd] in *; [|by apply He].
  unfold sbind, lift. cbn [fst snd].
  assert (world_iso (sfor (sel msgs) body w').2) as Hl.
  { apply (world_iso_messages u M F key); [done|done|]. intros x (m & Hm & ->)%Hsel. by apply (Hown msgs eq_refl). }
  destruct (sfor _ _ w') as [o w2]. by apply Hk.
Qed.

Lemma im_iso_Store m uid s op flags :
  mbox_mine u M (ib_mailboxID m) → pres im_iso (UpdateMessagesFlags m uid s op flags).
Proof using.
  intros Hm. unfold UpdateMessagesFlags.
  apply (im_iso_each (ib_mailboxID m) (λ p : Z * Message, msg_ID p.2) (λ msgs, List.filter (selected uid s) (numbered msgs)));
    [done| | | |intros; apply pres_ret].
  - intros msgs p Hp%elem_of_selected. by exists p.2.
  - intros p w Hi Hp. unfold sbind. destruct (world_iso_UpdateFlags u M F (msg_ID p.2)
      (new_flags op (msg_Flags p.2) (flagsToBits flags)) (-1) w Hi Hp) as [H1 H2].
    by destruct (UpdateFlags _ _ _ w) as [[]].
  - intros [e|]; [apply pres_ret|]. apply pres_bind; [apply im_iso_notify|intros; apply pres_ret].
Qed.

Lemma im_iso_Expunge m : mbox_mine u M (ib_mailboxID m) → pres im_iso (Expunge m).
Proof using.
  intros Hm. unfold Expunge.
  apply (im_iso_each (ib_mailboxID m) msg_ID (λ msgs, msgs)); [done|eauto| | |intros; apply pres_ret].
  - intros x w Hi Hx. case_match; [done|]. unfold sbind.
    destruct (world_iso_DeleteMessage u M F (msg_ID x) w Hi Hx) as [H1 H2]. by destruct (DeleteMessage _ w) as [[]].
  - intros [e|]; [apply pres_ret|]. apply pres_bind; [apply im_iso_notify|intros; apply pres_ret].
Qed.

Lemma im_iso_Copy m uid s dest : iu_userID (ib_user m) = u → pres im_iso (CopyMessages m uid s dest).
Proof using.
  intros Hu. unfold CopyMessages. rewrite Hu. apply pres_tri.
  apply (tri_bind _ (λ r s, im_iso s ∧ ∀ b, r = Ok b → mbox_mine u M (mbox_ID b))).
  - intros [w n] Hi. destruct (GetMailbox_iso u M F dest w Hi) as (Hi' & _ & Hb). unfold lift. cbn [fst snd].
    by destruct (GetMailbox u dest w).
  - intros [b|e]; [|apply tri_ret; by intros s0 []]. intros s0 [Hs Hb]. specialize (Hb b eq_refl). revert s0 Hs.
    refine (_ : pres im_iso _). apply pres_bind; [apply im_iso_lift, world_iso_ListMessages|]. intros [msgs|e]; [|apply pres_ret].
    apply pres_bind; [apply im_iso_lift, pres_for; intros p _|].
    + apply pres_bind; [by apply world_iso_InsertMessage|]. intros [x|e]; apply pres_ret.
    + intros [e|]; [apply pres_ret|]. pres_walk.
Qed.
End callbacks.

(** * A client *)
(** The callbacks for a logged-in user: those of the user object, and those of the
    [h]-th mailbox object it was given. *)
Inductive imap_callback :=
  | OnListMailboxes | OnGetMailbox (name : string) | OnCreateMailbox (name : string) | OnDeleteMailbox (name : string)
  | OnRenameMailbox (existingName newName : string)
  | OnStatus (h : nat) | OnListMessages (h : nat) (uid : bool) (s : SeqSet) (items : list FetchItem)
  | OnSearchMessages (h : nat) (uid : bool) (text : list string)
  | OnCreateMessage (h : nat) (flags : list string) (date : Z) (body : Literal)
  | OnUpdateMessagesFlags (h : nat) (uid : bool) (s : SeqSet) (op : FlagsOp) (flags : list string)
  | OnCopyMessages (h : nat) (uid : bool) (s : SeqSet) (dest : string)
  | OnExpunge (h : nat).

(** The process, the notifier, and the mailbox objects handed out so far. *)
Definition ImapClient : Type := IM * list ImapMailbox.

Section client.
Context `{MR : MapRange} `{S : Store} `{FN : FlagNames} (fts5_match : string → list Message → res (list Message)).

Definition for_user {A} (m : state World (res A)) (grant : A → list ImapMailbox) : state ImapClient unit := λ s,
  let '(r, w) := m s.1.1 in (tt, ((w, s.1.2), s.2 ++ match r with Ok a => grant a | Err _ => [] end)).

Definition for_mailbox {A} (h : nat) (k : ImapMailbox → state IM A) : state ImapClient unit := λ s,
  match s.2 !! h with Some m => (tt, ((k m s.1).2, s.2)) | None => (tt, s) end.

Definition run_callback (u : ImapUser) (c : imap_callback) : state ImapClient unit :=
  match c with
  | OnListMailboxes => for_user (User_ListMailboxes u) (λ l, l)
  | OnGetMailbox n => for_user (User_GetMailbox u n) (λ m, [m])
  | OnCreateMailbox n => for_user (User_CreateMailbox u n) (λ _, [])
  | OnDeleteMailbox n => for_user (User_DeleteMailbox u n) (λ _, [])
  | OnRenameMailbox a b => for_user (User_RenameMailbox u a b) (λ _, [])
  | OnStatus h => for_mailbox h (λ m, lift (Status m))
  | OnListMessages h uid s items => for_mailbox h (λ m, lift (Mailbox_ListMessages m uid s items))
  | OnSearchMessages h uid text => for_mailbox h (λ m, lift (Mailbox_SearchMessages fts5_match m uid text))
  | OnCreateMessage h flags date body => for_mailbox h (λ m, Mailbox_CreateMessage m flags date body)
  | OnUpdateMessagesFlags h uid s op flags => for_mailbox h (λ m, UpdateMessagesFlags m uid s op flags)
  | OnCopyMessages h uid s dest => for_mailbox h (λ m, CopyMessages m uid s dest)
  | OnExpunge h => for_mailbox h Expunge
  end.

Fixpoint run_callbacks (u : ImapUser) (cs : list imap_callback) : state ImapClient unit :=
  match cs with
  | [] => sret tt
  | c :: cs => do! run_callback u c in run_callbacks u cs
  end.

Context (digest : string → string) `{!StoreSpec S digest} (u : ImapUser) (MO : list Mailbox) (F : list Message).
#[local] Notation id := (iu_userID u).

Definition client_inv (s : ImapClient) : Prop :=
  owner_inv id MO F (ib_mailboxID <$> s.2) s.1.1 ∧ Forall (λ m, ib_user m = u) s.2.

Lemma owner_inv_more ids ids' w :
  owner_inv id MO F ids w → (∀ i, i ∈ ids' → mbox_mine id (mailboxes (w_db w)) i) → owner_inv id MO F (ids ++ ids') w.
Proof using.
  intros [Hw [H1 H2 H3 H4]] H. split; [done|]. constructor; try done.
  intros i [Hi|Hi]%elem_of_app; [by apply H4|by apply H].
Qed.

Lemma client_for_user {A} (m : state World (res A)) grant :
  (∀ ids, tri (owner_inv id MO F ids) m (λ r w, owner_inv id MO F ids w ∧
     ∀ a, r = Ok a → Forall (λ b, ib_user b = u ∧ mbox_mine id (mailboxes (w_db w)) (ib_mailboxID b)) (grant a))) →
  pres client_inv (for_user m grant).
Proof using.
  intros Hm [[w n] hs] [Hi Hu]. unfold for_user. cbn [fst snd] in *. destruct (Hm _ w Hi) as [Hi' Hg].
  destruct (m w) as [[a|e] w']; cbn [fst snd] in *; split; cbn [fst snd]; rewrite ?app_nil_r; try done.
  - rewrite fmap_app. apply owner_inv_more; [done|]. intros i (b & -> & Hb)%list_elem_of_fmap.
    specialize (Hg a eq_refl). rewrite Forall_forall in Hg. by apply Hg.
  - apply Forall_app. split; [done|]. eapply Forall_impl; [by apply Hg|]. by intros b [].
Qed.

Lemma client_no_grant {A} (m : state World (res A)) :
  (∀ ids, pres (owner_inv id MO F ids) m) → pres client_inv (for_user m (λ _, [])).
Proof using. intros Hm. apply client_for_user. intros ids w Hi. split; [by apply Hm|]. by constructor. Qed.

Lemma client_for_mailbox {A} h (k : ImapMailbox → state IM A) :
  (∀ M m, mbox_mine id M (ib_mailboxID m) → ib_user m = u → pres (im_iso id M F) (k m)) →
  pres client_inv (for_mailbox h k).
Proof using.
  intros Hk [[w n] hs] [Hi Hu]. unfold for_mailbox. cbn [fst snd] in *. destruct (hs !! h) as [m|] eqn:E; [|done].
  apply list_elem_of_lookup_2 in E. rewrite Forall_forall in Hu. split; [|by rewrite Forall_forall]. cbn [fst snd].
  apply (owner_inv_after id MO F _ w); [done|]. apply (Hk (mailboxes (w_db w)) m); [|by apply Hu|by eapply owner_inv_iso].
  destruct Hi as [_ Hd]. apply (ok_ids _ _ _ _ _ Hd). by apply list_elem_of_fmap_2.
Qed.

Lemma client_ListMailboxes : pres client_inv (for_user (User_ListMailboxes u) (λ l, l)).
Proof using.
  apply client_for_user. intros ids w Hi. unfold User_ListMailboxes, ListMailboxes, sbind.
  match goal with |- context [query ?f w] => destruct (query_cases f w) as [[fs ->]|[fs ->]] end; (split; [exact Hi|]); [done|].
  intros l [= <-]. apply Forall_forall. intros b (x & -> & Hx)%list_elem_of_fmap. split; [done|]. unfold order_by in Hx.
  rewrite order_by_perm in Hx. apply elem_of_select in Hx as [E Hx]. cbn.
  apply (row_mbox_mine id _ F w); [by eapply owner_inv_iso|done..].
Qed.

Lemma client_GetMailbox n : pres client_inv (for_user (User_GetMailbox u n) (λ m, [m])).
Proof using.
  apply client_for_user. intros ids w Hi. unfold User_GetMailbox, sbind.
  pose proof (owner_GetMailbox id MO F n ids w Hi) as H. destruct (GetMailbox id n w) as [[b|e] w']; cbn [fst snd sret] in *; [|done].
  split.
  - destruct H as [Hw Hd]. split; [done|]. by eapply others_kept_cons.
  - intros a [= <-]. apply Forall_singleton. split; [done|]. destruct H as [_ Hd]. apply (ok_ids _ _ _ _ _ Hd). left.
Qed.

Lemma client_GetMailbox_then {A} n (k : Mailbox → state World (res A)) :
  (∀ b ids, mbox_ID b ∈ ids → pres (owner_inv id MO F ids) (k b)) →
  ∀ ids, pres (owner_inv id MO F ids)
    (let! r := GetMailbox id n in match r with Err e => sret (Err e) | Ok b => k b end).
Proof using.
  intros Hk ids. apply pres_tri. eapply tri_bind; [apply owner_GetMailbox|]. intros [b|e]; [|by apply tri_ret].
  intros w Hi. destruct (Hk b (mbox_ID b :: ids) ltac:(left) w Hi) as [Hw Hd]. split; [done|]. by eapply others_kept_cons.
Qed.

Lemma run_callback_inv c : pres client_inv (run_callback u c).
Proof using StoreSpec0.
  destruct c; cbn [run_callback].
  - apply client_ListMailboxes.
  - apply client_GetMailbox.
  - apply client_no_grant. intros ids. unfold User_CreateMailbox.
    apply pres_bind; [apply owner_CreateMailbox|]. intros [x|e]; apply pres_ret.
  - apply client_no_grant, client_GetMailbox_then. intros b ids Hb. by apply owner_DeleteMailbox.
  - apply client_no_grant, client_GetMailbox_then. intros b ids Hb. by apply owner_RenameMailbox.
  - apply client_for_mailbox. intros M m _ _. apply im_iso_Status.
  - apply client_for_mailbox. intros M m _ _. by eapply im_iso_Fetch.
  - apply client_for_mailbox. intros M m _ _. apply im_iso_Search.
  - apply client_for_mailbox. intros M m Hm _. by eapply im_iso_CreateMessage.
  - apply client_for_mailbox. intros M m Hm _. by apply im_iso_Store.
  - apply client_for_mailbox. intros M m _ Hu. apply im_iso_Copy. by rewrite Hu.
  - apply client_for_mailbox. intros M m Hm _. by apply im_iso_Expunge.
Qed.
End client.

(** C8.  Isolation of IMAP users: whatever sequence of callbacks is made for a
    logged-in user, on any of the mailboxes it was handed, with any statement or
    blob operation failing: the mailboxes of every other user and the messages in
    them are exactly the rows they were, and every mailbox object handed out
    carries an ID that no mailbox of another user has or will get. *)
Theorem imap_isolation `{MR : MapRange} `{S : Store} `{FN : FlagNames} (digest : string → string) `{!StoreSpec S digest}
    (fts5_match : string → list Message → res (list Message)) (u : ImapUser) (cs : list imap_callback)
    (w : World) (n : MailboxNotifier) :
  wf w →
  let s' := (run_callbacks fts5_match u cs (w, n, [])).2 in
  let w' := s'.1.1 in
  let others d := filter (λ b, mbox_UserID b ≠ iu_userID u) (rows (mailboxes d)) in
  let others_mail d := filter (λ m, ¬ mine (iu_userID u) (mailboxes d) m) (rows (messages d)) in
  wf w' ∧ others (w_db w') = others (w_db w) ∧ others_mail (w_db w') = others_mail (w_db w) ∧
  Forall (λ m, mbox_mine (iu_userID u) (mailboxes (w_db w')) (ib_mailboxID m)) s'.2.
Proof.
  intros Hw s' w' others others_mail.
  assert (pres (client_inv u (others (w_db w)) (others_mail (w_db w))) (run_callbacks fts5_match u cs)) as Hr.
  { clear s' w'. induction cs as [|c cs IH]; cbn [run_callbacks]; [apply pres_ret|].
    apply pres_bind; [by eapply run_callback_inv|intros; apply IH]. }
  destruct (Hr (w, n, [])) as [[Hw' [_ H1 H2 H3]] Hu].
  { split; [split; [done|]|by constructor]. constructor; try done. intros i Hi. by apply elem_of_nil in Hi. }
  split_and!; try done. apply Forall_forall. intros m Hm. apply H3. by apply list_elem_of_fmap_2.
Qed.

(** Two users, each with an INBOX; the second user's message is no business of the first. *)
Definition demo_two : World :=
  let msg id mb fl := mkMessage id mb 1 "k" 10 fl 100 "a@x" "u@example.com" "s" in
  set_db (set_messages (mkTable [msg 1 1 0; msg 2 2 FlagDeleted] 2)
   (set_mailboxes (mkTable [mkMailbox 1 1 "INBOX"; mkMailbox 2 2 "INBOX"] 2)
    (set_users (mkTable [mkUser 1 "u@example.com" "h" false 50 true; mkUser 2 "v@example.com" "h" false 60 true] 2) empty_db)))
    (init_world (1000 * second)).

Lemma demo_two_wf : wf demo_two.
Proof.
  apply wf_cold; [done|]. constructor; cbn; try (split; [|repeat constructor; cbn; lia]);
    try (apply (bool_decide_unpack _); vm_compute; exact I); repeat constructor; cbn; lia.
Qed.

Definition demo_callbacks : list imap_callback :=
  [OnCreateMailbox "Work"; OnListMailboxes; OnCopyMessages 0 false (λ _, true) "Work";
   OnUpdateMessagesFlags 0 false (λ _, true) AddFlags ["\Deleted"]; OnExpunge 0;
   OnRenameMailbox "Work" "Play"; OnDeleteMailbox "INBOX"].

Lemma imap_isolation_witness :
  let s' := (run_callbacks (S := SQLiteStore toy_digest) (FN := rfc_flags) (λ _ l, Ok l) (mkImapUser 1 "u@example.com") demo_callbacks
              (demo_two, NewMailboxNotifier, [])).2 in
  rows (mailboxes (w_db s'.1.1)) = [mkMailbox 2 2 "INBOX"; mkMailbox 3 1 "Play"] ∧
  (msg_ID <$> rows (messages (w_db s'.1.1))) = [2; 3] ∧
  filter (λ b, mbox_UserID b ≠ 1) (rows (mailboxes (w_db s'.1.1))) = [mkMailbox 2 2 "INBOX"].
Proof.
  intros s'. split; [vm_compute; reflexivity|]. split; [vm_compute; reflexivity|].
  exact (proj1 (proj2 (imap_isolation (S := SQLiteStore toy_digest) (FN := rfc_flags) toy_digest (λ _ l, Ok l)
    (mkImapUser 1 "u@example.com") demo_callbacks demo_two NewMailboxNotifier demo_two_wf))).
Defined.
