(* ===== verification/Api.v ===== *)
(** The HTTP API (src/pkg/api/{handlers,mail,middleware,router}.go): each handler
    as a function from the request and the state of the process to the response.
    A request is what [net/http] hands over: the method, the path as its
    segments, the Authorization header, the query, and the body as the JSON value
    that [encoding/json] reads from it ([None] when there is none).  The address
    parser of [net/mail] and key generation are parameters. *)
From S2P Require Import Prelude GoLib Cache Sql Schema World Metrics StoreUsers StoreMail StoreQueue Auth Blob Worker Mime.
From S2P Require Ratelimit.

(** * JSON requests *)
Inductive json :=
  | JNull | JBool (b : bool) | JNumber (text : string) | JString (s : string)
  | JArray (l : list json) | JObject (fields : list (string * json)).

(** [Decode] into a field of a struct: keys match up to case, null leaves a
    value as it is and clears a pointer, the last occurrence wins, and a value of
    another type is an error. *)
Section decode.
Context {A : Type} (value : json → option A).

Definition decode_field (acc : option A) (v : json) : option (option A) :=
  match v with
  | JNull => Some acc
  | _ => match value v with Some a => Some (Some a) | None => None end
  end.
Definition decode_pointer (acc : option A) (v : json) : option (option A) :=
  match v with
  | JNull => Some None
  | _ => match value v with Some a => Some (Some a) | None => None end
  end.

Fixpoint decode_key (one : option A → json → option (option A)) (key : string) (fields : list (string * json))
    (acc : option A) : option (option A) :=
  match fields with
  | [] => Some acc
  | (k, v) :: fields =>
      if strings.EqualFold k key
      then match one acc v with Some acc => decode_key one key fields acc | None => None end
      else decode_key one key fields acc
  end.
End decode.

Definition as_string (v : json) : option string := match v with JString s => Some s | _ => None end.
Definition as_bool (v : json) : option bool := match v with JBool b => Some b | _ => None end.

(** The fields of the value a struct is decoded from. *)
Definition object_of (body : option json) : option (list (string * json)) :=
  match body with
  | Some (JObject fields) => Some fields
  | Some JNull => Some []
  | _ => None
  end.

Definition string_field (fields : list (string * json)) (key : string) : option string :=
  default "" <$> decode_key (decode_field as_string) key fields None.
Definition bool_field (fields : list (string * json)) (key : string) : option bool :=
  default false <$> decode_key (decode_field as_bool) key fields None.
Definition string_pointer (fields : list (string * json)) (key : string) : option (option string) :=
  decode_key (decode_pointer as_string) key fields None.
Definition bool_pointer (fields : list (string * json)) (key : string) : option (option bool) :=
  decode_key (decode_pointer as_bool) key fields None.

(** * Requests and responses *)
Record Request := mkRequest {
  rq_method : string; rq_path : list string; rq_authorization : string;
  rq_query : list (string * string); rq_body : option json; rq_RemoteAddr : string }.

(** The [Data] of a response. *)
Inductive Payload :=
  | NoData | Health (version status : string) | LoggedIn (token : string) (is_admin : bool) (email : string)
  | Users (l : list User) | Domains (l : list string) | Aliases (l : list Alias) | QueueItems (l : list QueueItem)
  | NewID (id : Z) | Stats (users domains aliases queue : Z)
  | DKIMRecord (dns_record selector domain : string)
  | Me (id : Z) (email : string) (is_admin : bool) | Mailboxes (l : list Mailbox) | Messages (l : list Message)
  | Body (m : ParsedMessage) | Contacts (l : list Contact)
  | Plain (text : string).

(** Status, headers and envelope as [writeJSON] sends them. *)
Record Response := mkResponse {
  rs_status : Z; rs_headers : list (string * string); rs_OK : bool; rs_Data : Payload; rs_Error : string }.

Definition StatusOK : Z := 200.
Definition StatusCreated : Z := 201.
Definition StatusNoContent : Z := 204.
Definition StatusBadRequest : Z := 400.
Definition StatusUnauthorized : Z := 401.
Definition StatusForbidden : Z := 403.
Definition StatusNotFound : Z := 404.
Definition StatusMethodNotAllowed : Z := 405.
Definition StatusConflict : Z := 409.
Definition StatusUnprocessableEntity : Z := 422.
Definition StatusTooManyRequests : Z := 429.
Definition StatusInternalServerError : Z := 500.

(** [writeJSON] with [response{OK: true, Data: d}] and [response{Error: e}]. *)
Definition json_header : list (string * string) := [("Content-Type", "application/json")].
Definition ok (status : Z) (d : Payload) : Response := mkResponse status json_header true d "".
Definition fail (status : Z) (e : string) : Response := mkResponse status json_header false NoData e.

(** [DKIMConfig], the fields the handlers read, and the [handlers] struct without
    the handles to the shared state; its signer [dk] is part of the state. *)
Record DKIMConfig := mkDKIMConfig { DKIM_Domain : string; DKIM_Selector : string }.
Record handlers := mkHandlers { sessionExpiry : Z; dkimPrivKeyPath : string; dkimCfg : DKIMConfig }.

(** What the handlers take from the libraries: [mail.ParseAddress] succeeds, the
    layout [time.RFC1123Z], the RSA functions on an opaque key, and Prometheus. *)
Record ApiLib := mkApiLib {
  ParseAddress : string → bool;
  FormatRFC1123Z : Z → string;
  PrivateKeyPEM : string → string;
  MarshalPKIXPublicKey : string → res string;
  prom : PromLib }.

(** The random bytes and the key a request draws. *)
Record Draws := mkDraws { draw_bytes : option (list Z); draw_key : res string }.

Definition bearer : string := "Bearer ".
Definition extractBearerToken (r : Request) : string :=
  let auth := rq_authorization r in
  if (slen auth <? slen bearer) || negb (String.eqb (stake (String.length bearer) auth) bearer) then ""
  else sdrop (String.length bearer) auth.

Definition query_get (r : Request) (key : string) : string :=
  match List.find (λ p, String.eqb p.1 key) (rq_query r) with Some p => p.2 | None => "" end.

Definition parseIntQuery (r : Request) (key : string) (defaultValue : Z) : Z :=
  let s := query_get r key in
  if String.eqb s "" then defaultValue else default defaultValue (strconv.Atoi s).

(** * Building a message *)
Definition dquote : string := String (chr 34) "".

Definition sanitizeHeaderValue (s : string) : string :=
  strings.ReplaceChar (strings.ReplaceChar s (chr 13) "") (chr 10) "".

Definition header_line (key value : string) : string := key +:+ ": " +:+ value +:+ crlf.

Section handlers.
Context `{MR : MapRange} `{S : Store} `{ML : MimeLib} (IDKey : string → list Z → Z → Z → Z → Z → list Z) (lib : ApiLib) (h : handlers).

Definition buildMessage (now : Z) (from to subject textBody htmlBody inReplyTo references hostname : string) : string :=
  let msgID := "<" +:+ strconv.Itoa now +:+ "-" +:+ from +:+ "@" +:+ hostname +:+ ">" in
  header_line "Message-ID" msgID +:+
  (if String.eqb inReplyTo "" then "" else header_line "In-Reply-To" (sanitizeHeaderValue inReplyTo)) +:+
  (if String.eqb references "" then "" else header_line "References" (sanitizeHeaderValue references)) +:+
  header_line "Date" (FormatRFC1123Z lib now) +:+
  header_line "From" from +:+
  header_line "To" to +:+
  header_line "Subject" (sanitizeHeaderValue subject) +:+
  header_line "MIME-Version" "1.0" +:+
  (if String.eqb htmlBody "" then
     header_line "Content-Type" ("text/plain; charset=" +:+ dquote +:+ "utf-8" +:+ dquote) +:+ crlf +:+ textBody
   else
     header_line "Content-Type" ("multipart/alternative; boundary=" +:+ dquote +:+ "boundary" +:+ dquote) +:+ crlf +:+
     "--boundary" +:+ crlf +:+
     header_line "Content-Type" ("text/plain; charset=" +:+ dquote +:+ "utf-8" +:+ dquote) +:+ crlf +:+
     textBody +:+ crlf +:+ crlf +:+ "--boundary" +:+ crlf +:+
     header_line "Content-Type" ("text/html; charset=" +:+ dquote +:+ "utf-8" +:+ dquote) +:+ crlf +:+
     htmlBody +:+ crlf +:+ crlf +:+ "--boundary--" +:+ crlf).

(** * handlers.go *)
Definition handleHealth : Response := ok StatusOK (Health "0.1.0" "ok").

Definition handleLogin (rand : option (list Z)) (r : Request) : state World Response :=
  match object_of (rq_body r) with
  | None => sret (fail StatusBadRequest "invalid request")
  | Some fields =>
      match string_field fields "email", string_field fields "password" with
      | Some email, Some password =>
          let! a := Authenticate IDKey email password in
          match a with
          | Err _ => sret (fail StatusUnauthorized "invalid credentials")
          | Ok userID =>
              let! u := GetUserByID userID in
              match u with
              | Err _ => sret (fail StatusInternalServerError "login failed")
              | Ok user =>
                  let! t := CreateSession userID (sessionExpiry h) rand in
                  match t with
                  | Err _ => sret (fail StatusInternalServerError "login failed")
                  | Ok token => sret (ok StatusOK (LoggedIn token (user_IsAdmin user) (user_Email user)))
                  end
              end
          end
      | _, _ => sret (fail StatusBadRequest "invalid request")
      end
  end.

Definition handleLogout (r : Request) : state World Response :=
  let token := extractBearerToken r in
  if String.eqb token "" then sret (ok StatusOK NoData)
  else let! _ := RevokeSession token in sret (ok StatusOK NoData).

Definition handleListUsers : state World Response :=
  let! r := ListUsers in
  match r with
  | Err err => sret (fail StatusInternalServerError (error_text err))
  | Ok users => sret (ok StatusOK (Users users))
  end.

Definition handleCreateUser (rand : option (list Z)) (r : Request) : state World Response :=
  match object_of (rq_body r) with
  | None => sret (fail StatusBadRequest "invalid request")
  | Some fields =>
      match string_field fields "email", string_field fields "password", bool_field fields "is_admin" with
      | Some email, Some password, Some is_admin =>
          let! r := CreateAccount IDKey email password is_admin rand in
          match r with
          | Err err => sret (fail StatusBadRequest (error_text err))
          | Ok _ => sret (ok StatusCreated NoData)
          end
      | _, _, _ => sret (fail StatusBadRequest "invalid request")
      end
  end.

Definition handleListDomains : state World Response :=
  let! r := ListDomains in
  match r with
  | Err _ => sret (fail StatusInternalServerError "failed to list domains")
  | Ok domains => sret (ok StatusOK (Domains domains))
  end.

Definition handleCreateDomain (r : Request) : state World Response :=
  match object_of (rq_body r) with
  | None => sret (fail StatusBadRequest "invalid request")
  | Some fields =>
      match string_field fields "name" with
      | None => sret (fail StatusBadRequest "invalid request")
      | Some name =>
          if String.eqb name "" then sret (fail StatusBadRequest "domain name is required")
          else
            let! r := CreateDomain name in
            match r with
            | Err err => if errors_is err ErrAlreadyExists then sret (fail StatusConflict (error_text err))
                         else sret (fail StatusInternalServerError "failed to create domain")
            | Ok _ => sret (ok StatusCreated NoData)
            end
      end
  end.

Definition handleDeleteDomain (name : string) : state World Response :=
  if String.eqb name "" then sret (fail StatusBadRequest "domain name is required")
  else
    let! r := DeleteDomain name in
    match r with
    | Err err => if errors_is err ErrNotFound then sret (fail StatusNotFound "domain not found")
                 else sret (fail StatusInternalServerError "failed to delete domain")
    | Ok _ => sret (ok StatusOK NoData)
    end.

Definition handleListAliases : state World Response :=
  let! r := ListAliases in
  match r with
  | Err _ => sret (fail StatusInternalServerError "failed to list aliases")
  | Ok aliases => sret (ok StatusOK (Aliases aliases))
  end.

Definition handleCreateAlias (r : Request) : state World Response :=
  match object_of (rq_body r) with
  | None => sret (fail StatusBadRequest "invalid request")
  | Some fields =>
      match string_field fields "source", string_field fields "destination", string_field fields "domain" with
      | Some source, Some destination, Some domain =>
          if String.eqb source "" || String.eqb destination "" || String.eqb domain ""
          then sret (fail StatusBadRequest "source, destination, and domain are required")
          else
            let! r := CreateAlias source destination domain in
            match r with
            | Err err => if errors_is err ErrAlreadyExists then sret (fail StatusConflict (error_text err))
                         else sret (fail StatusInternalServerError "failed to create alias")
            | Ok id => sret (ok StatusCreated (NewID id))
            end
      | _, _, _ => sret (fail StatusBadRequest "invalid request")
      end
  end.

(** The handlers that parse [{id}] and answer a failed operation. *)
Definition with_id (idStr invalid : string) (k : Z → state World Response) : state World Response :=
  match strconv.ParseInt idStr with
  | None => sret (fail StatusBadRequest invalid)
  | Some id => k id
  end.

Definition handleDeleteAlias (idStr : string) : state World Response :=
  with_id idStr "invalid alias id" (λ id,
    let! r := DeleteAlias id in
    match r with
    | Err err => if errors_is err ErrNotFound then sret (fail StatusNotFound "alias not found")
                 else sret (fail StatusInternalServerError "failed to delete alias")
    | Ok _ => sret (ok StatusOK NoData)
    end).

Definition handleListQueue : state World Response :=
  let! r := ListPending in
  match r with
  | Err _ => sret (fail StatusInternalServerError "failed to list queue")
  | Ok items => sret (ok StatusOK (QueueItems items))
  end.

Definition handleDeleteQueue (idStr : string) : state World Response :=
  with_id idStr "invalid queue id" (λ id,
    let! r := Complete id in
    match r with
    | Err err => if errors_is err ErrNotFound then sret (fail StatusNotFound "queue item not found")
                 else sret (fail StatusInternalServerError "failed to delete queue item")
    | Ok _ => sret (ok StatusOK NoData)
    end).

(** A failed count reads as 0. *)
Definition count_or_zero (r : res Z) : Z := match r with Ok n => n | Err _ => 0 end.
Definition length_or_zero {A} (r : res (list A)) : Z := match r with Ok l => Z.of_nat (length l) | Err _ => 0 end.

Definition handleStats : state World Response :=
  let! users := CountUsers in
  let! domains := ListDomains in
  let! aliases := ListAliases in
  let! queue := QueueSize in
  sret (ok StatusOK (Stats (count_or_zero users) (length_or_zero domains) (length_or_zero aliases) (count_or_zero queue))).

Definition handleUpdateUser (rand : option (list Z)) (idStr : string) (r : Request) : state World Response :=
  with_id idStr "invalid user id" (λ id,
    match object_of (rq_body r) with
    | None => sret (fail StatusBadRequest "invalid request")
    | Some fields =>
        match string_pointer fields "email", string_pointer fields "password",
              bool_pointer fields "is_active", bool_pointer fields "is_admin" with
        | Some email, Some password, Some isActive, Some isAdmin =>
            let update passwordHash :=
              let! r := UpdateUser id email passwordHash isActive isAdmin in
              match r with
              | Err err => if errors_is err ErrNotFound then sret (fail StatusNotFound "user not found")
                           else sret (fail StatusBadRequest (error_text err))
              | Ok _ => sret (ok StatusOK (NewID id))
              end in
            match password with
            | None => update None
            | Some password =>
                match HashPassword IDKey password rand with
                | Err err => sret (fail StatusUnprocessableEntity (error_text err))
                | Ok hash => update (Some hash)
                end
            end
        | _, _, _, _ => sret (fail StatusBadRequest "invalid request")
        end
    end).

Definition handleDeleteUser (idStr : string) : state World Response :=
  with_id idStr "invalid user id" (λ id,
    let! r := DeleteUser id in
    match r with
    | Err err => if errors_is err ErrNotFound then sret (fail StatusNotFound "user not found")
                 else sret (fail StatusBadRequest (error_text err))
    | Ok _ => sret (ok StatusOK NoData)
    end).

(** The [%x] verb on bytes. *)
Definition hex_string (s : string) : string :=
  String.concat "" ((λ c, String (net.hex_digit (ord c / 16)) (String (net.hex_digit (ord c mod 16)) "")) <$> list_ascii_of_string s).

(** The state of the handlers: the process and the signer [h.dk]. *)
Definition AS : Type := World * option Signer.

Definition handleDKIMRotate (generated : res string) : state AS Response :=
  if String.eqb (dkimPrivKeyPath h) "" then sret (fail StatusBadRequest "DKIM not configured")
  else match generated with
  | Err _ => sret (fail StatusInternalServerError "key generation failed")
  | Ok key =>
      let! r := lift (os_WriteFile (dkimPrivKeyPath h) (PrivateKeyPEM lib key)) in
      match r with
      | Err _ => sret (fail StatusInternalServerError "failed to write key")
      | Ok _ =>
          do! smodify (λ s : AS, (s.1, Some (mkSigner (DKIM_Domain (dkimCfg h)) (DKIM_Selector (dkimCfg h)) key))) in
          match MarshalPKIXPublicKey lib key with
          | Err _ => sret (fail StatusInternalServerError "failed to marshal public key")
          | Ok pubDER =>
              sret (ok StatusOK (DKIMRecord ("v=DKIM1; k=rsa; p=" +:+ hex_string pubDER)
                (DKIM_Selector (dkimCfg h)) (DKIM_Domain (dkimCfg h))))
          end
      end
  end.

(** * mail.go *)
Definition handleMe (userID : Z) : state World Response :=
  let! r := GetUserByID userID in
  match r with
  | Err _ => sret (fail StatusInternalServerError "failed to load user")
  | Ok user => sret (ok StatusOK (Me (user_ID user) (user_Email user) (user_IsAdmin user)))
  end.

Definition handleListMailboxes (userID : Z) : state World Response :=
  let! r := ListMailboxes userID in
  match r with
  | Err _ => sret (fail StatusInternalServerError "failed to list mailboxes")
  | Ok boxes => sret (ok StatusOK (Mailboxes boxes))
  end.

Definition handleListMailboxMessages (userID : Z) (idStr : string) (r : Request) : state World Response :=
  with_id idStr "invalid mailbox id" (λ mailboxID,
    let! b := GetMailboxByID mailboxID in
    match b with
    | Err err => if errors_is err ErrNotFound then sret (fail StatusNotFound "mailbox not found")
                 else sret (fail StatusInternalServerError "failed to load mailbox")
    | Ok mbox =>
        if negb (mbox_UserID mbox =? userID) then sret (fail StatusForbidden "access denied")
        else
          let limit := parseIntQuery r "limit" 50 in
          let limit := if (limit <=? 0) || (200 <? limit) then 50 else limit in
          let offset := parseIntQuery r "offset" 0 in
          let! l := ListMessagesPaginated mailboxID limit offset in
          match l with
          | Err _ => sret (fail StatusInternalServerError "failed to list messages")
          | Ok messages => sret (ok StatusOK (Messages messages))
          end
    end).

(** The lookup that [handleGetMessage] and [handleUpdateFlags] begin with: the
    message and the check of its owner. *)
Definition owned_message (userID msgID : Z) (failed : string) (k : Message → state World Response) : state World Response :=
  let! r := GetMessageByID msgID in
  match r with
  | Err err => if errors_is err ErrNotFound then sret (fail StatusNotFound "message not found")
               else sret (fail StatusInternalServerError failed)
  | Ok msg =>
      let! r := GetMailboxByID (msg_MailboxID msg) in
      match r with
      | Err _ => sret (fail StatusInternalServerError failed)
      | Ok mbox => if negb (mbox_UserID mbox =? userID) then sret (fail StatusForbidden "access denied") else k msg
      end
  end.

Definition handleGetMessage (userID : Z) (idStr : string) : state World Response :=
  with_id idStr "invalid message id" (λ msgID,
    owned_message userID msgID "failed to load message" (λ msg,
      let! r := Blob.Get (msg_BlobKey msg) in
      match r with
      | Err _ => sret (fail StatusInternalServerError "failed to load message body")
      | Ok data =>
          match ParseMessageBody msg (Ok data) with
          | Err _ => sret (fail StatusInternalServerError "failed to parse message body")
          | Ok pm => sret (ok StatusOK (Body pm))
          end
      end)).

Definition flagSeen : Z := 1.

Definition handleUpdateFlags (userID : Z) (idStr : string) (r : Request) : state World Response :=
  with_id idStr "invalid message id" (λ msgID,
    match object_of (rq_body r) with
    | None => sret (fail StatusBadRequest "invalid request")
    | Some fields =>
        match bool_field fields "seen" with
        | None => sret (fail StatusBadRequest "invalid request")
        | Some seen =>
            owned_message userID msgID "failed to update flags" (λ msg,
              let flags := if seen then Z.lor (msg_Flags msg) flagSeen else Z.land (msg_Flags msg) (Z.lnot flagSeen) in
              let! r := UpdateFlags msgID flags flagSeen in
              match r with
              | Err _ => sret (fail StatusInternalServerError "failed to update flags")
              | Ok _ => sret (ok StatusOK NoData)
              end)
        end
    end).

Definition handleSendMessage (userID : Z) (r : Request) : state World Response :=
  let! u := GetUserByID userID in
  match u with
  | Err _ => sret (fail StatusInternalServerError "failed to load user")
  | Ok user =>
      match object_of (rq_body r) with
      | None => sret (fail StatusBadRequest "invalid request")
      | Some fields =>
          match string_field fields "to", string_field fields "subject", string_field fields "text_body",
                string_field fields "html_body", string_field fields "in_reply_to", string_field fields "references" with
          | Some to, Some subject, Some textBody, Some htmlBody, Some inReplyTo, Some references =>
              let to := strings.TrimSpace to in
              if String.eqb to "" || String.eqb subject "" then sret (fail StatusBadRequest "to and subject are required")
              else if negb (ParseAddress lib to) then sret (fail StatusBadRequest "invalid recipient address")
              else
                let fromAddr := user_Email user in
                let! now := time_now in
                let raw := buildMessage now fromAddr to subject textBody htmlBody inReplyTo references (DKIM_Domain (dkimCfg h)) in
                let! p := Put (Ok raw) in
                match p with
                | Err _ => sret (fail StatusInternalServerError "failed to store message")
                | Ok (blobKey, size) =>
                    let! b := GetMailbox userID "Sent" in
                    match b with
                    | Err _ => let! _ := Blob.Delete blobKey in sret (fail StatusInternalServerError "failed to store message")
                    | Ok sentMbox =>
                        let! m := InsertMessage (mbox_ID sentMbox) blobKey size fromAddr to subject flagSeen in
                        match m with
                        | Err _ => let! _ := Blob.Delete blobKey in sret (fail StatusInternalServerError "failed to store message")
                        | Ok (msgID, _) =>
                            let! q := Manager_Enqueue msgID to in
                            match q with
                            | Err _ => sret (fail StatusInternalServerError "failed to queue message")
                            | Ok _ => sret (ok StatusCreated (NewID msgID))
                            end
                        end
                    end
                end
          | _, _, _, _, _, _ => sret (fail StatusBadRequest "invalid request")
          end
      end
  end.

Definition handleListContacts (userID : Z) : state World Response :=
  let! r := ListContacts userID in
  match r with
  | Err _ => sret (fail StatusInternalServerError "failed to list contacts")
  | Ok contacts => sret (ok StatusOK (Contacts contacts))
  end.

Definition handleCreateContact (userID : Z) (r : Request) : state World Response :=
  match object_of (rq_body r) with
  | None => sret (fail StatusBadRequest "invalid request")
  | Some fields =>
      match string_field fields "name", string_field fields "email" with
      | Some name, Some email =>
          let email := strings.TrimSpace email in
          if String.eqb email "" then sret (fail StatusBadRequest "email is required")
          else if negb (ParseAddress lib email) then sret (fail StatusBadRequest "invalid email address")
          else
            let! r := CreateContact userID name email in
            match r with
            | Err err => if errors_is err ErrAlreadyExists then sret (fail StatusConflict "contact already exists")
                         else sret (fail StatusInternalServerError "failed to create contact")
            | Ok id => sret (ok StatusCreated (NewID id))
            end
      | _, _ => sret (fail StatusBadRequest "invalid request")
      end
  end.

Definition handleDeleteContact (userID : Z) (idStr : string) : state World Response :=
  with_id idStr "invalid contact id" (λ id,
    let! r := DeleteContact userID id in
    match r with
    | Err err => if errors_is err ErrNotFound then sret (fail StatusNotFound "contact not found")
                 else sret (fail StatusInternalServerError "failed to delete contact")
    | Ok _ => sret (ok StatusOK NoData)
    end).

(** The page of the registry [Run] made, not of the queue manager's own. *)
Definition handleMetrics : state World Response := λ w,
  let '(status, headers, body) := HTTPHandler (prom lib) (w_metrics w) in
  (mkResponse status headers false (Plain body) "", w).

(** * router.go *)
(** The endpoints of the mux, with their path values. *)
Inductive Endpoint :=
  | EHealth | ELogin | EMetrics
  | ELogout | EListUsers | ECreateUser | EUpdateUser (id : string) | EDeleteUser (id : string)
  | EListDomains | ECreateDomain | EDeleteDomain (name : string)
  | EListAliases | ECreateAlias | EDeleteAlias (id : string)
  | EListQueue | EDeleteQueue (id : string) | EStats | EDKIMRotate
  | EMe | EListMailboxes | EListMailboxMessages (id : string)
  | EGetMessage (id : string) | EUpdateFlags (id : string) | ESendMessage
  | EListContacts | ECreateContact | EDeleteContact (id : string).

(** The patterns registered for a path: method and endpoint. *)
Definition patterns (path : list string) : list (string * Endpoint) :=
  match path with
  | ["api"; p] =>
      if String.eqb p "health" then [("GET", EHealth)]
      else if String.eqb p "login" then [("POST", ELogin)]
      else if String.eqb p "logout" then [("POST", ELogout)]
      else if String.eqb p "users" then [("GET", EListUsers); ("POST", ECreateUser)]
      else if String.eqb p "domains" then [("GET", EListDomains); ("POST", ECreateDomain)]
      else if String.eqb p "aliases" then [("GET", EListAliases); ("POST", ECreateAlias)]
      else if String.eqb p "queue" then [("GET", EListQueue)]
      else if String.eqb p "stats" then [("GET", EStats)]
      else if String.eqb p "metrics" then [("GET", EMetrics)]
      else if String.eqb p "me" then [("GET", EMe)]
      else if String.eqb p "mailboxes" then [("GET", EListMailboxes)]
      else if String.eqb p "contacts" then [("GET", EListContacts); ("POST", ECreateContact)]
      else []
  | ["api"; p; x] =>
      if String.eqb p "users" then [("PUT", EUpdateUser x); ("DELETE", EDeleteUser x)]
      else if String.eqb p "domains" then [("DELETE", EDeleteDomain x)]
      else if String.eqb p "aliases" then [("DELETE", EDeleteAlias x)]
      else if String.eqb p "queue" then [("DELETE", EDeleteQueue x)]
      else if String.eqb p "dkim" then (if String.eqb x "rotate" then [("POST", EDKIMRotate)] else [])
      else if String.eqb p "messages" then
        (if String.eqb x "send" then [("POST", ESendMessage)] else []) ++ [("GET", EGetMessage x)]
      else if String.eqb p "contacts" then [("DELETE", EDeleteContact x)]
      else []
  | ["api"; p; x; q] =>
      if String.eqb p "mailboxes" && String.eqb q "messages" then [("GET", EListMailboxMessages x)]
      else if String.eqb p "messages" && String.eqb q "flags" then [("POST", EUpdateFlags x)]
      else []
  | _ => []
  end.

(** [ServeMux]: a GET pattern also serves HEAD; a path that is only registered
    for other methods answers 405, an unknown one 404. *)
Definition method_matches (pattern method : string) : bool :=
  String.eqb pattern method || (String.eqb pattern "GET" && String.eqb method "HEAD").

Definition lookup_endpoint (r : Request) : Z + Endpoint :=
  match List.find (λ p, method_matches p.1 (rq_method r)) (patterns (rq_path r)) with
  | Some p => inr p.2
  | None => inl (match patterns (rq_path r) with [] => StatusNotFound | _ => StatusMethodNotAllowed end)
  end.

(** The endpoints that are registered without [authMW]. *)
Definition is_public (e : Endpoint) : bool :=
  match e with EHealth | ELogin | EMetrics => true | _ => false end.

(** The handler of an endpoint; [userID] is the value in the request's context. *)
Definition handler (d : Draws) (e : Endpoint) (userID : Z) (r : Request) : state AS Response :=
  match e with
  | EHealth => sret handleHealth
  | EMetrics => lift handleMetrics
  | ELogin => lift (handleLogin (draw_bytes d) r)
  | ELogout => lift (handleLogout r)
  | EListUsers => lift handleListUsers
  | ECreateUser => lift (handleCreateUser (draw_bytes d) r)
  | EUpdateUser id => lift (handleUpdateUser (draw_bytes d) id r)
  | EDeleteUser id => lift (handleDeleteUser id)
  | EListDomains => lift handleListDomains
  | ECreateDomain => lift (handleCreateDomain r)
  | EDeleteDomain name => lift (handleDeleteDomain name)
  | EListAliases => lift handleListAliases
  | ECreateAlias => lift (handleCreateAlias r)
  | EDeleteAlias id => lift (handleDeleteAlias id)
  | EListQueue => lift handleListQueue
  | EDeleteQueue id => lift (handleDeleteQueue id)
  | EStats => lift handleStats
  | EDKIMRotate => handleDKIMRotate (draw_key d)
  | EMe => lift (handleMe userID)
  | EListMailboxes => lift (handleListMailboxes userID)
  | EListMailboxMessages id => lift (handleListMailboxMessages userID id r)
  | EGetMessage id => lift (handleGetMessage userID id)
  | EUpdateFlags id => lift (handleUpdateFlags userID id r)
  | ESendMessage => lift (handleSendMessage userID r)
  | EListContacts => lift (handleListContacts userID)
  | ECreateContact => lift (handleCreateContact userID r)
  | EDeleteContact id => lift (handleDeleteContact userID id)
  end.

(** * middleware.go *)
Definition requireAuthWithDB (next : Z → Request → state AS Response) (r : Request) : state AS Response :=
  let token := extractBearerToken r in
  if String.eqb token "" then sret (fail StatusUnauthorized "missing authorization")
  else
    let! v := lift (ValidateSession token) in
    match v with
    | Err _ => sret (fail StatusUnauthorized "invalid or expired session")
    | Ok userID => next userID r
    end.

(** [NewRouter]: the handler it returns. *)
Definition NewRouter (d : Draws) (r : Request) : state AS Response :=
  match lookup_endpoint r with
  | inl status => sret (mkResponse status [("Content-Type", "text/plain; charset=utf-8"); ("X-Content-Type-Options", "nosniff")] false
      (Plain ((if status =? StatusNotFound then "404 page not found" else "Method Not Allowed") +:+ String (chr 10) "")) "")
  | inr e => if is_public e then handler d e 0 r
             else requireAuthWithDB (λ userID r, handler d e userID r) r
  end.

Definition cors : list (string * string) :=
  [("Access-Control-Allow-Origin", "*");
   ("Access-Control-Allow-Methods", "GET, POST, PUT, DELETE, OPTIONS");
   ("Access-Control-Allow-Headers", "Content-Type, Authorization")].

Definition with_headers (hs : list (string * string)) (rs : Response) : Response :=
  mkResponse (rs_status rs) (hs ++ rs_headers rs) (rs_OK rs) (rs_Data rs) (rs_Error rs).

(** CORS headers on every response, and the answer to OPTIONS. *)
Definition withMiddleware (next : Request → state AS Response) (r : Request) : state AS Response :=
  if String.eqb (rq_method r) "OPTIONS" then sret (mkResponse StatusNoContent cors false NoData "")
  else let! rs := next r in sret (with_headers cors rs).

(** [NewServer]: the handler of the server. *)
Definition serve (d : Draws) (r : Request) : state AS Response := withMiddleware (NewRouter d) r.
End handlers.

(** [requireAuth] and [withRateLimit], which no route uses. *)
Definition requireAuth {T} (next : Request → state T Response) (r : Request) : state T Response :=
  if String.eqb (extractBearerToken r) "" then sret (fail StatusUnauthorized "missing authorization") else next r.

Definition withRateLimit {T} (now : Z) (next : Request → state (T * Ratelimit.Limiter) Response) (r : Request) : state (T * Ratelimit.Limiter) Response :=
  let ip := default (rq_RemoteAddr r) (net.SplitHostPort (rq_RemoteAddr r)) in
  λ s, let '(allowed, l) := Ratelimit.Allow s.2 now ip in
       if allowed : bool then next r (s.1, l)
       else (mkResponse StatusTooManyRequests
               [("Retry-After", "1"); ("Content-Type", "text/plain; charset=utf-8"); ("X-Content-Type-Options", "nosniff")]
               false (Plain ("429 Too Many Requests" +:+ String (chr 10) (String (chr 10) ""))) "", (s.1, l)).

(** * Every request keeps the database well-formed *)
Section wf.
Context `{MR : MapRange} `{S : Store} `{ML : MimeLib} (digest : string → string) `{!StoreSpec S digest}.
Context (IDKey : string → list Z → Z → Z → Z → Z → list Z) (lib : ApiLib) (h : handlers).

Definition api_wf (s : AS) : Prop := wf s.1.

Lemma api_lift {A} (m : state World A) : pres wf m → pres api_wf (lift m).
Proof using. apply pres_lift. Qed.

Lemma with_id_pres (I : World → Prop) s e k : (∀ id, pres I (k id)) → pres I (with_id s e k).
Proof using. intros Hk. unfold with_id. destruct (strconv.ParseInt s); [apply Hk|apply pres_ret]. Qed.

Lemma owned_message_pres (I : World → Prop) u id e k :
  pres I (GetMessageByID id) → (∀ i, pres I (GetMailboxByID i)) → (∀ m, pres I (k m)) → pres I (owned_message u id e k).
Proof using. intros H1 H2 Hk. unfold owned_message. pres_walk. Qed.

Lemma handleDKIMRotate_wf g : pres api_wf (handleDKIMRotate lib h g).
Proof using.
  unfold handleDKIMRotate. destruct (String.eqb _ _); [apply pres_ret|]. destruct g as [key|e]; [|apply pres_ret].
  apply pres_bind; [apply api_lift; unfold os_WriteFile; apply os_call_wf|intros r]. pres_walk.
Qed.

Lemma handleMetrics_pres (I : World → Prop) : pres I (handleMetrics lib).
Proof using. intros w Hw. unfold handleMetrics. by destruct (HTTPHandler _ _) as [[? ?] ?]. Qed.

Lemma handleSendMessage_wf u r : pres wf (handleSendMessage lib h u r).
Proof using StoreSpec0.
  unfold handleSendMessage, Manager_Enqueue, queue_metrics.
  apply pres_bind; [eauto with pres|intros [user|e]; [|apply pres_ret]]. destruct (object_of (rq_body r)); [|apply pres_ret].
  repeat case_match; try apply pres_ret. all: pres_walk; try (by eapply Put_store_wf); try (by eapply Delete_store_wf).
Qed.

Hint Resolve api_lift : pres.

Lemma handler_wf d e u r : pres api_wf (handler IDKey lib h d e u r).
Proof using StoreSpec0.
  destruct e; cbn [handler]; try (apply pres_ret || apply handleDKIMRotate_wf); apply api_lift.
  all: try (apply with_id_pres; intros).
  - unfold handleLogin. repeat case_match; pres_walk.
  - apply handleMetrics_pres.
  - unfold handleLogout. pres_walk.
  - unfold handleListUsers. pres_walk.
  - unfold handleCreateUser. repeat case_match; pres_walk.
  - repeat case_match; pres_walk.
  - pres_walk.
  - unfold handleListDomains. pres_walk.
  - unfold handleCreateDomain. repeat case_match; pres_walk.
  - unfold handleDeleteDomain. pres_walk.
  - unfold handleListAliases. pres_walk.
  - unfold handleCreateAlias. repeat case_match; pres_walk.
  - pres_walk.
  - unfold handleListQueue. pres_walk.
  - pres_walk.
  - unfold handleStats. pres_walk.
  - unfold handleMe. pres_walk.
  - unfold handleListMailboxes. pres_walk.
  - pres_walk.
  - apply owned_message_pres; [apply GetMessageByID_wf|apply GetMailboxByID_wf|intros m].
    apply pres_bind; [by eapply Get_store_wf|intros; pres_walk].
  - repeat case_match; try apply pres_ret.
    all: apply owned_message_pres; [apply GetMessageByID_wf|apply GetMailboxByID_wf|intros m; pres_walk].
  - apply handleSendMessage_wf.
  - unfold handleListContacts. pres_walk.
  - unfold handleCreateContact. repeat case_match; pres_walk.
  - pres_walk.
Qed.

Lemma serve_wf d r : pres api_wf (serve IDKey lib h d r).
Proof using StoreSpec0.
  unfold serve, withMiddleware. destruct (String.eqb _ _); [apply pres_ret|]. apply pres_bind; [|intros; apply pres_ret].
  unfold NewRouter. destruct (lookup_endpoint r) as [st|e]; [apply pres_ret|]. destruct (is_public e); [apply handler_wf|].
  unfold requireAuthWithDB. destruct (String.eqb _ _); [apply pres_ret|]. apply pres_bind; [apply api_lift; eauto with pres|].
  intros [u|err]; [apply handler_wf|apply pres_ret].
Qed.
End wf.
