(* ===== verification/ApiMessage.v ===== *)
(** The message [handleSendMessage] composes (buildMessage of
    src/pkg/api/mail.go), read back by [mail.ReadMessage]. *)
From S2P Require Import Prelude GoLib Cache Sql Schema World Metrics StoreUsers StoreMail StoreQueue Auth Blob Worker Mime Api.


































(** Accepts everything, and prints the epoch. *)
Definition demo_lib : ApiLib :=
  mkApiLib (λ _, true) (λ _, "Thu, 01 Jan 1970 00:00:00 +0000") (λ k, k) (λ k, Ok k) toy_prom.


(** The recipient is written as it was accepted: a line break inside a comment of
    the address adds a field. *)
Example recipient_adds_field :
  let to := "b@y (" +:+ crlf +:+ "Bcc: c@z" +:+ crlf +:+ "X: )" in
  match mail.ReadMessage (buildMessage demo_lib 7 "a@x" to "s" "text" "" "" "" "h") with
  | Some (hdr, _) => mail.Get hdr "Bcc" = "c@z"
  | None => False
  end.
Proof. vm_compute. reflexivity. Qed.
