(* ===== verification/ApiSpec.v ===== *)
(** What the HTTP API guarantees: the gate in front of the endpoints, the
    isolation of the users' mail, and the privileges it does not check. *)
From S2P Require Import Prelude GoLib Cache Sql Schema World StoreUsers StoreMail Ownership StoreQueue Auth Blob Worker Mime Metrics Api ApiMessage.

(** * The gate *)
Section gate.
Context `{MR : MapRange} `{S : Store} `{ML : MimeLib} (IDKey : string → list Z → Z → Z → Z → Z → list Z) (lib : ApiLib) (h : handlers).

(** The database, up to its sessions. *)
Definition only_sessions (new : SessionRow → Prop) (d0 d : DB) : Prop :=
  ∃ t, d = set_sessions t d0 ∧ ∀ s, s ∈ rows t → s ∈ rows (sessions d0) ∨ new s.

Lemma only_sessions_refl new d : only_sessions new d d.
Proof using. exists (sessions d). split; [by destruct d|auto]. Qed.

Lemma only_delete_session new d0 tok : pres (on_db (only_sessions new d0)) (stmt (sql_delete_session tok)).
Proof using.
  apply on_db_stmt. intros d (t & -> & Ht). eexists. split; [reflexivity|].
  intros s [_ Hs]%elem_of_delete. by apply Ht.
Qed.
#[local] Hint Resolve only_delete_session : pres.

Lemma only_ValidateSession new d0 tok : pres (on_db (only_sessions new d0)) (ValidateSession tok).
Proof using. unfold ValidateSession, sessionCache_Delete, sessionCache_Set. pres_walk. Qed.

Lemma only_GetUserByID P id : pres (on_db P) (GetUserByID id).
Proof using. unfold GetUserByID. pres_walk. Qed.

(** The user a POST to the login endpoint proves to be. *)
Definition logs_in (r : Request) (w : World) (u : Z) : Prop :=
  ∃ fields email pw, lookup_endpoint r = inr ELogin ∧ object_of (rq_body r) = Some fields ∧
    string_field fields "email" = Some email ∧ string_field fields "password" = Some pw ∧
    (Authenticate IDKey email pw w).1 = Ok u.

Lemma only_CreateSession new d0 u x rand :
  (∀ s, sess_user_id s = u → new s) → pres (on_db (only_sessions new d0)) (CreateSession u x rand).
Proof using.
  intros Hn. unfold CreateSession. pres_walk. apply on_db_stmt. intros d (t & -> & Ht). unfold sql_insert_session.
  repeat case_decide; (eexists; split; [reflexivity|]); try exact Ht.
  intros s [Hs| ->]%elem_of_insert; [by apply Ht|]. right. by apply Hn.
Qed.

Lemma only_handleLogin r w rand :
  lookup_endpoint r = inr ELogin →
  only_sessions (λ s, logs_in r w (sess_user_id s)) (w_db w) (w_db (handleLogin IDKey h rand r w).2).
Proof using.
  intros He. unfold handleLogin. destruct (object_of (rq_body r)) as [fields|] eqn:Eo; [|apply only_sessions_refl].
  destruct (string_field fields "email") as [email|] eqn:E1; [|apply only_sessions_refl].
  destruct (string_field fields "password") as [pw|] eqn:E2; [|apply only_sessions_refl].
  set (P := only_sessions _ _).
  assert (on_db P (Authenticate IDKey email pw w).2) as H1 by (apply on_db_Authenticate, only_sessions_refl).
  unfold sbind at 1. destruct (Authenticate IDKey email pw w) as [[u|e] w1] eqn:Ea; [|exact H1]. cbn [snd] in H1.
  refine (pres_bind (on_db P) _ _ _ _ w1 H1); [apply only_GetUserByID|intros [user|e]; [|apply pres_ret]].
  apply pres_bind; [|intros; pres_walk]. apply only_CreateSession. intros s Es. subst P. cbv beta.
  exists fields, email, pw. rewrite Es, Ea. done.
Qed.

Definition unauthenticated (r : Request) (w : World) : Prop :=
  extractBearerToken r = "" ∨ is_ok (ValidateSession (extractBearerToken r) w).1 = false.

Lemma handler_public d e r w dk :
  lookup_endpoint r = inr e → is_public e = true →
  only_sessions (λ s, logs_in r w (sess_user_id s)) (w_db w) (w_db (handler IDKey lib h d e 0 r (w, dk)).2.1) ∧
  (handler IDKey lib h d e 0 r (w, dk)).2.2 = dk.
Proof using.
  intros He Hp. destruct e; try done; cbn [handler]; try (split; [apply only_sessions_refl|done]).
  - pose proof (only_handleLogin r w (draw_bytes d) He) as H. unfold lift. cbn [fst snd].
    by destruct (handleLogin IDKey h (draw_bytes d) r w).
  - unfold lift, handleMetrics. cbn [fst snd]. destruct (HTTPHandler _ _) as [[? ?] ?]. split; [apply only_sessions_refl|done].
Qed.

Lemma gate_closed next r w dk :
  unauthenticated r w →
  let out := requireAuthWithDB next r (w, dk) in
  rs_status out.1 = StatusUnauthorized ∧ rs_Data out.1 = NoData ∧
  only_sessions (λ s, logs_in r w (sess_user_id s)) (w_db w) (w_db out.2.1) ∧ out.2.2 = dk.
Proof using.
  intros Hu out. unfold out, requireAuthWithDB. destruct (String.eqb_spec (extractBearerToken r) "") as [E|E].
  { split_and!; try done. apply only_sessions_refl. }
  destruct Hu as [Hu|Hu]; [done|]. unfold sbind, lift. cbn [fst snd].
  set (new := λ s, logs_in r w (sess_user_id s)).
  pose proof (only_ValidateSession new (w_db w) (extractBearerToken r) w (only_sessions_refl _ _)) as H.
  destruct (ValidateSession (extractBearerToken r) w) as [[u|e] w1]; [done|]. done.
Qed.
End gate.

(** * Properties *)

(** C9.  What a request can do without a valid session token, whatever its method,
    path and body: the only table it can touch is that of the sessions, where at
    most expired rows go and a row for an account whose password the request
    carried is added; the signing key stays; and every endpoint that is not
    health, login or metrics answers 401 with no data.  With a valid token the
    endpoint runs as the user the session belongs to. *)
Theorem api_gate `{MR : MapRange} `{S : Store} `{ML : MimeLib} (IDKey : string → list Z → Z → Z → Z → Z → list Z)
    (lib : ApiLib) (h : handlers) (d : Draws) (r : Request) (w : World) (dk : option Signer) :
  let out := serve IDKey lib h d r (w, dk) in
  (unauthenticated r w →
    only_sessions (λ s, logs_in IDKey r w (sess_user_id s)) (w_db w) (w_db out.2.1) ∧ out.2.2 = dk ∧
    ∀ e, rq_method r ≠ "OPTIONS" → lookup_endpoint r = inr e → is_public e = false →
      rs_status out.1 = StatusUnauthorized ∧ rs_Data out.1 = NoData) ∧
  (∀ u w1 e, rq_method r ≠ "OPTIONS" → lookup_endpoint r = inr e → is_public e = false →
    extractBearerToken r ≠ "" → ValidateSession (extractBearerToken r) w = (Ok u, w1) →
    out = let '(rs, s) := handler IDKey lib h d e u r (w1, dk) in (with_headers cors rs, s)).
Proof.
  intros out. unfold out, serve, withMiddleware. destruct (String.eqb_spec (rq_method r) "OPTIONS") as [Eo|Eo].
  { split; [|by intros]. intros _. split_and!; [apply only_sessions_refl|done|by intros]. }
  unfold NewRouter. destruct (lookup_endpoint r) as [st|e] eqn:El.
  { split; [|by intros]. intros _. split_and!; [apply only_sessions_refl|done|by intros]. }
  destruct (is_public e) eqn:Ep.
  - split; [|intros u w1 e' _ [= <-]; by rewrite Ep]. intros _.
    pose proof (handler_public IDKey lib h d e r w dk El Ep) as [H1 H2]. unfold sbind.
    destruct (handler IDKey lib h d e 0 r (w, dk)) as [rs [w1 dk1]]. cbn in *. split_and!; try done.
    intros e' _ [= <-]. by rewrite Ep.
  - split.
    + intros Hu. pose proof (gate_closed IDKey (λ u r, handler IDKey lib h d e u r) r w dk Hu) as (H1 & H2 & H3 & H4).
      unfold sbind. destruct (requireAuthWithDB _ r (w, dk)) as [rs [w1 dk1]]. cbn in *. done.
    + intros u w1 e' _ [= <-] _ Ht Ev. unfold requireAuthWithDB. rewrite (proj2 (String.eqb_neq _ _) Ht).
      unfold sbind at 1 2. rewrite (lift_run _ w dk _ _ Ev). by destruct (handler IDKey lib h d e u r (w1, dk)).
Qed.

(** * Isolation *)
Section isolation.
Context `{MR : MapRange} `{S : Store} `{ML : MimeLib} (digest : string → string) `{!StoreSpec S digest}.
Context (IDKey : string → list Z → Z → Z → Z → Z → list Z) (lib : ApiLib) (h : handlers).
Context (u : Z) (M : table Mailbox) (F : list Message) (C : list Contact) (U : table User).

(** What the endpoints of [u] leave alone: mailboxes, accounts, and the messages
    and contacts of everybody else. *)
Definition api_iso (w : World) : Prop :=
  world_iso u M F w ∧ filter (λ c, ct_UserID c ≠ u) (rows (contacts (w_db w))) = C ∧ users (w_db w) = U.

(** What a response may show. *)
Definition shows_own (p : Payload) : Prop :=
  match p with
  | NoData | NewID _ => True
  | Me id _ _ => id = u
  | Mailboxes l => Forall (λ b, b ∈ rows M ∧ mbox_UserID b = u) l
  | Messages l => Forall (mine u M) l
  | Body m => mine u M (pm_Message m)
  | Contacts l => Forall (λ c, ct_UserID c = u) l
  | _ => False
  end.

Definition own (rs : Response) (w : World) : Prop := shows_own (rs_Data rs) ∧ api_iso w.

Lemma own_fail st e : tri api_iso (sret (fail st e)) own.
Proof using. by apply tri_ret. Qed.
Lemma own_done st : tri api_iso (sret (ok st NoData)) own.
Proof using. by apply tri_ret. Qed.

(** Operations on other tables. *)
Lemma iso_other {A} (m : state World A) :
  pres wf m →
  (∀ w, mailboxes (w_db (m w).2) = mailboxes (w_db w) ∧ messages (w_db (m w).2) = messages (w_db w) ∧
        contacts (w_db (m w).2) = contacts (w_db w) ∧ users (w_db (m w).2) = users (w_db w)) →
  pres api_iso m.
Proof.
  intros Hw He w ((Hwf & Hm & HF) & HC & HU). specialize (Hw w Hwf). destruct (He w) as (E1 & E2 & E3 & E4).
  unfold api_iso, world_iso in *. by rewrite E1, E2, E3, E4.
Qed.

Lemma iso_frame {A} (m : state World A) : pres wf m → (∀ w, store_frame w (m w).2) → pres api_iso m.
Proof using. intros Hw Hf. apply iso_other; [done|]. intros w. destruct (Hf w) as (b & f & fs & ->). done. Qed.

Lemma tri_query {A} (f : DB → res A) :
  tri api_iso (query f) (λ r w, api_iso w ∧ ∀ a, r = Ok a → f (w_db w) = Ok a).
Proof.
  intros w Hi. destruct (query_cases f w) as [[fs ->]|[fs ->]]; (split; [exact Hi|done]).
Qed.

Lemma query_row_in {A} (P : A → Prop) `{∀ x, Decision (P x)} t x : query_row (select P t) = Ok x → P x ∧ x ∈ rows t.
Proof.
  destruct (select P t) as [|y l] eqn:E; [done|]. intros [= ->]. apply (proj1 (elem_of_select P t x)). rewrite E. left.
Qed.

(** Results of the lookups. *)
Lemma tri_GetUserByID id : tri api_iso (GetUserByID id) (λ r w, api_iso w ∧ ∀ x, r = Ok x → user_ID x = id).
Proof.
  eapply tri_bind; [apply tri_query|]. intros [x|[[]| | |]]; apply tri_ret; intros w [Hi Hx]; (split; [done|]); try done.
  intros y [= <-]. by specialize (Hx x eq_refl) as [? _]%query_row_in.
Qed.

Lemma tri_GetMailboxByID id :
  tri api_iso (GetMailboxByID id) (λ r w, api_iso w ∧ ∀ b, r = Ok b → mbox_ID b = id ∧ b ∈ rows M).
Proof.
  eapply tri_bind; [apply tri_query|]. intros [x|[[]| | |]]; apply tri_ret; intros w [Hi Hx]; (split; [done|]); try done.
  intros y [= <-]. specialize (Hx x eq_refl) as [? Hin]%query_row_in. destruct Hi as ((_ & HM & _) & _). by rewrite HM in Hin.
Qed.

Lemma tri_GetMessageByID id :
  tri api_iso (GetMessageByID id) (λ r w, api_iso w ∧ ∀ m, r = Ok m → msg_ID m = id ∧ m ∈ rows (messages (w_db w))).
Proof.
  eapply tri_bind; [apply tri_query|]. intros [x|[[]| | |]]; apply tri_ret; intros w [Hi Hx]; (split; [done|]); try done.
  intros y [= <-]. by specialize (Hx x eq_refl) as Hin%query_row_in.
Qed.

(** The check both message endpoints begin with. *)
Lemma own_message msgID e k :
  (∀ m, msg_ID m = msgID → tri (λ w, api_iso w ∧ m ∈ rows (messages (w_db w)) ∧ mine u M m) (k m) own) →
  tri api_iso (owned_message u msgID e k) own.
Proof.
  intros Hk. eapply tri_bind; [apply tri_GetMessageByID|]. intros [m|err].
  2: { destruct (errors_is err ErrNotFound); eapply tri_pre, own_fail; by intros w []. }
  intros w [Hi Hm]. destruct (Hm m eq_refl) as [Eid Hin].
  unfold sbind. pose proof (tri_GetMailboxByID (msg_MailboxID m) w Hi) as [Hi' Hb].
  assert (messages (w_db (GetMailboxByID (msg_MailboxID m) w).2) = messages (w_db w)) as Emsg.
  { unfold GetMailboxByID, sbind. pose proof (inert_query (λ d, query_row (select (λ b, mbox_ID b = msg_MailboxID m) (mailboxes d))) w) as [_ E].
    by destruct (query _ w) as [[|[[]| | |]] w']. }
  destruct (GetMailboxByID (msg_MailboxID m) w) as [[b|err] w']; cbn [fst snd] in *; [|by apply own_fail].
  destruct (Z.eqb_spec (mbox_UserID b) u) as [Eu|]; [|by apply own_fail]. cbn [negb].
  apply (Hk m Eid). split; [done|]. rewrite Emsg. split; [done|]. destruct (Hb b eq_refl) as [Eb HbM].
  apply (fk_mine u M F w); [apply Hi|done|]. rewrite <- Eb. apply (row_mbox_mine u M F w); [apply Hi|done..].
Qed.


Definition api_rest (d : DB) : Prop := filter (λ c, ct_UserID c ≠ u) (rows (contacts d)) = C ∧ users d = U.

Lemma api_iso_split w : api_iso w ↔ world_iso u M F w ∧ on_db api_rest w.
Proof using. done. Qed.

Lemma rest_stmt {A} (f : DB → res A * DB) :
  (∀ d, contacts (f d).2 = contacts d ∧ users (f d).2 = users d) → pres (on_db api_rest) (stmt f).
Proof using. intros Hf. apply on_db_stmt. intros d [H1 H2]. destruct (Hf d) as [E1 E2]. unfold api_rest. by rewrite E1, E2. Qed.

Lemma own_UpdateFlags m fl mask :
  tri (λ w, api_iso w ∧ m ∈ rows (messages (w_db w)) ∧ mine u M m) (UpdateFlags (msg_ID m) fl mask) (λ _, api_iso).
Proof.
  intros w ([Hi Hr]%api_iso_split & Hm & Hmine). apply api_iso_split. split.
  - apply world_iso_UpdateFlags; [done|]. intros x Hx E.
    replace x with m; [done|]. apply (unique_inj msg_ID (messages (w_db w))); [apply Hi|done..].
  - assert (pres (on_db api_rest) (UpdateFlags (msg_ID m) fl mask)) as H; [|by apply H].
    unfold UpdateFlags. pres_walk. by apply rest_stmt.
Qed.

Lemma iso_InsertMessage mb k z a b s f : mbox_mine u M mb → pres api_iso (InsertMessage mb k z a b s f).
Proof.
  intros Hb w [Hi Hr]%api_iso_split. apply api_iso_split. split; [by apply world_iso_InsertMessage|].
  assert (pres (on_db api_rest) (InsertMessage mb k z a b s f)) as H; [|by apply H].
  unfold InsertMessage. apply on_db_withTx. pres_walk. apply rest_stmt. intros d. unfold sql_insert_message. by repeat case_decide.
Qed.

Lemma tri_GetMailbox n : tri api_iso (GetMailbox u n) (λ r w, api_iso w ∧ ∀ b, r = Ok b → mbox_mine u M (mbox_ID b)).
Proof.
  intros w [Hi Hr]%api_iso_split. destruct (GetMailbox_iso u M F n w Hi) as (Hi' & _ & Hb). split; [|done].
  apply api_iso_split. split; [done|]. by apply on_db_GetMailbox.
Qed.

(** Statements on the contacts of [u]. *)
Lemma iso_contacts {A} (f : DB → res A * DB) :
  stmt_ok f →
  (∀ d, ∃ t, (f d).2 = set_contacts t d ∧
     filter (λ c, ct_UserID c ≠ u) (rows t) = filter (λ c, ct_UserID c ≠ u) (rows (contacts d))) →
  pres api_iso (stmt f).
Proof.
  intros Hf He w ((Hwf & Hm & HF) & HC & HU).
  assert (mbox_ok f) as Hk by (apply mbox_ok_same; intros d; destruct (He d) as (t & -> & _); done).
  pose proof (pres_stmt f Hf Hk w Hwf) as Hw'.
  destruct (stmt_cases f w) as [[fs E]|[fs E]]; rewrite E in *; [done|]. destruct (He (w_db w)) as (t & Et & Ef).
  cbn [snd] in *. rewrite Et in *. unfold api_iso, world_iso in *. cbn in *. by rewrite Ef.
Qed.

Lemma iso_CreateContact n e : pres api_iso (CreateContact u n e).
Proof.
  unfold CreateContact. pres_walk. apply iso_contacts; [apply sql_insert_contact_ok|]. intros d. unfold sql_insert_contact.
  repeat case_decide; cbn; [exists (contacts d); by destruct d..| |exists (contacts d); by destruct d].
  eexists. split; [reflexivity|]. cbn. rewrite filter_app, filter_cons_False, filter_nil, app_nil_r by naive_solver. done.
Qed.

Lemma iso_DeleteContact i : pres api_iso (DeleteContact u i).
Proof.
  unfold DeleteContact. pres_walk. apply iso_contacts; [apply sql_delete_contact_ok|]. intros d. eexists. split; [reflexivity|].
  cbn. rewrite list_filter_filter. apply list_filter_iff. naive_solver.
Qed.

Lemma iso_Enqueue id to : pres api_iso (Manager_Enqueue id to).
Proof.
  apply iso_other; [unfold Manager_Enqueue, queue_metrics; pres_walk|]. intros w.
  unfold Manager_Enqueue, Enqueue, queue_metrics, sbind, time_now_unix. cbn.
  match goal with |- context [stmt ?f ?w0] => pose proof (stmt_cases f w0) as H; set (r := stmt f w0) in * end.
  destruct H as [[fs ->]|[fs ->]]; [done|]. unfold sql_enqueue. by repeat case_decide.
Qed.

(** Triples of a fallible step that answers a failure. *)
Lemma own_after {A} (m : state World A) (k : A → state World Response) :
  pres api_iso m → (∀ a, tri api_iso (k a) own) → tri api_iso (sbind m k) own.
Proof. intros Hm Hk. eapply tri_bind; [by apply tri_pres|exact Hk]. Qed.

Lemma own_listing {A} (f : DB → list A) ctx st (show : list A → Response) e :
  (∀ w, api_iso w → shows_own (rs_Data (show (f (w_db w))))) →
  tri api_iso (let! r := (let! r := query (λ d, Ok (f d)) in
                          match r with Err err => sret (Err (wrap ctx err)) | Ok l => sret (Ok l) end) in
               match r with Err _ => sret (fail st e) | Ok l => sret (show l) end) own.
Proof.
  intros Hs w Hi. unfold sbind. destruct (tri_query (λ d, Ok (f d)) w Hi) as [Hi' Hq].
  destruct (query _ w) as [[l|err] w']; [|done]. cbn [fst snd] in *. specialize (Hq l eq_refl). injection Hq as <-.
  split; [by apply Hs|done].
Qed.

Lemma own_Me : tri api_iso (handleMe u) own.
Proof.
  eapply tri_bind; [apply tri_GetUserByID|]. intros [x|e]; [|eapply tri_pre, own_fail; by intros w []].
  apply tri_ret. intros w [Hi Hx]. split; [by apply Hx|done].
Qed.

Lemma own_ListMailboxes : tri api_iso (handleListMailboxes u) own.
Proof.
  apply (own_listing (λ d, order_by mbox_name_le (select (λ m, mbox_UserID m = u) (mailboxes d)))).
  intros w ((_ & HM & _) & _). cbn. rewrite Forall_forall. intros b. rewrite order_by_perm, elem_of_select, HM. tauto.
Qed.

Lemma own_ListContacts : tri api_iso (handleListContacts u) own.
Proof.
  apply (own_listing (λ d, order_by contact_order (select (λ c, ct_UserID c = u) (contacts d)))).
  intros w _. cbn. rewrite Forall_forall. intros c. rewrite order_by_perm, elem_of_select. tauto.
Qed.

Lemma own_ListMailboxMessages id r : tri api_iso (handleListMailboxMessages u id r) own.
Proof.
  unfold handleListMailboxMessages, with_id. destruct (strconv.ParseInt id) as [mb|]; [|apply own_fail].
  eapply tri_bind; [apply tri_GetMailboxByID|]. intros [b|err].
  2: { destruct (errors_is err ErrNotFound); eapply tri_pre, own_fail; by intros w []. }
  destruct (Z.eqb_spec (mbox_UserID b) u) as [Eu|]; [|eapply tri_pre, own_fail; by intros w []]. cbn [negb].
  intros w0 [Hi0 Hb]. destruct (Hb b eq_refl) as [<- HbM]. clear Hb.
  assert (mbox_mine u M (mbox_ID b)) as Hmine by (eapply row_mbox_mine; [apply Hi0|done..]).
  cbv zeta. revert w0 Hi0. unfold ListMessagesPaginated. cbv zeta.
  match goal with |- context [Ok (take ?a (drop ?o _))] =>
    apply (own_listing (λ d, take a (drop o (order_by uid_desc (select (λ m, msg_MailboxID m = mbox_ID b) (messages d)))))) end.
  intros w Hi. cbn. rewrite Forall_forall. intros m (i & Hm & _)%elem_of_take. rewrite lookup_drop in Hm.
  apply list_elem_of_lookup_2 in Hm. revert Hm.
  rewrite order_by_perm, elem_of_select. intros [E Hin]. apply (fk_mine u M F w); [apply Hi|done|by rewrite E].
Qed.

Lemma own_GetMessage id : tri api_iso (handleGetMessage u id) own.
Proof.
  unfold handleGetMessage, with_id. destruct (strconv.ParseInt id) as [i|]; [|apply own_fail].
  apply own_message. intros m _. intros w (Hi & _ & Hm).
  assert (pres api_iso (Blob.Get (msg_BlobKey m))) as Hg
    by (apply iso_frame; [by eapply Get_store_wf|intros; by eapply Get_frame]).
  unfold sbind. specialize (Hg w Hi). destruct (Blob.Get (msg_BlobKey m) w) as [[data|e] w']; [|done].
  destruct (ParseMessageBody m (Ok data)) as [pm|e] eqn:Ep; [|done]. split; [|done]. cbn.
  replace (pm_Message pm) with m; [done|]. revert Ep. unfold ParseMessageBody.
  destruct (mail.ReadMessage data) as [[hdr body]|]; [|done]. destruct (ParseMediaType _) as [[ty params]|]; [|by intros [= <-]].
  destruct (strings.HasPrefix ty "multipart/"); [destruct (extractParts _ _ _); by intros [= <-]|].
  destruct (String.eqb ty "text/html"); by intros [= <-].
Qed.

Lemma own_handleUpdateFlags id r : tri api_iso (handleUpdateFlags u id r) own.
Proof.
  unfold handleUpdateFlags, with_id. destruct (strconv.ParseInt id) as [i|]; [|apply own_fail].
  destruct (object_of (rq_body r)) as [fields|]; [|apply own_fail].
  destruct (bool_field fields "seen") as [seen|]; [|apply own_fail].
  apply own_message. intros m <-. cbv zeta. eapply tri_bind; [apply own_UpdateFlags|].
  intros [x|e]; [apply own_done|apply own_fail].
Qed.

Lemma own_SendMessage r : tri api_iso (handleSendMessage lib h u r) own.
Proof.
  unfold handleSendMessage. eapply tri_bind; [apply tri_GetUserByID|].
  intros [user|e]; [|eapply tri_pre, own_fail; by intros w []]. eapply tri_pre; [intros w [Hi _]; exact Hi|].
  destruct (object_of (rq_body r)) as [fields|]; [|apply own_fail].
  repeat (case_match; try apply own_fail).
  apply own_after; [by intros w Hw|intros now].
  assert (∀ k, pres api_iso (Blob.Delete k)) as Hdel
    by (intros k; apply iso_frame; [by eapply Delete_store_wf|intros; by eapply Delete_frame]).
  apply own_after; [apply iso_frame; [by eapply Put_store_wf|intros; by eapply Put_frame]|intros [[key z]|e]; [|apply own_fail]].
  eapply tri_bind; [apply tri_GetMailbox|]. intros [b|e].
  2: { eapply tri_pre; [intros w [Hi _]; exact Hi|]. apply own_after; [apply Hdel|intros; apply own_fail]. }
  intros w [Hi Hb]. specialize (Hb b eq_refl). revert w Hi.
  apply own_after; [by apply iso_InsertMessage|intros [[msgID uid]|e]].
  2: { apply own_after; [apply Hdel|intros; apply own_fail]. }
  apply own_after; [apply iso_Enqueue|intros [x|e]; [|apply own_fail]]. by apply tri_ret.
Qed.

Lemma own_CreateContact r : tri api_iso (handleCreateContact lib u r) own.
Proof.
  unfold handleCreateContact. destruct (object_of (rq_body r)) as [fields|]; [|apply own_fail].
  repeat (case_match; try apply own_fail). apply own_after; [apply iso_CreateContact|].
  intros [i|e]; [by apply tri_ret|]. destruct (errors_is e ErrAlreadyExists); apply own_fail.
Qed.

Lemma own_DeleteContact id : tri api_iso (handleDeleteContact u id) own.
Proof.
  unfold handleDeleteContact, with_id. destruct (strconv.ParseInt id) as [i|]; [|apply own_fail].
  apply own_after; [apply iso_DeleteContact|].
  intros [x|e]; [apply own_done|]. destruct (errors_is e ErrNotFound); apply own_fail.
Qed.
End isolation.

(** The endpoints of mail.go. *)
Definition user_scoped (e : Endpoint) : bool :=
  match e with
  | EMe | EListMailboxes | EListMailboxMessages _ | EGetMessage _ | EUpdateFlags _ | ESendMessage
  | EListContacts | ECreateContact | EDeleteContact _ => true
  | _ => false
  end.

(** C10.  The endpoints of the mail browser, run for the user a session belongs to,
    with any database operation failing: a response shows only mailboxes,
    messages, bodies and contacts of that user, and afterwards the accounts, the
    mailboxes, and the messages and contacts of every other user are as before. *)
Theorem api_isolation `{MR : MapRange} `{S : Store} `{ML : MimeLib} (digest : string → string) `{!StoreSpec S digest}
    (IDKey : string → list Z → Z → Z → Z → Z → list Z) (lib : ApiLib) (h : handlers)
    (u : Z) (d : Draws) (e : Endpoint) (r : Request) (w : World) (dk : option Signer) :
  wf w → user_scoped e = true →
  let out := handler IDKey lib h d e u r (w, dk) in
  let M := mailboxes (w_db w) in
  shows_own u M (rs_Data out.1) ∧
  users (w_db out.2.1) = users (w_db w) ∧ mailboxes (w_db out.2.1) = M ∧
  filter (λ m, ¬ mine u M m) (rows (messages (w_db out.2.1))) = filter (λ m, ¬ mine u M m) (rows (messages (w_db w))) ∧
  filter (λ c, ct_UserID c ≠ u) (rows (contacts (w_db out.2.1))) = filter (λ c, ct_UserID c ≠ u) (rows (contacts (w_db w))).
Proof.
  intros Hw He out M. set (F := filter (λ m, ¬ mine u M m) (rows (messages (w_db w)))).
  set (C := filter (λ c, ct_UserID c ≠ u) (rows (contacts (w_db w)))).
  assert (∀ m, tri (api_iso u M F C (users (w_db w))) m (own u M F C (users (w_db w))) →
    let o := lift m (w, dk) in shows_own u M (rs_Data o.1) ∧ api_iso u M F C (users (w_db w)) o.2.1) as Hlift.
  { intros m Hm. assert (api_iso u M F C (users (w_db w)) w) as Hi by done. specialize (Hm w Hi).
    unfold lift. cbn [fst snd]. by destruct (m w). }
  assert (shows_own u M (rs_Data out.1) ∧ api_iso u M F C (users (w_db w)) out.2.1) as [H1 ((_ & H2 & H3) & H4 & H5)]; [|done].
  unfold out. destruct e; try done; cbn [handler]; apply Hlift.
  - by apply own_Me.
  - by apply own_ListMailboxes.
  - by apply own_ListMailboxMessages.
  - by eapply own_GetMessage.
  - by apply own_handleUpdateFlags.
  - by eapply own_SendMessage.
  - by apply own_ListContacts.
  - by apply own_CreateContact.
  - by apply own_DeleteContact.
Qed.

(** * Privileges *)
Lemma ValidateSession_quiet `{MapRange} tok : pres quiet (ValidateSession tok).
Proof.
  unfold ValidateSession, sessionCache_Delete, sessionCache_Set. pres_walk.
  intros w Hw. unfold sessionCache_Get. by destruct (Cache.Get _ _ _).
Qed.

Lemma UpdateUser_admin x w :
  wf w → w_faults w = [] → x ∈ rows (users (w_db w)) →
  UpdateUser (user_ID x) None None None (Some true) w =
  (Ok tt, set_db (set_users (update_rows (λ u, user_ID u = user_ID x) (updated_user None None None (Some true))
            (users (w_db w))) (w_db w)) w).
Proof.
  intros Hw Hf Hx. unfold UpdateUser, sbind. rewrite stmt_ok_run by done. unfold sql_update_user.
  rewrite decide_True by (apply unique_update; [apply Hw|done]). cbn [fst snd].
  rewrite (affected_one user_ID _ _ x); [done|apply Hw|done|done].
Qed.

(** No endpoint asks whether the session belongs to an administrator: with a
    session of any user, [PUT /api/users/{id}] makes any account, the sender's own
    included, an administrator. *)
Theorem api_any_session_promotes `{MR : MapRange} `{S : Store} `{ML : MimeLib} (IDKey : string → list Z → Z → Z → Z → Z → list Z)
    (lib : ApiLib) (h : handlers) (d : Draws) (tok idStr addr : string) (u : Z) (x : User) (w w1 : World) (dk : option Signer) :
  wf w → w_faults w = [] → tok ≠ "" → ValidateSession tok w = (Ok u, w1) →
  x ∈ rows (users (w_db w)) → strconv.ParseInt idStr = Some (user_ID x) →
  let r := mkRequest "PUT" ["api"; "users"; idStr] (bearer +:+ tok) [] (Some (JObject [("is_admin", JBool true)])) addr in
  let out := serve IDKey lib h d r (w, dk) in
  rs_status out.1 = StatusOK ∧
  rows (users (w_db out.2.1)) =
    (λ y, if decide (user_ID y = user_ID x)
          then mkUser (user_ID y) (user_Email y) (user_PasswordHash y) true (user_CreatedAt y) (user_IsActive y)
          else y) <$> rows (users (w_db w)).
Proof.
  intros Hw Hf Ht Ev Hx Hid r out.
  assert (extractBearerToken r = tok) as Etok.
  { unfold extractBearerToken, r. cbn [rq_authorization]. unfold slen. rewrite string_length_app.
    destruct (Z.ltb_spec (Z.of_nat (String.length bearer + String.length tok)) (Z.of_nat (String.length bearer))); [lia|].
    rewrite stake_app, String.eqb_refl. cbn [orb negb]. apply sdrop_app. }
  pose proof (only_ValidateSession (λ _, False) (w_db w) tok w (only_sessions_refl _ _)) as Hs.
  pose proof (ValidateSession_quiet tok w Hf) as Hf1. pose proof (ValidateSession_wf tok w Hw) as Hw1.
  rewrite Ev in Hs, Hf1, Hw1. destruct Hs as (t & Edb & _). cbn [snd] in *.
  assert (users (w_db w1) = users (w_db w)) as Eu by by rewrite Edb.
  set (w2 := set_db (set_users (update_rows (λ u, user_ID u = user_ID x) (updated_user None None None (Some true))
    (users (w_db w1))) (w_db w1)) w1).
  assert (out = (with_headers cors (ok StatusOK (NewID (user_ID x))), (w2, dk))) as ->.
  { unfold out, serve, withMiddleware. change (String.eqb (rq_method r) "OPTIONS") with false. cbv iota. unfold NewRouter.
    change (lookup_endpoint r) with (inr (EUpdateUser idStr) : Z + Endpoint). cbn [is_public]. unfold requireAuthWithDB.
    rewrite Etok, (proj2 (String.eqb_neq _ _) Ht). unfold sbind at 1 2. rewrite (lift_run _ w dk _ _ Ev).
    cbn [handler]. unfold handleUpdateUser, with_id. rewrite Hid. cbn [object_of rq_body r].
    change (string_pointer [("is_admin", JBool true)] "email") with (Some None : option (option string)).
    change (string_pointer [("is_admin", JBool true)] "password") with (Some None : option (option string)).
    change (bool_pointer [("is_admin", JBool true)] "is_active") with (Some None : option (option bool)).
    change (bool_pointer [("is_admin", JBool true)] "is_admin") with (Some (Some true) : option (option bool)).
    cbv beta zeta iota. rewrite (lift_run _ w1 dk (ok StatusOK (NewID (user_ID x))) w2); [done|].
    unfold sbind. rewrite UpdateUser_admin; [done|done|exact Hf1|by rewrite Eu]. }
  split; [done|]. cbn. by rewrite Eu.
Qed.

(** * Witnesses *)
Definition demo_handlers : handlers := mkHandlers (3600 * second) "" (mkDKIMConfig "example.com" "s").

(** A session of the only user of [demo_world]. *)
Definition demo_api_world : World :=
  set_db (set_sessions (mkTable [mkSessionRow "tok" 1 5000] 1) demo_db) demo_world.

Lemma demo_api_wf : wf demo_api_world.
Proof.
  apply wf_cold; [done|]. constructor; cbn; try (split; [|repeat constructor; cbn; lia]);
    try (apply (bool_decide_unpack _); vm_compute; exact I); repeat constructor; cbn; lia.
Qed.

Definition demo_get (path : list string) (auth : string) : Request := mkRequest "GET" path auth [] None "192.0.2.1:999".

Lemma api_gate_witness :
  let out := serve (ML := toy_mime) (S := SQLiteStore toy_digest) toy_key demo_lib demo_handlers (mkDraws None (Err io_error))
    (demo_get ["api"; "users"] "Bearer nope") (demo_api_world, None) in
  rs_status out.1 = 401 ∧ only_sessions (λ s, logs_in toy_key (demo_get ["api"; "users"] "Bearer nope") demo_api_world (sess_user_id s))
    (w_db demo_api_world) (w_db out.2.1).
Proof.
  intros out. destruct (api_gate (ML := toy_mime) (S := SQLiteStore toy_digest) toy_key demo_lib demo_handlers
    (mkDraws None (Err io_error)) (demo_get ["api"; "users"] "Bearer nope") demo_api_world None) as [H _].
  destruct H as (H1 & _ & H2); [right; vm_compute; reflexivity|]. split; [|exact H1].
  apply (H2 EListUsers); [discriminate|reflexivity|reflexivity].
Defined.

Lemma api_isolation_witness :
  let out := handler (ML := toy_mime) (S := SQLiteStore toy_digest) toy_key demo_lib demo_handlers (mkDraws None (Err io_error))
    (EListMailboxMessages "1") 1 (demo_get ["api"; "mailboxes"; "1"; "messages"] "") (demo_api_world, None) in
  rs_status out.1 = 200 ∧ shows_own 1 (mailboxes demo_db) (rs_Data out.1).
Proof.
  intros out. split; [vm_compute; reflexivity|].
  apply (api_isolation (ML := toy_mime) (S := SQLiteStore toy_digest) toy_digest toy_key demo_lib demo_handlers 1
    (mkDraws None (Err io_error)) (EListMailboxMessages "1") (demo_get ["api"; "mailboxes"; "1"; "messages"] "") demo_api_world None).
  - apply demo_api_wf.
  - reflexivity.
Defined.

Lemma api_any_session_promotes_witness :
  let r := mkRequest "PUT" ["api"; "users"; "1"] (bearer +:+ "tok") [] (Some (JObject [("is_admin", JBool true)])) "192.0.2.1:999" in
  rs_status (serve (ML := toy_mime) (S := SQLiteStore toy_digest) toy_key demo_lib demo_handlers (mkDraws None (Err io_error)) r
    (demo_api_world, None)).1 = 200.
Proof.
  intros r.
  apply (api_any_session_promotes (ML := toy_mime) (S := SQLiteStore toy_digest) toy_key demo_lib demo_handlers
    (mkDraws None (Err io_error)) "tok" "1" "192.0.2.1:999" 1 (mkUser 1 "u@example.com" "h" false 50 true) demo_api_world
    (ValidateSession "tok" demo_api_world).2 None).
  - apply demo_api_wf.
  - reflexivity.
  - discriminate.
  - vm_compute. reflexivity.
  - left.
  - reflexivity.
Defined.
