(* ===== verification/Pop3.v ===== *)
(** The POP3 service (src/pkg/pop3/session.go): the command interpreter of one
    connection.  The state is the process together with the session; what is
    written to the client accumulates in [p3_out].  MD5 and the outcome of a TLS
    handshake are parameters. *)
From S2P Require Import Prelude GoLib Cache Sql Schema World StoreUsers StoreMail Ownership Auth Blob.

Inductive p3_state := stateAuthorization | stateTransaction | stateUpdate.
#[export] Instance p3_state_eq_dec : EqDecision p3_state.
Proof. solve_decision. Defined.

(** [Session]: the fields the handlers use. *)
Record Session := mkSession {
  p3_phase : p3_state;
  p3_userID : Z;
  p3_email : string;
  p3_markedDeleted : gset Z;
  p3_apopTimestamp : string;
  p3_secured : bool;
  p3_startOfLine : bool;
  p3_out : string;
}.

(** The server's configuration: the APOP secret, and the TLS configuration as the
    outcome of the handshakes it would perform ([None] without one). *)
Record P3Config := mkP3Config { APOPSecret : string; tlsCfg : option bool }.

Definition crlf : string := String (chr 13) (String (chr 10) "").

Definition P3 : Type := World * Session.

Definition sess : state P3 Session := λ s, (s.2, s).
Definition upd (f : Session → Session) : state P3 unit := λ s, (tt, (s.1, f s.2)).

Definition write (text : string) (s : Session) : Session :=
  mkSession (p3_phase s) (p3_userID s) (p3_email s) (p3_markedDeleted s) (p3_apopTimestamp s) (p3_secured s)
    (p3_startOfLine s) (p3_out s +:+ text).
Definition set_phase (p : p3_state) (u : Z) (e : string) (s : Session) : Session :=
  mkSession p u e (p3_markedDeleted s) (p3_apopTimestamp s) (p3_secured s) (p3_startOfLine s) (p3_out s).
Definition set_email (e : string) (s : Session) : Session :=
  set_phase (p3_phase s) (p3_userID s) e s.
Definition set_marks (m : gset Z) (s : Session) : Session :=
  mkSession (p3_phase s) (p3_userID s) (p3_email s) m (p3_apopTimestamp s) (p3_secured s) (p3_startOfLine s) (p3_out s).
Definition set_secured (s : Session) : Session :=
  mkSession (p3_phase s) (p3_userID s) (p3_email s) (p3_markedDeleted s) (p3_apopTimestamp s) true
    (p3_startOfLine s) (p3_out s).
Definition set_sol (b : bool) (s : Session) : Session :=
  mkSession (p3_phase s) (p3_userID s) (p3_email s) (p3_markedDeleted s) (p3_apopTimestamp s) (p3_secured s) b (p3_out s).

Definition writeLine (text : string) : state P3 unit := upd (write (text +:+ crlf)).

(** The loop of [dotStuffWrite]: the bytes written, and [startOfLine] after them. *)
Fixpoint dot_stuff (startOfLine : bool) (data : string) : string * bool :=
  match data with
  | EmptyString => (EmptyString, startOfLine)
  | String b rest =>
      if startOfLine && Ascii.eqb b "." then
        let '(out, sol) := dot_stuff false rest in (String "." (String "." out), sol)
      else
        let '(out, sol) := dot_stuff (Ascii.eqb b (chr 10)) rest in (String b out, sol)
  end.

Definition dotStuffWrite (data : string) : state P3 unit := upd (λ s,
  let '(out, sol) := dot_stuff (p3_startOfLine s) data in set_sol sol (write out s)).

(** [strings.Split(s, "\n")] and [strings.TrimRight(line, "\r")]. *)
Definition TrimRightCR (s : string) : string := strings.TrimRightFunc (λ c, Ascii.eqb c (chr 13)) s.

(** What a numeric argument names. *)
Definition parse_uid (arg : string) : option Z := strconv.ParseUint arg 32.

Section pop3.
Context `{MR : MapRange} `{S : Store}.
Context (IDKey : string → list Z → Z → Z → Z → Z → list Z) (md5hex : string → string) (cfg : P3Config).

Definition getINBOX : state P3 (res Mailbox) :=
  let! s := sess in lift (GetMailbox (p3_userID s) "INBOX").

Definition getMessageByUID (uid : Z) : state P3 (res Message) :=
  let! r := getINBOX in
  match r with
  | Err err => sret (Err (wrap "no INBOX: " err))
  | Ok mbox => lift (GetMessageByUID (mbox_ID mbox) uid)
  end.

(** Every handler returns whether the connection stays open. *)
Definition reply (text : string) : state P3 bool := do! writeLine text in sret true.

Definition handleUSER (email : string) : state P3 bool :=
  if String.eqb email "" then reply "-ERR Missing username"
  else do! upd (set_email email) in reply ("+OK Welcome, " +:+ email).

Definition handlePASS (password : string) : state P3 bool :=
  let! s := sess in
  if String.eqb (p3_email s) "" then reply "-ERR No USER provided first"
  else if String.eqb password "" then reply "-ERR Missing password"
  else
    let! r := lift (Authenticate IDKey (p3_email s) password) in
    match r with
    | Err _ => do! writeLine "-ERR Authentication failed" in do! upd (set_email "") in sret true
    | Ok userID =>
        do! upd (set_phase stateTransaction userID (p3_email s)) in
        reply "+OK Authentication successful"
    end.

Definition handleAPOP (arg : string) : state P3 bool :=
  if String.eqb (APOPSecret cfg) "" then reply "-ERR APOP not configured"
  else match strings.SplitN2 arg " " with
  | [email; digest] =>
      let! s := sess in
      if negb (strings.EqualFold digest (md5hex (p3_apopTimestamp s +:+ APOPSecret cfg)))
      then reply "-ERR APOP authentication failed"
      else
        let! r := lift (GetUserByEmail email) in
        match r with
        | Err _ => reply "-ERR APOP authentication failed"
        | Ok user =>
            do! upd (set_phase stateTransaction (user_ID user) email) in
            reply "+OK APOP authentication successful"
        end
  | _ => reply "-ERR Usage: APOP <user> <digest>"
  end.

Definition handleSTLS : state P3 bool :=
  let! s := sess in
  if p3_secured s then reply "-ERR Already using TLS"
  else match tlsCfg cfg with
  | None => reply "-ERR TLS not configured"
  | Some ok =>
      do! writeLine "+OK Begin TLS negotiation" in
      if ok : bool then do! upd set_secured in sret true
      else reply "-ERR TLS handshake failed"
  end.

Definition handleCAPA : state P3 bool :=
  let! s := sess in
  do! writeLine "+OK Capability list follows" in
  do! writeLine "TOP" in
  do! writeLine "USER" in
  do! writeLine "UIDL" in
  do! (if negb (String.eqb (APOPSecret cfg) "") then writeLine "APOP" else sret tt) in
  do! (match tlsCfg cfg with
       | Some _ => if negb (p3_secured s) then writeLine "STLS" else sret tt
       | None => sret tt
       end) in
  do! writeLine "IMPLEMENTATION Marco POP3" in
  reply ".".

Definition handleSTAT : state P3 bool :=
  let! r := getINBOX in
  match r with
  | Err err => reply ("-ERR " +:+ error_text err)
  | Ok mbox =>
      let! r := lift (CountMessages (mbox_ID mbox)) in
      match r with
      | Err _ => reply "-ERR Cannot get mailbox status"
      | Ok count =>
          let! r := lift (ListMessages (mbox_ID mbox) 0 0) in
          match r with
          | Err _ => reply "-ERR Cannot get mailbox status"
          | Ok msgs =>
              let totalSize := foldl (λ n m, n + msg_Size m) 0 msgs in
              reply ("+OK " +:+ strconv.Itoa count +:+ " " +:+ strconv.Itoa totalSize)
          end
      end
  end.

(** [LIST] and [UIDL] differ in what they print of a message. *)
Definition listing (show : Message → string) (header : list Message → string) (arg : string) : state P3 bool :=
  let! r := getINBOX in
  match r with
  | Err err => reply ("-ERR " +:+ error_text err)
  | Ok mbox =>
      let! r := lift (ListMessages (mbox_ID mbox) 0 0) in
      match r with
      | Err _ => reply "-ERR Cannot list messages"
      | Ok msgs =>
          if negb (String.eqb arg "") then
            match parse_uid arg with
            | None => reply "-ERR Invalid message number"
            | Some uid =>
                match List.find (λ m, uid =? msg_UID m) msgs with
                | Some m => reply ("+OK " +:+ strconv.Itoa (msg_UID m) +:+ " " +:+ show m)
                | None => reply "-ERR No such message"
                end
            end
          else
            do! writeLine (header msgs) in
            let! _ := sfor msgs (λ m, do! writeLine (strconv.Itoa (msg_UID m) +:+ " " +:+ show m) in
                                      sret (None : option unit)) in
            reply "."
      end
  end.
Definition handleLIST : string → state P3 bool :=
  listing (λ m, strconv.Itoa (msg_Size m))
    (λ msgs, "+OK " +:+ strconv.Itoa (Z.of_nat (length msgs)) +:+ " messages").
Definition handleUIDL : string → state P3 bool := listing msg_BlobKey (λ _, "+OK").

(** The blob is written in chunks of 4096 bytes; see [dot_stuff_app]. *)
Definition handleRETR (arg : string) : state P3 bool :=
  if String.eqb arg "" then reply "-ERR Missing message number"
  else match parse_uid arg with
  | None => reply "-ERR Invalid message number"
  | Some uid =>
      let! r := getMessageByUID uid in
      match r with
      | Err err => reply ("-ERR " +:+ error_text err)
      | Ok msg =>
          let! r := lift (Blob.Get (msg_BlobKey msg)) in
          match r with
          | Err _ => reply "-ERR Cannot retrieve message"
          | Ok blob =>
              do! writeLine ("+OK " +:+ strconv.Itoa (msg_Size msg) +:+ " octets") in
              do! dotStuffWrite blob in
              reply "."
          end
      end
  end.

Definition handleDELE (arg : string) : state P3 bool :=
  if String.eqb arg "" then reply "-ERR Missing message number"
  else match parse_uid arg with
  | None => reply "-ERR Invalid message number"
  | Some uid =>
      let! r := getMessageByUID uid in
      match r with
      | Err err => reply ("-ERR " +:+ error_text err)
      | Ok msg =>
          let! r := lift (UpdateFlags (msg_ID msg) FlagDeleted FlagDeleted) in
          match r with
          | Err _ => reply "-ERR Cannot mark message for deletion"
          | Ok _ =>
              do! upd (λ s, set_marks ({[msg_ID msg]} ∪ p3_markedDeleted s) s) in
              reply ("+OK Message " +:+ strconv.Itoa (msg_UID msg) +:+ " marked for deletion")
          end
      end
  end.

(** The loop ranges over a map; its order is that of [elements]. *)
Definition handleRSET : state P3 bool :=
  let! s := sess in
  let! _ := sfor (elements (p3_markedDeleted s)) (λ msgID,
    let! _ := lift (UpdateFlags msgID 0 FlagDeleted) in sret (None : option unit)) in
  do! upd (set_marks ∅) in
  reply "+OK".

(** The header block, and the body, at the first blank line. *)
Definition split_message (body : string) : string * string :=
  match strings.Index body (crlf +:+ crlf) with
  | Some headerEnd => (stake headerEnd body, sdrop (headerEnd + 4) body)
  | None =>
      match strings.Index body (String (chr 10) (String (chr 10) "")) with
      | Some headerEnd => (stake headerEnd body, sdrop (headerEnd + 2) body)
      | None => (body, EmptyString)
      end
  end.

Definition top_line (line : string) : string :=
  let line := TrimRightCR line in
  (if strings.HasPrefix line "." then "." else "") +:+ line +:+ crlf.

Definition handleTOP (arg : string) : state P3 bool :=
  if String.eqb arg "" then reply "-ERR Usage: TOP <msg> <n>"
  else match strings.SplitN2 arg " " with
  | [a; b] =>
      match parse_uid a with
      | None => reply "-ERR Invalid message number"
      | Some uid =>
          match strconv.Atoi b with
          | None => reply "-ERR Invalid line count"
          | Some n =>
              if n <? 0 then reply "-ERR Invalid line count" else
              let! r := getMessageByUID uid in
              match r with
              | Err err => reply ("-ERR " +:+ error_text err)
              | Ok msg =>
                  let! r := lift (Blob.Get (msg_BlobKey msg)) in
                  match r with
                  | Err _ => reply "-ERR Cannot retrieve message"
                  | Ok body =>
                      let '(headers, bodyContent) := split_message body in
                      do! writeLine "+OK" in
                      do! upd (write (headers +:+ crlf)) in
                      do! upd (write (String.concat ""
                            (top_line <$> take (Z.to_nat n) (strings.Split bodyContent (chr 10))))) in
                      reply "."
                  end
              end
          end
      end
  | _ => reply "-ERR Usage: TOP <msg> <n>"
  end.

Definition handleQUIT : state P3 bool :=
  let! s := sess in
  do! (if decide (p3_markedDeleted s = ∅) then sret tt
       else
         let! r := getINBOX in
         match r with
         | Ok mbox => let! _ := lift (ExpungeMailbox (mbox_ID mbox)) in sret tt
         | Err _ => sret tt
         end) in
  do! writeLine "+OK Bye" in
  sret false.

Definition handleCommand (cmd arg : string) : state P3 bool :=
  if String.eqb cmd "QUIT" then handleQUIT
  else if String.eqb cmd "CAPA" then handleCAPA
  else
    let! s := sess in
    if decide (p3_phase s = stateAuthorization) then
      if String.eqb cmd "USER" then handleUSER arg
      else if String.eqb cmd "PASS" then handlePASS arg
      else if String.eqb cmd "APOP" then handleAPOP arg
      else if String.eqb cmd "STLS" then handleSTLS
      else reply "-ERR Authorization required"
    else
      if String.eqb cmd "STAT" then handleSTAT
      else if String.eqb cmd "LIST" then handleLIST arg
      else if String.eqb cmd "RETR" then handleRETR arg
      else if String.eqb cmd "DELE" then handleDELE arg
      else if String.eqb cmd "NOOP" then reply "+OK"
      else if String.eqb cmd "RSET" then handleRSET
      else if String.eqb cmd "TOP" then handleTOP arg
      else if String.eqb cmd "UIDL" then handleUIDL arg
      else reply "-ERR Unknown command".

(** The read loop of [handle], over the lines the client sends (without their
    line ends); the connection also ends when no line is left. *)
Fixpoint handle_lines (lines : list string) : state P3 unit :=
  match lines with
  | [] => sret tt
  | line :: lines =>
      if String.eqb line "" then handle_lines lines else
      let '(cmd, arg) := match strings.SplitN2 line " " with
                         | [c; a] => (c, a)
                         | c :: _ => (c, "")
                         | [] => ("", "")
                         end in
      let! more := handleCommand (strings.ToUpper cmd) arg in
      if more : bool then handle_lines lines else sret tt
  end.

Definition new_session (timestamp : string) : Session :=
  mkSession stateAuthorization 0 "" ∅ timestamp false false EmptyString.

(** [handle]: what the client receives; [addr] is the listen address. *)
Definition handle (addr : string) (lines : list string) : state World string := λ w,
  let ts := "<" +:+ strconv.Itoa (w_now w) +:+ "." +:+ addr +:+ "@marco>" in
  let s := write ("+OK Marco POP3 server ready [" +:+ ts +:+ "]" +:+ crlf) (new_session ts) in
  let '(_, (w', s')) := handle_lines lines (w, s) in (p3_out s', w').
End pop3.

(** * Dot-stuffing *)
Lemma dot_stuff_app sol a b :
  dot_stuff sol (a +:+ b) =
  let '(o1, sol1) := dot_stuff sol a in let '(o2, sol2) := dot_stuff sol1 b in (o1 +:+ o2, sol2).
Proof.
  revert sol. induction a as [|c a IH]; intros sol.
  - change ("" +:+ b) with b. simpl. by destruct (dot_stuff sol b).
  - rewrite string_app_cons. cbn [dot_stuff]. destruct (sol && Ascii.eqb c "."); rewrite IH;
      destruct (dot_stuff _ a) as [o1 s1]; by destruct (dot_stuff s1 b).
Qed.

(** A client reading a multi-line response (RFC 1939, section 3): a line that
    starts with a dot loses it, a line that is just a dot ends the response. *)
Fixpoint client_read (at_start : bool) (s : string) : option string :=
  match s with
  | EmptyString => None
  | String c s' =>
      if at_start && Ascii.eqb c "." then
        if strings.HasPrefix s' crlf then Some EmptyString else client_read false s'
      else String c <$> client_read (Ascii.eqb c (chr 10)) s'
  end.

Lemma client_read_stuffed sol data rest :
  client_read sol ((dot_stuff sol data).1 +:+ rest) =
  (λ t, data +:+ t) <$> client_read (dot_stuff sol data).2 rest.
Proof.
  revert sol. induction data as [|c data IH]; intros sol.
  - change (client_read sol rest = (λ t, t) <$> client_read sol rest). by destruct (client_read sol rest).
  - cbn [dot_stuff]. destruct (sol && Ascii.eqb c ".") eqn:E.
    + apply andb_true_iff in E as [-> ->%Ascii.eqb_eq]. specialize (IH false).
      destruct (dot_stuff false data) as [out sol']. cbn [fst snd] in *. rewrite !string_app_cons.
      transitivity (String "." <$> client_read false (out +:+ rest)); [reflexivity|].
      rewrite IH. by destruct (client_read sol' rest).
    + specialize (IH (Ascii.eqb c (chr 10))). destruct (dot_stuff (Ascii.eqb c (chr 10)) data) as [out sol'].
      cbn [fst snd] in *. rewrite string_app_cons. cbn [client_read]. rewrite E, IH. by destruct (client_read sol' rest).
Qed.

(** The last character is a line feed. *)
Fixpoint ends_lf (s : string) : bool :=
  match s with
  | EmptyString => false
  | String c EmptyString => Ascii.eqb c (chr 10)
  | String _ s => ends_lf s
  end.

Lemma dot_stuff_sol sol data : data ≠ "" → (dot_stuff sol data).2 = ends_lf data.
Proof.
  revert sol. induction data as [|c data IH]; intros sol Hd; [done|]. cbn [dot_stuff].
  destruct (sol && Ascii.eqb c ".") eqn:E.
  - apply andb_true_iff in E as [_ ->%Ascii.eqb_eq]. specialize (IH false). destruct data as [|c' d]; [done|].
    specialize (IH ltac:(done)). destruct (dot_stuff false (String c' d)) as [o s]. exact IH.
  - specialize (IH (Ascii.eqb c (chr 10))). destruct data as [|c' d]; [done|].
    specialize (IH ltac:(done)). destruct (dot_stuff (Ascii.eqb c (chr 10)) (String c' d)) as [o s]. exact IH.
Qed.

Lemma dot_stuff_first sol data :
  strings.HasPrefix data "." = false → (dot_stuff sol data).1 = (dot_stuff true data).1.
Proof.
  destruct data as [|c data]; [done|]. intros Hp. cbn [strings.HasPrefix] in Hp. cbn [dot_stuff].
  assert (Ascii.eqb c "." = false) as ->.
  { rewrite Ascii.eqb_sym. destruct (Ascii.eqb_spec "." c); [by destruct data|done]. }
  by rewrite !andb_false_r.
Qed.

Section retr.
Context `{MR : MapRange} `{S : Store}.

(** What [RETR] sends once the message and its blob are found. *)
Lemma handleRETR_run arg uid msg blob p p1 w2 :
  arg ≠ "" → parse_uid arg = Some uid →
  getMessageByUID uid p = (Ok msg, p1) → Blob.Get (msg_BlobKey msg) p1.1 = (Ok blob, w2) →
  handleRETR arg p =
    (true, (w2, set_sol (dot_stuff (p3_startOfLine p1.2) blob).2
                  (write ("." +:+ crlf) (write (dot_stuff (p3_startOfLine p1.2) blob).1
                     (write ("+OK " +:+ strconv.Itoa (msg_Size msg) +:+ " octets" +:+ crlf) p1.2))))).
Proof.
  intros Ha Hu Hm Hb. unfold handleRETR. destruct (String.eqb_spec arg ""); [done|]. rewrite Hu.
  unfold sbind at 1. rewrite Hm. unfold sbind at 1, lift at 1. rewrite Hb. unfold reply, writeLine, dotStuffWrite, upd, sbind, sret.
  cbn [fst snd]. destruct p1 as [w1 s]. unfold write, set_sol. cbn. destruct (dot_stuff (p3_startOfLine s) blob) as [o sol].
  cbn. by rewrite <- !string_app_assoc.
Qed.
End retr.

(** What the client makes of the body that follows the status line. *)
Lemma client_read_retr sol data :
  ends_lf data = true → sol = true ∨ strings.HasPrefix data "." = false →
  client_read true ((dot_stuff sol data).1 +:+ "." +:+ crlf) = Some data.
Proof.
  intros He Hs. assert ((dot_stuff sol data).1 = (dot_stuff true data).1) as ->.
  { destruct Hs as [->|Hp]; [done|by apply dot_stuff_first]. }
  rewrite client_read_stuffed, dot_stuff_sol, He by by intros ->.
  change (Some (data +:+ "") = Some data). by rewrite string_app_nil_r.
Qed.

(** C31.  Retrieving a message: when [RETR] finds the message and its content, the
    client gets a [+OK] line and a body from which it reads back exactly the
    stored content, provided the content ends with a line feed and does not start
    with a dot in a session that has not sent a line before. *)
Theorem retr_transparent `{MR : MapRange} `{S : Store} (arg : string) (uid : Z) (msg : Message) (blob : string)
    (p p1 : P3) (w2 : World) :
  arg ≠ "" → parse_uid arg = Some uid →
  getMessageByUID uid p = (Ok msg, p1) → Blob.Get (msg_BlobKey msg) p1.1 = (Ok blob, w2) →
  ends_lf blob = true → p3_startOfLine p1.2 = true ∨ strings.HasPrefix blob "." = false →
  ∃ body, p3_out (handleRETR arg p).2.2 =
            p3_out p1.2 +:+ "+OK " +:+ strconv.Itoa (msg_Size msg) +:+ " octets" +:+ crlf +:+ body ∧
          client_read true body = Some blob ∧ (handleRETR arg p).1 = true.
Proof.
  intros Ha Hu Hm Hb He Hs. rewrite (handleRETR_run arg uid msg blob p p1 w2) by done.
  exists ((dot_stuff (p3_startOfLine p1.2) blob).1 +:+ "." +:+ crlf). split; [|split; [|done]].
  - cbn. by rewrite <- !string_app_assoc.
  - by apply client_read_retr.
Qed.

(** The first line of the first message a session retrieves is not
    dot-stuffed: if the stored content starts with a dot, the client never reads
    back what was stored (and reads an empty message when the first line is a
    lone dot). *)
Theorem retr_first_dot_lost `{MR : MapRange} `{S : Store} (arg : string) (uid : Z) (msg : Message) (rest : string)
    (p p1 : P3) (w2 : World) :
  arg ≠ "" → parse_uid arg = Some uid →
  getMessageByUID uid p = (Ok msg, p1) → Blob.Get (msg_BlobKey msg) p1.1 = (Ok (String "." rest), w2) →
  p3_startOfLine p1.2 = false →
  ∃ body, p3_out (handleRETR arg p).2.2 =
            p3_out p1.2 +:+ "+OK " +:+ strconv.Itoa (msg_Size msg) +:+ " octets" +:+ crlf +:+ body ∧
          client_read true body ≠ Some (String "." rest) ∧
          (strings.HasPrefix rest crlf = true → client_read true body = Some "").
Proof.
  intros Ha Hu Hm Hb Hs. rewrite (handleRETR_run arg uid msg (String "." rest) p p1 w2) by done. rewrite Hs.
  exists ((dot_stuff false (String "." rest)).1 +:+ "." +:+ crlf). split; [cbn; by rewrite <- !string_app_assoc|].
  cbn [dot_stuff andb]. change (Ascii.eqb "." (chr 10)) with false.
  destruct (dot_stuff false rest) as [out sol] eqn:Ed. cbn [fst]. rewrite string_app_cons.
  change (client_read true (String "." (out +:+ "." +:+ crlf))) with
    (if strings.HasPrefix (out +:+ "." +:+ crlf) crlf then Some EmptyString else client_read false (out +:+ "." +:+ crlf)).
  split.
  - destruct (strings.HasPrefix _ _); [done|].
    pose proof (client_read_stuffed false rest ("." +:+ crlf)) as Hc. rewrite Ed in Hc. cbn [fst snd] in Hc. rewrite Hc.
    destruct (client_read sol ("." +:+ crlf)) as [t|] eqn:Et; [|done]. cbn. intros [= E].
    assert (slen (rest +:+ t) = slen (String "." rest)) as El by by rewrite E. clear E Hc Ed.
    unfold slen in El. rewrite string_length_app in El. simpl in El.
    destruct sol; vm_compute in Et; [|discriminate]. injection Et as <-. simpl in El. lia.
  - intros Hp. apply HasPrefix_spec in Hp. revert Hp. generalize (sdrop (String.length crlf) rest) as r2. intros r2 ->.
    assert (out = crlf +:+ (dot_stuff true r2).1) as ->.
    { transitivity (dot_stuff false (crlf +:+ r2)).1; [by rewrite Ed|]. rewrite dot_stuff_app.
      change (dot_stuff false crlf) with (crlf, true). cbv iota. by destruct (dot_stuff true r2). }
    by rewrite <- string_app_assoc, HasPrefix_app.
Qed.

(** A logged-in session on the demo database, with a message whose content is [data]. *)
Definition demo_mail (data : string) : World :=
  set_db (set_blobs (mkTable [mkBlobRow "k" data (slen data) 0 1] 1) demo_db) (init_world (1000 * second)).
Definition demo_session (sol : bool) : Session :=
  mkSession stateTransaction 1 "u@example.com" ∅ "" false sol EmptyString.
Definition demo_p3 (data : string) : P3 := (demo_mail data, demo_session false).
Definition demo_msg1 : Message := mkMessage 1 1 1 "k" 10 0 100 "a@x" "u@example.com" "s".

Lemma retr_transparent_witness :
  let data := "Subject: x" +:+ crlf +:+ crlf +:+ ".hidden" +:+ crlf in
  ∃ body, p3_out (handleRETR (S := SQLiteStore toy_digest) "1" (demo_p3 data)).2.2 =
            "" +:+ "+OK " +:+ "10" +:+ " octets" +:+ crlf +:+ body ∧
          client_read true body = Some data ∧ (handleRETR (S := SQLiteStore toy_digest) "1" (demo_p3 data)).1 = true.
Proof.
  intros data.
  apply (retr_transparent (S := SQLiteStore toy_digest) "1" 1 demo_msg1 data (demo_p3 data)
    (getMessageByUID 1 (demo_p3 data)).2
    (Blob.Get (Store := SQLiteStore toy_digest) "k" (getMessageByUID 1 (demo_p3 data)).2.1).2);
    [done|reflexivity|vm_compute; reflexivity|vm_compute; reflexivity|reflexivity|by right].
Defined.

Lemma retr_first_dot_lost_witness :
  let rest := crlf +:+ "text" +:+ crlf in
  ∃ body, p3_out (handleRETR (S := SQLiteStore toy_digest) "1" (demo_p3 (String "." rest))).2.2 =
            "" +:+ "+OK " +:+ "10" +:+ " octets" +:+ crlf +:+ body ∧
          client_read true body ≠ Some (String "." rest) ∧
          (strings.HasPrefix rest crlf = true → client_read true body = Some "").
Proof.
  intros rest.
  apply (retr_first_dot_lost (S := SQLiteStore toy_digest) "1" 1 demo_msg1 rest (demo_p3 (String "." rest))
    (getMessageByUID 1 (demo_p3 (String "." rest))).2
    (Blob.Get (Store := SQLiteStore toy_digest) "k" (getMessageByUID 1 (demo_p3 (String "." rest))).2.1).2);
    [done|reflexivity|vm_compute; reflexivity|vm_compute; reflexivity|reflexivity].
Defined.

(** * Isolation *)
Section isolation.
Context `{MR : MapRange} `{S : Store} (digest : string → string) `{!StoreSpec S digest}.
Context (IDKey : string → list Z → Z → Z → Z → Z → list Z) (md5hex : string → string) (cfg : P3Config).
Context (u : Z) (M : table Mailbox) (F : list Message).

#[local] Notation mine := (mine u M).
#[local] Notation mbox_mine := (mbox_mine u M).
#[local] Notation msg_mine := (msg_mine u M).
#[local] Notation world_iso := (world_iso u M F).

Definition iso (p : P3) : Prop :=
  world_iso p.1 ∧ p3_phase p.2 = stateTransaction ∧ p3_userID p.2 = u ∧
  ∀ id, id ∈ p3_markedDeleted p.2 → msg_mine (w_db p.1) id.

Lemma iso_inert {A} (m : state World A) :
  pres wf m → inert (λ w, (m w).2) → pres iso (lift m).
Proof.
  intros Hw Hi [w s] ((Hwf & Hm & HF) & Hp & Hu & Hk). unfold lift. specialize (Hw w Hwf). specialize (Hi w).
  cbn [fst snd] in *. destruct (m w) as [a w']. cbn in *. destruct Hi as [E1 E2].
  unfold iso, world_iso, msg_mine in *. cbn. by rewrite E1, E2.
Qed.

Lemma iso_upd f :
  (∀ s, p3_phase (f s) = p3_phase s ∧ p3_userID (f s) = p3_userID s ∧ p3_markedDeleted (f s) = p3_markedDeleted s) →
  pres iso (upd f).
Proof.
  intros Hf [w s] (Hw & Hp & Hu & Hk). destruct (Hf s) as (E1 & E2 & E3). unfold iso. cbn in *. by rewrite E1, E2, E3.
Qed.

Lemma iso_writeLine t : pres iso (writeLine t).
Proof. by apply iso_upd. Qed.
Lemma iso_reply t : pres iso (reply t).
Proof. unfold reply. apply pres_bind; [apply iso_writeLine|intros; apply pres_ret]. Qed.
Lemma iso_sess : pres iso sess.
Proof. by intros p Hp. Qed.

Lemma iso_Get k : pres iso (lift (Blob.Get k)).
Proof using StoreSpec0.
  apply iso_inert; [by apply Get_store_wf|]. intros w. destruct (Get_frame k w) as (b & f & fs & ->). done.
Qed.

Lemma iso_query {A} (f : DB → res A) : pres iso (lift (query f)).
Proof. apply iso_inert; [apply pres_query|apply inert_query]. Qed.

Lemma iso_getINBOX : tri iso getINBOX (λ r p, iso p ∧ ∀ b, r = Ok b → mbox_mine (mbox_ID b)).
Proof.
  intros [w s] (Hi & Hp & Hu & Hk). unfold getINBOX, sbind, sess, lift. cbn [fst snd] in *. rewrite Hu.
  destruct (GetMailbox_iso u M F "INBOX" w Hi) as (Hi' & Em & Hb). destruct (GetMailbox u "INBOX" w) as [r w'].
  cbn in *. split; [|done]. split_and!; try apply Hi'; try done. cbn. unfold msg_mine. by rewrite Em.
Qed.

Definition found (r : res Message) (p : P3) : Prop := iso p ∧ ∀ m, r = Ok m → msg_mine (w_db p.1) (msg_ID m).

Lemma iso_getMessageByUID uid : tri iso (getMessageByUID uid) found.
Proof.
  unfold getMessageByUID. eapply tri_bind; [apply iso_getINBOX|]. intros [b|e]; [|apply tri_ret; by intros p [Hp _]].
  intros [w s] [Hi Hb]. specialize (Hb b eq_refl). unfold GetMessageByUID, lift, sbind. cbn [fst snd].
  set (f := λ d, query_row (select (λ m, msg_key m = (mbox_ID b, uid)) (messages d))).
  pose proof (iso_query f (w, s) Hi) as Hi'. unfold lift in Hi'. cbn [fst snd] in Hi'.
  assert (∀ m, (query f w).1 = Ok m → m ∈ rows (messages (w_db w)) ∧ msg_MailboxID m = mbox_ID b) as Hm.
  { intros m. destruct (query_cases f w) as [[fs ->]|[fs ->]]; [done|]. unfold f. cbn [fst].
    destruct (select _ _) as [|m0 l] eqn:E; [done|]. intros [= <-].
    assert (m0 ∈ select (λ m, msg_key m = (mbox_ID b, uid)) (messages (w_db w))) as [Hk Hr]%elem_of_select by (rewrite E; left).
    split; [done|]. by injection Hk. }
  assert (messages (w_db (query f w).2) = messages (w_db w)) as Em by apply inert_query.
  destruct (query f w) as [[m|err] w'].
  - cbn in *. destruct (Hm m eq_refl) as [Hin Emb]. split; [done|]. intros m' [= <-] x Hx Ex. cbn in Hx. rewrite Em in Hx.
    destruct Hi as (Hwi & _). assert (x = m) as ->.
    { apply (unique_inj msg_ID (messages (w_db w))); [apply Hwi|done..]. }
    apply (fk_mine u M F w); [done|done|]. by rewrite Emb.
  - cbn in *. destruct err as [[]| | |]; (split; [exact Hi'|done]).
Qed.

Lemma iso_UpdateFlags id f m :
  tri (λ p, iso p ∧ msg_mine (w_db p.1) id) (lift (UpdateFlags id f m)) (λ _ p, iso p ∧ msg_mine (w_db p.1) id).
Proof.
  intros [w s] [(Hi & Hp & Hu & Hk) Hid]. cbn [fst snd] in *.
  destruct (world_iso_UpdateFlags u M F id f m w Hi Hid) as [Hi' Hkeep]. unfold lift. cbn [fst snd].
  destruct (UpdateFlags id f m w) as [r w']. cbn in *. split; [|by apply Hkeep]. split_and!; [done..|]. intros i Hin. by apply Hkeep, Hk.
Qed.

Lemma iso_Expunge mb :
  mbox_mine mb → pres iso (lift (ExpungeMailbox mb)).
Proof.
  intros Hb [w s] (Hi & Hp & Hu & Hk). pose proof Hi as (Hw & HM & HF). cbn [fst snd] in *.
  pose proof (ExpungeMailbox_wf mb w Hw) as Hw'. unfold lift, ExpungeMailbox, sbind in *. cbn [fst snd].
  destruct (stmt_cases (sql_expunge mb) w) as [[fs E]|[fs E]]; rewrite E in *; [done|].
  cbn [sql_expunge fst snd sret] in *. split; [split; [done|split; [done|]]|split_and!; try done].
  - cbn. rewrite <- HF. apply filter_delete_rows. intros m Hm [Em _] Hn. apply Hn, (fk_mine u M F w); [done|done|].
    by rewrite Em.
  - intros id Hid m [_ Hm]%elem_of_delete Em. by apply (Hk id).
Qed.

Lemma iso_CountMessages mb : pres iso (lift (CountMessages mb)).
Proof.
  apply iso_inert; [apply CountMessages_wf|]. intros w. unfold CountMessages, sbind.
  pose proof (inert_query (λ d, Ok (affected (λ m, msg_MailboxID m = mb) (messages d))) w) as Hi.
  cbv beta in *. destruct (query _ w) as [[] ?]; exact Hi.
Qed.

Lemma iso_ListMessages mb l n : pres iso (lift (ListMessages mb l n)).
Proof.
  apply iso_inert; [apply ListMessages_wf|]. intros w. unfold ListMessages, sbind.
  pose proof (inert_query (λ d, Ok (sql_list_messages mb l n d)) w) as Hi.
  cbv beta in *. destruct (query _ w) as [[] ?]; exact Hi.
Qed.

Lemma iso_INBOX : pres iso getINBOX.
Proof. intros p Hp. by apply iso_getINBOX. Qed.
Lemma iso_message uid : pres iso (getMessageByUID uid).
Proof. intros p Hp. by apply iso_getMessageByUID. Qed.
Lemma iso_dotStuff d : pres iso (dotStuffWrite d).
Proof. apply iso_upd. intros s. by destruct (dot_stuff (p3_startOfLine s) d). Qed.
Lemma iso_write t : pres iso (upd (write t)).
Proof. by apply iso_upd. Qed.

#[local] Hint Resolve iso_writeLine iso_reply iso_sess iso_CountMessages iso_ListMessages iso_INBOX iso_message
  iso_dotStuff iso_write iso_Get : pres.

Lemma iso_DELE arg : pres iso (handleDELE arg).
Proof.
  unfold handleDELE. destruct (String.eqb arg ""); [apply iso_reply|]. destruct (parse_uid arg) as [uid|]; [|apply iso_reply].
  apply pres_tri.
  eapply tri_bind; [apply iso_getMessageByUID|]. intros [msg|e].
  - eapply tri_bind; [eapply tri_pre, (iso_UpdateFlags (msg_ID msg) FlagDeleted FlagDeleted)|].
    { intros p [Hp Hm]. split; [done|by apply Hm]. }
    intros [t|e]; [|eapply tri_pre, tri_pres, iso_reply; by intros p []].
    eapply tri_bind; [|intros; apply tri_pres, iso_reply].
    intros [w s] [(Hi & Hp & Hu & Hk) Hm]. split_and!; try done. intros id. cbn.
    rewrite elem_of_union, elem_of_singleton. intros [->|Hid]; [done|by apply Hk].
  - eapply tri_pre, tri_pres, iso_reply. by intros p [].
Qed.

Lemma iso_RSET : pres iso handleRSET.
Proof.
  intros p Hp. unfold handleRSET, sbind at 1, sess. cbn [fst snd].
  set (ids := elements (p3_markedDeleted p.2)).
  assert (∀ id, id ∈ ids → msg_mine (w_db p.1) id) as Hids.
  { intros id Hid. apply elem_of_elements in Hid. by apply Hp. }
  set (body := λ msgID : Z, _ : state P3 (option unit)).
  assert (∀ l q, iso q → (∀ id, id ∈ l → id ∈ p3_markedDeleted q.2) → iso (sfor l body q).2) as Hloop.
  { induction l as [|id l IH]; intros q Hq Hl; [done|]. cbn [sfor]. unfold body at 1. unfold sbind.
    pose proof (iso_UpdateFlags id 0 FlagDeleted q) as Hu. cbv beta in Hu.
    assert (p3_markedDeleted (lift (UpdateFlags id 0 FlagDeleted) q).2.2 = p3_markedDeleted q.2) as Em.
    { unfold lift. by destruct (UpdateFlags id 0 FlagDeleted q.1). }
    destruct (lift (UpdateFlags id 0 FlagDeleted) q) as [r q']. cbn in *. apply IH.
    - apply Hu. split; [done|]. apply Hq, Hl. left.
    - intros i Hi. rewrite Em. apply Hl. by right. }
  unfold sbind. specialize (Hloop ids p Hp). unfold P3 in *. destruct (sfor ids body p) as [o [w s]].
  destruct Hloop as (Hi & Hph & Hu & _).
  { intros id Hid. by apply elem_of_elements in Hid. }
  apply (iso_reply "+OK"). split_and!; try done.
Qed.

Lemma iso_QUIT : pres iso handleQUIT.
Proof.
  unfold handleQUIT. apply pres_bind; [apply iso_sess|]. intros s.
  apply pres_bind; [|intros; apply pres_bind; [apply iso_writeLine|intros; apply pres_ret]].
  case_decide; [apply pres_ret|].
  apply pres_tri.
  eapply tri_bind; [apply iso_getINBOX|]. intros [b|e]; [|apply tri_ret; by intros p []].
  intros p [Hp Hb]. specialize (Hb b eq_refl). unfold sbind. pose proof (iso_Expunge (mbox_ID b) Hb p Hp) as He.
  by destruct (lift (ExpungeMailbox (mbox_ID b)) p).
Qed.

Lemma iso_handleCommand cmd arg : pres iso (handleCommand IDKey md5hex cfg cmd arg).
Proof using StoreSpec0.
  intros p Hp. unfold handleCommand. destruct (String.eqb cmd "QUIT"); [by apply iso_QUIT|].
  destruct (String.eqb cmd "CAPA"); [revert p Hp; change (pres iso (handleCAPA cfg)); unfold handleCAPA; pres_walk|].
  unfold sbind at 1, sess. cbn [fst snd]. destruct Hp as (Hi & Hph & Hp).
  rewrite decide_False by congruence. assert (iso p) as Hiso by done. clear Hi Hph Hp. revert p Hiso.
  repeat match goal with |- context [if String.eqb cmd ?x then _ else _] => destruct (String.eqb cmd x) end.
  - change (pres iso handleSTAT). unfold handleSTAT. pres_walk.
  - change (pres iso (handleLIST arg)). unfold handleLIST, listing. pres_walk.
  - change (pres iso (handleRETR arg)). unfold handleRETR. pres_walk.
  - apply iso_DELE.
  - apply iso_reply.
  - apply iso_RSET.
  - change (pres iso (handleTOP arg)). unfold handleTOP. pres_walk.
  - change (pres iso (handleUIDL arg)). unfold handleUIDL, listing. pres_walk.
  - apply iso_reply.
Qed.
End isolation.

(** C6.  Isolation: whatever a logged-in client sends, for whatever failures of
    the database, messages outside the mailboxes of its user stay exactly as they
    are, and so do all mailboxes, as long as the session's deletion marks are on the
    user's own messages, which every command preserves.  No cache gets in the way:
    in a well-formed state it names no mailbox of anybody else. *)
Theorem pop3_isolation `{MR : MapRange} `{S : Store} (digest : string → string) `{!StoreSpec S digest}
    (IDKey : string → list Z → Z → Z → Z → Z → list Z) (md5hex : string → string) (cfg : P3Config)
    (lines : list string) (w : World) (s : Session) :
  let u := p3_userID s in
  let M := mailboxes (w_db w) in
  wf w → p3_phase s = stateTransaction →
  (∀ id, id ∈ p3_markedDeleted s → msg_mine u M (w_db w) id) →
  let w' := (handle_lines IDKey md5hex cfg lines (w, s)).2.1 in
  wf w' ∧ mailboxes (w_db w') = M ∧
  ∀ m, ¬ mine u M m → m ∈ rows (messages (w_db w')) ↔ m ∈ rows (messages (w_db w)).
Proof.
  intros u M Hw Hp Hk w'.
  assert (pres (iso u M (filter (λ m, ¬ mine u M m) (rows (messages (w_db w))))) (handle_lines IDKey md5hex cfg lines)) as Hl.
  { induction lines as [|line lines IH]; cbn [handle_lines]; [apply pres_ret|].
    destruct (String.eqb line ""); [apply IH|].
    destruct (match strings.SplitN2 line " " with [c; a] => (c, a) | c :: _ => (c, "") | [] => ("", "") end) as [c a].
    apply pres_bind; [by eapply iso_handleCommand|]. intros []; [apply IH|apply pres_ret]. }
  destruct (Hl (w, s)) as ((Hw' & HM & HF) & _).
  { split_and!; try done; by split_and!. }
  fold w' in Hw', HM, HF. split; [done|]. split; [done|]. intros m Hm.
  transitivity (m ∈ filter (λ m, ¬ mine u M m) (rows (messages (w_db w')))).
  - rewrite list_elem_of_filter. tauto.
  - rewrite HF, list_elem_of_filter. tauto.
Qed.

Lemma pop3_isolation_witness :
  let w' := (handle_lines (S := SQLiteStore toy_digest) toy_key (λ x, x) (mkP3Config "" None) ["DELE 1"; "RSET"; "DELE 2"; "QUIT"]
               (demo_p3 "x")).2.1 in
  mailboxes (w_db w') = mailboxes demo_db.
Proof.
  apply (pop3_isolation (S := SQLiteStore toy_digest) toy_digest toy_key (λ x, x) (mkP3Config "" None)
    ["DELE 1"; "RSET"; "DELE 2"; "QUIT"] (demo_mail "x") (demo_session false)).
  - pose proof demo_wf as [H _]. destruct H. apply wf_cold; [done|]. constructor; try done. apply (bool_decide_unpack _). vm_compute. exact I.
  - reflexivity.
  - intros id Hid. cbn in Hid. set_solver.
Defined.

(** ** The authorization state *)
Section gate.
Context `{MR : MapRange} (d : DB).

Lemma same_query {A} (f : DB → res A) : pres (λ w, w_db w = d) (query f).
Proof. intros w Hw. destruct (query_cases f w) as [[fs ->]|[fs ->]]; done. Qed.
Lemma same_smodify f : (∀ w, w_db (f w) = w_db w) → pres (λ w, w_db w = d) (smodify f).
Proof. intros Hf. apply pres_modify. intros w. by rewrite Hf. Qed.
Lemma same_GetUser e : pres (λ w, w_db w = d) (GetUserByEmail e).
Proof.
  unfold GetUserByEmail. apply pres_bind.
  - intros w Hw. unfold userByEmailCache_Get. by destruct (Cache.Get _ _ _).
  - intros [u|]; [apply pres_ret|]. apply pres_bind; [apply same_query|]. intros [u|[[]| | |]]; try apply pres_ret.
    apply pres_bind; [by apply same_smodify|intros; apply pres_ret].
Qed.
Lemma same_Authenticate IDKey e p : pres (λ w, w_db w = d) (Authenticate IDKey e p).
Proof.
  unfold Authenticate. apply pres_bind; [apply same_GetUser|]. intros [u|e']; repeat case_match; apply pres_ret.
Qed.
End gate.

(** C7.  The gate: before a login no command changes the database, and the only
    ways into the transaction state are [PASS] with credentials that
    [Authenticate] accepts for the name given with [USER], and, where an APOP
    secret is configured, [APOP] with the digest of the session's timestamp and
    that one secret, for the name of any account, whatever its password. *)
Theorem pop3_gate `{MR : MapRange} `{S : Store} (IDKey : string → list Z → Z → Z → Z → Z → list Z)
    (md5hex : string → string) (cfg : P3Config) (cmd arg : string) (w : World) (s : Session) :
  p3_phase s = stateAuthorization → p3_markedDeleted s = ∅ →
  let out := handleCommand IDKey md5hex cfg cmd arg (w, s) in
  let w' := out.2.1 in let s' := out.2.2 in
  w_db w' = w_db w ∧ p3_markedDeleted s' = ∅ ∧
  (p3_phase s' = stateAuthorization ∨
   cmd = "PASS" ∧ p3_email s ≠ "" ∧ (Authenticate IDKey (p3_email s) arg w).1 = Ok (p3_userID s') ∨
   cmd = "APOP" ∧ APOPSecret cfg ≠ "" ∧ ∃ email digest user,
     strings.SplitN2 arg " " = [email; digest] ∧
     strings.EqualFold digest (md5hex (p3_apopTimestamp s +:+ APOPSecret cfg)) = true ∧
     (GetUserByEmail email w).1 = Ok user ∧ p3_userID s' = user_ID user).
Proof.
  intros Hp Hm. cbv zeta. remember (handleCommand IDKey md5hex cfg cmd arg (w, s)) as o eqn:E.
  revert E. unfold handleCommand.
  destruct (String.eqb_spec cmd "QUIT").
  { unfold handleQUIT, sbind, sess. cbn [fst snd]. rewrite decide_True by done. intros ->. cbn. auto. }
  destruct (String.eqb_spec cmd "CAPA").
  { unfold handleCAPA, reply, writeLine, sbind, sess, upd. cbn [fst snd].
    destruct (negb (String.eqb (APOPSecret cfg) "")), (tlsCfg cfg), (negb (p3_secured s)); intros ->; cbn; auto. }
  unfold sbind at 1, sess at 1. cbn [fst snd]. rewrite decide_True by done.
  destruct (String.eqb_spec cmd "USER").
  { unfold handleUSER, reply, writeLine, sbind, upd. destruct (String.eqb arg ""); intros ->; cbn; auto. }
  destruct (String.eqb_spec cmd "PASS") as [->|].
  { unfold handlePASS. unfold sbind at 1, sess. cbn [fst snd]. unfold reply, writeLine, upd.
    destruct (String.eqb_spec (p3_email s) ""); [intros ->; cbn; auto|]. destruct (String.eqb arg ""); [intros ->; cbn; auto|].
    unfold sbind at 1, lift. cbn [fst snd]. pose proof (same_Authenticate (w_db w) IDKey (p3_email s) arg w eq_refl) as Hd.
    destruct (Authenticate IDKey (p3_email s) arg w) as [[uid|e] w1]; intros ->; cbn in *; auto 10. }
  destruct (String.eqb_spec cmd "APOP") as [->|].
  { unfold handleAPOP. destruct (String.eqb_spec (APOPSecret cfg) ""); [intros ->; cbn; auto|].
    destruct (strings.SplitN2 arg " ") as [|email [|digest [|? ?]]] eqn:Es; [intros ->; cbn; auto..| |intros ->; cbn; auto].
    unfold sbind at 1, sess. cbn [fst snd]. destruct (strings.EqualFold digest _) eqn:Ed; cbn [negb]; [|intros ->; cbn; auto].
    unfold sbind at 1, lift. cbn [fst snd]. pose proof (same_GetUser (w_db w) email w eq_refl) as Hd.
    destruct (GetUserByEmail email w) as [[user|e] w1] eqn:Eg; intros ->; cbn in *; [|auto].
    split; [done|]. split; [done|]. right; right. split; [done|]. split; [done|]. exists email, digest, user.
    rewrite Eg. done. }
  destruct (String.eqb_spec cmd "STLS").
  { unfold handleSTLS, reply, writeLine, sbind, sess, upd. cbn [fst snd].
    destruct (p3_secured s), (tlsCfg cfg) as [[]|]; intros ->; cbn; auto. }
  intros ->. cbn. auto.
Qed.

Lemma pop3_gate_witness :
  let s := mkSession stateAuthorization 0 "u@example.com" ∅ "<1@m>" false false "" in
  w_db (handleCommand (S := SQLiteStore toy_digest) toy_key (λ x, x) (mkP3Config "" None) "DELE" "1" (demo_world, s)).2.1 = demo_db.
Proof.
  intros s.
  apply (pop3_gate (S := SQLiteStore toy_digest) toy_key (λ x, x) (mkP3Config "" None) "DELE" "1" demo_world s eq_refl eq_refl).
Defined.

(** * Well-formedness *)
Section pop3_wf.
Context `{MR : MapRange} `{S : Store} (digest : string → string) `{!StoreSpec S digest}.
Context (IDKey : string → list Z → Z → Z → Z → Z → list Z) (md5hex : string → string) (cfg : P3Config).

Definition p3_wf (p : P3) : Prop := wf p.1.

Lemma wf_lift {A} (m : state World A) : pres wf m → pres p3_wf (lift m).
Proof. intros Hm [w s] Hw. unfold lift. specialize (Hm w Hw). cbn [fst] in *. by destruct (m w). Qed.
Lemma wf_upd f : pres p3_wf (upd f).
Proof. by intros [w s] Hw. Qed.
Lemma wf_sess : pres p3_wf sess.
Proof. by intros [w s] Hw. Qed.
Lemma wf_lift_Get k : pres p3_wf (lift (Blob.Get k)).
Proof using StoreSpec0. apply wf_lift, Get_store_wf. Qed.

#[local] Hint Resolve wf_upd wf_sess wf_lift_Get : pres.
#[local] Hint Extern 1 (pres p3_wf (lift _)) => (apply wf_lift; solve [eauto with pres nocore]) : pres.

Lemma wf_handleCommand cmd arg : pres p3_wf (handleCommand IDKey md5hex cfg cmd arg).
Proof using StoreSpec0.
  unfold handleCommand, handleQUIT, handleCAPA, handleUSER, handlePASS, handleAPOP, handleSTLS, handleSTAT, handleLIST,
    handleUIDL, listing, handleRETR, handleDELE, handleRSET, handleTOP, getMessageByUID, getINBOX, reply, writeLine, dotStuffWrite.
  pres_walk.
Qed.

Lemma wf_handle_lines ls : pres p3_wf (handle_lines IDKey md5hex cfg ls).
Proof using StoreSpec0.
  induction ls as [|line ls IH]; cbn [handle_lines]; [apply pres_ret|].
  destruct (String.eqb line ""); [apply IH|].
  destruct (match strings.SplitN2 line " " with [c; a] => (c, a) | c :: _ => (c, "") | [] => ("", "") end) as [c a].
  apply pres_bind; [apply wf_handleCommand|]. intros []; [apply IH|apply pres_ret].
Qed.
End pop3_wf.
