(* ===== verification/EndToEnd.v ===== *)
(** From the wire to the wire: a message that the SMTP session accepts
    (src/pkg/smtp/session.go) is what POP3 (src/pkg/pop3/session.go) and IMAP
    (src/pkg/imap/mailbox.go) hand to its recipient.  The three services share the
    store and the database only; this file composes what Smtp, Pop3 and Imap do. *)
From S2P Require Import Prelude GoLib Spf Cache Sql Schema World StoreUsers StoreMail StoreQueue Auth Blob Worker Notifier Smtp SmtpDelivery Imap ImapSpec Pop3.

(** * POP3 *)
Section pop3.
Context `{MR : MapRange} `{S : Store} (digest : string → string) `{!StoreSpec S digest}.

Lemma GetMessageByUID_run mb m w :
  wf w → w_faults w = [] → m ∈ rows (messages (w_db w)) → msg_MailboxID m = mb →
  GetMessageByUID mb (msg_UID m) w = (Ok m, w).
Proof using.
  intros Hw Hf Hm <-. unfold GetMessageByUID, sbind. rewrite query_run by done.
  rewrite (select_unique msg_key _ (messages (w_db w)) m); [done|apply Hw|done|done].
Qed.

(** RETR finds the message of the user's INBOX with that UID, and its content. *)
Lemma RETR_finds k m b data w ss :
  ready k w → m ∈ rows (messages (w_db w)) → b ∈ rows (mailboxes (w_db w)) →
  mbox_key b = (p3_userID ss, "INBOX") → msg_MailboxID m = mbox_ID b → view w (msg_BlobKey m) = Some data →
  ∃ w1, getMessageByUID (msg_UID m) (w, ss) = (Ok m, (w1, ss)) ∧ Blob.Get (msg_BlobKey m) w1 = (Ok data, w1).
Proof using.
  intros Hr Hm Hb Hk Emb Hv. destruct (GetMailbox_true (p3_userID ss) "INBOX" k w Hr) as (r & c & E & Hr1 & Hin & _).
  exists (set_mboxCache c w). split.
  - unfold getMessageByUID, getINBOX, sbind, sess, lift. cbn [fst snd]. rewrite E, (Hin b Hb Hk). cbn [fst snd].
    rewrite (GetMessageByUID_run (mbox_ID b) m (set_mboxCache c w)); [done|apply Hr1|apply Hr1|done|done].
  - apply (view_get (S := S) (msg_BlobKey m)); [apply Hr1|]. by rewrite (view_ext _ w).
Qed.
End pop3.

(** * IMAP *)
Section imap.
Context `{MR : MapRange} `{S : Store} `{FN : FlagNames} (digest : string → string) `{!StoreSpec S digest}.

Lemma NoDup_singleton {A} (l : list A) x : NoDup l → x ∈ l → (∀ y, y ∈ l → y = x) → l = [x].
Proof using.
  intros Hn Hx Hall. destruct l as [|y l]; [by apply elem_of_nil in Hx|]. rewrite (Hall y ltac:(left)) in *.
  apply NoDup_cons in Hn as [Hy _]. destruct l as [|z l]; [done|]. destruct Hy. rewrite (Hall z ltac:(right; left)). left.
Qed.

(** The UID of a message selects it and nothing else. *)
Lemma uid_selects w m :
  wf w → m ∈ rows (messages (w_db w)) →
  List.filter (selected true (Z.eqb (msg_UID m)))
    (numbered (order_by uid_desc (select (λ y, msg_MailboxID y = msg_MailboxID m) (messages (w_db w))))) =
  [(seqnum (w_db w) m, m)].
Proof using.
  intros Hw Hm. apply NoDup_singleton.
  - eapply (NoDup_fmap_1 (msg_ID ∘ snd)). by apply selected_NoDup.
  - apply list_elem_of_In, filter_In. split; [by apply list_elem_of_In, numbered_spec|]. cbn. apply Z.eqb_refl.
  - intros [s x] [Hx Es]%list_elem_of_In%filter_In. apply list_elem_of_In, (numbered_spec w) in Hx as (Hx & Eb & ->); [|done].
    cbn in Es. apply Z.eqb_eq in Es. assert (x = m) as ->; [|done].
    apply (unique_inj msg_key (messages (w_db w))); [apply Hw|done|done|]. unfold msg_key. congruence.
Qed.

(** UID FETCH of the whole text of one message. *)
Lemma FETCH_finds k m data w iu name :
  ready k w → m ∈ rows (messages (w_db w)) → view w (msg_BlobKey m) = Some data →
  Mailbox_ListMessages (mkImapMailbox iu (msg_MailboxID m) name) true (Z.eqb (msg_UID m)) [FetchRFC822; FetchFlags] w =
  ([mkImapMessage (seqnum (w_db w) m) (msg_UID m) (flagsToIMAP (msg_Flags m)) None [data] (uint32 (msg_Size m)) None], w).
Proof using.
  intros [Hw Hf _ _] Hm Hv. unfold Mailbox_ListMessages, sbind. cbn [ib_mailboxID]. rewrite ListMessages_all by done.
  rewrite uid_selects by done. cbn [fetch_messages fetch_items fetch_item]. unfold sbind.
  by rewrite (view_get (S := S) (msg_BlobKey m) w data).
Qed.
End imap.

(** C5.  End to end, on the path without failures.  Assume that no statement and no
    file operation fails during the transaction, that the mailbox cache tells the
    truth and every mailbox has room for two more UIDs per recipient, that the SPF evaluator does
    not panic, that the message was read whole, is within the size limit and shares
    its digest with no other stored content, and that no recipient needs a bounce
    (an address of a local domain without an account).  Then [Data] accepts, and for
    a recipient with an account and an INBOX that INBOX holds a message such that:
    a UID FETCH over IMAP returns exactly the bytes the SMTP client sent as
    the body of one unseen message with that UID; and, for content that ends with a
    line feed and that does not begin with a dot or is not the first thing the
    session sends, a POP3 client that retrieves that UID reads back exactly those bytes,
    through dot-stuffing and the final dot.  Outside these conditions the claim
    is false: [Data] also answers success when the insertion failed, and RETR loses
    the first dot of a session ([Pop3.retr_first_dot_lost]). *)
Theorem accepted_mail_is_read `{MR : MapRange} `{S : Store} `{FN : FlagNames} (digest : string → string) `{!StoreSpec S digest}
    (R : Resolver) (format_date : Z → string) (be : Backend) (data : string) (w : World) (s : Smtp.Session)
    (u : User) (b : Mailbox) :
  ready (2 * Z.of_nat (length (s_recipients s))) w → spf_panics R s = false →
  slen data ≤ MaxMessageSize (be_cfg be) → (∀ d, view w (digest data) = Some d → d = data) →
  u ∈ rows (users (w_db w)) → user_Email u ∈ s_recipients s →
  b ∈ rows (mailboxes (w_db w)) → mbox_key b = (user_ID u, "INBOX") →
  (∀ rcpt l d, rcpt ∈ s_recipients s → rcpt ∉ user_Email <$> rows (users (w_db w)) →
     strings.SplitN2 rcpt "@" = [l; d] → isLocalDomain be d = false) →
  let out := Data R format_date be (data, None) (w, s) in
  let w' := out.2.1 in
  out.1 = Accepted ∧ ∃ m, m ∈ rows (messages (w_db w')) ∧ msg_MailboxID m = mbox_ID b ∧
  (∀ ss arg, p3_userID ss = user_ID u → arg ≠ "" → parse_uid arg = Some (msg_UID m) → ends_lf data = true →
     p3_startOfLine ss = true ∨ strings.HasPrefix data "." = false →
     ∃ body, p3_out (handleRETR arg (w', ss)).2.2 =
               p3_out ss +:+ "+OK " +:+ strconv.Itoa (slen data) +:+ " octets" +:+ crlf +:+ body ∧
             client_read true body = Some data) ∧
  (∀ iu, let fetched := (Mailbox_ListMessages (mkImapMailbox iu (mbox_ID b) "INBOX") true (Z.eqb (msg_UID m))
                           [FetchRFC822; FetchFlags] w').1 in
     ∃ seq, fetched = [mkImapMessage seq (msg_UID m) [] None [data] (uint32 (slen data)) None]).
Proof.
  intros Hw Hspf Hsize Hcol Hu Hrc Hb Hkb Hnb out w'.
  destruct (Data_delivers digest R format_date be data w s Hw Hspf Hsize Hcol) as (E1 & _ & Hr & Hg & Hst & _ & Hv).
  fold out in E1, Hr, Hg, Hst, Hv. fold w' in Hr, Hg, Hst, Hv. specialize (Hv Hnb).
  destruct (Hst u b Hu Hrc Hb Hkb) as (m & Hm & Emb & Ek & Ez & _ & Ef).
  rewrite <- (gr_mailboxes _ _ Hg) in Hb. rewrite <- Ek in Hv.
  split; [exact E1|]. exists m. split; [exact Hm|]. split; [exact Emb|]. split.
  - intros ss arg Eu Ha Hp Hl Hs.
    destruct (RETR_finds digest 0 m b data w' ss) as (w1 & Hf & Hget); try done; [by rewrite Eu|].
    rewrite (handleRETR_run arg (msg_UID m) m data (w', ss) (w1, ss) w1) by done. rewrite Ez.
    exists ((dot_stuff (p3_startOfLine ss) data).1 +:+ "." +:+ crlf). split; [cbn; by rewrite <- !string_app_assoc|].
    by apply client_read_retr.
  - intros iu. pose proof (FETCH_finds digest 0 m data w' iu "INBOX" Hr Hm Hv) as E. rewrite Emb in E. rewrite E, Ef, Ez.
    eexists. reflexivity.
Qed.

(** The account of [demo_world], with no mail yet. *)
Definition demo_fresh : World := set_db (set_messages empty_table demo_db) demo_world.

Lemma demo_fresh_ready : ready 2 demo_fresh.
Proof.
  split; [|done|intros key e He; by vm_compute in He|split; [done|]].
  - pose proof demo_wf as [H _]. destruct H. apply wf_cold; [done|]. constructor; db_cbn; try done; try constructor; constructor.
  - intros m Hm. vm_compute in Hm. by apply elem_of_nil in Hm.
Qed.

Lemma accepted_mail_is_read_witness :
  let data := "Subject: hi" +:+ crlf +:+ crlf +:+ ".signature" +:+ crlf in
  let s := Smtp.mkSession (Some demo_conn) "a@b.org" ["u@example.com"] false "" 0 in
  let out := Data (S := SQLiteStore toy_digest) no_dns (λ _, "") demo_backend (data, None) (demo_fresh, s) in
  out.1 = Accepted ∧
  ∃ body, p3_out (handleRETR (S := SQLiteStore toy_digest) "1" (out.2.1, demo_session true)).2.2 =
    "" +:+ "+OK " +:+ "27" +:+ " octets" +:+ crlf +:+ body ∧ client_read true body = Some data.
Proof.
  intros data s out.
  destruct (accepted_mail_is_read (S := SQLiteStore toy_digest) (FN := rfc_flags) toy_digest no_dns (λ _, "") demo_backend data
    demo_fresh s (mkUser 1 "u@example.com" "h" false 50 true) (mkMailbox 1 1 "INBOX")) as (H1 & m & Hm & Hb & Hpop & _).
  - exact demo_fresh_ready.
  - vm_compute; reflexivity.
  - apply Z.leb_le. vm_compute. reflexivity.
  - intros d Hd. vm_compute in Hd. discriminate.
  - left.
  - left.
  - left.
  - reflexivity.
  - intros rcpt l d Hr Hn. apply list_elem_of_singleton in Hr as ->. destruct Hn. vm_compute. left.
  - split; [exact H1|]. vm_compute in Hm. apply list_elem_of_singleton in Hm as ->.
    apply (Hpop (demo_session true) "1"); [reflexivity|discriminate|reflexivity|reflexivity|by left].
Defined.
