(* ===== verification/Config.v ===== *)
(** The configuration (src/pkg/config/config.go).  The TOML decoder is an argument:
    given the path and the record with the defaults it fills in the fields the
    file sets.  [os.Hostname] and the environment are arguments too. *)
From Stdlib Require Import QArith_base.
#[local] Open Scope Z_scope.
From S2P Require Import Prelude GoLib Cache Sql Schema World StoreUsers StoreMail StoreQueue Blob Worker Smtp.

Record StorageConfig := mkStorageConfig { Path : string; BlobBackend : string; BlobPath : string }.
Record IMAPConfig := mkIMAPConfig { imap_ListenAddr : string; ImapsAddr : string }.
Record POP3Config := mkPOP3Config { pop3_ListenAddr : string; POP3sAddr : string; pop3_APOPSecret : string }.
Record TLSConfig := mkTLSConfig { CertFile : string; KeyFile : string }.
Record ACMEConfig := mkACMEConfig {
  acme_Enabled : bool; acme_CacheDir : string; acme_Domains : list string; acme_Email : string }.
Record AuthConfig := mkAuthConfig { auth_SessionExpiry : Z }.
Record QueueConfig := mkQueueConfig { Workers : Z; MaxRetries : Z; Interval : Z }.
Record DKIMConfig := mkDKIMConfig { dkim_Domain : string; dkim_Selector : string; PrivateKeyPath : string }.
Record AdminConfig := mkAdminConfig {
  admin_ListenAddr : string; admin_SessionExpiry : Z; admin_RateLimit : Q; admin_RateLimitBurst : Z }.
Record DMARCConfig := mkDMARCConfig { dmarc_OrgName : string; ReportInterval : Z; dmarc_Email : string }.
Record LogConfig := mkLogConfig { Level : string; Format : string }.

(** The fields of [SMTPConfig] are those of the record of the SMTP service, the
    relay settings those of the queue. *)
Record Config := mkConfig {
  c_Hostname : string; c_Domains : list string; c_IPVersion : string;
  c_Storage : StorageConfig; c_SMTP : SMTPConfig; c_IMAP : IMAPConfig; c_POP3 : POP3Config;
  c_TLS : TLSConfig; c_ACME : ACMEConfig; c_Auth : AuthConfig; c_Queue : QueueConfig;
  c_Relay : RelayConfig; c_DKIM : DKIMConfig; c_DMARC : DMARCConfig; c_Admin : AdminConfig;
  c_Logging : LogConfig }.

(** [hostname, _ := os.Hostname()] *)
Definition defaultConfig (os_Hostname : res string) : Config :=
  let hostname := match os_Hostname with Ok h => h | Err _ => "" end in
  mkConfig hostname [] "any"
    (mkStorageConfig "/var/lib/marco/marco.db" "filesystem" "/var/lib/marco/blobs")
    (mkSMTPConfig ":25" ":587" ":465" (25 * 1024 * 1024) 100 hostname (10 # 1) 20 (300 * second))
    (mkIMAPConfig ":143" ":993")
    (mkPOP3Config ":110" "" "")
    (mkTLSConfig "" "")
    (mkACMEConfig false "/var/lib/marco/acme" [] "")
    (mkAuthConfig (24 * hour))
    (mkQueueConfig 2 7 (5 * second))
    (mkRelayConfig "" 587 "" "")
    (mkDKIMConfig "" "" "")
    (mkDMARCConfig hostname (24 * hour) "")
    (mkAdminConfig ":8080" (24 * hour) (10 # 1) 20)
    (mkLogConfig "info" "json").

Definition DefaultPath (Getenv : string → string) : string :=
  let p := Getenv "MARCO_CONFIG" in
  if String.eqb p "" then "/etc/marco/config.toml" else p.

Definition valid_ip_version (v : string) : bool :=
  String.eqb v "any" || String.eqb v "ipv4" || String.eqb v "ipv6".

(** The verb [%q], for text without characters that it escapes. *)
Definition quoted (s : string) : string := String (chr 34) s +:+ String (chr 34) "".

(** [os.IsNotExist] looks at the error itself, not at what it wraps. *)
Definition os_IsNotExist (e : error) : bool :=
  match e with Sentinel ErrNotExist => true | _ => false end.

Definition Load (os_Hostname : res string) (DecodeFile : string → Config → res Config) (path : string) : res Config :=
  let cfg := defaultConfig os_Hostname in
  match DecodeFile path cfg with
  | Err err => if os_IsNotExist err then Ok cfg else Err (wrap ("config: load " +:+ path +:+ ": ") err)
  | Ok cfg =>
      if valid_ip_version (c_IPVersion cfg) then Ok cfg
      else Err (ErrorNew ("config: invalid ip_version " +:+ quoted (c_IPVersion cfg) +:+ ": must be " +:+
                  quoted "any" +:+ ", " +:+ quoted "ipv4" +:+ ", or " +:+ quoted "ipv6"))
  end.

(** [Save]; the file is created before it is encoded. *)
Definition Save (Encode : Config → res string) (path : string) (cfg : Config) : state World (res unit) :=
  let! r := os_WriteFile path "" in
  match r with
  | Err err => sret (Err (wrap ("config: create " +:+ path +:+ ": ") err))
  | Ok _ =>
      match Encode cfg with
      | Err err => sret (Err err)
      | Ok text => os_WriteFile path text
      end
  end.

(** [Template] *)
Definition Template : string := "/etc/marco/config.toml".

(** Whatever the file says, a configuration that loads names a known IP version. *)
Lemma Load_ip_version h dec path cfg : Load h dec path = Ok cfg → valid_ip_version (c_IPVersion cfg) = true.
Proof.
  unfold Load. destruct (dec path (defaultConfig h)) as [c|e].
  - destruct (valid_ip_version (c_IPVersion c)) eqn:E; [|discriminate]. by intros [= <-].
  - destruct (os_IsNotExist e); [|discriminate]. by intros [= <-].
Qed.

(** Without a file the defaults apply. *)
Lemma Load_default h dec path :
  dec path (defaultConfig h) = Err (Sentinel ErrNotExist) → Load h dec path = Ok (defaultConfig h).
Proof. intros E. unfold Load. by rewrite E. Qed.
