(* ===== verification/Startup.v ===== *)
(** Starting the server and reloading its configuration (src/pkg/marco/marco.go,
    src/pkg/tls/{acme,cert,config}.go, src/pkg/util/log.go, the constructors of
    src/pkg/queue/manager.go and of src/pkg/{api,smtp,imap,pop3}/server.go).  [Run] is a computation
    on the process and its database catalogue that either exits or yields the
    running server; what the listeners then do is modelled in the components. *)
From S2P Require Import Prelude GoLib Cache Sql Schema World StoreUsers StoreMail Migrations StoreQueue Blob Worker Smtp Api Config.
From S2P Require Pop3.

(** * util/log.go *)
Definition InitLogging (level format : string) : option error :=
  if negb (String.eqb level "debug" || String.eqb level "info" || String.eqb level "warn" || String.eqb level "error")
  then Some (ErrorNew ("util: unknown log level: " +:+ level))
  else if negb (String.eqb format "json" || String.eqb format "text")
  then Some (ErrorNew ("util: unknown log format: " +:+ format))
  else None.

(** * tls *)

(** The domains an ACME manager may obtain certificates for; [None] without ACME. *)
Definition NewACMManager (cfg : ACMEConfig) (hostname : string) : res (option (list string)) :=
  if negb (acme_Enabled cfg) then Ok None
  else if (match acme_Domains cfg with [] => true | _ => false end) && String.eqb hostname ""
  then Err (ErrorNew "tls: ACME requires at least one domain")
  else
    let domains := acme_Domains cfg in
    Ok (Some (if negb (String.eqb hostname "") && negb (existsb (String.eqb hostname) domains)
              then domains ++ [hostname] else domains)).

(** The part of an X.509 template that depends on the arguments. *)
Record CertTemplate := mkCertTemplate {
  CommonName : string; DNSNames : list string; IPAddresses : list net.IP; NotBefore : Z; NotAfter : Z }.

(** [tls.Certificate]: the chain, and the key. *)
Record X509 := mkX509 { Certificate : list string; PrivateKey : string }.

(** crypto/rsa, crypto/rand, crypto/x509, encoding/pem and crypto/tls, as the code
    calls them; a key is an opaque text. *)
Record CryptoLib := mkCryptoLib {
  GenerateKey : res string;
  rand_serial : res Z;
  CreateCertificate : CertTemplate → Z → string → res string;
  tls_LoadX509KeyPair : string → string → res X509;
  MarshalPKCS8PrivateKey : string → res string;
  pem_Encode : string → string → string;
  pem_Decode : string → option string;
  (** the key, and whether it is an RSA key *)
  ParsePKCS8PrivateKey : string → res (string * bool);
}.

Inductive Certificates := FromACME (domains : list string) | Static (cert : X509).
Record TLSServer := mkTLSServer { MinVersion : Z; certificates : Certificates }.
Definition VersionTLS12 : Z := 771.

Section tls.
Context (lib : CryptoLib) (now : Z).

Definition LoadX509KeyPair (certFile keyFile : string) : res X509 :=
  match tls_LoadX509KeyPair lib certFile keyFile with
  | Err err => Err (wrap "tls: load key pair: " err)
  | Ok cert => Ok cert
  end.

(** The loop over [extraSANs]. *)
Definition add_san (names : list string * list net.IP) (san : string) : list string * list net.IP :=
  match net.ParseIP san with
  | Some ip => (names.1, names.2 ++ [ip])
  | None => (names.1 ++ [san], names.2)
  end.

Definition SelfSignedCert (hostname : string) (extraSANs : list string) : res X509 :=
  match GenerateKey lib with
  | Err err => Err (wrap "tls: generate key: " err)
  | Ok key =>
      match rand_serial lib with
      | Err err => Err (wrap "tls: serial: " err)
      | Ok serial =>
          let '(dnsNames, ipAddresses) := foldl add_san ([hostname], []) extraSANs in
          match CreateCertificate lib (mkCertTemplate hostname dnsNames ipAddresses (now - hour) (now + 365 * 24 * hour)) serial key with
          | Err err => Err (wrap "tls: create cert: " err)
          | Ok der => Ok (mkX509 [der] key)
          end
      end
  end.

Definition ServerConfig (cfg : TLSConfig) (hostname : string) (acmeMgr : option (list string)) : res TLSServer :=
  match acmeMgr with
  | Some domains => Ok (mkTLSServer VersionTLS12 (FromACME domains))
  | None =>
      if negb (String.eqb (CertFile cfg) "") && negb (String.eqb (KeyFile cfg) "") then
        match LoadX509KeyPair (CertFile cfg) (KeyFile cfg) with
        | Err err => Err (wrap "tls: load cert: " err)
        | Ok cert => Ok (mkTLSServer VersionTLS12 (Static cert))
        end
      else
        match SelfSignedCert hostname ["127.0.0.1"; "::1"] with
        | Err err => Err (wrap "tls: self-signed: " err)
        | Ok cert => Ok (mkTLSServer VersionTLS12 (Static cert))
        end
  end.
End tls.

(** [SaveSelfSignedCert]: a file is created before what goes into it is known, and
    stays when a later step fails; the certificate always has one element. *)
Definition SaveSelfSignedCert (lib : CryptoLib) (hostname certPath keyPath : string) : state World (res unit) :=
  let! now := time_now in
  match SelfSignedCert lib now hostname [] with
  | Err err => sret (Err err)
  | Ok cert =>
      let! r := os_WriteFile certPath "" in
      match r with
      | Err err => sret (Err (wrap "tls: create cert file: " err))
      | Ok _ =>
          let! r := os_WriteFile certPath (pem_Encode lib "CERTIFICATE" (nth 0 (Certificate cert) "")) in
          match r with
          | Err err => sret (Err (wrap "tls: encode cert: " err))
          | Ok _ =>
              let! r := os_WriteFile keyPath "" in
              match r with
              | Err err => sret (Err (wrap "tls: create key file: " err))
              | Ok _ =>
                  match MarshalPKCS8PrivateKey lib (PrivateKey cert) with
                  | Err err => sret (Err (wrap "tls: marshal key: " err))
                  | Ok privBytes =>
                      let! r := os_WriteFile keyPath (pem_Encode lib "PRIVATE KEY" privBytes) in
                      match r with
                      | Err err => sret (Err (wrap "tls: encode key: " err))
                      | Ok _ => sret (Ok tt)
                      end
                  end
              end
          end
      end
  end.

(** * queue.NewManager and api.NewServer *)

(** The [dkim] field is not set. *)
Definition NewManager (maxRetries interval : Z) (ipVersion : string) (relayCfg : RelayConfig) : Worker.Config :=
  Worker.mkConfig maxRetries interval None ipVersion relayCfg.

Definition api_NewServer (cfg : AdminConfig) (dk : DKIMConfig) : handlers :=
  mkHandlers (admin_SessionExpiry cfg) (PrivateKeyPath dk) (Api.mkDKIMConfig (dkim_Domain dk) (dkim_Selector dk)).

(** * smtp.NewServer, imap.NewServer and the POP3 server *)

(** The settings the constructors give to the servers of go-smtp and go-imap. *)
Record SMTPServer := mkSMTPServer {
  smtp_Addr : string; smtp_Domain : string; smtp_MaxMessageBytes : Z; smtp_MaxRecipients : Z;
  smtp_TLSConfig : TLSServer; smtp_AllowInsecureAuth : bool }.
Definition smtp_NewServer (be : Backend) (tlsCfg : TLSServer) : SMTPServer :=
  mkSMTPServer (ListenAddr (be_cfg be)) (Hostname (be_cfg be)) (MaxMessageSize (be_cfg be)) (MaxRecipients (be_cfg be))
    tlsCfg false.

Record IMAPServer := mkIMAPServer { imap_Addr : string; imap_TLSConfig : TLSServer; imap_AllowInsecureAuth : bool }.
Definition imap_NewServer (cfg : IMAPConfig) (tlsCfg : TLSServer) : IMAPServer :=
  mkIMAPServer (imap_ListenAddr cfg) tlsCfg false.

(** The POP3 server; its database, blob store and accounts are those of the process. *)
Record POP3Server := mkPOP3Server { pop3_cfg : POP3Config; pop3_tlsCfg : option TLSServer }.
Definition pop3_NewServer (cfg : POP3Config) (tlsCfg : TLSServer) : POP3Server := mkPOP3Server cfg (Some tlsCfg).

(** What a session reads of its server, given whether its TLS handshake would succeed. *)
Definition pop3_session_config (handshake : bool) (s : POP3Server) : Pop3.P3Config :=
  Pop3.mkP3Config (pop3_APOPSecret (pop3_cfg s)) ((λ _, handshake) <$> pop3_tlsCfg s).

(** [Serve], over what [Accept] returns: the connections handed to a goroutine of
    their own, and the error that ends the loop. *)
Fixpoint Serve {conn} (accepted : list (res conn)) : list conn * option error :=
  match accepted with
  | [] => ([], None)
  | Err err :: _ => ([], Some err)
  | Ok c :: accepted => let '(conns, err) := Serve accepted in (c :: conns, err)
  end.

(** [ServeTLS]: [None] is the panic of a server without a TLS configuration. *)
Definition ServeTLS {conn} (tls_Server : TLSServer → conn → conn) (accepted : list (res conn)) (s : POP3Server)
    : option (list conn * option error) :=
  match pop3_tlsCfg s with
  | None => None
  | Some t => Some (Serve ((λ r, match r with Ok c => Ok (tls_Server t c) | Err e => Err e end) <$> accepted))
  end.

(** * marco.go *)
Definition listenNetwork (ipVersion : string) : string :=
  if String.eqb ipVersion "ipv4" then "tcp4" else if String.eqb ipVersion "ipv6" then "tcp6" else "tcp".

Inductive blob_backend := Filesystem (path : string) | SQLite.

(** A listening service: its name, network and address. *)
Definition listener : Type := string * string * string.

(** The running server.  [cfg] is shared by pointer: SMTP, POP3 and the admin API
    read their sections from it; the queue has a copy.  [sv_admin] is the address
    of the admin API, which is served without TLS and whose failure to listen
    does not stop the server.  The servers of go-smtp and go-imap were given copies
    of the settings they need. *)
Record Server := mkServer {
  sv_cfg : Config; sv_smtp : Backend; sv_queue : Worker.Config; sv_workers : Z;
  sv_signer : option Signer; sv_blob : blob_backend; sv_tls : TLSServer; sv_api : handlers;
  sv_admin : option string; sv_listeners : list listener;
  sv_smtpSrv : SMTPServer; sv_imapSrv : IMAPServer; sv_pop3Srv : option POP3Server }.

(** [os.Exit(1)] after logging [what]; the log text of the failure is left out. *)
Inductive outcome := Exit (what : string) | Running (s : Server).

(** The system as [Run] finds it. *)
Record System_ := mkSystem {
  sy_getenv : string → string;
  sy_hostname : res string;
  sy_decode : string → Config → res Config;
  sy_sql_Open : string → res unit;
  sy_crypto : CryptoLib;
  sy_listen : string → string → res unit;
}.

(** [if err != nil { slog.Error(what); os.Exit(1) }] *)
Definition or_exit {A} (what : string) (m : migrating (res A)) (k : A → migrating outcome) : migrating outcome :=
  let! r := m in
  match r with
  | Err _ => sret (Exit what)
  | Ok a => k a
  end.

Section run.
Context (sys : System_).

(** The DKIM block: the key must be a PEM block holding a PKCS #8 RSA key. *)
Definition load_signer (cfg : DKIMConfig) (k : option Signer → migrating outcome) : migrating outcome :=
  if String.eqb (PrivateKeyPath cfg) "" then k None else
  or_exit "failed to read DKIM private key" (lift (os_ReadFile (PrivateKeyPath cfg))) (λ keyData,
  match pem_Decode (sy_crypto sys) keyData with
  | None => sret (Exit "failed to decode DKIM private key PEM")
  | Some block =>
      match ParsePKCS8PrivateKey (sy_crypto sys) block with
      | Err _ => sret (Exit "failed to parse DKIM private key")
      | Ok (_, false) => sret (Exit "DKIM private key is not RSA")
      | Ok (key, true) => k (Some (mkSigner (dkim_Domain cfg) (dkim_Selector cfg) key))
      end
  end).

(** The listeners in the order they are opened; an empty address is skipped. *)
Definition services (cfg : Config) (acme : bool) : list (string * string) :=
  filter (λ s, s.2 ≠ "")
    [("smtp", ListenAddr (c_SMTP cfg)); ("smtp submission", SubmissionAddr (c_SMTP cfg));
     ("smtps", SubmissionsAddr (c_SMTP cfg)); ("imap", imap_ListenAddr (c_IMAP cfg));
     ("imaps", ImapsAddr (c_IMAP cfg)); ("pop3", pop3_ListenAddr (c_POP3 cfg)); ("pop3s", POP3sAddr (c_POP3 cfg))] ++
  (if acme then [("acme http-01", ":80")] else []).

(** The first service that cannot listen, if any. *)
Definition listen_failure (cfg : Config) (acme : bool) : option (string * string) :=
  List.find (λ s, negb (is_ok (sy_listen sys (listenNetwork (c_IPVersion cfg)) s.2))) (services cfg acme).

(** The POP3 server is made only when it has an address. *)
Definition pop3Srv (cfg : Config) (tlsCfg : TLSServer) : option POP3Server :=
  if negb (String.eqb (pop3_ListenAddr (c_POP3 cfg)) "") || negb (String.eqb (POP3sAddr (c_POP3 cfg)) "")
  then Some (pop3_NewServer (c_POP3 cfg) tlsCfg) else None.

Definition Run : migrating outcome :=
  let! now := lift time_now in
  or_exit "failed to load config" (sret (Load (sy_hostname sys) (sy_decode sys) (DefaultPath (sy_getenv sys)))) (λ cfg,
  match InitLogging (Level (c_Logging cfg)) (Format (c_Logging cfg)) with
  | Some _ => sret (Exit "failed to init logging")
  | None =>
  if String.eqb (c_Hostname cfg) "" then sret (Exit "hostname is required") else
  if String.eqb (Path (c_Storage cfg)) "" then sret (Exit "storage path is required") else
  or_exit "failed to open database" (Open (sy_sql_Open sys) (Path (c_Storage cfg))) (λ _,
  or_exit "failed to run migrations" Migrate (λ _,
  or_exit "failed to set up outbound mailbox" (lift ensureOutboundMailbox) (λ _,
  or_exit "unknown blob backend"
    (sret (if String.eqb (BlobBackend (c_Storage cfg)) "filesystem" then Ok (Filesystem (BlobPath (c_Storage cfg)))
           else if String.eqb (BlobBackend (c_Storage cfg)) "sqlite" then Ok SQLite
           else Err (ErrorNew "unknown blob backend"))) (λ blob,
  load_signer (c_DKIM cfg) (λ dk,
  let qm := NewManager (MaxRetries (c_Queue cfg)) (Interval (c_Queue cfg)) (c_IPVersion cfg) (c_Relay cfg) in
  or_exit "failed to init ACME" (sret (NewACMManager (c_ACME cfg) (c_Hostname cfg))) (λ acmeMgr,
  or_exit "failed to init TLS config" (sret (ServerConfig (sy_crypto sys) now (c_TLS cfg) (c_Hostname cfg) acmeMgr)) (λ tlsCfg,
  let smtpBe := ReloadDomains (c_Domains cfg) (NewBackend (c_SMTP cfg)) in
  let acme := match acmeMgr with Some _ => true | None => false end in
  match listen_failure cfg acme with
  | Some _ => sret (Exit "failed to listen")
  | None =>
      sret (Running (mkServer cfg smtpBe qm (Workers (c_Queue cfg)) dk blob tlsCfg (api_NewServer (c_Admin cfg) (c_DKIM cfg))
        (if String.eqb (admin_ListenAddr (c_Admin cfg)) "" then None else Some (admin_ListenAddr (c_Admin cfg)))
        ((λ s, (s.1, listenNetwork (c_IPVersion cfg), s.2)) <$> services cfg acme)
        (smtp_NewServer smtpBe tlsCfg) (imap_NewServer (c_IMAP cfg) tlsCfg) (pop3Srv cfg tlsCfg)))
  end)))))))
  end).
End run.

(** * Signals *)

(** A signal; with SIGHUP, what the decoder makes of the file by then. *)
Inductive signal := SIGHUP (decode : string → Config → res Config) | Terminate.

(** The settings [reloadConfig] compares, and warns about when they differ. *)
Definition restart_settings (c : Config) : list (string * string) :=
  [("smtp.listen_addr", ListenAddr (c_SMTP c)); ("imap.listen_addr", imap_ListenAddr (c_IMAP c));
   ("pop3.listen_addr", pop3_ListenAddr (c_POP3 c)); ("admin.listen_addr", admin_ListenAddr (c_Admin c));
   ("storage.path", Path (c_Storage c)); ("storage.blob_backend", BlobBackend (c_Storage c));
   ("tls.cert_file", CertFile (c_TLS c)); ("tls.key_file", KeyFile (c_TLS c))].

Definition restart_warnings (old new : Config) : list string :=
  (λ s, s.1.1) <$> filter (λ s, s.1.2 ≠ s.2.2) (zip (restart_settings old) (restart_settings new)).

(** [reloadConfig]: the new configuration and the settings warned about.  The
    logger is set up again when its settings changed; a failure is only logged. *)
Definition reloadConfig (sys : System_) (decode : string → Config → res Config) (cfg : Config)
    : res (Config * list string * option error) :=
  match Load (sy_hostname sys) decode (DefaultPath (sy_getenv sys)) with
  | Err err => Err (wrap "reload: " err)
  | Ok newCfg =>
      let relog :=
        if negb (String.eqb (Level (c_Logging newCfg)) (Level (c_Logging cfg))) ||
           negb (String.eqb (Format (c_Logging newCfg)) (Format (c_Logging cfg)))
        then InitLogging (Level (c_Logging newCfg)) (Format (c_Logging newCfg)) else None in
      Ok (newCfg, restart_warnings cfg newCfg, relog)
  end.

(** [*cfg = *newCfg]: the parts of the server that point into [cfg] see it. *)
Definition assign_cfg (new : Config) (s : Server) : Server :=
  mkServer new (mkBackend (c_SMTP new) (be_limiter (sv_smtp s)) (be_localDomains (sv_smtp s))) (sv_queue s)
    (sv_workers s) (sv_signer s) (sv_blob s) (sv_tls s) (sv_api s) (sv_admin s) (sv_listeners s)
    (sv_smtpSrv s) (sv_imapSrv s) ((λ p, mkPOP3Server (c_POP3 new) (pop3_tlsCfg p)) <$> sv_pop3Srv s).
Definition with_smtp (b : Backend) (s : Server) : Server :=
  mkServer (sv_cfg s) b (sv_queue s) (sv_workers s) (sv_signer s) (sv_blob s) (sv_tls s) (sv_api s) (sv_admin s)
    (sv_listeners s) (sv_smtpSrv s) (sv_imapSrv s) (sv_pop3Srv s).

(** The loop over the signals: the server when it ends, and whether it was told to. *)
Fixpoint signal_loop (sys : System_) (sigs : list signal) (s : Server) : Server * bool :=
  match sigs with
  | [] => (s, false)
  | Terminate :: _ => (s, true)
  | SIGHUP decode :: sigs =>
      match reloadConfig sys decode (sv_cfg s) with
      | Err _ => signal_loop sys sigs s
      | Ok (new, _, _) =>
          let s := assign_cfg new s in
          signal_loop sys sigs (with_smtp (ReloadDomains (c_Domains (sv_cfg s)) (sv_smtp s)) s)
      end
  end.
