(* ===== verification/Keys.v ===== *)
(** Key material and the commands that print it (src/pkg/dkim/{signer,verify}.go,
    src/pkg/util/correlation.go, the commands hash-password and gen-key of
    src/cmd/marco/main.go).  RSA, X.509, PEM and the DKIM verifier are arguments. *)
From S2P Require Import Prelude GoLib Cache Sql Schema World StoreUsers StoreMail Auth Blob Worker Api Startup.

Record KeyLib := mkKeyLib {
  rsa_GenerateKey : res string;
  MarshalPKCS1PrivateKey : string → string;
  MarshalPKIX : string → res string;
  pem_EncodeToMemory : string → string → string;
  Verification : Type;
  dkim_Verify : string → res (list Verification);
}.

Section keys.
Context (lib : KeyLib).

(** * dkim/signer.go, dkim/verify.go *)
Definition NewSigner (domain selector key : string) : Signer := mkSigner domain selector key.
Definition GenerateKey : res string := rsa_GenerateKey lib.
Definition EncodePrivateKey (key : string) : string :=
  pem_EncodeToMemory lib "RSA PRIVATE KEY" (MarshalPKCS1PrivateKey lib key).
(** The selector and the domain are not used. *)
Definition DNSTXTRecord (key selector domain : string) : string :=
  match MarshalPKIX lib key with
  | Err _ => ""
  | Ok pubDER => "v=DKIM1; k=rsa; p=" +:+ hex_string pubDER
  end.

(** The first result, if there is one. *)
Definition Verify (msg : res string) : res (option (Verification lib)) :=
  match msg with
  | Err err => Err (wrap "dkim: read for verify: " err)
  | Ok buf =>
      match dkim_Verify lib buf with
      | Err err => Err (wrap "dkim: verify: " err)
      | Ok results => Ok (head results)
      end
  end.

(** * main.go *)

(** What a command prints on standard output, or [os.Exit(1)]. *)
Definition printed := option (list string).

Definition genKey (domain : string) : printed :=
  match rsa_GenerateKey lib with
  | Err _ => None
  | Ok key =>
      let privPEM := pem_EncodeToMemory lib "RSA PRIVATE KEY" (MarshalPKCS1PrivateKey lib key) in
      match MarshalPKIX lib key with
      | Err _ => None
      | Ok pubDER =>
          Some ["Private key:"; privPEM; "DNS TXT record for default._domainkey." +:+ domain +:+ ":";
                "v=DKIM1; k=rsa; p=" +:+ hex_string pubDER]
      end
  end.
End keys.

(** Reading a line from standard input fails when it does not end in a line feed. *)
Definition read_line (stdin : string) : res string :=
  match strings.IndexByte stdin (chr 10) with
  | Some i => Ok (stake (S i) stdin)
  | None => Err (ErrorNew "EOF")
  end.

Definition hashPassword (IDKey : string → list Z → Z → Z → Z → Z → list Z) (rand : option (list Z)) (stdin : string) : printed :=
  match read_line stdin with
  | Err _ => None
  | Ok line =>
      match HashPassword IDKey (strings.TrimSpace line) rand with
      | Err _ => None
      | Ok hash => Some ["Enter password: " +:+ hash]
      end
  end.

(** * util/correlation.go *)

(** 16 random bytes as hexadecimal digits; the error of the source is ignored and
    leaves the bytes zero. *)
Definition NewCorrelationID (rand : option (list Z)) : string :=
  hex_string (string_of_list_ascii (chr <$> take 16 (default [] rand ++ replicate 16 0))).

(** A context as its values, the innermost first; the key type is private to the
    package, so it is the only one here. *)
Definition Context_ : Type := list string.
Definition WithCorrelationID (ctx : Context_) (id : string) : Context_ := id :: ctx.
Definition NewContextWithCID (ctx : Context_) (rand : option (list Z)) : Context_ :=
  WithCorrelationID ctx (NewCorrelationID rand).
Definition CorrelationIDFromContext (ctx : Context_) : string := default "" (head ctx).
(** The attributes the logger adds to every line. *)
Definition LoggerWithCorrelationID (ctx : Context_) : list (string * string) :=
  let id := CorrelationIDFromContext ctx in
  if String.eqb id "" then [] else [("correlation_id", id)].

Lemma hex_string_length s : slen (hex_string s) = 2 * slen s.
Proof.
  unfold hex_string, slen. induction s as [|c s IH]; [done|]. cbn [list_ascii_of_string fmap list_fmap].
  destruct (_ <$> list_ascii_of_string s) as [|x l] eqn:E.
  - destruct s; [done|discriminate].
  - change (String.concat "" (?a :: x :: l)) with (a +:+ "" +:+ String.concat "" (x :: l)).
    rewrite !string_length_app. cbn [String.length]. lia.
Qed.

Lemma NewCorrelationID_length rand : slen (NewCorrelationID rand) = 32.
Proof.
  unfold NewCorrelationID. rewrite hex_string_length. unfold slen.
  assert (∀ l, String.length (string_of_list_ascii l) = length l) as -> by (induction l; cbn; congruence).
  rewrite length_fmap, length_take, length_app, length_replicate. lia.
Qed.

(** A fresh context logs its identifier. *)
Lemma NewContextWithCID_logged ctx rand :
  LoggerWithCorrelationID (NewContextWithCID ctx rand) = [("correlation_id", NewCorrelationID rand)].
Proof.
  unfold LoggerWithCorrelationID, NewContextWithCID, CorrelationIDFromContext, WithCorrelationID. cbn.
  destruct (String.eqb_spec (NewCorrelationID rand) "") as [E|]; [|done].
  pose proof (NewCorrelationID_length rand) as H. by rewrite E in H.
Qed.
