(* ===== verification/StartupSpec.v ===== *)
(** What the start and the reload of the server guarantee (src/pkg/marco/marco.go):
    the state a started server finds, the effect of SIGHUP, and how a DKIM
    rotation through the admin API (src/pkg/api/handlers.go) meets the next start. *)
From S2P Require Import Prelude GoLib Cache Sql Schema World Metrics StoreUsers StoreMail Migrations StoreQueue Blob Worker Smtp Api Config Startup.

(** * A started server *)
Lemma or_exit_running {A} what (m : migrating (res A)) k s srv s' :
  or_exit what m k s = (Running srv, s') → ∃ a s1, m s = (Ok a, s1) ∧ k a s1 = (Running srv, s').
Proof. unfold or_exit, sbind. destruct (m s) as [[a|e] s1]; [|discriminate]. intros E. by exists a, s1. Qed.

Lemma or_exit_pres {A} (I : World * Catalog → Prop) what (m : migrating (res A)) k :
  pres I m → (∀ a, pres I (k a)) → pres I (or_exit what m k).
Proof. intros Hm Hk. unfold or_exit. apply pres_bind; [done|]. intros [a|e]; [apply Hk|apply pres_ret]. Qed.

Definition sys_wf (s : World * Catalog) : Prop := wf s.1.

Lemma sql_wf {A} (f : DB → Catalog → res A * (DB * Catalog)) :
  (∀ d c, db_wf d → db_wf (f d c).2.1) → (∀ d c, mailboxes (f d c).2.1 = mailboxes d) → pres sys_wf (sql f).
Proof.
  intros Hf Hm [w c] Hw. unfold sql, sys_wf in *. cbn [fst] in *. specialize (Hf (w_db w) c Hw). specialize (Hm (w_db w) c).
  assert (∀ fs, wf (set_faults fs w)) as Hw' by done.
  destruct (w_faults w) as [|[] fs]; [|done|]; destruct (f (w_db w) c) as [r [d' c']]; cbn [fst snd] in *;
    by apply wf_set_db.
Qed.

Lemma Exec_wf l : pres sys_wf (Exec l).
Proof.
  induction l as [|s l IH]; cbn [Exec]; [apply pres_ret|]. apply pres_bind.
  - apply sql_wf; intros d c; [intros Hd|]; destruct (exec_catalog s c); try done; [by apply exec_rows_wf|apply exec_rows_mailboxes].
  - intros [u|e]; [exact IH|apply pres_ret].
Qed.

Lemma run_migrations_wf v ms : pres sys_wf (run_migrations v ms).
Proof.
  induction ms as [|[u l] ms IH]; cbn [run_migrations]; [apply pres_ret|]. destruct (u <=? v); [exact IH|].
  apply pres_bind; [apply Exec_wf|]. intros [x|e]; [|apply pres_ret].
  apply pres_bind; [by apply sql_wf|]. intros [y|e]; [exact IH|apply pres_ret].
Qed.

Lemma Migrate_wf : pres sys_wf Migrate.
Proof. apply pres_bind; [by apply sql_wf|]. intros [v|e]; [apply run_migrations_wf|apply pres_ret]. Qed.

Lemma Open_wf o p : pres sys_wf (Open o p).
Proof.
  unfold Open. destruct (o _); [|apply pres_ret]. apply pres_bind; [by apply sql_wf|]. intros [u|e]; [|apply pres_ret].
  apply pres_bind; [by apply sql_wf|]. intros [u'|e]; apply pres_ret.
Qed.

Lemma load_signer_pres I sys cfg k :
  (∀ p, pres I (lift (os_ReadFile p))) → (∀ x, pres I (k x)) → pres I (load_signer sys cfg k).
Proof.
  intros Hr Hk. unfold load_signer. destruct (String.eqb _ _); [apply Hk|]. apply or_exit_pres; [apply Hr|]. intros data.
  destruct (pem_Decode _ _); [|apply pres_ret]. destruct (ParsePKCS8PrivateKey _ _) as [[key []]|]; [apply Hk|apply pres_ret..].
Qed.

Lemma Run_wf sys : pres sys_wf (Run sys).
Proof.
  assert (∀ A (m : state World A), pres wf m → pres sys_wf (lift m)) as Hl by (intros A m; apply pres_lift).
  unfold Run. apply pres_bind; [apply Hl, pres_time_now|]. intros now. apply or_exit_pres; [apply pres_ret|]. intros cfg.
  destruct (InitLogging _ _); [apply pres_ret|]. destruct (String.eqb _ _); [apply pres_ret|].
  destruct (String.eqb _ _); [apply pres_ret|]. apply or_exit_pres; [apply Open_wf|]. intros _.
  apply or_exit_pres; [apply Migrate_wf|]. intros _. apply or_exit_pres; [apply Hl, ensureOutboundMailbox_wf|]. intros _.
  apply or_exit_pres; [apply pres_ret|]. intros blob. apply load_signer_pres; [intros p; apply Hl, os_call_wf|].
  intros dk. apply or_exit_pres; [apply pres_ret|]. intros acme. apply or_exit_pres; [apply pres_ret|]. intros tls.
  destruct (listen_failure _ _ _); apply pres_ret.
Qed.

(** ** The mailbox for outbound mail *)
Definition has_outbound (w : World) : Prop := (0, "OUTBOUND") ∈ mbox_key <$> rows (mailboxes (w_db w)).

Lemma CreateMailbox_outcome u n w r w' :
  CreateMailbox u n w = (r, w') →
  (match r with Ok _ => True | Err e => errors_is e ErrAlreadyExists = true end) →
  (u, n) ∈ mbox_key <$> rows (mailboxes (w_db w')).
Proof.
  unfold CreateMailbox, sbind. intros E Hr.
  destruct (stmt_cases (sql_insert_mailbox u n) w) as [[fs E1]|[fs E1]]; rewrite E1 in E; [by injection E as <- <-|].
  unfold sql_insert_mailbox in E. case_decide as Hin; cbn [fst snd] in E.
  { injection E as <- <-. exact Hin. }
  case_decide; cbn [fst snd] in E; injection E as <- <-; [|done].
  cbn. rewrite fmap_app. apply elem_of_app. right. left.
Qed.

Lemma ensureOutboundMailbox_outcome w u w' : ensureOutboundMailbox w = (Ok u, w') → has_outbound w'.
Proof.
  unfold ensureOutboundMailbox, sbind, time_now_unix. destruct (stmt _ w) as [[x|e] w1]; [|discriminate].
  destruct (CreateMailbox 0 "OUTBOUND" w1) as [r w2] eqn:E. intros H. 
  assert (match r with Ok _ => True | Err e => errors_is e ErrAlreadyExists = true end ∧ w' = w2) as [Hr ->].
  { destruct r as [i|e]; [injection H as _ ->; done|]. destruct (errors_is e ErrAlreadyExists); [|discriminate].
    injection H as _ ->. done. }
  by eapply CreateMailbox_outcome.
Qed.

(** ** The catalogue *)
Lemma sql_ok {A} (f : DB → Catalog → res A * (DB * Catalog)) s a s' :
  sql f s = (Ok a, s') → s'.2 = (f (w_db s.1) s.2).2.2 ∧ (f (w_db s.1) s.2).1 = Ok a.
Proof.
  destruct s as [w c]. intros E. destruct (sql_cases f w c) as [[w' E1]|[w' E1]]; rewrite E1 in E; [done|].
  injection E as E2 <-. done.
Qed.

Lemma run_migrations_ok v n s u s' :
  (v ≤ n)%nat → (n ≤ 7)%nat → s.2 = schema_at n →
  run_migrations (Z.of_nat v) (drop n migrations) s = (Ok u, s') → s'.2 = schema_at 7.
Proof.
  intros Hv Hn. remember (7 - n)%nat as j eqn:Ej. revert n s Hv Hn Ej.
  induction j as [|j IH]; intros n [w c] Hv Hn Ej Hs.
  { replace n with 7%nat in * by lia. by intros [= _ <-]. }
  cbn [snd] in Hs. subst c. destruct (migration_step n ltac:(lia)) as (Hd & Hc & He). rewrite Hd. cbn [run_migrations].
  destruct (Z.leb_spec (Z.of_nat (Datatypes.S n)) (Z.of_nat v)); [lia|]. unfold sbind.
  destruct (Exec_prefix (ddl_of n) w (schema_at n) _ Hc) as (k & _ & _ & E2).
  destruct (Exec (ddl_of n) (w, schema_at n)) as [[x|e] [w1 c2]]; [|discriminate]. cbn [fst snd] in E2.
  specialize (E2 x eq_refl). unfold set_user_version. destruct (sql _ (w1, c2)) as [[y|e] [w2 c3]] eqn:E; [|discriminate].
  apply sql_ok in E as [E _]. cbn in E. rewrite E2, He in E. apply IH; [lia..|exact E].
Qed.

Lemma Migrate_ok s n u s' : (n ≤ 7)%nat → s.2 = schema_at n → Migrate s = (Ok u, s') → s'.2 = schema_at 7.
Proof.
  intros Hn Hs. unfold Migrate, sbind, read_version. destruct (sql _ s) as [[v|e] s1] eqn:E; [|discriminate].
  apply sql_ok in E as [E1 E2]. cbn in E1, E2. injection E2 as <-. rewrite Hs in *. rewrite version_of, migrations_sorted by done.
  rewrite run_migrations_skip by done. by apply run_migrations_ok.
Qed.

Lemma Open_catalog o p s u s' : Open o p s = (Ok u, s') → s'.2 = s.2.
Proof.
  unfold Open. destruct (o _); [|discriminate]. unfold sbind. destruct (sql _ s) as [[x|e] s1] eqn:E1; [|discriminate].
  destruct (sql _ s1) as [[y|e] s2] eqn:E2; [|discriminate]. intros [= _ <-].
  apply sql_ok in E1 as [E1 _]. apply sql_ok in E2 as [E2 _]. cbn in *. congruence.
Qed.

Lemma load_signer_running sys cfg k s srv s' :
  load_signer sys cfg k s = (Running srv, s') →
  ∃ dk s1, w_db s1.1 = w_db s.1 ∧ s1.2 = s.2 ∧ k dk s1 = (Running srv, s') ∧
    (PrivateKeyPath cfg ≠ "" → ∃ keyData block key,
       w_files s.1 !! PrivateKeyPath cfg = Some keyData ∧ pem_Decode (sy_crypto sys) keyData = Some block ∧
       ParsePKCS8PrivateKey (sy_crypto sys) block = Ok (key, true) ∧
       dk = Some (mkSigner (dkim_Domain cfg) (dkim_Selector cfg) key)).
Proof.
  unfold load_signer. destruct (String.eqb_spec (PrivateKeyPath cfg) "") as [E|E].
  { intros Hk. exists None, s. done. }
  intros (data & s1 & Hr & Hk)%or_exit_running. destruct s as [w c].
  unfold lift, os_ReadFile, os_call, faulty, sbind in Hr. cbn [fst snd] in Hr.
  assert (w_db s1.1 = w_db w ∧ s1.2 = c ∧ w_files w !! PrivateKeyPath cfg = Some data) as (H1 & H2 & H3).
  { destruct (w_faults w) as [|[] fs]; cbn in Hr; [|discriminate|];
      destruct (w_files w !! PrivateKeyPath cfg) eqn:Ef; cbn in Hr; try discriminate; by injection Hr as -> <-. }
  destruct (pem_Decode _ _) as [block|] eqn:Ep; [|discriminate].
  destruct (ParsePKCS8PrivateKey _ _) as [[key []]|] eqn:Ek; [|discriminate..].
  eexists _, s1. split; [done|]. split; [done|]. split; [exact Hk|]. intros _. by exists data, block, key.
Qed.

Lemma ReloadDomains_elem ds b d :
  d ∈ be_localDomains (ReloadDomains ds b) ↔ d = Hostname (be_cfg b) ∧ d ≠ "" ∨ d ∈ ds.
Proof.
  unfold ReloadDomains. cbn [be_localDomains]. set (m0 := if String.eqb _ _ then _ else _).
  assert (∀ x, x ∈ m0 ↔ x = Hostname (be_cfg b) ∧ x ≠ "") as H0.
  { intros x. unfold m0. destruct (String.eqb_spec (Hostname (be_cfg b)) ""); set_solver. }
  rewrite <- H0. clearbody m0. clear H0. revert m0. induction ds as [|x ds IH]; intros m0; cbn [foldl]; [set_solver|].
  rewrite IH. set_solver.
Qed.

Lemma NewBackend_cfg c : be_cfg (NewBackend c) = c.
Proof. done. Qed.

(** C22.  A server that starts is ready, whatever failed on the way: from a
    database at any version, [Run] exits or leaves the database at version 7,
    well-formed, with the OUTBOUND mailbox of the system user that outgoing mail
    needs; the configuration it runs with names a host and a known IP version;
    SMTP accepts mail for exactly the configured domains and its own host name;
    TLS is at least 1.2; the SMTP and IMAP servers offer it, take no password
    without it, and SMTP carries the configured limits; POP3 listens only if it has
    a server, which can serve TLS without a panic; and every listener with an
    address is open on the network of the configured IP version. *)
Theorem Run_ready (sys : System_) (n : nat) (w : World) (srv : Server) (s' : World * Catalog) :
  (n ≤ 7)%nat → wf w → Run sys (w, schema_at n) = (Running srv, s') →
  let cfg := sv_cfg srv in
  s'.2 = schema_at 7 ∧ wf s'.1 ∧ has_outbound s'.1 ∧
  Load (sy_hostname sys) (sy_decode sys) (DefaultPath (sy_getenv sys)) = Ok cfg ∧
  c_Hostname cfg ≠ "" ∧ valid_ip_version (c_IPVersion cfg) = true ∧
  (∀ d, d ∈ be_localDomains (sv_smtp srv) ↔ d = Hostname (c_SMTP cfg) ∧ d ≠ "" ∨ d ∈ c_Domains cfg) ∧
  MinVersion (sv_tls srv) = VersionTLS12 ∧
  sv_smtpSrv srv = mkSMTPServer (ListenAddr (c_SMTP cfg)) (Hostname (c_SMTP cfg)) (MaxMessageSize (c_SMTP cfg))
                  (MaxRecipients (c_SMTP cfg)) (sv_tls srv) false ∧
  sv_imapSrv srv = mkIMAPServer (imap_ListenAddr (c_IMAP cfg)) (sv_tls srv) false ∧
  (sv_pop3Srv srv = None → Forall (λ l, l.1.1 ≠ "pop3" ∧ l.1.1 ≠ "pop3s") (sv_listeners srv)) ∧
  (∀ p, sv_pop3Srv srv = Some p → pop3_cfg p = c_POP3 cfg ∧
     ∀ conn (up : TLSServer → conn → conn) accepted, is_Some (ServeTLS up accepted p)) ∧
  (∀ name network addr, (name, network, addr) ∈ sv_listeners srv →
     network = listenNetwork (c_IPVersion cfg) ∧ addr ≠ "" ∧ is_ok (sy_listen sys network addr) = true).
Proof.
  intros Hn Hw Hrun. pose proof (Run_wf sys (w, schema_at n) Hw) as Hwf. rewrite Hrun in Hwf. cbn [snd] in Hwf.
  unfold Run, sbind at 1, lift at 1, time_now in Hrun. cbn [fst snd] in Hrun.
  apply or_exit_running in Hrun as (cfg & s1 & [= HL <-] & Hrun).
  destruct (InitLogging _ _); [discriminate|]. destruct (String.eqb_spec (c_Hostname cfg) "") as [|Hh]; [discriminate|].
  destruct (String.eqb _ _); [discriminate|].
  apply or_exit_running in Hrun as (u1 & s2 & HO & Hrun). apply Open_catalog in HO. cbn [snd] in HO.
  apply or_exit_running in Hrun as (u2 & s3 & HM & Hrun). apply (Migrate_ok _ n) in HM; [|done..].
  apply or_exit_running in Hrun as (u3 & s4 & HE & Hrun).
  assert (has_outbound s4.1 ∧ s4.2 = schema_at 7) as [Hout Hcat].
  { unfold lift in HE. destruct (ensureOutboundMailbox s3.1) as [r w4] eqn:E. injection HE as -> <-.
    split; [by eapply ensureOutboundMailbox_outcome|exact HM]. }
  apply or_exit_running in Hrun as (blob & s5 & [= _ <-] & Hrun).
  apply load_signer_running in Hrun as (dk & s6 & Hdb & Hc6 & Hrun & _).
  apply or_exit_running in Hrun as (acme & s7 & [= HA <-] & Hrun).
  apply or_exit_running in Hrun as (tls & s8 & [= HT <-] & Hrun).
  destruct (listen_failure _ _ _) eqn:Hlf; [discriminate|]. injection Hrun as <- <-.
  cbn [sv_cfg sv_smtp sv_tls sv_listeners sv_smtpSrv sv_imapSrv sv_pop3Srv]. split; [congruence|]. split; [exact Hwf|].
  split; [unfold has_outbound; rewrite Hdb; exact Hout|]. split; [exact HL|]. split; [exact Hh|].
  split; [by eapply Load_ip_version|]. split; [intros d; by rewrite ReloadDomains_elem, NewBackend_cfg|].
  split; [|split; [done|split; [done|split; [|split; [|]]]]].
  - unfold ServerConfig in HT. destruct acme; [by injection HT as <-|]. destruct (_ && _).
    + destruct (LoadX509KeyPair _ _ _); [by injection HT as <-|done].
    + destruct (SelfSignedCert _ _ _); [by injection HT as <-|done].
  - intros Hp3. apply Forall_fmap, Forall_forall. intros [nm ad] Hin. unfold pop3Srv in Hp3.
    destruct (String.eqb_spec (pop3_ListenAddr (c_POP3 cfg)) "") as [E1|]; [|done].
    destruct (String.eqb_spec (POP3sAddr (c_POP3 cfg)) "") as [E2|]; [|done].
    unfold services in Hin. rewrite E1, E2 in Hin. apply elem_of_app in Hin as [[Hx Hin]%list_elem_of_filter|Hx].
    + cbn [snd] in Hx. set_unfold in Hin. naive_solver.
    + destruct acme; set_unfold in Hx; naive_solver.
  - unfold pop3Srv. intros p Hp. destruct (_ || _); [|done]. by injection Hp as <-.
  - intros name network addr ([nm ad] & [= -> -> ->] & Hin)%list_elem_of_fmap. split; [done|]. split.
    + unfold services in Hin. apply elem_of_app in Hin as [[Hx _]%list_elem_of_filter|Hx]; [exact Hx|].
      destruct acme; [|by apply elem_of_nil in Hx]. apply list_elem_of_singleton in Hx. by injection Hx as -> ->.
    + apply (find_none_elem _ _ _ Hlf) in Hin. cbn in Hin. by apply negb_false_iff in Hin.
Qed.

(** * Rotating the DKIM key *)
Definition files_are (F : gmap string string) (w : World) : Prop := w_files w = F.

Section files.
Context (F : gmap string string).
Lemma files_stmt {A} (f : DB → res A * DB) : pres (files_are F) (stmt f).
Proof. intros w Hw. destruct (db_only_stmt f w) as (d & fs & ->). exact Hw. Qed.
Lemma files_smodify f : (∀ w, w_files (f w) = w_files w) → pres (files_are F) (smodify f).
Proof. intros Hf. apply pres_modify. unfold files_are. intros w. by rewrite Hf. Qed.
Lemma files_ensureOutbound : pres (files_are F) ensureOutboundMailbox.
Proof.
  pose proof @files_stmt. unfold ensureOutboundMailbox, CreateMailbox. apply pres_bind; [by intros w Hw|]. intros now.
  apply pres_bind; [auto|]. intros [x|e]; [|apply pres_ret]. apply pres_bind.
  - apply pres_bind; [auto|]. intros [i|e].
    + apply pres_bind; [by apply files_smodify|]. intros. apply pres_ret.
    + destruct (isConstraintError e); apply pres_ret.
  - intros [i|e]; [apply pres_ret|]. destruct (errors_is e ErrAlreadyExists); apply pres_ret.
Qed.
Lemma files_sql {A} (f : DB → Catalog → res A * (DB * Catalog)) : pres (λ s, files_are F s.1) (sql f).
Proof.
  intros [w c] Hw. unfold sql. cbn [fst] in Hw. destruct (w_faults w) as [|[] fs]; [|exact Hw|];
    destruct (f (w_db w) c) as [r [d' c']]; exact Hw.
Qed.
Lemma files_Exec l : pres (λ s, files_are F s.1) (Exec l).
Proof.
  induction l as [|s l IH]; cbn [Exec]; [apply pres_ret|]. apply pres_bind; [apply files_sql|].
  intros [u|e]; [exact IH|apply pres_ret].
Qed.
Lemma files_run_migrations v ms : pres (λ s, files_are F s.1) (run_migrations v ms).
Proof.
  induction ms as [|[u l] ms IH]; cbn [run_migrations]; [apply pres_ret|]. destruct (u <=? v); [exact IH|].
  apply pres_bind; [apply files_Exec|]. intros [x|e]; [|apply pres_ret].
  apply pres_bind; [apply files_sql|]. intros [y|e]; [exact IH|apply pres_ret].
Qed.
Lemma files_Migrate : pres (λ s, files_are F s.1) Migrate.
Proof. apply pres_bind; [apply files_sql|]. intros [v|e]; [apply files_run_migrations|apply pres_ret]. Qed.
Lemma files_Open o p : pres (λ s, files_are F s.1) (Open o p).
Proof.
  unfold Open. destruct (o _); [|apply pres_ret]. apply pres_bind; [apply files_sql|]. intros [u|e]; [|apply pres_ret].
  apply pres_bind; [apply files_sql|]. intros [u'|e]; apply pres_ret.
Qed.
End files.

(** A key file [Run] cannot load keeps the server from starting. *)
Lemma Run_key_file sys s srv s' :
  Run sys s = (Running srv, s') →
  let dk := c_DKIM (sv_cfg srv) in
  Load (sy_hostname sys) (sy_decode sys) (DefaultPath (sy_getenv sys)) = Ok (sv_cfg srv) ∧
  (PrivateKeyPath dk ≠ "" → ∃ keyData block key,
     w_files s.1 !! PrivateKeyPath dk = Some keyData ∧ pem_Decode (sy_crypto sys) keyData = Some block ∧
     ParsePKCS8PrivateKey (sy_crypto sys) block = Ok (key, true)).
Proof.
  intros Hrun. unfold Run, sbind at 1, lift at 1, time_now in Hrun. destruct s as [w c]. cbn [fst snd] in *.
  apply or_exit_running in Hrun as (cfg & s1 & [= HL <-] & Hrun).
  destruct (InitLogging _ _); [discriminate|]. destruct (String.eqb _ _); [discriminate|].
  destruct (String.eqb _ _); [discriminate|].
  apply or_exit_running in Hrun as (u1 & s2 & HO & Hrun). pose proof (files_Open (w_files w) (sy_sql_Open sys) (Path (c_Storage cfg)) (w, c) eq_refl) as F2.
  rewrite HO in F2. apply or_exit_running in Hrun as (u2 & s3 & HM & Hrun). pose proof (files_Migrate (w_files w) s2 F2) as F3.
  rewrite HM in F3. apply or_exit_running in Hrun as (u3 & s4 & HE & Hrun).
  pose proof (pres_lift (T := Catalog) _ _ (files_ensureOutbound (w_files w)) s3 F3) as F4. rewrite HE in F4.
  apply or_exit_running in Hrun as (blob & s5 & [= _ <-] & Hrun).
  apply load_signer_running in Hrun as (dk & s6 & _ & _ & Hrun & Hkey).
  apply or_exit_running in Hrun as (acme & s7 & _ & Hrun). apply or_exit_running in Hrun as (tls & s8 & _ & Hrun).
  destruct (listen_failure _ _ _); [discriminate|]. injection Hrun as <- _. cbn [sv_cfg]. split; [exact HL|].
  intros Hp. destruct (Hkey Hp) as (data & block & key & H1 & H2 & H3 & _). exists data, block, key.
  cbn [snd] in F4. by rewrite <- F4.
Qed.

(** After a DKIM rotation through the admin API the server cannot be
    restarted: the handler reports success and leaves the new key in the
    configured file as a PKCS #1 block, [Run] reads the file with
    [ParsePKCS8PrivateKey], which refuses such a block, and exits, whatever the
    database and whatever fails. *)
Theorem rotation_stops_restart (lib : ApiLib) (h : handlers) (generated : res string) (sys : System_)
    (cfg : Config) (s : AS) (t : World * Catalog) :
  (∀ key block, pem_Decode (sy_crypto sys) (PrivateKeyPEM lib key) = Some block →
     is_ok (ParsePKCS8PrivateKey (sy_crypto sys) block) = false) →
  Load (sy_hostname sys) (sy_decode sys) (DefaultPath (sy_getenv sys)) = Ok cfg →
  PrivateKeyPath (c_DKIM cfg) = dkimPrivKeyPath h →
  let out := handleDKIMRotate lib h generated s in
  rs_status out.1 = StatusOK → w_files t.1 = w_files out.2.1 →
  ∃ what, (Run sys t).1 = Exit what.
Proof.
  intros Hpem HL Hpath out Hok Hfiles. destruct (Run sys t) as [[what|srv] s'] eqn:Hrun; [by exists what|].
  exfalso. destruct (Run_key_file sys t srv s' Hrun) as [HL' Hkey]. rewrite HL in HL'. injection HL' as Ec. rewrite <- Ec in Hkey.
  unfold out, handleDKIMRotate in *. rewrite Hpath in Hkey.
  destruct (String.eqb_spec (dkimPrivKeyPath h) "") as [|Hne]; [done|].
  destruct (Hkey Hne) as (data & block & key & H1 & H2 & H3).
  destruct generated as [k|e]; [|done]. unfold sbind in *. destruct s as [w dk0].
  assert (data = PrivateKeyPEM lib k) as ->.
  { revert Hok Hfiles. unfold lift, os_WriteFile, os_call, faulty, sbind. cbn [fst snd].
    destruct (w_faults w) as [|[] fs]; cbn; [|done|]; destruct (MarshalPKIXPublicKey lib k); cbn; try done;
      intros _ Hf; rewrite Hf, lookup_insert_eq in H1; congruence. }
  specialize (Hpem _ _ H2). by rewrite H3 in Hpem.
Qed.

(** * Reloading *)
Definition same_running (s s' : Server) : Prop :=
  sv_queue s' = sv_queue s ∧ sv_workers s' = sv_workers s ∧ sv_signer s' = sv_signer s ∧ sv_blob s' = sv_blob s ∧
  sv_tls s' = sv_tls s ∧ sv_api s' = sv_api s ∧ sv_admin s' = sv_admin s ∧ sv_listeners s' = sv_listeners s ∧
  be_limiter (sv_smtp s') = be_limiter (sv_smtp s) ∧ sv_smtpSrv s' = sv_smtpSrv s ∧ sv_imapSrv s' = sv_imapSrv s ∧
  pop3_tlsCfg <$> sv_pop3Srv s' = pop3_tlsCfg <$> sv_pop3Srv s.

#[export] Instance same_running_preorder : PreOrder same_running.
Proof. unfold same_running. split; [by intros s|]. intros s1 s2 s3. intuition congruence. Qed.

(** The configuration the server last loaded. *)
Definition last_loaded (sys : System_) (sigs : list signal) (cfg : Config) : Config :=
  foldl (λ cfg s, match s with
                  | SIGHUP dec => match Load (sy_hostname sys) dec (DefaultPath (sy_getenv sys)) with Ok c => c | Err _ => cfg end
                  | Terminate => cfg
                  end) cfg sigs.

(** The SMTP sessions and the POP3 server see the configuration, and SMTP serves
    its domains. *)
Definition in_step (s : Server) : Prop :=
  be_cfg (sv_smtp s) = c_SMTP (sv_cfg s) ∧ (∀ p, sv_pop3Srv s = Some p → pop3_cfg p = c_POP3 (sv_cfg s)) ∧
  ∀ d, d ∈ be_localDomains (sv_smtp s) ↔ d = Hostname (c_SMTP (sv_cfg s)) ∧ d ≠ "" ∨ d ∈ c_Domains (sv_cfg s).

(** Reloading: after any sequence of SIGHUPs, some of which may find a file that
    does not load, the server runs with the last configuration that did load;
    the SMTP sessions check its limits and serve exactly its domains.  Everything
    else that was set up at start stays: queue and relay settings, workers,
    signer, blob store, certificates, listeners, the rate limiter, the session
    expiry, and the limits the go-smtp server enforces itself, so that a limit
    can be lowered but not raised.  No signal but a terminating one stops the
    server. *)
Theorem reload_effects (sys : System_) (sigs : list signal) (s : Server) :
  in_step s → Forall (λ x, x ≠ Terminate) sigs →
  let out := signal_loop sys sigs s in
  out.2 = false ∧ sv_cfg out.1 = last_loaded sys sigs (sv_cfg s) ∧ in_step out.1 ∧ same_running s out.1.
Proof.
  intros Hs Hall. revert s Hs. induction Hall as [|x sigs Hx Hall IH]; intros s Hs; [by cbn|].
  destruct x as [dec|]; [|done]. cbn [signal_loop]. unfold reloadConfig, last_loaded. cbn [foldl].
  destruct (Load (sy_hostname sys) dec (DefaultPath (sy_getenv sys))) as [new|e]; [|by apply IH].
  set (s1 := with_smtp _ _). assert (in_step s1) as H1.
  { split; [done|]. split; [unfold s1; cbn; intros p; destruct (sv_pop3Srv s); [by intros [= <-]|done]|]. intros d. unfold s1. cbn [with_smtp sv_smtp sv_cfg]. by rewrite ReloadDomains_elem. }
  destruct (IH s1 H1) as (E1 & E2 & E3 & E4). split; [exact E1|]. split; [exact E2|]. split; [exact E3|].
  etransitivity; [|exact E4]. unfold same_running, s1. cbn. by destruct (sv_pop3Srv s).
Qed.

(** * Examples *)
Definition toy_crypto : CryptoLib :=
  mkCryptoLib (Ok "key") (Ok 7) (λ _ _ _, Ok "der") (λ _ _, Err (Sentinel ErrNotExist))
    (λ k, Ok ("pkcs8:" +:+ k)) (λ _ bytes, bytes)
    (λ pem, if String.eqb pem "" then None else Some pem)
    (λ der, if strings.HasPrefix der "pkcs8:" then Ok (der, true) else Err (ErrorNew "x509: failed to parse private key")).

Definition demo_file (dkim_path : string) (cfg : Config) : res Config :=
  Ok (mkConfig "mx.example" ["example.com"] "ipv4" (c_Storage cfg) (c_SMTP cfg) (c_IMAP cfg) (c_POP3 cfg) (c_TLS cfg)
    (c_ACME cfg) (c_Auth cfg) (c_Queue cfg) (c_Relay cfg) (mkDKIMConfig "example.com" "s1" dkim_path) (c_DMARC cfg)
    (c_Admin cfg) (c_Logging cfg)).
Definition demo_system (dkim_path : string) : System_ :=
  mkSystem (λ _, "") (Ok "host") (λ _, demo_file dkim_path) (λ _, Ok tt) toy_crypto (λ _ _, Ok tt).

Definition demo_start := Run (demo_system "") (init_world 0, empty_catalog).

Lemma Run_ready_witness :
  ∃ srv, demo_start.1 = Running srv ∧
    has_outbound demo_start.2.1 ∧ c_Hostname (sv_cfg srv) = "mx.example" ∧
    "example.com" ∈ be_localDomains (sv_smtp srv) ∧ MinVersion (sv_tls srv) = VersionTLS12.
Proof.
  destruct demo_start as [[what|srv] s'] eqn:E; [exfalso; revert E; vm_compute; discriminate|]. exists srv.
  destruct (Run_ready (demo_system "") 0 (init_world 0) srv s' ltac:(lia) (init_wf 0) E)
    as (_ & _ & H1 & H2 & _ & _ & H3 & H4 & _).
  assert (match Load (Ok "host") (λ _, demo_file "") "/etc/marco/config.toml" with
          | Ok c => c_Hostname c = "mx.example" ∧ c_Domains c = ["example.com"] | Err _ => False end) as Hc by (vm_compute; split; reflexivity).
  cbn [demo_system sy_hostname sy_decode sy_getenv] in H2.
  change (DefaultPath (λ _, "")) with "/etc/marco/config.toml" in H2. rewrite H2 in Hc. destruct Hc as [Hc1 Hc2].
  split; [reflexivity|]. split; [exact H1|]. split; [exact Hc1|]. split; [|exact H4]. apply H3. right. rewrite Hc2. left.
Defined.

Definition demo_lib : ApiLib := mkApiLib (λ _, true) (λ _, "") (λ k, "pkcs1:" +:+ k) (λ k, Ok k) toy_prom.
Definition demo_handlers : handlers := mkHandlers (24 * hour) "/etc/marco/dkim.pem" (Api.mkDKIMConfig "example.com" "s1").

Lemma rotation_stops_restart_witness :
  let out := handleDKIMRotate demo_lib demo_handlers (Ok "k2") (init_world 0, None) in
  rs_status out.1 = StatusOK ∧ ∃ what, (Run (demo_system "/etc/marco/dkim.pem") (out.2.1, empty_catalog)).1 = Exit what.
Proof.
  intros out. split; [vm_compute; reflexivity|].
  apply (rotation_stops_restart demo_lib demo_handlers (Ok "k2") (demo_system "/etc/marco/dkim.pem")
    (match Load (Ok "host") (λ _, demo_file "/etc/marco/dkim.pem") "/etc/marco/config.toml" with Ok c => c | Err _ => defaultConfig (Ok "") end)
    (init_world 0, None)); [|vm_compute; reflexivity..].
  intros key block. cbn. intros [= <-]. reflexivity.
Defined.

Lemma reload_effects_witness :
  match demo_start.1 with
  | Running srv =>
      let out := signal_loop (demo_system "") [SIGHUP (λ _ _, Err (ErrorNew "bad toml")); SIGHUP (λ _ c, demo_file "" c)] srv in
      out.2 = false ∧ same_running srv out.1
  | Exit _ => False
  end.
Proof.
  destruct demo_start as [[what|srv] s'] eqn:E; [revert E; vm_compute; discriminate|]. cbn [fst].
  destruct (Run_ready (demo_system "") 0 (init_world 0) srv s' ltac:(lia) (init_wf 0) E) as (_ & _ & _ & _ & _ & _ & Hd & _ & _ & _ & _ & Hp & _).
  assert (in_step srv) as Hs.
  { split; [|split; [intros p Ep; apply (Hp p Ep)|exact Hd]]. assert (match demo_start.1 with Running x => be_cfg (sv_smtp x) = c_SMTP (sv_cfg x) | Exit _ => True end) as H
      by (vm_compute; reflexivity). by rewrite E in H. }
  destruct (reload_effects (demo_system "") [SIGHUP (λ _ _, Err (ErrorNew "bad toml")); SIGHUP (λ _ c, demo_file "" c)] srv Hs
    ltac:(repeat constructor; discriminate)) as (H1 & _ & _ & H2).
  split; [exact H1|exact H2].
Defined.
