(* ===== verification/Backup.v ===== *)
(** Backup and restore (src/pkg/marco/backup.go).  A tar.gz file is the list of
    its entries under an encoding ([Archive]).  The database lives in two regular files,
    the one at the configured path and its write-ahead log, which [storage.Open]
    asks for; what SQLite finds in their bytes is an argument ([DBFile]).  The state is
    that of the process: [w_db] and the catalogue are the committed database, and
    [w_files] holds the files.  How SQLite spreads what it commits over its two files
    is its own business, so a statement leaves both alone here; theorems say by a
    hypothesis what the files hold. *)
From S2P Require Import Prelude GoLib Cache Sql Schema World StoreUsers StoreMail Migrations StoreQueue Blob Worker Smtp Config.

(** A tar header's name, and the content. *)
Definition tar_entry : Type := string * string.

(** archive/tar over compress/gzip: the file written for a list of entries, and
    what reading a file yields: the entries, and the error that ended them early. *)
Class Archive := mkArchive {
  tar_gz : list tar_entry → string;
  untar : string → res (list tar_entry * option error);
  untar_tar l : untar (tar_gz l) = Ok (l, None);
}.

(** SQLite: what opening a main file and a write-ahead log (empty when there is
    none) finds. *)
Class DBFile := mkDBFile { db_open : string → string → res (DB * Catalog) }.

(** The write-ahead log beside the database at [path]. *)
Definition wal_path (path : string) : string := path +:+ "-wal".
Definition wal_of (path : string) (w : World) : string := default "" (w_files w !! wal_path path).

(** The last element of a path, [filepath.Base]. *)
Definition Base (path : string) : string :=
  match net.LastIndexByte path "/" with
  | Some i => sdrop (S i) path
  | None => path
  end.

Section backup.
Context `{MR : MapRange} `{AR : Archive} `{DF : DBFile} (digest : string → string).
(** [config.Load], and [sql.Open] as in Migrations. *)
Context (load : string → res Config) (sql_Open : string → res unit).

(** * Backup *)

(** [tw.WriteHeader] and the write that follows. *)
Definition tw_write (e : tar_entry) : state World (res tar_entry) :=
  let! bad := faulty in sret (if bad : bool then Err io_error else Ok e).

Definition addFileToTar (name path : string) : state World (res tar_entry) :=
  let! r := os_Stat path in
  match r with
  | Err err => sret (Err err)
  | Ok _ =>
      let! r := os_ReadFile path in
      match r with
      | Err err => sret (Err err)
      | Ok data => tw_write (name, data)
      end
  end.

(** Opening a database creates its file if it is missing. *)
Definition create_missing (path : string) : state World unit :=
  smodify (λ w, if decide (is_Some (w_files w !! path)) then w else set_files (<[path := ""]> (w_files w)) w).

(** The entries written before the first failure, and that failure. *)
Fixpoint write_all {A} (add : A → state World (res tar_entry)) (l : list A) : state World (list tar_entry * option error) :=
  match l with
  | [] => sret ([], None)
  | x :: l =>
      let! r := add x in
      match r with
      | Err err => sret ([], Some err)
      | Ok e => let! rest := write_all add l in sret (e :: rest.1, rest.2)
      end
  end.

Definition backupSQLiteBlobs : state World (list tar_entry * option error) :=
  let! r := query (λ d, Ok ((λ b, (blob_key b, blob_data b)) <$> rows (blobs d))) in
  match r with
  | Err err => sret ([], Some err)
  | Ok l => write_all (λ b, tw_write ("blobs/" +:+ b.1, b.2)) l
  end.

Definition under (root path : string) : Prop := strings.HasPrefix path (root +:+ "/") = true.
#[export] Instance under_dec root path : Decision (under root path).
Proof. unfold under. apply _. Defined.

(** [filepath.Walk]: the regular files under the root, which is taken to exist, in
    an order that does not matter here. *)
Definition walk (root : string) (files : gmap string string) : list string :=
  fst <$> range_order (filter (λ x, under root x.1) files).

Definition backupFSBlobs (root : string) : state World (list tar_entry * option error) :=
  let! paths := (λ w, (walk root (w_files w), w)) in
  write_all (λ path, addFileToTar ("blobs/" +:+ Base path) path) paths.

(** The deferred [Close] calls write out the archive; their errors are dropped. *)
Definition close_archive (outputPath : string) (entries : list tar_entry) : state World unit :=
  let! _ := os_WriteFile outputPath (tar_gz entries) in sret tt.

Definition backup_blobs (cfg : StorageConfig) : state World (list tar_entry * option error) :=
  if String.eqb (BlobBackend cfg) "sqlite" then
    let! r := backupSQLiteBlobs in sret (r.1, wrap "backup: sqlite blobs: " <$> r.2)
  else if String.eqb (BlobBackend cfg) "filesystem" then
    let! r := backupFSBlobs (BlobPath cfg) in sret (r.1, wrap "backup: fs blobs: " <$> r.2)
  else sret ([], None).

Definition Backup (cfgPath outputPath : string) : migrating (res unit) :=
  match load cfgPath with
  | Err err => sret (Err (wrap "backup: load config: " err))
  | Ok cfg =>
      let! r := Open sql_Open (Path (c_Storage cfg)) in
      match r with
      | Err err => sret (Err (wrap "backup: open db: " err))
      | Ok _ =>
          do! lift (create_missing (Path (c_Storage cfg))) in
          let! r := lift (os_WriteFile outputPath "") in
          match r with
          | Err err => sret (Err (wrap "backup: create output: " err))
          | Ok _ =>
              let! r := lift (addFileToTar "marco.db" (Path (c_Storage cfg))) in
              match r with
              | Err err => do! lift (close_archive outputPath []) in sret (Err (wrap "backup: db: " err))
              | Ok db_entry =>
                  let! r := lift (backup_blobs (c_Storage cfg)) in
                  do! lift (close_archive outputPath (db_entry :: r.1)) in
                  sret (match r.2 with Some err => Err err | None => Ok tt end)
              end
          end
      end
  end.

(** * Restore *)

(** The loop over the entries: the database and the blobs, each blob checked
    against its name. *)
Fixpoint read_entries (l : list tar_entry) (dbData : option string) (bs : gmap string string)
    : res (option string * gmap string string) :=
  match l with
  | [] => Ok (dbData, bs)
  | (name, data) :: l =>
      if String.eqb name "marco.db" then read_entries l (Some data) bs
      else if (6 <? slen name) && String.eqb (stake 6 name) "blobs/" then
        let key := sdrop 6 name in
        if negb (String.eqb (digest data) key) then Err (ErrorNew ("restore: blob " +:+ key +:+ ": content hash mismatch"))
        else read_entries l dbData (<[key := data]> bs)
      else read_entries l dbData bs
  end.

(** [os.WriteFile] of the database file.  From now on the database is what SQLite
    makes of the new bytes and the write-ahead log that is there, and nothing readable
    if they are not a database. *)
Definition write_db (path data : string) : migrating (res unit) :=
  let! r := lift (os_WriteFile path data) in
  match r with
  | Err err => sret (Err err)
  | Ok _ => λ s,
      match db_open data (wal_of path s.1) with
      | Ok (d, c) => (Ok tt, (set_db d s.1, c))
      | Err _ => (Ok tt, (set_db empty_db s.1, empty_catalog))
      end
  end.

(** [Migrate] begins by reading the version, which fails if the files at [path] are
    not a database. *)
Definition readable (path : string) (w : World) : res unit :=
  match db_open (default "" (w_files w !! path)) (wal_of path w) with Ok _ => Ok tt | Err err => Err err end.

Definition sql_restore_blob (key data : string) (now : Z) (d : DB) : res unit * DB :=
  if decide (key ∈ blob_key <$> rows (blobs d)) then (Ok tt, d)
  else (Ok tt, set_blobs (insert_row (λ _, mkBlobRow key data (slen data) now 1) (blobs d)) d).

Definition restoreSQLiteBlobs (bs : gmap string string) : state World (res unit) :=
  let! stop := sfor (range_order bs) (λ b,
    let! now := time_now_unix in
    let! r := stmt (sql_restore_blob b.1 b.2 now) in
    match r with
    | Err err => sret (Some (wrap ("restore: insert blob " +:+ b.1 +:+ ": ") err))
    | Ok _ => sret None
    end) in
  match stop with Some err => sret (Err err) | None => sret (Ok tt) end.

Definition restoreFSBlobs (root : string) (bs : gmap string string) : state World (res unit) :=
  let! stop := sfor (range_order bs) (λ b,
    if slen b.1 <? 4 then sret (Some slice_panic) else
    let! r := os_MkdirAll (shard root b.1) in
    match r with
    | Err err => sret (Some (wrap "restore: mkdir: " err))
    | Ok _ =>
        let! r := os_WriteFile (blob_path root b.1) b.2 in
        match r with
        | Err err => sret (Some (wrap ("restore: write blob " +:+ b.1 +:+ ": ") err))
        | Ok _ => sret None
        end
    end) in
  match stop with Some err => sret (Err err) | None => sret (Ok tt) end.

Definition restore_blobs (cfg : StorageConfig) (bs : gmap string string) : state World (res unit) :=
  if String.eqb (BlobBackend cfg) "sqlite" then
    let! r := restoreSQLiteBlobs bs in
    sret (match r with Err err => Err (wrap "restore: sqlite blobs: " err) | Ok _ => Ok tt end)
  else if String.eqb (BlobBackend cfg) "filesystem" then restoreFSBlobs (BlobPath cfg) bs
  else sret (Ok tt).

(** From the bytes of the archive on. *)
Definition restore_from (cfg : Config) (archive : string) : migrating (res unit) :=
  match untar archive with
  | Err err => sret (Err (wrap "restore: gzip: " err))
  | Ok (entries, terr) =>
      match read_entries entries None ∅ with
      | Err err => sret (Err err)
      | Ok (dbData, bs) =>
          match terr with
          | Some err => sret (Err (wrap "restore: tar: " err))
          | None =>
              match dbData with
              | None => sret (Err (ErrorNew "restore: no database found in backup"))
              | Some data =>
                  let! r := write_db (Path (c_Storage cfg)) data in
                  match r with
                  | Err err => sret (Err (wrap "restore: write db: " err))
                  | Ok _ =>
                      let! r := Open sql_Open (Path (c_Storage cfg)) in
                      match r with
                      | Err err => sret (Err (wrap "restore: open restored db: " err))
                      | Ok _ =>
                          let! ok := lift (λ w, (readable (Path (c_Storage cfg)) w, w)) in
                          match ok with
                          | Err err => sret (Err (wrap "restore: migrate: " (wrap "storage: read version: " err)))
                          | Ok _ =>
                              let! r := Migrate in
                              match r with
                              | Err err => sret (Err (wrap "restore: migrate: " err))
                              | Ok _ => lift (restore_blobs (c_Storage cfg) bs)
                              end
                          end
                      end
                  end
              end
          end
      end
  end.

Definition Restore (cfgPath backupPath : string) : migrating (res unit) :=
  match load cfgPath with
  | Err err => sret (Err (wrap "restore: load config: " err))
  | Ok cfg =>
      let! r := lift (os_ReadFile backupPath) in
      match r with
      | Err err => sret (Err (wrap "restore: open backup: " err))
      | Ok archive => restore_from cfg archive
      end
  end.
End backup.
