(* ===== verification/BackupSpec.v ===== *)
(** The round trip of backup and restore (src/pkg/marco/backup.go): what an archive
    holds, how it is read back, and what restoring it gives: the database the main
    file alone holds, which is all of it once the write-ahead log is checkpointed. *)
From S2P Require Import Prelude GoLib Cache Sql Schema World StoreUsers StoreMail Migrations StoreQueue Blob Worker Smtp Config Backup.

(** * Running without failures *)
Lemma faulty_run w : w_faults w = [] → faulty w = (false, w).
Proof. intros Hf. unfold faulty. by rewrite Hf. Qed.

Lemma addFileToTar_run name path d w :
  w_faults w = [] → w_files w !! path = Some d → addFileToTar name path w = (Ok (name, d), w).
Proof.
  intros Hf Hp. unfold addFileToTar, os_Stat, os_ReadFile, sbind. rewrite os_call_run, Hp by done. cbn [fst snd].
  rewrite set_files_same, os_call_run, Hp by done. cbn [fst snd]. rewrite set_files_same.
  unfold tw_write, sbind. by rewrite faulty_run.
Qed.

Lemma write_all_run {A} (add : A → state World (res tar_entry)) (f : A → tar_entry) l w :
  (∀ x, x ∈ l → add x w = (Ok (f x), w)) → write_all add l w = ((f <$> l, None), w).
Proof.
  induction l as [|x l IH]; intros Hadd; [done|]. cbn [write_all]. unfold sbind. rewrite Hadd by left.
  rewrite IH by (intros y Hy; apply Hadd; by right). done.
Qed.

Section run.
Context `{MR : MapRange} `{AR : Archive} `{DF : DBFile} (digest : string → string).

Definition blob_entry (b : string * string) : tar_entry := ("blobs/" +:+ b.1, b.2).

(** The blobs a backup holds: key and content. *)
Definition stored_blobs (cfg : StorageConfig) (w : World) : list (string * string) :=
  if String.eqb (BlobBackend cfg) "sqlite" then (λ b, (blob_key b, blob_data b)) <$> rows (blobs (w_db w))
  else if String.eqb (BlobBackend cfg) "filesystem" then
    (λ x, (Base x.1, x.2)) <$> range_order (filter (λ x, under (BlobPath cfg) x.1) (w_files w))
  else [].

Lemma elem_of_range_order {A} (m : gmap string A) k x : (k, x) ∈ range_order m ↔ m !! k = Some x.
Proof using. rewrite range_order_perm. apply elem_of_map_to_list. Qed.

Lemma backup_blobs_run cfg w :
  w_faults w = [] → backup_blobs cfg w = ((blob_entry <$> stored_blobs cfg w, None), w).
Proof using.
  intros Hf. unfold backup_blobs, stored_blobs. destruct (String.eqb _ "sqlite").
  - unfold sbind, backupSQLiteBlobs. unfold sbind. rewrite query_run by done.
    erewrite (write_all_run _ blob_entry); [done|]. intros b _. unfold tw_write, sbind. by rewrite faulty_run.
  - destruct (String.eqb _ "filesystem"); [|done]. unfold backupFSBlobs, walk, sbind.
    set (l := range_order _). assert (∀ x, x ∈ l → w_files w !! x.1 = Some x.2) as Hl.
    { intros [p d] Hx. by apply elem_of_range_order, map_lookup_filter_Some in Hx as [Hx _]. }
    clearbody l.
    assert (write_all (λ path, addFileToTar ("blobs/" +:+ Base path) path) (fst <$> l) w =
            ((blob_entry <$> ((λ x, (Base x.1, x.2)) <$> l), None), w)) as ->; [|done].
    induction l as [|[p d] l IH]; [done|]. rewrite !fmap_cons. cbn [write_all fst]. unfold sbind.
    rewrite (addFileToTar_run _ _ d); [|done|exact (Hl (p, d) ltac:(left))].
    rewrite IH by (intros x Hx; apply Hl; by right). done.
Qed.

(** The archive of a world. *)
Definition archive_of (cfg : StorageConfig) (main : string) (w : World) : string :=
  tar_gz (("marco.db", main) :: (blob_entry <$> stored_blobs cfg w)).

Lemma Open_run o p w c : w_faults w = [] → is_ok (o (p +:+ "?_journal_mode=WAL&_synchronous=NORMAL")) = true →
  Open o p (w, c) = (Ok tt, (w, c)).
Proof using.
  intros Hf Ho. assert (sql (λ d c, (Ok tt, (d, c))) (w, c) = (Ok tt, (w, c))) as E.
  { unfold sql. rewrite Hf. destruct w; cbn in *; by subst. }
  unfold Open. destruct (o _); [|done]. unfold sbind. by rewrite !E.
Qed.

Lemma Backup_run load o cfgPath out cfg main w c :
  w_faults w = [] → load cfgPath = Ok cfg → is_ok (o (Path (c_Storage cfg) +:+ "?_journal_mode=WAL&_synchronous=NORMAL")) = true →
  ¬ under (BlobPath (c_Storage cfg)) out → out ≠ Path (c_Storage cfg) → w_files w !! Path (c_Storage cfg) = Some main →
  Backup load o cfgPath out (w, c) =
    (Ok tt, (set_files (<[out := archive_of (c_Storage cfg) main w]> (w_files w)) w, c)).
Proof using.
  intros Hf Hl Ho Hout Hne Hmain. unfold Backup. rewrite Hl. unfold sbind at 1. rewrite Open_run by done.
  unfold sbind at 1, lift at 1, create_missing, smodify. cbn [fst snd]. rewrite decide_True by (by rewrite Hmain).
  set (w1 := set_files (<[out := ""]> (w_files w)) w).
  assert (stored_blobs (c_Storage cfg) w1 = stored_blobs (c_Storage cfg) w) as Hs.
  { unfold stored_blobs. cbn [w1 set_files w_db w_files]. destruct (String.eqb _ _); [done|]. destruct (String.eqb _ _); [|done].
    do 2 f_equal. by apply map_filter_insert_not. }
  unfold sbind at 1, lift at 1, os_WriteFile. rewrite os_call_run by done. cbn [fst snd]. fold w1.
  unfold sbind at 1, lift at 1. cbn [fst snd].
  rewrite (addFileToTar_run _ _ main); [|done|cbn [w1 set_files w_files]; by rewrite lookup_insert_ne]. cbn [fst snd].
  unfold sbind at 1, lift at 1. cbn [fst snd]. rewrite backup_blobs_run by done. cbn [fst snd]. rewrite Hs.
  unfold sbind at 1, lift, close_archive, os_WriteFile, sbind. cbn [fst snd]. rewrite os_call_run by done. cbn [fst snd sret w1 set_files w_files].
  rewrite insert_insert_eq. done.
Qed.
End run.

(** * Reading an archive back *)
Section restore.
Context `{MR : MapRange} `{AR : Archive} `{DF : DBFile} (digest : string → string).

Definition insert_blob (m : gmap string string) (b : string * string) : gmap string string := <[b.1 := b.2]> m.

Lemma read_blob_entries l db m :
  (∀ b, b ∈ l → b.1 = digest b.2 ∧ b.1 ≠ "") →
  read_entries digest (blob_entry <$> l) db m = Ok (db, foldl insert_blob m l).
Proof.
  revert m. induction l as [|[k d] l IH]; intros m Hl; [done|]. rewrite fmap_cons. cbn [read_entries blob_entry fst snd].
  destruct (Hl (k, d) ltac:(left)) as [Hk Hne]. cbn [fst snd] in Hk, Hne.
  assert (String.eqb ("blobs/" +:+ k) "marco.db" = false) as -> by done.
  assert (6 <? slen ("blobs/" +:+ k) = true) as ->.
  { apply Z.ltb_lt. unfold slen. rewrite string_length_app. change (String.length "blobs/") with 6%nat.
    destruct k; [done|]. cbn [String.length]. lia. }
  change (stake 6 ("blobs/" +:+ k)) with "blobs/". change (sdrop 6 ("blobs/" +:+ k)) with k.
  rewrite <- Hk. rewrite !String.eqb_refl. cbn [andb negb]. apply IH. intros b Hb. apply Hl. by right.
Qed.

(** The map of blobs read from entries with different keys. *)
Lemma insert_blobs_lookup l m k d :
  NoDup l.*1 → foldl insert_blob m l !! k = Some d ↔ (k, d) ∈ l ∨ k ∉ l.*1 ∧ m !! k = Some d.
Proof.
  revert m. induction l as [|[k0 d0] l IH]; intros m; [set_solver|]. rewrite fmap_cons, NoDup_cons. cbn [fst].
  intros [Hk Hn]. cbn [foldl]. rewrite IH by done. unfold insert_blob at 1. cbn [fst snd].
  destruct (decide (k = k0)) as [->|Hne].
  - rewrite lookup_insert_eq, elem_of_cons, not_elem_of_cons. split.
    + intros [Hin|[_ [= ->]]]; [|left; by left]. destruct Hk. by apply (list_elem_of_fmap_2 fst) in Hin.
    + intros [[[= ->]|Hin]|[[? _] _]]; [by right| |done]. destruct Hk. by apply (list_elem_of_fmap_2 fst) in Hin.
  - rewrite lookup_insert_ne by done. rewrite elem_of_cons, not_elem_of_cons. naive_solver.
Qed.

(** ** Into SQLite *)
(** The blobs table after a restore: what was there, and a row for every other blob
    of the archive. *)
Definition blobs_restored (m : list (string * string)) (t0 t : table BlobRow) : Prop :=
  (∀ x, x ∈ rows t0 → x ∈ rows t) ∧
  (∀ y, y ∈ rows t → y ∈ rows t0 ∨ (blob_key y, blob_data y) ∈ m) ∧
  (∀ b, b ∈ m → b.1 ∈ blob_key <$> rows t) ∧
  ((∀ b, b ∈ m → b.1 ∈ blob_key <$> rows t0) → t = t0).

Lemma sql_restore_blob_run b now db :
  ∃ t, sql_restore_blob b.1 b.2 now db = (Ok tt, set_blobs t db) ∧ blobs_restored [b] (blobs db) t.
Proof using.
  unfold sql_restore_blob, blobs_restored. setoid_rewrite list_elem_of_singleton. destruct (decide _) as [Hin|Hin].
  - exists (blobs db). split; [by destruct db|]. split_and!; [done|by left|by intros ? ->|done].
  - eexists. split; [done|]. split_and!.
    + intros x Hx. apply elem_of_insert. by left.
    + intros y [Hy| ->]%elem_of_insert; [by left|right]. by destruct b.
    + intros ? ->. apply list_elem_of_fmap. eexists. split; [|apply elem_of_insert; by right]. done.
    + intros H. by destruct Hin; apply H.
Qed.

Lemma blobs_restored_cons b l t0 t1 t :
  blobs_restored [b] t0 t1 → blobs_restored l t1 t → blobs_restored (b :: l) t0 t.
Proof using.
  unfold blobs_restored. setoid_rewrite elem_of_cons. setoid_rewrite elem_of_nil.
  intros (A1 & B1 & C1 & D1) (A2 & B2 & C2 & D2). split_and!.
  - auto.
  - intros y Hy. destruct (B2 y Hy) as [H|H]; [|by right; right]. destruct (B1 y H) as [|[|[]]]; auto.
  - intros x [->|Hx]; [|auto]. pose proof (C1 b ltac:(by left)) as (y & -> & Hy)%list_elem_of_fmap.
    apply list_elem_of_fmap. exists y. auto.
  - intros H. assert (t1 = t0) as ->; [|apply D2; intros x Hx; apply H; by right].
    apply D1. intros x [->|[]]. apply H. by left.
Qed.

Lemma restoreSQLite_run m w :
  w_faults w = [] →
  ∃ t, restoreSQLiteBlobs m w = (Ok tt, set_db (set_blobs t (w_db w)) w) ∧ blobs_restored (range_order m) (blobs (w_db w)) t.
Proof.
  intros Hf. unfold restoreSQLiteBlobs, sbind at 1. set (l := range_order m). clearbody l. set (body := λ b : string * string, _).
  assert (∃ t, sfor l body w = (None, set_db (set_blobs t (w_db w)) w) ∧ blobs_restored l (blobs (w_db w)) t) as (t & -> & H); [|by exists t].
  revert w Hf. induction l as [|b l IH]; intros w Hf.
  - exists (blobs (w_db w)). split; [cbn; by destruct w as [[] ? ? ? ? ? ? ? ?]|].
    split_and!; [done|by left| |done]. by intros b ?%elem_of_nil.
  - cbn [sfor]. unfold sbind at 1, body at 1. unfold sbind at 1, time_now_unix.
    destruct (sql_restore_blob_run b (w_now w / second) (w_db w)) as (t1 & E & H1).
    unfold sbind at 1. rewrite stmt_ok_run, E by done. cbn [fst snd sret].
    destruct (IH (set_db (set_blobs t1 (w_db w)) w) Hf) as (t & E2 & H2). exists t. split; [exact E2|].
    by eapply blobs_restored_cons.
Qed.

(** ** Into the file system *)
Definition no_slash (s : string) : Prop := net.LastIndexByte s "/" = None.

Lemma LastIndexByte_app p k : no_slash k → net.LastIndexByte (p +:+ "/" +:+ k) "/" = Some (String.length p).
Proof.
  intros Hk. induction p as [|c p IH].
  - change (match net.LastIndexByte k "/" with Some i => Some (Datatypes.S i) | None => Some 0%nat end = Some 0%nat).
    unfold no_slash in Hk. by rewrite Hk.
  - change (match net.LastIndexByte (p +:+ "/" +:+ k) "/" with
            | Some i => Some (Datatypes.S i) | None => if Ascii.eqb c "/" then Some 0%nat else None end =
            Some (Datatypes.S (String.length p))). by rewrite IH.
Qed.

Lemma Base_blob_path root k : no_slash k → Base (blob_path root k) = k.
Proof.
  intros Hk. unfold Base, blob_path. rewrite LastIndexByte_app by done.
  change (Datatypes.S (String.length (shard root k))) with (1 + String.length (shard root k))%nat.
  rewrite Nat.add_comm. generalize (shard root k) as p. induction p as [|c p IH]; [done|exact IH].
Qed.

Lemma blob_path_under root k : under root (blob_path root k).
Proof.
  unfold under, blob_path, shard. rewrite <- !string_app_assoc, (string_app_assoc root "/"). apply HasPrefix_app.
Qed.

Definition insert_file (root : string) (f : gmap string string) (b : string * string) : gmap string string :=
  <[blob_path root b.1 := b.2]> f.

Lemma restoreFS_run root m w :
  w_faults w = [] → (∀ k d, m !! k = Some d → 4 ≤ slen k) →
  restoreFSBlobs root m w = (Ok tt, set_files (foldl (insert_file root) (w_files w) (range_order m)) w).
Proof.
  intros Hf Hm. unfold restoreFSBlobs, sbind at 1.
  assert (∀ b, b ∈ range_order m → 4 ≤ slen b.1) as Hl.
  { intros [k d] Hb. apply elem_of_range_order in Hb. by eapply Hm. }
  set (l := range_order m) in *. clearbody l. clear Hm. set (body := λ b : string * string, _).
  assert (sfor l body w = (None, set_files (foldl (insert_file root) (w_files w) l) w)) as ->; [|done].
  revert w Hf. induction l as [|b l IH]; intros w Hf; [by destruct w|]. cbn [sfor]. unfold sbind at 1, body at 1.
  destruct (Z.ltb_spec (slen b.1) 4) as [Hlt|_]; [specialize (Hl b ltac:(left)); lia|].
  unfold os_MkdirAll, os_WriteFile, sbind at 1. rewrite os_call_run by done. cbn [fst snd]. rewrite set_files_same.
  unfold sbind at 1. rewrite os_call_run by done. cbn [fst snd sret]. cbn [foldl].
  rewrite IH; [done| |done]. intros x Hx. apply Hl. by right.
Qed.

Lemma insert_files_lookup root l f p :
  (∀ b, b ∈ l → no_slash b.1) → NoDup l.*1 →
  foldl (insert_file root) f l !! p =
  match List.find (λ b, String.eqb (blob_path root b.1) p) l with Some b => Some b.2 | None => f !! p end.
Proof.
  revert f. induction l as [|[k d] l IH]; intros f Hs; [done|]. rewrite fmap_cons, NoDup_cons. cbn [fst]. intros [Hk Hn].
  cbn [foldl List.find fst]. rewrite IH; [|intros b Hb; apply Hs; by right|done]. unfold insert_file. cbn [fst snd].
  destruct (String.eqb_spec (blob_path root k) p) as [<-|Hne]; [|by rewrite lookup_insert_ne].
  destruct (List.find _ l) as [b|] eqn:E; [|by rewrite lookup_insert_eq]. apply List.find_some in E as [Hin E].
  apply list_elem_of_In in Hin. apply String.eqb_eq in E. destruct Hk.
  assert (b.1 = k) as <-; [|by apply list_elem_of_fmap_2].
  rewrite <- (Base_blob_path root b.1), <- (Base_blob_path root k), E by (apply (Hs (k, d)); left) || (apply Hs; by right).
  done.
Qed.

(** Blobs under their keys, no key twice. *)
Definition keyed (bs : list (string * string)) : Prop :=
  NoDup bs.*1 ∧ ∀ b, b ∈ bs → b.1 = digest b.2 ∧ b.1 ≠ "".

Lemma read_archive bs data :
  keyed bs →
  ∃ m, read_entries digest (("marco.db", data) :: (blob_entry <$> bs)) None ∅ = Ok (Some data, m) ∧
       ∀ k d, m !! k = Some d ↔ (k, d) ∈ bs.
Proof.
  intros [Hn Hb]. exists (foldl insert_blob ∅ bs). split.
  - cbn [read_entries]. change (String.eqb "marco.db" "marco.db") with true. cbn iota. by apply read_blob_entries.
  - intros k d. rewrite insert_blobs_lookup by done. rewrite lookup_empty. naive_solver.
Qed.

Lemma range_order_keys {A} (m : gmap string A) : NoDup (range_order m).*1.
Proof. rewrite range_order_perm. apply NoDup_fst_map_to_list. Qed.

Lemma restored_file root (m f : gmap string string) p d :
  (∀ k x, m !! k = Some x → no_slash k) → under root p → (∀ q, under root q → f !! q = None) →
  foldl (insert_file root) f (range_order m) !! p = Some d ↔ ∃ k, m !! k = Some d ∧ p = blob_path root k.
Proof.
  intros Hs Hp Hf. rewrite insert_files_lookup; [|intros [k x] Hb; apply elem_of_range_order in Hb; by eapply Hs|apply range_order_keys].
  destruct (List.find _ _) as [[k x]|] eqn:E.
  - apply List.find_some in E as [Hin E]. apply list_elem_of_In, elem_of_range_order in Hin. apply String.eqb_eq in E. cbn in E.
    split; [intros [= <-]; by exists k|]. intros (k' & Hk' & ->). f_equal. cbn.
    assert (k = k') as ->; [|congruence]. rewrite <- (Base_blob_path root k), <- (Base_blob_path root k'), E by by eapply Hs. done.
  - rewrite Hf by done. split; [done|]. intros (k & Hk & ->). exfalso. apply elem_of_range_order in Hk.
    apply (find_none_elem _ _ _ E) in Hk. cbn in Hk. by rewrite String.eqb_refl in Hk.
Qed.
End restore.

(** * The round trip *)

(** The blobs of a world are where their content says: in SQLite under its digest,
    in the file system at its path. *)
Definition blobs_ok (digest : string → string) (cfg : StorageConfig) (w : World) : Prop :=
  if String.eqb (BlobBackend cfg) "sqlite" then ∀ b, b ∈ rows (blobs (w_db w)) → blob_key b = digest (blob_data b)
  else if String.eqb (BlobBackend cfg) "filesystem"
  then ∀ p d, under (BlobPath cfg) p → w_files w !! p = Some d → p = blob_path (BlobPath cfg) (digest d)
  else True.

Section roundtrip.
Context `{MR : MapRange} `{AR : Archive} `{DF : DBFile} (digest : string → string).
(** SHA-256 in hexadecimal: 64 digits. *)
Context (Hlen : ∀ d, 4 ≤ slen (digest d)) (Hslash : ∀ d, no_slash (digest d)).

Lemma digest_nonempty d : digest d ≠ "".
Proof using Hlen. intros E. specialize (Hlen d). rewrite E in Hlen. unfold slen in Hlen. cbn in Hlen. lia. Qed.

Lemma stored_blobs_keyed cfg w : wf w → blobs_ok digest cfg w → keyed digest (stored_blobs cfg w).
Proof using Hlen Hslash.
  intros Hw. unfold blobs_ok, stored_blobs, keyed. destruct (String.eqb _ "sqlite").
  - intros Hb. split.
    + rewrite <- list_fmap_compose. exact (wf_blobs _ Hw).
    + intros b (r & -> & Hr)%list_elem_of_fmap. cbn. rewrite (Hb r Hr). split; [done|apply digest_nonempty].
  - destruct (String.eqb _ "filesystem").
    + intros Hb. set (l := range_order _). assert (∀ x, x ∈ l → w_files w !! x.1 = Some x.2) as Hm.
      { intros [p d] Hx. by apply elem_of_range_order, map_lookup_filter_Some in Hx as [Hx _]. }
      assert (∀ x, x ∈ l → x.1 = blob_path (BlobPath cfg) (digest x.2)) as Hl.
      { intros [p d] Hx. apply elem_of_range_order, map_lookup_filter_Some in Hx as [Hx Hu]. by apply Hb. }
      assert (NoDup l.*1) as Hn by apply range_order_keys. clearbody l. split.
      * rewrite <- list_fmap_compose. apply NoDup_fmap_2_strong; [|by apply (NoDup_fmap_1 fst)].
        intros [p d] [p' d'] Hx Hy. cbn [compose fst]. pose proof (Hl _ Hx) as E. pose proof (Hl _ Hy) as E'. cbn in E, E'. subst p p'.
        rewrite !Base_blob_path by apply Hslash. intros E. apply Hm in Hx, Hy. cbn in Hx, Hy. rewrite E in Hx. congruence.
      * intros b ([p d] & -> & Hx)%list_elem_of_fmap. cbn. pose proof (Hl _ Hx) as E. cbn in E. subst p.
        rewrite Base_blob_path by apply Hslash. split; [done|apply digest_nonempty].
    + intros _. split; [constructor|]. intros b Hb. by apply elem_of_nil in Hb.
Qed.

(** Where the files below the root come from. *)
Lemma stored_files cfg w p d :
  BlobBackend cfg = "filesystem" → blobs_ok digest cfg w → under (BlobPath cfg) p →
  (∃ k, (k, d) ∈ stored_blobs cfg w ∧ p = blob_path (BlobPath cfg) k) ↔ w_files w !! p = Some d.
Proof using Hslash.
  intros Hfs Hb Hp. unfold blobs_ok, stored_blobs in *. rewrite Hfs in *. cbn in Hb |- *. split.
  - intros (k & ([q x] & [= -> ->] & Hin)%list_elem_of_fmap & ->).
    apply elem_of_range_order, map_lookup_filter_Some in Hin as [Hin Hu]. cbn in Hu |- *.
    pose proof (Hb q x Hu Hin) as ->. by rewrite Base_blob_path.
  - intros Hl. pose proof (Hb p d Hp Hl) as ->. exists (digest d). split; [|done]. apply list_elem_of_fmap.
    eexists (_, d). cbn. rewrite Base_blob_path by done. split; [done|]. by apply elem_of_range_order, map_lookup_filter_Some.
Qed.

Context (load : string → res Config) (sql_Open : string → res unit).

Lemma wal_path_ne p : wal_path p ≠ p.
Proof using. intros E%(f_equal String.length). unfold wal_path in E. rewrite string_length_app in E. cbn in E. lia. Qed.

Lemma restore_run cfg bs main d0 w2 c2 :
  w_faults w2 = [] → w_files w2 !! wal_path (Path (c_Storage cfg)) = None → db_open main "" = Ok (d0, schema_at 7) →
  is_ok (sql_Open (Path (c_Storage cfg) +:+ "?_journal_mode=WAL&_synchronous=NORMAL")) = true → keyed digest bs →
  ∃ m, (∀ k d, m !! k = Some d ↔ (k, d) ∈ bs) ∧
    restore_from digest sql_Open cfg (tar_gz (("marco.db", main) :: (blob_entry <$> bs))) (w2, c2) =
    lift (restore_blobs (c_Storage cfg) m) (set_db d0 (set_files (<[Path (c_Storage cfg) := main]> (w_files w2)) w2), schema_at 7).
Proof using.
  intros Hf Hwal Hd Ho Hk. destruct (read_archive digest bs main Hk) as (m & Hr & Hm). exists m. split; [exact Hm|].
  set (path := Path (c_Storage cfg)) in *. set (w3 := set_files (<[path := main]> (w_files w2)) w2).
  assert (w_files w3 !! path = Some main) as Hmain by apply lookup_insert_eq.
  assert (∀ d, wal_of path (set_db d w3) = "") as Ewal.
  { intros d. unfold wal_of. cbn [w3 set_db set_files w_files]. rewrite lookup_insert_ne, Hwal; [done|]. intros E. by apply (wal_path_ne path). }
  unfold restore_from. rewrite untar_tar, Hr. unfold sbind at 1, write_db. unfold sbind at 1, lift at 1, os_WriteFile.
  cbn [fst snd]. rewrite os_call_run by done. cbn [fst snd]. pose proof (Ewal (w_db w3)) as Ew. rewrite set_db_same in Ew.
  fold path. fold w3. rewrite Ew, Hd. unfold sbind at 1. rewrite Open_run by done. unfold sbind at 1, lift at 1. cbn [fst snd].
  unfold readable. rewrite Ewal. change (w_files (set_db d0 w3)) with (w_files w3). rewrite Hmain. change (default "" (Some main)) with main. rewrite Hd.
  unfold sbind. destruct (Migrate_run (set_db d0 w3) (schema_at 7) Hf) as (E1 & E2 & E3).
  rewrite (version_of 7) in E1, E2, E3 by lia. change 7 with (Z.of_nat 7) in E1, E2, E3. rewrite migrate_from in E1, E2, E3 by lia.
  destruct (Migrate (set_db d0 w3, schema_at 7)) as [r [w4 c4]]. cbn [fst snd] in *. subst r c4. rewrite (E3 eq_refl). reflexivity.
Qed.
End roundtrip.

(** C20.  What a restored backup holds.  Let [cfg] be the configuration on both sides,
    with a database and blobs that are where their content says ([blobs_ok]) and
    with the main file of the database and the archive outside the blob root; let nothing fail on
    either side, and let the target have no write-ahead log and an empty
    blob root.  Suppose SQLite finds a database at version 7, [d0], in
    the main file alone.  Then [Backup] and [Restore] succeed and the restored
    database is [d0] with a row for every blob the source had in its table (the
    filesystem store: exactly [d0], and the same files below the blob root), for
    every order in which files are visited and blobs restored.  So the
    round trip is exact if the write-ahead log of the source was empty, that is
    checkpointed: then the restored database is the source's.  What is committed in
    the log only is not in the archive ([backup_loses_wal]). *)
Theorem backup_restore_roundtrip `{MR : MapRange} `{AR : Archive} `{DF : DBFile} (digest : string → string)
    (load : string → res Config) (sql_Open : string → res unit) (cfgPath out : string) (cfg : Config)
    (main : string) (d0 : DB) (w w2 : World) (c2 : Catalog) :
  (∀ d, 4 ≤ slen (digest d)) → (∀ d, no_slash (digest d)) →
  load cfgPath = Ok cfg → (∀ p, is_ok (sql_Open p) = true) →
  let st := c_Storage cfg in
  wf w → w_faults w = [] → blobs_ok digest st w →
  ¬ under (BlobPath st) out → ¬ under (BlobPath st) (Path st) → out ≠ Path st →
  w_files w !! Path st = Some main → db_open main (wal_of (Path st) w) = Ok (w_db w, schema_at 7) →
  db_open main "" = Ok (d0, schema_at 7) →
  let b := Backup load sql_Open cfgPath out (w, schema_at 7) in
  w_faults w2 = [] → w_files w2 !! out = w_files b.2.1 !! out → w_files w2 !! wal_path (Path st) = None →
  (∀ p, under (BlobPath st) p → w_files w2 !! p = None) →
  let r := Restore digest load sql_Open cfgPath out (w2, c2) in
  b.1 = Ok tt ∧ w_db b.2.1 = w_db w ∧ r.1 = Ok tt ∧ r.2.2 = schema_at 7 ∧
  (wal_of (Path st) w = "" → w_db r.2.1 = w_db w) ∧
  (BlobBackend st ≠ "sqlite" → w_db r.2.1 = d0) ∧
  (BlobBackend st = "sqlite" → ∃ t, w_db r.2.1 = set_blobs t d0 ∧
     (∀ y, y ∈ rows (blobs d0) → y ∈ rows t) ∧
     (∀ x, x ∈ rows (blobs (w_db w)) → blob_key x ∈ blob_key <$> rows t) ∧
     (∀ y, y ∈ rows t → y ∈ rows (blobs d0) ∨
        ∃ x, x ∈ rows (blobs (w_db w)) ∧ blob_key x = blob_key y ∧ blob_data x = blob_data y)) ∧
  (BlobBackend st = "filesystem" → ∀ p, under (BlobPath st) p → w_files r.2.1 !! p = w_files w !! p).
Proof.
  intros Hlen Hslash Hl Ho st Hw Hf Hb Hout Hpath Hne Hmain Hdisk Hd b Hf2 Hcopy Hwal Hempty r.
  pose proof (Backup_run load sql_Open cfgPath out cfg main w (schema_at 7) Hf Hl (Ho _) Hout Hne Hmain) as Eb.
  unfold b in *. rewrite Eb in *. cbn [fst snd w_files set_files] in *. split; [done|]. split; [done|].
  rewrite lookup_insert_eq in Hcopy. clear b Eb.
  pose proof (stored_blobs_keyed digest Hlen Hslash st w Hw Hb) as Hk.
  destruct (restore_run digest sql_Open cfg _ main d0 w2 c2 Hf2 Hwal Hd (Ho _) Hk) as (m & Hm & Er).
  set (w3 := set_db d0 (set_files (<[Path st := main]> (w_files w2)) w2)).
  assert (r = lift (restore_blobs st m) (w3, schema_at 7)) as ->.
  { unfold r, Restore. rewrite Hl. unfold sbind, lift at 1, os_ReadFile. cbn [fst snd]. rewrite os_call_run, Hcopy by done.
    cbn [fst snd]. rewrite set_files_same. exact Er. }
  assert (w_faults w3 = []) as Hf3 by exact Hf2.
  assert (wal_of (Path st) w = "" → w_db w = d0) as Hsame by (intros Ew; rewrite Ew in Hdisk; congruence).
  unfold lift, restore_blobs. cbn [fst snd]. destruct (String.eqb_spec (BlobBackend st) "sqlite") as [Es|Es].
  - assert (∀ k d, m !! k = Some d ↔ ∃ x, x ∈ rows (blobs (w_db w)) ∧ blob_key x = k ∧ blob_data x = d) as Hm'.
    { intros k d. rewrite Hm. unfold stored_blobs. rewrite Es. cbn. rewrite list_elem_of_fmap. naive_solver. }
    unfold sbind. destruct (restoreSQLite_run m w3 Hf3) as (t & -> & A & B & C & D). cbn [fst snd sret].
    split_and!; [done|done| |done| |by rewrite Es].
    + intros Ew. cbn. rewrite D; [by rewrite Hsame; destruct d0|]. intros [k x] Hin%elem_of_range_order.
      apply Hm' in Hin as (y & Hy & <- & _). cbn. rewrite <- Hsame by done. by apply list_elem_of_fmap_2.
    + intros _. exists t. split_and!; [done|exact A| |].
      * intros x Hx. apply (C (blob_key x, blob_data x)), elem_of_range_order, Hm'. by exists x.
      * intros y Hy. destruct (B y Hy) as [H|H]; [by left|right]. by apply elem_of_range_order, Hm' in H.
  - destruct (String.eqb_spec (BlobBackend st) "filesystem") as [Efs|Efs];
      [|split_and!; [done|done|intros Ew; by rewrite Hsame|done|done|done]].
    assert (∀ k d, m !! k = Some d → ∃ x, k = digest x) as Hkey.
    { intros k d Hkd%Hm. apply Hk in Hkd as [Ek _]. by exists d. }
    rewrite restoreFS_run; [|done|intros k d Hkd; destruct (Hkey k d Hkd) as [x ->]; apply Hlen].
    split_and!; [done|done|intros Ew; by rewrite Hsame|done|done|].
    intros _ p Hp. cbn [fst snd w_files set_files]. apply option_eq. intros d.
    rewrite restored_file; [|intros k x Hkx; destruct (Hkey k x Hkx) as [y ->]; apply Hslash|done|].
    + rewrite <- (stored_files digest Hslash st w p d Efs Hb Hp). by setoid_rewrite Hm.
    + intros q Hq. cbn [w3 w_files set_db set_files]. rewrite lookup_insert_ne; [by apply Hempty|]. by intros <-.
Qed.

(** ** An example *)
Fixpoint bits (p : positive) : string :=
  match p with xH => "" | xO p => String "0" (bits p) | xI p => String "1" (bits p) end.
Fixpoint unbits (s : string) : positive :=
  match s with EmptyString => xH | String c s => if Ascii.eqb c "0" then xO (unbits s) else xI (unbits s) end.
Lemma unbits_bits p : unbits (bits p) = p.
Proof. induction p as [p IH|p IH|]; cbn; by rewrite ?IH. Qed.

Definition toy_untar (s : string) : res (list tar_entry * option error) :=
  match decode (unbits s) with Some l => Ok (l, None) | None => Err (ErrorNew "gzip: invalid header") end.
Lemma toy_untar_tar l : toy_untar (bits (encode l)) = Ok (l, None).
Proof. unfold toy_untar. by rewrite unbits_bits, decode_encode. Qed.
#[local] Instance toy_archive : Archive := mkArchive (λ l, bits (encode l)) toy_untar toy_untar_tar.
(** Two database files in one, with and without the mail of [demo_db]. *)
Definition no_mail_db : DB := set_messages empty_table demo_db.
#[local] Instance toy_dbfile : DBFile :=
  mkDBFile (λ main wal, Ok (if String.eqb (main +:+ wal) "SQLite format 3" then no_mail_db else demo_db, schema_at 7)).

(** Four digits that tell "hello" from other contents. *)
Definition toy_sha (s : string) : string := if String.eqb s "hello" then "abcd" else "0000".
Definition backed_up (main wal : string) : World :=
  set_files (<["/var/lib/marco/blobs/ab/cd/abcd" := "hello"]> (<["/var/lib/marco/marco.db" := main]>
    (if String.eqb wal "" then ∅ else {["/var/lib/marco/marco.db-wal" := wal]}))) demo_world.
Definition toy_load (_ : string) : res Config := Ok (defaultConfig (Ok "mx")).

(** A new machine with nothing but the archive. *)
Definition archive_only (w : World) : World :=
  set_files (match w_files w !! "/tmp/backup" with Some a => {["/tmp/backup" := a]} | None => ∅ end) (init_world 0).
Definition toy_backup (w : World) := Backup toy_load (λ _, Ok tt) "" "/tmp/backup" (w, schema_at 7).
Definition toy_restore (w : World) :=
  Restore toy_sha toy_load (λ _, Ok tt) "" "/tmp/backup" (archive_only (toy_backup w).2.1, empty_catalog).

Lemma archive_only_file w p : p ≠ "/tmp/backup" → w_files (archive_only w) !! p = None.
Proof. intros Hp. unfold archive_only. cbn [w_files set_files]. destruct (w_files w !! _); [by apply lookup_singleton_ne|done]. Qed.

Lemma backup_restore_roundtrip_witness :
  let r := toy_restore (backed_up "SQLite format 3 with mail" "") in
  r.1 = Ok tt ∧ w_db r.2.1 = demo_db ∧ w_files r.2.1 !! "/var/lib/marco/blobs/ab/cd/abcd" = Some "hello".
Proof.
  intros r. set (w := backed_up "SQLite format 3 with mail" "").
  destruct (backup_restore_roundtrip toy_sha toy_load (λ _, Ok tt) "" "/tmp/backup" (defaultConfig (Ok "mx"))
    "SQLite format 3 with mail" demo_db w (archive_only (toy_backup w).2.1) empty_catalog) as (_ & _ & H1 & _ & H2 & _ & _ & H3).
  - intros d. unfold toy_sha. by destruct (String.eqb d "hello").
  - intros d. unfold toy_sha. by destruct (String.eqb d "hello").
  - reflexivity.
  - reflexivity.
  - exact demo_wf.
  - reflexivity.
  - intros p d Hp. unfold w, backed_up. cbn [w_files set_files String.eqb]. rewrite !lookup_insert_Some, lookup_empty.
    intros [[<- <-]|[_ [[<- <-]|[_ [=]]]]]; [vm_compute; reflexivity|]. vm_compute in Hp. discriminate.
  - intros E. vm_compute in E. discriminate.
  - intros E. vm_compute in E. discriminate.
  - discriminate.
  - reflexivity.
  - reflexivity.
  - reflexivity.
  - reflexivity.
  - vm_compute. reflexivity.
  - by apply archive_only_file.
  - intros p Hp. apply archive_only_file. intros ->. vm_compute in Hp. discriminate.
  - split; [exact H1|]. split; [by apply H2|]. etransitivity; [apply H3; reflexivity|]. vm_compute. reflexivity.
Defined.

(** The mail of a running server that is still in the write-ahead log: the backup
    reports success, the restored database has none of it. *)
Lemma backup_loses_wal :
  let w := backed_up "SQLite format 3" " with mail" in
  db_open "SQLite format 3" (wal_of "/var/lib/marco/marco.db" w) = Ok (w_db w, schema_at 7) ∧
  length (rows (messages (w_db w))) = 3%nat ∧ (toy_backup w).1 = Ok tt ∧ (toy_restore w).1 = Ok tt ∧
  rows (messages (w_db (toy_restore w).2.1)) = [].
Proof. split; [reflexivity|]. split_and!; vm_compute; reflexivity. Qed.
