(* ===== verification/HealthCheck.v ===== *)
(** The audit (src/pkg/marco/audit.go, [audit] of src/cmd/marco/main.go).
    DNS, file metadata, the DMARC parser and the formatting of durations and
    address errors are arguments; the database checks read the process's
    database and its catalogue. *)
From S2P Require Import Prelude GoLib Cache Sql Schema World StoreUsers StoreMail Migrations StoreQueue Blob Worker Dmarc Smtp Config Report Startup.

Inductive status := PASS | FAIL | WARN.
#[export] Instance status_eq_dec : EqDecision status.
Proof. solve_decision. Defined.
Record AuditResult := mkResult { Check_ : string; Status : status; Message_ : string }.

(** What the audit asks its surroundings. *)
Record Surroundings := mkSurroundings {
  file_info : string → res (Z * bool);            (* os.Stat: size, is a directory *)
  host_addrs : string → res (list string);        (* LookupHost *)
  mx_records : string → res (list (string * Z));  (* LookupMX: host, preference *)
  ptr_names : string → res (list string);         (* LookupAddr *)
  txt_records : string → res (list string);       (* LookupTXT *)
  dmarc_Parse : string → res DmarcRecord;
  Duration_String : Z → string;
  address_error : string → string;                (* of net.SplitHostPort *)
}.

(** * Configuration *)
Section config.
Context (env : Surroundings).

Definition db_path_check (path : string) : AuditResult :=
  if String.eqb path "" then mkResult "db-path" FAIL "Database path is not set" else
  match file_info env path with
  | Ok (size, _) =>
      if size =? 0 then mkResult "db-path" WARN ("Database file exists but is empty: " +:+ path)
      else mkResult "db-path" PASS (path +:+ " (" +:+ strconv.Itoa size +:+ " bytes)")
  | Err err =>
      if os_IsNotExist err then mkResult "db-path" WARN "Database file does not exist yet (will be created on first run)"
      else mkResult "db-path" FAIL ("Cannot stat: " +:+ error_text err)
  end.

Definition blob_path_check (st : StorageConfig) : AuditResult :=
  if String.eqb (BlobBackend st) "filesystem" then
    if String.eqb (BlobPath st) "" then mkResult "blob-path" FAIL "Blob path is not set" else
    match file_info env (BlobPath st) with
    | Ok (_, true) => mkResult "blob-path" PASS (BlobPath st)
    | Ok (_, false) => mkResult "blob-path" FAIL "Blob path is not a directory"
    | Err _ => mkResult "blob-path" WARN ("Blob path does not exist (will be created): " +:+ BlobPath st)
    end
  else mkResult "blob-backend" PASS (BlobBackend st).

Definition checkListenAddr (ipVersion name addr : string) : AuditResult :=
  if String.eqb addr "" then mkResult name WARN "Not configured" else
  match net.SplitHostPort addr, net.LastIndexByte addr ":" with
  | Some _, Some i =>
      let port := sdrop (S i) addr in
      let priv := String.eqb port "25" || String.eqb port "465" || String.eqb port "587" in
      if priv && String.eqb ipVersion "ipv4" then mkResult name WARN ("Port " +:+ port +:+ " on IPv4 may be blocked by ISP")
      else mkResult name PASS ("Listening on " +:+ addr)
  | _, _ => mkResult name FAIL ("Invalid address " +:+ quoted addr +:+ ": " +:+ address_error env addr)
  end.

(** [os.Stat] succeeds. *)
Definition exists_ (path : string) : bool := is_ok (file_info env path).

Definition dkim_checks (dk : DKIMConfig) : list AuditResult :=
  if negb (String.eqb (dkim_Domain dk) "") && negb (String.eqb (dkim_Selector dk) "") then
    [mkResult "dkim" PASS ("Domain=" +:+ dkim_Domain dk +:+ " Selector=" +:+ dkim_Selector dk);
     if negb (String.eqb (PrivateKeyPath dk) "") then
       if exists_ (PrivateKeyPath dk) then mkResult "dkim-key" PASS (PrivateKeyPath dk)
       else mkResult "dkim-key" FAIL ("Key file not found: " +:+ PrivateKeyPath dk)
     else mkResult "dkim-key" WARN "Private key path not configured"]
  else [mkResult "dkim" WARN "DKIM not configured"].

Definition file_check (name path : string) : AuditResult :=
  if exists_ path then mkResult name PASS path else mkResult name FAIL ("Not found: " +:+ path).

Definition tls_checks (cfg : Config) : list AuditResult :=
  if negb (String.eqb (CertFile (c_TLS cfg)) "") && negb (String.eqb (KeyFile (c_TLS cfg)) "") then
    [file_check "tls-cert" (CertFile (c_TLS cfg)); file_check "tls-key" (KeyFile (c_TLS cfg))]
  else if acme_Enabled (c_ACME cfg) then [mkResult "tls" PASS "Using ACME (Let's Encrypt)"]
  else [mkResult "tls" WARN "TLS not configured (insecure without encryption)"].

Definition acme_checks (a : ACMEConfig) : list AuditResult :=
  if acme_Enabled a then
    [if String.eqb (acme_Email a) "" then mkResult "acme-email" FAIL "Email required for ACME registration"
     else mkResult "acme-email" PASS (acme_Email a);
     match acme_Domains a with
     | [] => mkResult "acme-domains" WARN "No domains configured for ACME"
     | ds => mkResult "acme-domains" PASS (strings.Join ds ", ")
     end]
  else [].

Definition positive_check (name what suffix : string) (n : Z) : AuditResult :=
  if n <=? 0 then mkResult name FAIL (what +:+ " must be > 0, got " +:+ strconv.Itoa n)
  else mkResult name PASS (strconv.Itoa n +:+ suffix).

Definition auditConfig (cfg : Config) : list AuditResult :=
  [if String.eqb (c_Hostname cfg) "" then mkResult "hostname" FAIL "Hostname is not set"
   else mkResult "hostname" PASS (c_Hostname cfg);
   if String.eqb (c_IPVersion cfg) "any" then mkResult "ip-version" PASS "Dual-stack (IPv4 + IPv6)"
   else if String.eqb (c_IPVersion cfg) "ipv4" then mkResult "ip-version" PASS "IPv4 only"
   else if String.eqb (c_IPVersion cfg) "ipv6" then mkResult "ip-version" PASS "IPv6 only"
   else mkResult "ip-version" FAIL ("Invalid: " +:+ quoted (c_IPVersion cfg));
   db_path_check (Path (c_Storage cfg));
   blob_path_check (c_Storage cfg);
   checkListenAddr (c_IPVersion cfg) "smtp" (ListenAddr (c_SMTP cfg));
   checkListenAddr (c_IPVersion cfg) "smtp-submission" (SubmissionAddr (c_SMTP cfg));
   checkListenAddr (c_IPVersion cfg) "smtp-submissions" (SubmissionsAddr (c_SMTP cfg));
   checkListenAddr (c_IPVersion cfg) "imap" (imap_ListenAddr (c_IMAP cfg));
   checkListenAddr (c_IPVersion cfg) "imaps" (ImapsAddr (c_IMAP cfg));
   checkListenAddr (c_IPVersion cfg) "admin-api" (admin_ListenAddr (c_Admin cfg))] ++
  dkim_checks (c_DKIM cfg) ++ tls_checks cfg ++ acme_checks (c_ACME cfg) ++
  [positive_check "queue-workers" "Workers" " workers" (Workers (c_Queue cfg));
   positive_check "queue-retries" "MaxRetries" " max retries" (MaxRetries (c_Queue cfg));
   if auth_SessionExpiry (c_Auth cfg) <=? 0 then mkResult "session-expiry" FAIL "Session expiry must be positive"
   else mkResult "session-expiry" PASS (Duration_String env (auth_SessionExpiry (c_Auth cfg)))].

(** * DNS *)

(** [net.ParseIP(ip).To4() != nil]; an address that does not parse counts as IPv6. *)
Definition is_v4 (ip : string) : bool :=
  match net.ParseIP ip with
  | Some p => match net.To4 p with Some _ => true | None => false end
  | None => false
  end.

Definition address_check (hostname ipVersion : string) (ips : list string) : AuditResult :=
  let v4 := Z.of_nat (length (filter (λ ip, is_v4 ip = true) ips)) in
  let v6 := Z.of_nat (length (filter (λ ip, is_v4 ip = false) ips)) in
  let msg := hostname +:+ " resolves to " +:+ strconv.Itoa v4 +:+ " IPv4, " +:+ strconv.Itoa v6 +:+ " IPv6" in
  if (v4 =? 0) && (v6 =? 0) then mkResult "dns-a" FAIL msg
  else if String.eqb ipVersion "ipv6" && (v6 =? 0) then mkResult "dns-a" WARN (msg +:+ " (no AAAA record for IPv6-only mode)")
  else if String.eqb ipVersion "ipv4" && (v4 =? 0) then mkResult "dns-a" WARN (msg +:+ " (no A record for IPv4-only mode)")
  else mkResult "dns-a" PASS msg.

Definition mx_check (hostname : string) : AuditResult :=
  match mx_records env hostname with
  | Err err => mkResult "dns-mx" FAIL ("MX lookup for " +:+ hostname +:+ ": " +:+ error_text err)
  | Ok [] => mkResult "dns-mx" FAIL ("No MX records for " +:+ hostname +:+ " (mail will not be delivered)")
  | Ok mxes => mkResult "dns-mx" PASS
      (strings.Join ((λ mx, mx.1 +:+ " (priority " +:+ strconv.Itoa mx.2 +:+ ")") <$> mxes) ", ")
  end.

Definition TrimSuffix (s suffix : string) : string :=
  if strings.HasSuffix s suffix then stake (String.length s - String.length suffix) s else s.

Definition ptr_check (hostname ptrIP : string) : AuditResult :=
  match ptr_names env ptrIP with
  | Err err => mkResult "dns-ptr" WARN ("No PTR record for " +:+ ptrIP +:+ ": " +:+ error_text err)
  | Ok [] => mkResult "dns-ptr" WARN ("No PTR record for " +:+ ptrIP)
  | Ok ptrs =>
      let arrow := ptrIP +:+ " → " +:+ strings.Join ptrs ", " in
      if existsb (λ ptr, String.eqb (TrimSuffix ptr ".") hostname) ptrs then mkResult "dns-ptr" PASS arrow
      else mkResult "dns-ptr" WARN (arrow +:+ " (does not match hostname " +:+ hostname +:+ ")")
  end.

(** The first TXT record with the prefix. *)
Definition find_txt (prefix : string) (txts : list string) : option string :=
  List.find (λ t, strings.HasPrefix t prefix) txts.

Definition spf_check (hostname : string) : AuditResult :=
  match txt_records env hostname with
  | Err err => mkResult "dns-spf" FAIL ("TXT lookup for " +:+ hostname +:+ ": " +:+ error_text err)
  | Ok txts =>
      match find_txt "v=spf1" txts with
      | Some txt => mkResult "dns-spf" PASS txt
      | None => mkResult "dns-spf" WARN ("No SPF record for " +:+ hostname)
      end
  end.

Definition dkim_dns_check (dk : DKIMConfig) : list AuditResult :=
  if negb (String.eqb (dkim_Domain dk) "") && negb (String.eqb (dkim_Selector dk) "") then
    let dkimDomain := dkim_Selector dk +:+ "._domainkey." +:+ dkim_Domain dk in
    [match txt_records env dkimDomain with
     | Err err => mkResult "dns-dkim" FAIL ("DKIM lookup " +:+ dkimDomain +:+ ": " +:+ error_text err)
     | Ok txts =>
         match find_txt "v=DKIM1" txts with
         | Some _ => mkResult "dns-dkim" PASS ("DKIM record found at " +:+ dkimDomain)
         | None => mkResult "dns-dkim" FAIL ("No DKIM record at " +:+ dkimDomain +:+ " (found " +:+
                     strconv.Itoa (Z.of_nat (length txts)) +:+ " TXT records)")
         end
     end]
  else [].

Definition dmarc_check (hostname : string) : AuditResult :=
  let dmarcDomain := "_dmarc." +:+ hostname in
  match txt_records env dmarcDomain with
  | Err err => mkResult "dns-dmarc" WARN ("DMARC lookup " +:+ dmarcDomain +:+ ": " +:+ error_text err)
  | Ok txts =>
      match find_txt "v=DMARC1" txts with
      | None => mkResult "dns-dmarc" WARN ("No DMARC record at " +:+ dmarcDomain)
      | Some txt =>
          match dmarc_Parse env txt with
          | Err err => mkResult "dns-dmarc" FAIL ("Invalid DMARC record: " +:+ error_text err)
          | Ok record =>
              let pct := match dr_Percent record with Some p => strconv.Itoa p +:+ "%" | None => "<nil>" end in
              let rua := strings.Join (dr_ReportURIAggregate record) ", " in
              mkResult "dns-dmarc" PASS ("Policy=" +:+ policy_text (dr_Policy record) +:+ " pct=" +:+ pct +:+ " rua=" +:+
                (if String.eqb rua "" then "none" else rua))
          end
      end
  end.

Definition auditDNS (cfg : Config) : list AuditResult :=
  let hostname := c_Hostname cfg in
  if String.eqb hostname "" then [mkResult "dns" FAIL "Hostname not set, skipping DNS checks"] else
  let ips := match host_addrs env hostname with Ok ips => ips | Err _ => [] end in
  [match host_addrs env hostname with
   | Err err => mkResult "dns-a" FAIL ("Cannot resolve " +:+ hostname +:+ ": " +:+ error_text err)
   | Ok ips => address_check hostname (c_IPVersion cfg) ips
   end;
   mx_check hostname] ++
  match ips with ptrIP :: _ => [ptr_check hostname ptrIP] | [] => [] end ++
  [spf_check hostname] ++ dkim_dns_check (c_DKIM cfg) ++ [dmarc_check hostname].
End config.

(** * The database *)

(** A read-only query: the first table it names that does not exist is reported. *)
Definition ask {A} (names : list string) (f : DB → A) : migrating (res A) :=
  sql (λ d c, (match list_find (λ t, tables c !! t = None) names with
               | Some (_, t) => Err (no_such_table t)
               | None => Ok (f d)
               end, (d, c))).

(** [_ = db.QueryRow("SELECT COUNT( * ) ...").Scan(&n)]: an error leaves 0. *)
Definition count_check (name suffix table : string) (f : DB → nat) : migrating AuditResult :=
  let! r := ask [table] (λ d, Z.of_nat (f d)) in
  sret (mkResult name PASS (strconv.Itoa (match r with Ok n => n | Err _ => 0 end) +:+ suffix)).

Section database.
Context (sql_Open : string → res unit).

Definition auditDatabase (cfg : Config) : migrating (list AuditResult) :=
  let! r := Open sql_Open (Path (c_Storage cfg)) in
  match r with
  | Err err => sret [mkResult "db-connect" FAIL ("Cannot open database: " +:+ error_text err)]
  | Ok _ =>
      let! v := read_version in
      let version := match v with
        | Err err => mkResult "db-version" FAIL ("Cannot read schema version: " +:+ error_text err)
        | Ok n => if 0 <? n then mkResult "db-version" PASS ("Schema version " +:+ strconv.Itoa n)
                  else mkResult "db-version" WARN "Schema version 0 (database may be empty)"
        end in
      let! users := count_check "users" " users" "users" (λ d, length (rows (users d))) in
      let! domains := count_check "domains" " domains" "domains" (λ d, length (rows (domains d))) in
      let! aliases := count_check "aliases" " aliases" "aliases" (λ d, length (rows (aliases d))) in
      let! mailboxes := count_check "mailboxes" " mailboxes" "mailboxes" (λ d, length (rows (mailboxes d))) in
      let! messages := count_check "messages" " messages" "messages" (λ d, length (rows (messages d))) in
      let! pending := count_check "queue-pending" " pending" "queue"
                        (λ d, length (select (λ q, qi_Status q = "pending") (queue d))) in
      let! blobs := count_check "blobs" " blobs" "blobs" (λ d, length (rows (blobs d))) in
      sret [mkResult "db-connect" PASS "Database opened successfully"; version; users; domains; aliases; mailboxes;
            messages; pending; blobs]
  end.

(** The message has no row in the blobs table. *)
Definition blob_missing (d : DB) (m : Message) : Prop := msg_BlobKey m ∉ blob_key <$> rows (blobs d).
#[export] Instance blob_missing_dec d m : Decision (blob_missing d m).
Proof. unfold blob_missing. apply _. Defined.
Definition missing_messages (d : DB) : list Message := filter (blob_missing d) (rows (messages d)).

Definition auditBlobStore (cfg : Config) : migrating (list AuditResult) :=
  let! r := Open sql_Open (Path (c_Storage cfg)) in
  match r with
  | Err err => sret [mkResult "blob-check" FAIL ("Cannot open database for blob check: " +:+ error_text err)]
  | Ok _ =>
      let! r := ask ["messages"; "blobs"] (λ d, remove_dups (msg_BlobKey <$> missing_messages d)) in
      match r with
      | Err err => sret [mkResult "blob-orphans" FAIL ("Query failed: " +:+ error_text err)]
      | Ok keys =>
          let orphanCount := Z.of_nat (length keys) in
          sret [if 0 <? orphanCount
                then mkResult "blob-orphans" FAIL (strconv.Itoa orphanCount +:+ " orphaned blob references found")
                else mkResult "blob-orphans" PASS "No orphaned blob references"]
      end
  end.

(** The four checks share their shape: a count that should be zero. *)
Definition zero_check (name : string) (bad : status) (suffix good : string) (r : res Z) : AuditResult :=
  match r with
  | Err err => mkResult name WARN ("Cannot check: " +:+ error_text err)
  | Ok n => if 0 <? n then mkResult name bad (strconv.Itoa n +:+ suffix) else mkResult name PASS good
  end.

(** [NOT IN ('pending','complete') AND attempt_count >= 3] *)
Definition stuck_item (q : QueueItem) : Prop :=
  qi_Status q ≠ "pending" ∧ qi_Status q ≠ "complete" ∧ 3 ≤ qi_AttemptCount q.
#[export] Instance stuck_item_dec q : Decision (stuck_item q).
Proof. unfold stuck_item. apply _. Defined.

Definition auditStorageHealth (cfg : Config) : migrating (list AuditResult) :=
  let! r := Open sql_Open (Path (c_Storage cfg)) in
  match r with
  | Err err => sret [mkResult "storage-health" FAIL ("Cannot open database: " +:+ error_text err)]
  | Ok _ =>
      let! now := lift time_now_unix in
      let! expired := ask ["sessions"] (λ d, Z.of_nat (length (select (λ s, sess_expires_at s < now) (sessions d)))) in
      let! stuck_items := ask ["queue"] (λ d, Z.of_nat (length (select stuck_item (queue d)))) in
      let! missing := ask ["messages"; "blobs"] (λ d, Z.of_nat (length (missing_messages d))) in
      (* the attachments table has no rows *)
      let! orphaned := ask ["attachments"; "blobs"] (λ d, 0) in
      sret [zero_check "expired-sessions" WARN " expired sessions (consider running session cleanup)" "No expired sessions" expired;
            zero_check "stuck-queue" WARN " stuck queue items (attempted 3+ times)" "No stuck queue items" stuck_items;
            zero_check "missing-blobs" FAIL " messages reference missing blobs" "All messages have blob data" missing;
            zero_check "orphan-attachments" FAIL " orphaned attachment blobs" "No orphaned attachments" orphaned]
  end.

Definition Audit (env : Surroundings) (load : string → res Config) (cfgPath : string) : migrating (list AuditResult) :=
  match load cfgPath with
  | Err err => sret [mkResult "config-load" FAIL ("Cannot load config: " +:+ error_text err)]
  | Ok cfg =>
      let! db := auditDatabase cfg in
      let! blob := auditBlobStore cfg in
      let! health := auditStorageHealth cfg in
      sret (auditConfig env cfg ++ auditDNS env cfg ++ db ++ blob ++ health)
  end.
End database.

(** * main.go *)
Definition status_text (s : status) : string := match s with PASS => "PASS" | FAIL => "FAIL" | WARN => "WARN" end.

(** [audit]: a line per result and the totals. *)
Definition count_status (s : status) (l : list AuditResult) : Z := Z.of_nat (length (filter (λ r, Status r = s) l)).
Definition audit_output (results : list AuditResult) : list string :=
  ["Marco Mail Server - Audit"; "========================"] ++
  ((λ r, "  [" +:+ status_text (Status r) +:+ "] " +:+ Check_ r +:+ ": " +:+ Message_ r) <$> results) ++
  [""; strconv.Itoa (count_status PASS results) +:+ " passed, " +:+ strconv.Itoa (count_status FAIL results) +:+
       " failed, " +:+ strconv.Itoa (count_status WARN results) +:+ " warnings"].

(** * What the blob checks say *)

(** The checks that look for message content. *)
Definition about_blobs (r : AuditResult) : Prop := Check_ r = "blob-orphans" ∨ Check_ r = "missing-blobs".
#[export] Instance about_blobs_dec r : Decision (about_blobs r).
Proof. unfold about_blobs. apply _. Defined.

Definition orphans_report (d : DB) : AuditResult :=
  let n := Z.of_nat (length (remove_dups (msg_BlobKey <$> missing_messages d))) in
  if 0 <? n then mkResult "blob-orphans" FAIL (strconv.Itoa n +:+ " orphaned blob references found")
  else mkResult "blob-orphans" PASS "No orphaned blob references".
Definition missing_report (d : DB) : AuditResult :=
  let n := Z.of_nat (length (missing_messages d)) in
  if 0 <? n then mkResult "missing-blobs" FAIL (strconv.Itoa n +:+ " messages reference missing blobs")
  else mkResult "missing-blobs" PASS "All messages have blob data".

(** A list of results without one about blobs. *)
Definition silent : list AuditResult → Prop := Forall (λ r, ¬ about_blobs r).
Lemma silent_filter l : silent l → filter about_blobs l = [].
Proof. induction 1; [done|]. rewrite filter_cons, decide_False; done. Qed.
(** A check's name does not depend on its verdict. *)
Ltac names := repeat constructor; repeat case_match; try done; by intros [E|E].

Lemma auditConfig_silent env cfg : silent (auditConfig env cfg).
Proof.
  unfold auditConfig, db_path_check, blob_path_check, checkListenAddr, dkim_checks, tls_checks, acme_checks, file_check,
    positive_check, silent.
  repeat (apply Forall_app; split); [|repeat case_match; names..].
  repeat (apply Forall_cons; split); try done; repeat case_match; by intros [E|E].
Qed.

Lemma auditDNS_silent env cfg : silent (auditDNS env cfg).
Proof.
  unfold auditDNS, address_check, mx_check, ptr_check, spf_check, dkim_dns_check, dmarc_check, silent.
  case_match; [names|]. repeat (apply Forall_app; split).
  - repeat (apply Forall_cons; split); try done; repeat case_match; by intros [E|E].
  - repeat case_match; names.
  - names.
  - repeat case_match; names.
  - names.
Qed.

(** On a migrated database, with no statement failing, [m] answers [v] and
    changes nothing. *)
Definition answers {A} (m : migrating A) (v : World → A) : Prop :=
  ∀ w, w_faults w = [] → m (w, schema_at 7) = (v w, (w, schema_at 7)).

Lemma answers_ret {A} (a : A) : answers (sret a) (λ _, a).
Proof. done. Qed.
Lemma answers_bind {A B} (m : migrating A) (k : A → migrating B) v (v' : World → B) :
  answers m v → (∀ w, w_faults w = [] → k (v w) (w, schema_at 7) = (v' w, (w, schema_at 7))) → answers (sbind m k) v'.
Proof. intros Hm Hk w Hw. unfold sbind. rewrite Hm by done. by apply Hk. Qed.

Lemma answers_sql {A} (f : DB → Catalog → res A * (DB * Catalog)) v :
  (∀ d, f d (schema_at 7) = (v d, (d, schema_at 7))) → answers (sql f) (λ w, v (w_db w)).
Proof.
  intros Hf w Hw. set (c := schema_at 7) in *. clearbody c. unfold sql. rewrite Hw, Hf. destruct w; cbn in *. by subst.
Qed.

Definition audited : list string :=
  ["users"; "domains"; "aliases"; "mailboxes"; "messages"; "queue"; "blobs"; "sessions"; "attachments"].
Lemma audited_exist : Forall (λ t, tables (schema_at 7) !! t ≠ None) audited.
Proof. apply (bool_decide_unpack _). vm_cast_no_check I. Qed.
#[local] Opaque schema_at.

Lemma answers_ask {A} names (f : DB → A) : names ⊆ audited → answers (ask names f) (λ w, Ok (f (w_db w))).
Proof.
  intros Hn. apply (answers_sql _ (λ d, Ok (f d))). intros d.
  replace (list_find _ names) with (@None (nat * string)); [reflexivity|]. symmetry. apply list_find_None, Forall_forall.
  intros t Ht. pose proof audited_exist as H. rewrite Forall_forall in H. exact (H t (Hn t Ht)).
Qed.

Lemma answers_version : answers read_version (λ _, Ok 7).
Proof. apply (answers_sql _ (λ _, Ok 7)). intros d. rewrite (version_of 7) by reflexivity. reflexivity. Qed.

Section run.
Context (sql_Open : string → res unit) (path : string).
Hypothesis openable : sql_Open (path +:+ "?_journal_mode=WAL&_synchronous=NORMAL") = Ok tt.

Lemma answers_Open : answers (Open sql_Open path) (λ _, Ok tt).
Proof.
  unfold Open. rewrite openable.
  assert (answers (sql (λ d c, (Ok tt, (d, c)))) (λ _, Ok tt)) as H by by apply (answers_sql _ (λ _, Ok tt)).
  eapply answers_bind; [exact H|]. eapply answers_bind; [exact H|]. apply answers_ret.
Qed.

Lemma answers_count name suffix table f :
  table ∈ audited →
  answers (count_check name suffix table f) (λ w, mkResult name PASS (strconv.Itoa (Z.of_nat (f (w_db w))) +:+ suffix)).
Proof.
  intros Ht. eapply answers_bind; [apply answers_ask; set_solver|]. reflexivity.
Qed.

Lemma answers_auditDatabase cfg :
  Path (c_Storage cfg) = path → ∃ v, answers (auditDatabase sql_Open cfg) v ∧ ∀ w, silent (v w).
Proof.
  intros Hp. unfold auditDatabase. rewrite Hp. eexists. split.
  - eapply answers_bind; [apply answers_Open|]. intros w Hw.
    unfold sbind at 1. rewrite (answers_version w Hw).
    do 7 (unfold sbind at 1; rewrite answers_count by (done || set_solver)). reflexivity.
  - intros w. repeat constructor; by intros [E|E].
Qed.

Lemma answers_auditBlobStore cfg :
  Path (c_Storage cfg) = path → answers (auditBlobStore sql_Open cfg) (λ w, [orphans_report (w_db w)]).
Proof.
  intros Hp. unfold auditBlobStore. rewrite Hp. eapply answers_bind; [apply answers_Open|]. intros w Hw.
  unfold sbind. rewrite answers_ask by (done || set_solver). reflexivity.
Qed.

Lemma answers_auditStorageHealth cfg :
  Path (c_Storage cfg) = path →
  ∃ v, answers (auditStorageHealth sql_Open cfg) v ∧ ∀ w, filter about_blobs (v w) = [missing_report (w_db w)].
Proof.
  intros Hp. unfold auditStorageHealth. rewrite Hp. eexists. split.
  - eapply answers_bind; [apply answers_Open|]. intros w Hw. unfold sbind at 1, lift, time_now_unix. cbn [fst snd].
    do 4 (unfold sbind at 1; rewrite answers_ask by (done || set_solver)). reflexivity.
  - intros w. cbn [zero_check]. rewrite !filter_cons.
    rewrite decide_False by (case_match; by intros [E|E]). rewrite decide_False by (case_match; by intros [E|E]).
    rewrite decide_True by (case_match; by right). by rewrite decide_False by by intros [E|E].
Qed.
End run.

Definition failed (l : list AuditResult) : Prop := List.Exists (λ r, Status r = FAIL) l.

Lemma missing_messages_spec d m :
  m ∈ missing_messages d ↔ m ∈ rows (messages d) ∧ msg_BlobKey m ∉ blob_key <$> rows (blobs d).
Proof. unfold missing_messages. rewrite list_elem_of_filter. unfold blob_missing. tauto. Qed.

Lemma failed_reports d :
  failed [orphans_report d; missing_report d] ↔
  ∃ m, m ∈ rows (messages d) ∧ msg_BlobKey m ∉ blob_key <$> rows (blobs d).
Proof.
  assert ((∃ m, m ∈ missing_messages d) ↔ ∃ m, m ∈ rows (messages d) ∧ msg_BlobKey m ∉ blob_key <$> rows (blobs d)) as <-
    by (split; intros [m Hm]; exists m; by apply missing_messages_spec).
  unfold failed, orphans_report, missing_report. rewrite !Exists_cons, Exists_nil.
  destruct (missing_messages d) as [|m l]; cbn [fmap list_fmap length remove_dups].
  - cbn. split; [by intros [?|[?|?]]|]. intros [m Hm]. by apply elem_of_nil in Hm.
  - split; [intros _; exists m; left|]. intros _. right. left. case_match eqn:En; [reflexivity|]. apply Z.ltb_ge in En. lia.
Qed.

Lemma statuses_account l : count_status PASS l + count_status FAIL l + count_status WARN l = Z.of_nat (length l).
Proof.
  unfold count_status. induction l as [|r l IH]; [done|]. rewrite !filter_cons. cbn [length].
  destruct (Status r); repeat case_decide; try done; cbn [length]; lia.
Qed.

(** The audit of message content: on a migrated database, with nothing failing,
    the audit changes nothing and makes exactly two statements about message
    content, with the numbers of distinct blob keys and of messages without a row
    in the blobs table.  They fail exactly when some message's key is not in that
    table, whatever the configured backend, so with the filesystem backend, which
    never writes the table, the audit fails as soon as there is a message. *)
Theorem audit_missing_blobs sql_Open env load path cfg w :
  load path = Ok cfg → w_faults w = [] →
  sql_Open (Path (c_Storage cfg) +:+ "?_journal_mode=WAL&_synchronous=NORMAL") = Ok tt →
  let out := Audit sql_Open env load path (w, schema_at 7) in
  let d := w_db w in
  out.2 = (w, schema_at 7) ∧
  filter about_blobs out.1 = [orphans_report d; missing_report d] ∧
  (failed (filter about_blobs out.1) ↔ ∃ m, m ∈ rows (messages d) ∧ msg_BlobKey m ∉ blob_key <$> rows (blobs d)) ∧
  (rows (blobs d) = [] → rows (messages d) ≠ [] → failed (filter about_blobs out.1)) ∧
  count_status PASS out.1 + count_status FAIL out.1 + count_status WARN out.1 = Z.of_nat (length out.1).
Proof.
  intros Hl Hw Ho out d.
  destruct (answers_auditDatabase _ _ Ho cfg eq_refl) as (vd & Hd & Sd).
  destruct (answers_auditStorageHealth _ _ Ho cfg eq_refl) as (vh & Hh & Sh).
  assert (out = (auditConfig env cfg ++ auditDNS env cfg ++ vd w ++ [orphans_report d] ++ vh w, (w, schema_at 7))) as E.
  { unfold out, Audit. rewrite Hl. unfold sbind. rewrite (Hd w Hw).
    rewrite (answers_auditBlobStore _ _ Ho cfg eq_refl w Hw), (Hh w Hw). reflexivity. }
  clearbody out. subst out. cbn [fst snd].
  assert (filter about_blobs (auditConfig env cfg ++ auditDNS env cfg ++ vd w ++ [orphans_report d] ++ vh w) =
          [orphans_report d; missing_report d]) as Ef.
  { rewrite !filter_app, (silent_filter _ (auditConfig_silent env cfg)), (silent_filter _ (auditDNS_silent env cfg)),
      (silent_filter _ (Sd w)), Sh, filter_cons, decide_True by (unfold orphans_report; case_match; by left). reflexivity. }
  rewrite Ef. assert (failed [orphans_report d; missing_report d] ↔
    ∃ m, m ∈ rows (messages d) ∧ msg_BlobKey m ∉ blob_key <$> rows (blobs d)) as Hf by apply failed_reports.
  split_and!; [reflexivity|reflexivity|exact Hf| |apply statuses_account].
  intros Hb Hm. apply Hf. rewrite Hb. destruct (rows (messages d)) as [|m l]; [done|]. exists m. set_solver.
Qed.

(** The default configuration, whose backend is the filesystem, with one stored
    message; nothing else about the host can be found out. *)
Definition bare_surroundings : Surroundings :=
  let unknown {A} : res A := Err (ErrorNew "unknown") in
  mkSurroundings (λ _, unknown) (λ _, unknown) (λ _, unknown) (λ _, unknown) (λ _, unknown) (λ _, unknown)
    (λ _, "") (λ _, "").
Definition one_message : World :=
  set_db (set_messages (mkTable [mkMessage 1 1 1 "k" 4 0 0 "a@x" "b@y" "hi"] 1) empty_db) (init_world 0).

Lemma audit_missing_blobs_witness :
  let out := Audit (λ _, Ok tt) bare_surroundings (λ _, Ok (defaultConfig (Ok "mx"))) "marco.toml" (one_message, schema_at 7) in
  BlobBackend (c_Storage (defaultConfig (Ok "mx"))) = "filesystem" ∧
  out.2 = (one_message, schema_at 7) ∧ failed (filter about_blobs out.1).
Proof.
  intros out. split; [reflexivity|].
  destruct (audit_missing_blobs (λ _, Ok tt) bare_surroundings (λ _, Ok (defaultConfig (Ok "mx"))) "marco.toml"
    (defaultConfig (Ok "mx")) one_message eq_refl eq_refl eq_refl) as (H1 & _ & _ & H2 & _).
  split; [exact H1|]. apply H2; [reflexivity|discriminate].
Defined.
