(* ===== verification/Cli.v ===== *)
(** The command line (src/cmd/marco/main.go): what each command does to the
    process, its database and its files, what it prints, and how it ends. *)
From S2P Require Import Prelude GoLib Cache Sql Schema World StoreUsers StoreMail Migrations StoreQueue Auth Blob Worker Dmarc Smtp Config Report Startup Keys Backup HealthCheck.

(** The server runs until a signal, or the program ends: what it printed on
    standard output and on standard error, and its exit code.  What the commands
    log with slog before they give up is left out. *)
Inductive program_end := Serves (s : Server) | Ends (stdout stderr : list string) (code : Z).

Definition of_printed (p : printed) : program_end :=
  match p with Some lines => Ends lines [] 0 | None => Ends [] [] 1 end.

Definition printHelp : list string :=
  ["Marco Mail Server"; ""; "Usage:"; "  marco [command]"; ""; "Commands:";
   "  run              Start the mail server (default)";
   "  hash-password    Hash a password using Argon2id";
   "  gen-key [domain] Generate a DKIM key pair";
   "  backup <file>    Backup database and blobs to a tarball";
   "  restore <file>   Restore database and blobs from a tarball";
   "  audit            Check configuration and DNS";
   "  help             Show this help"].

Section main.
Context `{MR : MapRange} `{AR : Archive} `{DF : DBFile} (digest : string → string).
Context (IDKey : string → list Z → Z → Z → Z → Z → list Z) (keys : KeyLib) (env : Surroundings) (sys : System_).

Definition load (path : string) : res Config := Load (sy_hostname sys) (sy_decode sys) path.
Definition cfgPath : string := DefaultPath (sy_getenv sys).

Definition doBackup (args : list string) : migrating program_end :=
  match args with
  | _ :: _ :: output :: _ =>
      let! r := Backup load (sy_sql_Open sys) cfgPath output in
      match r with
      | Err err => sret (Ends [] ["Backup failed: " +:+ error_text err] 1)
      | Ok _ => sret (Ends ["Backup created: " +:+ output] [] 0)
      end
  | _ => sret (Ends [] ["Usage: marco backup <output.tar.gz>"] 1)
  end.

Definition doRestore (args : list string) : migrating program_end :=
  match args with
  | _ :: _ :: backup :: _ =>
      let! r := Restore digest load (sy_sql_Open sys) cfgPath backup in
      match r with
      | Err err => sret (Ends [] ["Restore failed: " +:+ error_text err] 1)
      | Ok _ => sret (Ends ["Restore complete from: " +:+ backup] [] 0)
      end
  | _ => sret (Ends [] ["Usage: marco restore <backup.tar.gz>"] 1)
  end.

Definition audit : migrating program_end :=
  let! results := Audit (sy_sql_Open sys) env load cfgPath in sret (Ends (audit_output results) [] 0).

Definition run : migrating program_end :=
  let! o := Run sys in
  sret (match o with Running s => Serves s | Exit _ => Ends [] [] 1 end).

(** [os.Args], with the random bytes and the standard input [hash-password] reads. *)
Definition main (args : list string) (rand : option (list Z)) (stdin : string) : migrating program_end :=
  match args with
  | _ :: cmd :: rest =>
      if String.eqb cmd "run" then run
      else if String.eqb cmd "hash-password" then sret (of_printed (hashPassword IDKey rand stdin))
      else if String.eqb cmd "gen-key" then
        sret (of_printed (genKey keys (match rest with domain :: _ => domain | [] => "example.com" end)))
      else if String.eqb cmd "audit" then audit
      else if String.eqb cmd "backup" then doBackup args
      else if String.eqb cmd "restore" then doRestore args
      else if String.eqb cmd "help" || String.eqb cmd "--help" || String.eqb cmd "-h" then sret (Ends printHelp [] 0)
      else sret (Ends printHelp ["Unknown command: " +:+ cmd] 1)
  | _ => run
  end.

(** The commands that may write: everything else leaves the system as it is,
    whatever its arguments, and ends. *)
Definition writes (cmd : string) : bool := existsb (String.eqb cmd) ["run"; "audit"; "backup"; "restore"].

Lemma main_reads_only prog cmd rest rand stdin s :
  writes cmd = false → ∃ out err code, main (prog :: cmd :: rest) rand stdin s = (Ends out err code, s).
Proof using.
  unfold writes. cbn [existsb]. rewrite !orb_false_iff. intros (H1 & H2 & H3 & H4 & _). unfold main.
  rewrite H1, H2, H3, H4. destruct (String.eqb cmd "hash-password"); [|destruct (String.eqb cmd "gen-key")].
  - destruct (hashPassword _ _ _); by eexists _, _, _.
  - destruct (genKey _ _); by eexists _, _, _.
  - destruct (_ || _); by eexists _, _, _.
Qed.

(** A backup or restore without a file is refused before anything is opened. *)
Lemma main_needs_file prog cmd rand stdin s :
  cmd = "backup" ∨ cmd = "restore" →
  main [prog; cmd] rand stdin s = (Ends [] ["Usage: marco " +:+ cmd +:+ (if String.eqb cmd "backup" then " <output.tar.gz>" else " <backup.tar.gz>")] 1, s).
Proof using. by intros [->| ->]. Qed.
End main.
