(* ===== verification/System.v ===== *)
(** The process as a whole: every entry point that reads or writes the shared
    state, as one step relation, and the invariant of all reachable states. *)
From S2P Require Import Prelude Proc GoLib Dmarc Cache Sql Schema World Metrics StoreUsers StoreMail StoreQueue Search Auth Blob Worker Report Smtp Notifier Imap Mime Api Pop3.

(** What the process is built from and talks to. *)
Record Environment := mkEnvironment {
  env_IDKey : string → list Z → Z → Z → Z → Z → list Z;
  env_md5hex : string → string;
  env_fts5 : string → list Message → res (list Message);
  env_net : Net;
  env_queue : Config;
  env_pop3 : P3Config;
  env_dns : Spf.Resolver;
  env_flags : FlagNames;
  env_mime : MimeLib;
  env_api : ApiLib;
}.

(** The calls other packages make into storage, auth, blobstore and queue, the
    commands of SMTP, POP3, IMAP and HTTP clients, a run of the report generator,
    and what the environment does between calls: time passes, a new
    schedule of failures applies, and the process dies and starts again. *)
Inductive call :=
  | CallCreateUser (email hash : string) (isAdmin : bool)
  | CallGetUserByEmail (email : string) | CallGetUserByID (id : Z) | CallListUsers | CallCountUsers
  | CallUpdateUser (id : Z) (email hash : option string) (isActive isAdmin : option bool)
  | CallDeleteUser (id : Z) | CallGetUsersByEmail (emails : list string)
  | CallListDomains | CallCreateDomain (name : string) | CallDeleteDomain (name : string) | CallIsLocalDomain (name : string)
  | CallListAliases | CallCreateAlias (source destination domain : string) | CallDeleteAlias (id : Z)
  | CallGetAlias (source domain : string) | CallGetAliasesByDomain (domain : string)
  | CallCreateContact (userID : Z) (name email : string) | CallListContacts (userID : Z) | CallDeleteContact (userID id : Z)
  | CallRecordAttempt (ip from to : string) | CallIsWhitelisted (ip from to : string) | CallMarkPassed (ip from to : string)
  | CallEnsureDefaultMailboxes (userID : Z) | CallCreateMailbox (userID : Z) (name : string)
  | CallGetMailbox (userID : Z) (name : string) | CallGetMailboxByID (id : Z) | CallListMailboxes (userID : Z)
  | CallDeleteMailbox (id : Z) | CallRenameMailbox (id : Z) (name : string)
  | CallInsertMessage (mb : Z) (key : string) (size : Z) (from to subject : string) (flags : Z)
  | CallGetMessageByUID (mb uid : Z) | CallGetMessageByID (id : Z) | CallListMessages (mb limit sinceUID : Z)
  | CallListMessagesPaginated (mb limit offset : Z) | CallUpdateFlags (id flags mask : Z) | CallMoveMessage (id mb : Z)
  | CallDeleteMessage (id : Z) | CallCountMessages (mb : Z) | CallListMessageUIDs (mb : Z) | CallExpungeMailbox (mb : Z)
  | CallSearchMessages (mb : Z) (q : string) (limit : Z) | CallSearchMessagesAll (q : string) (limit : Z)
  | CallEnqueue (messageID : Z) (rcptTo : string) | CallClaimNext | CallComplete (id : Z)
  | CallFail (id nextAttempt maxRetries : Z) | CallListPending | CallQueueSize
  | CallInsertDMARCResult (ip domain spf dkim disposition : string) | CallGetUnsentDMARCResults
  | CallMarkDMARCResultsSent (domains : list string) | CallGetDMARCDomains
  | CallAuthenticate (username password : string)
  | CallCreateAccount (email password : string) (isAdmin : bool) (rand : option (list Z))
  | CallCreateSession (userID expiry : Z) (rand : option (list Z)) | CallValidateSession (token : string) | CallRevokeSession (token : string)
  | CallBlobPut (r : res string) | CallBlobGet (key : string) | CallBlobDelete (key : string)
  | CallBounce (from to reason original : string) | CallDeliverNext
  | CallPop3 (addr : string) (lines : list string)
  | CallSmtpSession (b : Backend) (conn : Conn)
  | CallSmtp (b : Backend) (s : Smtp.Session) (commands : list command)
  | CallEnsureOutbound
  | CallImapLogin (username password : string) | CallImapMailboxes (u : ImapUser) | CallImapSelect (u : ImapUser) (name : string)
  | CallImapCreate (u : ImapUser) (name : string) | CallImapDelete (u : ImapUser) (name : string)
  | CallImapRename (u : ImapUser) (existingName newName : string)
  | CallImapStatus (m : ImapMailbox) | CallImapFetch (m : ImapMailbox) (uid : bool) (s : SeqSet) (items : list FetchItem)
  | CallImapSearch (m : ImapMailbox) (uid : bool) (text : list string)
  | CallImapAppend (m : ImapMailbox) (flags : list string) (date : Z) (body : Literal) (n : MailboxNotifier)
  | CallImapStore (m : ImapMailbox) (uid : bool) (s : SeqSet) (op : FlagsOp) (flags : list string) (n : MailboxNotifier)
  | CallImapCopy (m : ImapMailbox) (uid : bool) (s : SeqSet) (dest : string) (n : MailboxNotifier)
  | CallImapExpunge (m : ImapMailbox) (n : MailboxNotifier)
  | CallHttp (h : handlers) (d : Draws) (r : Request) (dk : option Signer)
  | CallSMTPAuth (identity username password : string)
  | CallReports (g : ReportGenerator) (Lookup : string → lookup_answer) (gzip : string → res string)
                (draws : string → string → nat → option Z)
  | EnvTick (d : N) | EnvFaults (schedule : list bool) | EnvRestart.

Definition ignore {A} (m : state World A) : state World unit := let! _ := m in sret tt.

(** An operation on the world and on a state of its own, seen from the world. *)
Definition on_world {T A} (m : state (World * T) A) (t : T) : state World unit := λ w, (tt, (m (w, t)).2.1).

(** The process dies and is started again: the database, the files and the clock
    survive, the caches and the counters do not. *)
Definition restarted (w : World) : World :=
  set_files (w_files w) (set_db (w_db w) (init_world (w_now w))).

Section system.
Context `{MR : MapRange} `{S : Store} (E : Environment).

Definition run_call (c : call) : state World unit :=
  match c with
  | CallCreateUser e h a => ignore (CreateUser e h a)
  | CallGetUserByEmail e => ignore (GetUserByEmail e)
  | CallGetUserByID i => ignore (GetUserByID i)
  | CallListUsers => ignore ListUsers
  | CallCountUsers => ignore CountUsers
  | CallUpdateUser i e h a m => ignore (UpdateUser i e h a m)
  | CallDeleteUser i => ignore (DeleteUser i)
  | CallGetUsersByEmail l => ignore (GetUsersByEmail l)
  | CallListDomains => ignore ListDomains
  | CallCreateDomain n => ignore (CreateDomain n)
  | CallDeleteDomain n => ignore (DeleteDomain n)
  | CallIsLocalDomain n => ignore (IsLocalDomain n)
  | CallListAliases => ignore ListAliases
  | CallCreateAlias s d n => ignore (CreateAlias s d n)
  | CallDeleteAlias i => ignore (DeleteAlias i)
  | CallGetAlias s n => ignore (GetAlias s n)
  | CallGetAliasesByDomain n => ignore (GetAliasesByDomain n)
  | CallCreateContact u n e => ignore (CreateContact u n e)
  | CallListContacts u => ignore (ListContacts u)
  | CallDeleteContact u i => ignore (DeleteContact u i)
  | CallRecordAttempt i f t => ignore (RecordAttempt i f t)
  | CallIsWhitelisted i f t => ignore (IsWhitelisted i f t)
  | CallMarkPassed i f t => ignore (MarkPassed i f t)
  | CallEnsureDefaultMailboxes u => ignore (EnsureDefaultMailboxes u)
  | CallCreateMailbox u n => ignore (CreateMailbox u n)
  | CallGetMailbox u n => ignore (GetMailbox u n)
  | CallGetMailboxByID i => ignore (GetMailboxByID i)
  | CallListMailboxes u => ignore (ListMailboxes u)
  | CallDeleteMailbox i => ignore (DeleteMailbox i)
  | CallRenameMailbox i n => ignore (RenameMailbox i n)
  | CallInsertMessage m k z f t s fl => ignore (InsertMessage m k z f t s fl)
  | CallGetMessageByUID m u => ignore (GetMessageByUID m u)
  | CallGetMessageByID i => ignore (GetMessageByID i)
  | CallListMessages m l s => ignore (ListMessages m l s)
  | CallListMessagesPaginated m l o => ignore (ListMessagesPaginated m l o)
  | CallUpdateFlags i f m => ignore (UpdateFlags i f m)
  | CallMoveMessage i m => ignore (MoveMessage i m)
  | CallDeleteMessage i => ignore (DeleteMessage i)
  | CallCountMessages m => ignore (CountMessages m)
  | CallListMessageUIDs m => ignore (ListMessageUIDs m)
  | CallExpungeMailbox m => ignore (ExpungeMailbox m)
  | CallSearchMessages m q l => ignore (SearchMessages (env_fts5 E) m q l)
  | CallSearchMessagesAll q l => ignore (SearchMessagesAll (env_fts5 E) q l)
  | CallEnqueue m r => ignore (Manager_Enqueue m r)
  | CallClaimNext => ignore ClaimNext
  | CallComplete i => ignore (Complete i)
  | CallFail i n m => ignore (Fail_ i n m)
  | CallListPending => ignore ListPending
  | CallQueueSize => ignore QueueSize
  | CallInsertDMARCResult a b c d e => ignore (InsertDMARCResult a b c d e)
  | CallGetUnsentDMARCResults => ignore GetUnsentDMARCResults
  | CallMarkDMARCResultsSent l => ignore (MarkDMARCResultsSent l)
  | CallGetDMARCDomains => ignore GetDMARCDomains
  | CallAuthenticate u p => ignore (Authenticate (env_IDKey E) u p)
  | CallCreateAccount e p a r => ignore (CreateAccount (env_IDKey E) e p a r)
  | CallCreateSession u x r => ignore (CreateSession u x r)
  | CallValidateSession t => ignore (ValidateSession t)
  | CallRevokeSession t => ignore (RevokeSession t)
  | CallBlobPut r => ignore (Put r)
  | CallBlobGet k => ignore (Blob.Get k)
  | CallBlobDelete k => ignore (Blob.Delete k)
  | CallBounce f t r o => ignore (exec (BounceMessage (env_net E) f t r o))
  | CallDeliverNext => ignore (exec (deliverNext (env_net E) (env_queue E)))
  | CallPop3 a ls => ignore (handle (env_IDKey E) (env_md5hex E) (env_pop3 E) a ls)
  | CallSmtpSession b c => ignore (NewSession b c)
  | CallSmtp b s cs => on_world (run_commands (env_dns E) (env_IDKey E) (format_date (env_net E)) b cs) s
  | CallEnsureOutbound => ignore ensureOutboundMailbox
  | CallImapLogin u p => ignore (Login (env_IDKey E) u p)
  | CallImapMailboxes u => ignore (User_ListMailboxes u)
  | CallImapSelect u n => ignore (User_GetMailbox u n)
  | CallImapCreate u n => ignore (User_CreateMailbox u n)
  | CallImapDelete u n => ignore (User_DeleteMailbox u n)
  | CallImapRename u a b => ignore (User_RenameMailbox u a b)
  | CallImapStatus m => ignore (Status (FN := env_flags E) m)
  | CallImapFetch m u s items => ignore (Mailbox_ListMessages (FN := env_flags E) m u s items)
  | CallImapSearch m u t => ignore (Mailbox_SearchMessages (env_fts5 E) m u t)
  | CallImapAppend m f d b n => on_world (Mailbox_CreateMessage (FN := env_flags E) m f d b) n
  | CallImapStore m u s o f n => on_world (UpdateMessagesFlags (FN := env_flags E) m u s o f) n
  | CallImapCopy m u s d n => on_world (CopyMessages m u s d) n
  | CallImapExpunge m n => on_world (Expunge m) n
  | CallHttp h d r dk => on_world (serve (ML := env_mime E) (env_IDKey E) (env_api E) h d r) dk
  | CallSMTPAuth i u p => ignore (SMTPAuth (env_IDKey E) i u p)
  | CallReports g l z ds => ignore (generateReports g l z (format_date (env_net E)) ds)
  | EnvTick d => smodify (λ w, set_now (w_now w + Z.of_N d) w)
  | EnvFaults fs => smodify (set_faults fs)
  | EnvRestart => smodify restarted
  end.

Context (digest : string → string) `{!StoreSpec S digest}.

Lemma ignore_wf {A} (m : state World A) : pres wf m → pres wf (ignore m).
Proof using. intros Hm. unfold ignore. apply pres_bind; [done|intros; apply pres_ret]. Qed.

Lemma handle_wf a ls : pres wf (handle (env_IDKey E) (env_md5hex E) (env_pop3 E) a ls).
Proof using StoreSpec0.
  intros w Hw. unfold handle. match goal with |- context [handle_lines _ _ _ _ (w, ?x)] => set (s := x) end.
  assert (pres (λ p : P3, wf p.1) (handle_lines (env_IDKey E) (env_md5hex E) (env_pop3 E) ls)) as Hl
    by by eapply wf_handle_lines.
  specialize (Hl (w, s) Hw). by destruct (handle_lines _ _ _ _ (w, s)) as [u [w' s']].
Qed.

Lemma SMTPAuth_wf i u p : pres wf (SMTPAuth (env_IDKey E) i u p).
Proof using. unfold SMTPAuth. pres_walk. Qed.

Lemma sendReport_wf g fd ds u x dom id : pres wf (sendReport g fd ds u x dom id).
Proof using StoreSpec0.
  unfold sendReport. apply pres_bind; [apply pres_time_now|intros now]. apply pres_bind; [by eapply Put_store_wf|].
  intros [[key n]|e]; [|apply pres_ret]. unfold Manager_Enqueue, queue_metrics. pres_walk.
Qed.

Lemma generateReports_wf g l z fd ds : pres wf (generateReports g l z fd ds).
Proof using StoreSpec0.
  assert (∀ us x dom id, pres wf (send_all g fd ds us x dom id)) as Hs.
  { induction us as [|u us IH]; intros x dom id; [apply pres_ret|]. apply pres_bind; [apply sendReport_wf|intros _; apply IH]. }
  assert (∀ dom, pres wf (generateDomainReport g l z fd ds dom)) as Hd.
  { intros dom. unfold generateDomainReport. repeat first [ apply pres_ret | apply Hs | apply pres_time_now
      | progress eauto with pres nocore | apply pres_bind; [|intros] | case_match ]. }
  assert (∀ doms, pres wf (report_domains g l z fd ds doms)) as Hr.
  { induction doms as [|d doms IH]; [apply pres_ret|]. cbn [report_domains].
    apply pres_bind; [apply Hd|intros r]. apply pres_bind; [apply IH|intros rest]. apply pres_ret. }
  unfold generateReports. repeat first [ apply pres_ret | apply Hr | progress eauto with pres nocore
    | apply pres_bind; [|intros] | case_match ].
Qed.

Lemma on_world_wf {T A} (m : state (World * T) A) t : pres (λ s, wf s.1) m → pres wf (on_world m t).
Proof using. intros Hm w Hw. exact (Hm (w, t) Hw). Qed.

Lemma run_call_wf c : pres wf (run_call c).
Proof using StoreSpec0.
  destruct c; cbn [run_call];
    first [ apply ignore_wf; solve [ eauto with pres nocore
                                   | apply Manager_Enqueue_wf | apply handle_wf
                                   | by eapply Put_store_wf | by eapply Get_store_wf | by eapply Delete_store_wf
                                   | by eapply Bounce_wf | by eapply deliverNext_wf | apply NewSession_wf | by eapply Mailbox_ListMessages_wf | apply ensureOutboundMailbox_wf
                                   | apply SMTPAuth_wf | apply generateReports_wf ]
          | apply on_world_wf; first [ by eapply run_commands_wf | by eapply Mailbox_CreateMessage_wf
                                     | apply UpdateMessagesFlags_wf | apply CopyMessages_wf | apply Expunge_wf | by eapply serve_wf ]
          | apply pres_modify; by intros w Hw
          | apply pres_modify; intros w Hw; apply wf_cold; [reflexivity|exact (wf_db _ Hw)] ].
Qed.
End system.

(** One call of the running process: the environment (network, configuration,
    key derivation) may differ from call to call.  The states it can reach. *)
Inductive step `{MapRange} `{Store} : World → World → Prop :=
  | step_call E c w : step w (run_call E c w).2.

Inductive reachable `{MapRange} `{Store} (now : Z) : World → Prop :=
  | reach_init : reachable now (init_world now)
  | reach_step w w' : reachable now w → step w w' → reachable now w'.

(** C1.  Every state the server process can reach from an empty database, through
    any sequence of calls of its packages, client connections, report runs and
    restarts, with any statement, commit or file operation failing at any point
    and any delivery getting no further than a server that stays silent, is
    well-formed: keys are unique (e-mail addresses, mailbox names of a user, UIDs of a
    mailbox, aliases, contacts, sessions, greylist triples, blobs), every foreign
    key names an existing row, UIDs are 32-bit values, and every queue item is
    pending or active with a non-negative attempt count.  And the cache of mailboxes
    never leads one user to another's mailbox: what it holds under a user's key
    has an ID that was handed out and that no mailbox of anybody else carries. *)
Theorem reachable_wf `{MR : MapRange} `{S : Store} (digest : string → string)
    `{!StoreSpec S digest} (now : Z) (w : World) :
  reachable now w → wf w.
Proof.
  induction 1 as [|w w' _ IH Hs]; [apply init_wf|]. destruct Hs as [E c w].
  exact (run_call_wf E digest c w IH).
Qed.

Definition demo_env : Environment :=
  mkEnvironment toy_key (λ x, x) (λ _ l, Ok l) dead_net demo_config (mkP3Config "" None) no_dns
    (mkFlagNames "\Seen" "\Answered" "\Flagged" "\Deleted" "\Draft") toy_mime
    (mkApiLib (λ _, true) (λ _, "") (λ k, k) (λ k, Ok k) toy_prom).

Lemma reachable_wf_witness :
  let w := (run_call (S := SQLiteStore toy_digest) demo_env (CallCreateAccount "a@example.com" "password1" true (Some [1; 2])) (init_world 5)).2 in
  wf w ∧ length (rows (mailboxes (w_db w))) = 5%nat.
Proof.
  intros w. split; [|vm_compute; reflexivity].
  apply (reachable_wf (S := SQLiteStore toy_digest) toy_digest 5).
  eapply reach_step; [apply reach_init|apply step_call].
Defined.
